(** * srctools: BSP container, entity lump, static props, visleaf tree, Vec/Angle

    A shallow embedding of [srctools/bsp.py] and [srctools/vec.py].

    Conventions of the embedding:
    - Python exceptions are the constructors of [exn]; a computation that may
      raise has type [PyResult A].
    - [bytes] objects are [list byte]; Python [int]s are [Z]; Python [float]s
      are Rocq's primitive binary64 floats.
    - a binary file opened for reading or writing is a [File]: its contents
      and the current position. *)

From Stdlib Require Import ZArith List Bool Lia Ascii String.
From Stdlib.Strings Require Import Byte.
From Stdlib Require Import Floats DecimalString.
Import ListNotations.

Local Open Scope Z_scope.

(** ** Exceptions and the result monad *)

Inductive exn : Type :=
| AssertionError (msg : string)
| ValueError (msg : string)
| TypeError (msg : string)
| KeyError (msg : string)
| IndexError
| AttributeError (msg : string)
| StructError
| OSError
| UnicodeDecodeError
| ZeroDivisionError
| OverflowError.

(** [UnicodeDecodeError] is a subclass of [ValueError]: an [except ValueError]
    clause catches both. *)
Definition is_ValueError (e : exn) : bool :=
  match e with
  | ValueError _ | UnicodeDecodeError => true
  | _ => false
  end.

Inductive PyResult (A : Type) : Type :=
| Ok (a : A)
| Raise (e : exn).
Arguments Ok {A} a.
Arguments Raise {A} e.

Definition bind {A B} (c : PyResult A) (k : A -> PyResult B) : PyResult B :=
  match c with
  | Ok a => k a
  | Raise e => Raise e
  end.

Declare Scope py_scope.
Delimit Scope py_scope with py.
Notation "x <- c ;; k" := (bind c (fun x => k))
  (at level 61, c at next level, right associativity) : py_scope.
Notation "' pat <- c ;; k" := (bind c (fun x => match x with pat => k end))
  (at level 61, pat pattern, c at next level, right associativity) : py_scope.
Notation "c ;;; k" := (bind c (fun _ => k))
  (at level 61, right associativity) : py_scope.
Local Open Scope py_scope.

Definition is_ok {A} (r : PyResult A) : bool :=
  match r with Ok _ => true | Raise _ => false end.

(** [for x in xs: body], threading the loop state and stopping at the first
    exception. *)
Fixpoint for_each {A S} (xs : list A) (body : A -> S -> PyResult S) (s : S)
  : PyResult S :=
  match xs with
  | [] => Ok s
  | x :: xs' => s' <- body x s ;; for_each xs' body s'
  end.

(** [range(n)] for an int [n]: empty when [n <= 0]. *)
Definition range (n : Z) : list Z :=
  map Z.of_nat (seq 0 (Z.to_nat n)).

(** ** Bytes *)

Definition bytes := list byte.

Definition byte_to_Z (b : byte) : Z := Z.of_N (Byte.to_N b).

Definition byte_of_Z (z : Z) : byte :=
  match Byte.of_N (Z.to_N (z mod 256)) with
  | Some b => b
  | None => x00
  end.

Definition bytes_eqb (a b : bytes) : bool :=
  if list_eq_dec Byte.byte_eq_dec a b then true else false.

Definition bytes_of_string (s : string) : bytes := list_byte_of_string s.

(** [len(b)] *)
Definition len {A} (l : list A) : Z := Z.of_nat (List.length l).

(** [b[::-1]] *)
Definition reversed (b : bytes) : bytes := rev b.

(** [bytes(n)]: [n] zero bytes. *)
Definition zero_bytes (n : nat) : bytes := repeat x00 n.

(** Little-endian encoding of the low [8*n] bits of [z] (two's complement for
    negative [z]). *)
Fixpoint le_encode (n : nat) (z : Z) : bytes :=
  match n with
  | O => []
  | S k => byte_of_Z z :: le_encode k (z / 256)
  end.

Fixpoint le_unsigned (b : bytes) : Z :=
  match b with
  | [] => 0
  | x :: r => byte_to_Z x + 256 * le_unsigned r
  end.

Definition le_signed (b : bytes) : Z :=
  let u := le_unsigned b in
  let w := 8 * len b in
  if u <? 2 ^ (w - 1) then u else u - 2 ^ w.

(** Python sequence indexing [l[i]]: negative indices count from the end, an
    index outside the sequence raises [IndexError]. *)
Definition py_index {A} (l : list A) (i : Z) : PyResult A :=
  let j := if i <? 0 then i + len l else i in
  if j <? 0 then Raise IndexError
  else match nth_error l (Z.to_nat j) with
       | Some a => Ok a
       | None => Raise IndexError
       end.

(** Python slicing [l[a:b]] with non-negative bounds [a <= b] clamps to the
    sequence; negative bounds count from the end. *)
Definition py_clamp {A} (l : list A) (i : Z) : nat :=
  let j := if i <? 0 then Z.max 0 (i + len l) else Z.min i (len l) in
  Z.to_nat j.

Definition py_slice {A} (l : list A) (a b : Z) : list A :=
  let lo := py_clamp l a in
  let hi := py_clamp l b in
  firstn (hi - lo)%nat (skipn lo l).

(** ** Python floats

    A Python [float] is an IEEE-754 binary64 value; arithmetic is the
    kernel's primitive float arithmetic.  What the C library provides beyond
    the five basic operations ([fmod], [floor], conversion from [int] and from
    binary32) is computed exactly on the mantissa/exponent decomposition:
    [fmod] is exact, the conversions are rounded once with
    [binary_normalize]. *)

Module PyFloat.

(** The float nearest to [m * 2^e] (ties to even). *)
Definition normalize (m e : Z) : float :=
  SF2Prim (binary_normalize prec emax m e false).

Definition cst_360 : float := Eval vm_compute in normalize 360 0.
Definition cst_half : float := Eval vm_compute in normalize 1 (-1).

Definition is_finite (f : float) : bool :=
  match Prim2SF f with
  | S754_nan | S754_infinity _ => false
  | _ => true
  end.

(** [float(z)] for an [int]: correctly rounded, [OverflowError] when the int
    is too large for a binary64. *)
Definition of_int (z : Z) : PyResult float :=
  let f := normalize z 0 in
  if is_finite f then Ok f else Raise OverflowError.

(** The sign bit, and [copysign(0.0, x)]. *)
Definition signbit (f : float) : bool :=
  match Prim2SF f with
  | S754_zero s | S754_infinity s | S754_finite s _ _ => s
  | S754_nan => false
  end.

Definition signed_zero (s : bool) : float := if s then neg_zero else zero.

(** C's [fmod(x, y)]: the exact remainder of the truncated division,
    carrying the sign of [x]; it is representable, so aligning its mantissa
    to the exponent of its binade gives the float. *)
Definition SFfmod (x y : spec_float) : spec_float :=
  match x, y with
  | S754_nan, _ | _, S754_nan => S754_nan
  | S754_infinity _, _ => S754_nan
  | _, S754_zero _ => S754_nan
  | _, S754_infinity _ => x
  | S754_zero _, _ => x
  | S754_finite sx mx ex, S754_finite sy my ey =>
      let e := Z.min ex ey in
      match Z.rem (Z.pos mx * 2 ^ (ex - e)) (Z.pos my * 2 ^ (ey - e)) with
      | Z.pos r =>
          let '(m, e') :=
            shl_align r e (fexp prec emax (Z.pos (digits2_pos r) + e)) in
          S754_finite sx m e'
      | _ => S754_zero sx
      end
  end.

Definition fmod (x y : float) : float :=
  SF2Prim (SFfmod (Prim2SF x) (Prim2SF y)).

(** C's [floor]. *)
Definition floor (x : float) : float :=
  match Prim2SF x with
  | S754_finite s m e =>
      if 0 <=? e then x
      else
        let q := (if s then Z.neg m else Z.pos m) / 2 ^ (- e) in
        if q =? 0 then signed_zero s else normalize q 0
  | _ => x
  end.

(** [float.__mod__] (CPython's [float_rem]) for a non-zero divisor: the
    remainder takes the sign of the divisor. *)
Definition rem_val (vx wx : float) : float :=
  let m := fmod vx wx in
  if negb (m =? zero)%float then
    if negb (Bool.eqb (wx <? zero)%float (m <? zero)%float)
    then (m + wx)%float
    else m
  else signed_zero (signbit wx).

Definition rem (vx wx : float) : PyResult float :=
  if is_zero wx then Raise ZeroDivisionError else Ok (rem_val vx wx).

(** [float.__divmod__] (CPython's [float_divmod]) for a non-zero
    divisor. *)
Definition divmod_val (vx wx : float) : float * float :=
  let m := fmod vx wx in
  let d := ((vx - m) / wx)%float in
  let '(m, d) :=
    if negb (m =? zero)%float then
      if negb (Bool.eqb (wx <? zero)%float (m <? zero)%float)
      then ((m + wx)%float, (d - one)%float)
      else (m, d)
    else (signed_zero (signbit wx), d) in
  let fd :=
    if negb (d =? zero)%float then
      let fl := floor d in
      if (cst_half <? d - fl)%float then (fl + one)%float else fl
    else signed_zero (signbit (vx / wx)%float) in
  (fd, m).

Definition divmod (vx wx : float) : PyResult (float * float) :=
  if is_zero wx then Raise ZeroDivisionError else Ok (divmod_val vx wx).

(** [float.__truediv__], [float.__floordiv__], [float.__mul__]. *)
Definition truediv (vx wx : float) : PyResult float :=
  if is_zero wx then Raise ZeroDivisionError else Ok (vx / wx)%float.

Definition floordiv (vx wx : float) : PyResult float :=
  if is_zero wx then Raise ZeroDivisionError else Ok (fst (divmod_val vx wx)).

Definition mul (vx wx : float) : PyResult float := Ok (vx * wx)%float.

(** A binary32 bit pattern read by [struct] as a float. *)
Definition of_f32_bits (bits : Z) : float :=
  let s := Z.testbit bits 31 in
  let e := Z.land (Z.shiftr bits 23) 255 in
  let m := Z.land bits (2 ^ 23 - 1) in
  if e =? 255 then
    if m =? 0 then (if s then neg_infinity else infinity) else nan
  else if (e =? 0) && (m =? 0) then (if s then neg_zero else zero)
  else
    let '(mant, ex) := if e =? 0 then (m, -149) else (m + 2 ^ 23, e - 150) in
    normalize (if s then - mant else mant) ex.

(** The binary32 bit pattern [struct] writes for a float: rounded to
    nearest even, [OverflowError] when a finite value does not fit.  The
    floats here have one NaN, written as the quiet NaN [0x7FC00000];
    [struct] keeps the sign and the leading payload bits of the NaN it is
    given, which this model does not tell apart. *)
Definition to_f32_bits (f : float) : PyResult Z :=
  let sign_bit (s : bool) := if s then 2 ^ 31 else 0 in
  match Prim2SF f with
  | S754_nan => Ok (255 * 2 ^ 23 + 2 ^ 22)
  | S754_infinity s => Ok (sign_bit s + 255 * 2 ^ 23)
  | S754_zero s => Ok (sign_bit s)
  | S754_finite s m e =>
      match binary_round 24 128 s m e with
      | S754_finite _ m' e' =>
          if Z.pos m' <? 2 ^ 23 then Ok (sign_bit s + Z.pos m')
          else Ok (sign_bit s + (e' + 150) * 2 ^ 23 + (Z.pos m' - 2 ^ 23))
      | S754_zero _ => Ok (sign_bit s)
      | _ => Raise OverflowError
      end
  end.

End PyFloat.

(** ** The [struct] module

    Format strings are parsed as Python's [struct] does for the codes the
    sources use.  With the [<] prefix fields are little-endian without
    padding; the sources' prefix-less formats (['fff'], ['BBBB'], ['H' * n])
    are homogeneous, so the native layout of a little-endian host adds no
    padding either and both are read the same way. *)

Module Struct.

Inductive pyval : Type :=
| PInt (z : Z)
| PBytes (b : bytes)
| PFloat (f : float)
| PBool (b : bool).

Inductive item : Type :=
| IPad                              (* x *)
| IInt (signed : bool) (size : nat) (* B h H i I *)
| IFloat                            (* f *)
| IStr (n : nat)                    (* <n>s *)
| IBool.                            (* ? *)

Definition digit_of (c : ascii) : option nat :=
  let n := nat_of_ascii c in
  if (48 <=? n)%nat && (n <=? 57)%nat then Some (n - 48)%nat else None.

Definition is_space (c : ascii) : bool :=
  let n := nat_of_ascii c in
  (n =? 32)%nat || ((9 <=? n)%nat && (n <=? 13)%nat).

Definition item_of_code (c : ascii) (count : option nat) : PyResult (list item) :=
  let rep i := Ok (repeat i (match count with Some n => n | None => 1%nat end)) in
  match c with
  | "x"%char => rep IPad
  | "B"%char => rep (IInt false 1)
  | "h"%char => rep (IInt true 2)
  | "H"%char => rep (IInt false 2)
  | "i"%char => rep (IInt true 4)
  | "I"%char => rep (IInt false 4)
  | "f"%char => rep IFloat
  | "?"%char => rep IBool
  | "s"%char => Ok [IStr (match count with Some n => n | None => 1%nat end)]
  | _ => Raise StructError
  end.

Fixpoint parse_items (s : string) (count : option nat) : PyResult (list item) :=
  match s with
  | EmptyString =>
      match count with
      | None => Ok []
      | Some _ => Raise StructError
      end
  | String c rest =>
      match digit_of c with
      | Some d =>
          parse_items rest
            (Some (match count with Some n => 10 * n + d | None => d end)%nat)
      | None =>
          if is_space c then
            match count with
            | None => parse_items rest None
            | Some _ => Raise StructError
            end
          else
            its <- item_of_code c count ;;
            more <- parse_items rest None ;;
            Ok (its ++ more)
      end
  end.

Definition parse (fmt : string) : PyResult (list item) :=
  match fmt with
  | String "<"%char rest => parse_items rest None
  | _ => parse_items fmt None
  end.

Definition item_size (i : item) : nat :=
  match i with
  | IPad => 1
  | IInt _ n => n
  | IFloat => 4
  | IStr n => n
  | IBool => 1
  end.

Definition items_size (its : list item) : nat :=
  fold_right (fun i acc => (item_size i + acc)%nat) 0%nat its.

(** [struct.calcsize(fmt)] *)
Definition calcsize (fmt : string) : PyResult Z :=
  its <- parse fmt ;; Ok (Z.of_nat (items_size its)).

Definition unpack_item (i : item) (b : bytes) : list pyval :=
  match i with
  | IPad => []
  | IInt true _ => [PInt (le_signed b)]
  | IInt false _ => [PInt (le_unsigned b)]
  | IFloat => [PFloat (PyFloat.of_f32_bits (le_unsigned b))]
  | IStr _ => [PBytes b]
  | IBool => [PBool (negb (le_unsigned b =? 0))]
  end.

(** Decodes the items from a buffer known to be long enough. *)
Fixpoint unpack_items (its : list item) (b : bytes) : list pyval :=
  match its with
  | [] => []
  | i :: r =>
      unpack_item i (firstn (item_size i) b)
        ++ unpack_items r (skipn (item_size i) b)
  end.

(** [struct.unpack(fmt, data)]: the buffer must have exactly the size of
    the format. *)
Definition unpack (fmt : string) (data : bytes) : PyResult (list pyval) :=
  its <- parse fmt ;;
  if (List.length data =? items_size its)%nat
  then Ok (unpack_items its data)
  else Raise StructError.

(** [struct.unpack_from(fmt, data, offset)]: at least the size of the format
    must be available from [offset] on. *)
Definition unpack_from (fmt : string) (data : bytes) (offset : Z)
  : PyResult (list pyval) :=
  its <- parse fmt ;;
  let off := if offset <? 0 then offset + len data else offset in
  if (off <? 0) || (len data - off <? Z.of_nat (items_size its))
  then Raise StructError
  else Ok (unpack_items its (skipn (Z.to_nat off) data)).

Fixpoint chunks (fuel : nat) (size : nat) (b : bytes) : list bytes :=
  match fuel with
  | O => []
  | S k =>
      match b with
      | [] => []
      | _ => firstn size b :: chunks k size (skipn size b)
      end
  end.

(** [struct.iter_unpack(fmt, data)]: the buffer must be a multiple of the
    (non-zero) size of the format; the error is raised by the call, before
    the first record is produced. *)
Definition iter_unpack (fmt : string) (data : bytes)
  : PyResult (list (list pyval)) :=
  its <- parse fmt ;;
  let size := items_size its in
  if (size =? 0)%nat then Raise StructError
  else if negb (Nat.modulo (List.length data) size =? 0)%nat then Raise StructError
  else Ok (map (unpack_items its) (chunks (List.length data) size data)).

Definition int_in_range (signed : bool) (size : nat) (z : Z) : bool :=
  let w := 8 * Z.of_nat size in
  if signed then (- 2 ^ (w - 1) <=? z) && (z <? 2 ^ (w - 1))
  else (0 <=? z) && (z <? 2 ^ w).

(** [bytes] packed with [<n>s]: truncated or padded with NULs to [n]. *)
Definition pad_to (n : nat) (b : bytes) : bytes :=
  firstn n b ++ zero_bytes (n - List.length b).

Fixpoint pack_items (its : list item) (vals : list pyval) : PyResult bytes :=
  match its with
  | [] =>
      match vals with
      | [] => Ok []
      | _ => Raise StructError
      end
  | IPad :: r => rest <- pack_items r vals ;; Ok (x00 :: rest)
  | i :: r =>
      match vals with
      | [] => Raise StructError
      | v :: vs =>
          b <- match i, v with
               | IInt signed size, PInt z =>
                   if int_in_range signed size z then Ok (le_encode size z)
                   else Raise StructError
               | IFloat, PFloat f =>
                   bits <- PyFloat.to_f32_bits f ;; Ok (le_encode 4 bits)
               | IStr n, PBytes s => Ok (pad_to n s)
               | IBool, PBool t => Ok [if t then x01 else x00]
               | _, _ => Raise StructError
               end ;;
          rest <- pack_items r vs ;;
          Ok (b ++ rest)
      end
  end.

(** [struct.pack(fmt, *vals)] *)
Definition pack (fmt : string) (vals : list pyval) : PyResult bytes :=
  its <- parse fmt ;; pack_items its vals.

End Struct.
Import Struct.

(** ** Dictionaries

    A Python [dict] keeps its keys in insertion order; assigning to a key
    already present replaces the value and keeps the key's place. *)

Section Dict.
Context {K V : Type} (eqb : K -> K -> bool).

Fixpoint dict_get (d : list (K * V)) (k : K) : option V :=
  match d with
  | [] => None
  | (k', v) :: r => if eqb k k' then Some v else dict_get r k
  end.

Fixpoint dict_set (d : list (K * V)) (k : K) (v : V) : list (K * V) :=
  match d with
  | [] => [(k, v)]
  | (k', v') :: r =>
      if eqb k k' then (k', v) :: r else (k', v') :: dict_set r k v
  end.

Fixpoint dict_remove (d : list (K * V)) (k : K) : list (K * V) :=
  match d with
  | [] => []
  | (k', v') :: r => if eqb k k' then r else (k', v') :: dict_remove r k
  end.

(** [d[k]], raising [KeyError] for a missing key. *)
Definition dict_lookup (d : list (K * V)) (k : K) : PyResult V :=
  match dict_get d k with
  | Some v => Ok v
  | None => Raise (KeyError EmptyString)
  end.

Definition dict_values (d : list (K * V)) : list V := map snd d.
Definition dict_keys (d : list (K * V)) : list K := map fst d.
End Dict.

(** ** Binary files *)

Record File : Type := mkFile { contents : bytes; pos : Z }.

Definition file_open (b : bytes) : File := mkFile b 0.

Definition file_tell (f : File) : Z := pos f.

(** [file.seek(off)] on a buffered binary file: a negative offset is an
    [OSError]; seeking past the end is allowed. *)
Definition file_seek (f : File) (off : Z) : PyResult File :=
  if off <? 0 then Raise OSError else Ok (mkFile (contents f) off).

(** [file.read(n)]: at most [n] bytes from the position on; [n = -1] reads to
    the end of the file, other negative sizes are a [ValueError]. *)
Definition file_read (f : File) (n : Z) : PyResult (bytes * File) :=
  if n <? -1 then Raise (ValueError "read length must be non-negative or -1")
  else
    let rest := skipn (Z.to_nat (pos f)) (contents f) in
    let got := if n =? -1 then rest else firstn (Z.to_nat n) rest in
    Ok (got, mkFile (contents f) (pos f + len got)).

(** [file.write(b)]: overwrites from the position on, extending the file,
    with a NUL-filled gap when the position is past the end. *)
Definition file_write (f : File) (b : bytes) : File :=
  let p := Z.to_nat (pos f) in
  let c := contents f in
  mkFile (firstn p c ++ zero_bytes (p - List.length c) ++ b
            ++ skipn (p + List.length b) c)
         (pos f + len b).

(** ** [srctools.binformat] *)

(** Modelled from the spec: [struct_read] lives in [srctools/binformat.py],
    which is not among the sources.  The fixed-size records of sections 4.1,
    4.2 and 4.4 are read by taking exactly the size of the format from the
    stream and unpacking it; a short read fails in [struct.unpack]. *)
Definition struct_read (fmt : string) (f : File) : PyResult (list pyval * File) :=
  size <- Struct.calcsize fmt ;;
  '(data, f') <- file_read f size ;;
  vals <- Struct.unpack fmt data ;;
  Ok (vals, f').

(** ** The enumerations of [bsp.py]

    A Python [Enum] has one member per distinct value: a later name bound to
    a value already taken is an alias of the first member with that value.
    The inductive types list the members; the aliases are definitions. *)

Definition BSP_MAGIC : bytes := bytes_of_string "VBSP".
Definition HEADER_1 : string := "<4si".
Definition HEADER_LUMP : string := "<3i4s".
Definition HEADER_2 : string := "<i".

Inductive VERSIONS : Type :=
| VER_17 | VER_18 | VER_19 | VER_20 | VER_21 | VER_22 | VER_29
| CONTAGION | DESOLATION.

Definition HL2 := VER_19.
Definition CS_SOURCE := VER_19.
Definition DOF_SOURCE := VER_19.
Definition HL2_EP1 := VER_20.
Definition HL2_EP2 := VER_20.
Definition HL2_LC := VER_20.
Definition GARYS_MOD := VER_20.
Definition TF2 := VER_20.
Definition PORTAL := VER_20.
Definition L4D := VER_20.
Definition ZENO_CLASH := VER_20.
Definition DARK_MESSIAH := VER_20.
Definition VINDICTUS := VER_20.
Definition THE_SHIP := VER_20.
Definition BLOODY_GOOD_TIME := VER_20.
Definition L4D2 := VER_21.
Definition ALIEN_SWARM := VER_21.
Definition PORTAL_2 := VER_21.
Definition CS_GO := VER_21.
Definition DEAR_ESTHER := VER_21.
Definition STANLEY_PARABLE := VER_21.
Definition DOTA2 := VER_22.

(** [member.value] *)
Definition version_value (v : VERSIONS) : Z :=
  match v with
  | VER_17 => 17 | VER_18 => 18 | VER_19 => 19 | VER_20 => 20
  | VER_21 => 21 | VER_22 => 22 | VER_29 => 29
  | CONTAGION => 23 | DESOLATION => 42
  end.

Definition all_versions : list VERSIONS :=
  [VER_17; VER_18; VER_19; VER_20; VER_21; VER_22; VER_29; CONTAGION; DESOLATION].

(** [VERSIONS(n)]: the member with that value, [ValueError] when there is
    none. *)
Definition VERSIONS_of_value (n : Z) : PyResult VERSIONS :=
  match find (fun v => version_value v =? n) all_versions with
  | Some v => Ok v
  | None => Raise (ValueError "not a valid VERSIONS")
  end.

Inductive BSP_LUMPS : Type :=
| ENTITIES | PLANES | TEXDATA | VERTEXES | VISIBILITY | NODES | TEXINFO
| FACES | LIGHTING | OCCLUSION | LEAFS | FACEIDS | EDGES | SURFEDGES
| MODELS | WORLDLIGHTS | LEAFFACES | LEAFBRUSHES | BRUSHES | BRUSHSIDES
| AREAS | AREAPORTALS | PORTALS | CLUSTERS | PORTALVERTS | CLUSTERPORTALS
| DISPINFO | ORIGINALFACES | PHYSDISP | PHYSCOLLIDE | VERTNORMALS
| VERTNORMALINDICES | DISP_LIGHTMAP_ALPHAS | DISP_VERTS
| DISP_LIGHTMAP_SAMPLE_POSITIONS | GAME_LUMP | LEAFWATERDATA | PRIMITIVES
| PRIMVERTS | PRIMINDICES | PAKFILE | CLIPPORTALVERTS | CUBEMAPS
| TEXDATA_STRING_DATA | TEXDATA_STRING_TABLE | OVERLAYS
| LEAFMINDISTTOWATER | FACE_MACRO_TEXTURE_INFO | DISP_TRIS
| PHYSCOLLIDESURFACE | WATEROVERLAYS | LIGHTMAPPAGES | LIGHTMAPPAGEINFOS
| LIGHTING_HDR | WORLDLIGHTS_HDR | LEAF_AMBIENT_LIGHTING_HDR
| LEAF_AMBIENT_LIGHTING | XZIPPAKFILE | FACES_HDR | MAP_FLAGS
| OVERLAY_FADES | OVERLAY_SYSTEM_LEVELS | PHYSLEVEL | DISP_MULTIBLEND.

Definition UNUSED0 := PORTALS.
Definition PROPCOLLISION := PORTALS.
Definition UNUSED1 := CLUSTERS.
Definition PROPHULLS := CLUSTERS.
Definition UNUSED2 := PORTALVERTS.
Definition PROPHULLVERTS := PORTALVERTS.
Definition UNUSED3 := CLUSTERPORTALS.
Definition PROPTRIS := CLUSTERPORTALS.
Definition PROP_BLOB := PHYSCOLLIDESURFACE.
Definition LEAF_AMBIENT_INDEX_HDR := LIGHTMAPPAGES.
Definition LEAF_AMBIENT_INDEX := LIGHTMAPPAGEINFOS.

Definition lump_value (l : BSP_LUMPS) : Z :=
  match l with
  | ENTITIES => 0 | PLANES => 1 | TEXDATA => 2 | VERTEXES => 3
  | VISIBILITY => 4 | NODES => 5 | TEXINFO => 6 | FACES => 7
  | LIGHTING => 8 | OCCLUSION => 9 | LEAFS => 10 | FACEIDS => 11
  | EDGES => 12 | SURFEDGES => 13 | MODELS => 14 | WORLDLIGHTS => 15
  | LEAFFACES => 16 | LEAFBRUSHES => 17 | BRUSHES => 18 | BRUSHSIDES => 19
  | AREAS => 20 | AREAPORTALS => 21 | PORTALS => 22 | CLUSTERS => 23
  | PORTALVERTS => 24 | CLUSTERPORTALS => 25 | DISPINFO => 26
  | ORIGINALFACES => 27 | PHYSDISP => 28 | PHYSCOLLIDE => 29
  | VERTNORMALS => 30 | VERTNORMALINDICES => 31
  | DISP_LIGHTMAP_ALPHAS => 32 | DISP_VERTS => 33
  | DISP_LIGHTMAP_SAMPLE_POSITIONS => 34 | GAME_LUMP => 35
  | LEAFWATERDATA => 36 | PRIMITIVES => 37 | PRIMVERTS => 38
  | PRIMINDICES => 39 | PAKFILE => 40 | CLIPPORTALVERTS => 41
  | CUBEMAPS => 42 | TEXDATA_STRING_DATA => 43 | TEXDATA_STRING_TABLE => 44
  | OVERLAYS => 45 | LEAFMINDISTTOWATER => 46
  | FACE_MACRO_TEXTURE_INFO => 47 | DISP_TRIS => 48
  | PHYSCOLLIDESURFACE => 49 | WATEROVERLAYS => 50 | LIGHTMAPPAGES => 51
  | LIGHTMAPPAGEINFOS => 52 | LIGHTING_HDR => 53 | WORLDLIGHTS_HDR => 54
  | LEAF_AMBIENT_LIGHTING_HDR => 55 | LEAF_AMBIENT_LIGHTING => 56
  | XZIPPAKFILE => 57 | FACES_HDR => 58 | MAP_FLAGS => 59
  | OVERLAY_FADES => 60 | OVERLAY_SYSTEM_LEVELS => 61 | PHYSLEVEL => 62
  | DISP_MULTIBLEND => 63
  end.

(** [list(BSP_LUMPS)]: the members in definition order. *)
Definition all_lumps : list BSP_LUMPS :=
  [ENTITIES; PLANES; TEXDATA; VERTEXES; VISIBILITY; NODES; TEXINFO; FACES;
  LIGHTING; OCCLUSION; LEAFS; FACEIDS; EDGES; SURFEDGES; MODELS;
  WORLDLIGHTS; LEAFFACES; LEAFBRUSHES; BRUSHES; BRUSHSIDES; AREAS;
  AREAPORTALS; PORTALS; CLUSTERS; PORTALVERTS; CLUSTERPORTALS; DISPINFO;
  ORIGINALFACES; PHYSDISP; PHYSCOLLIDE; VERTNORMALS; VERTNORMALINDICES;
  DISP_LIGHTMAP_ALPHAS; DISP_VERTS; DISP_LIGHTMAP_SAMPLE_POSITIONS;
  GAME_LUMP; LEAFWATERDATA; PRIMITIVES; PRIMVERTS; PRIMINDICES; PAKFILE;
  CLIPPORTALVERTS; CUBEMAPS; TEXDATA_STRING_DATA; TEXDATA_STRING_TABLE;
  OVERLAYS; LEAFMINDISTTOWATER; FACE_MACRO_TEXTURE_INFO; DISP_TRIS;
  PHYSCOLLIDESURFACE; WATEROVERLAYS; LIGHTMAPPAGES; LIGHTMAPPAGEINFOS;
  LIGHTING_HDR; WORLDLIGHTS_HDR; LEAF_AMBIENT_LIGHTING_HDR;
  LEAF_AMBIENT_LIGHTING; XZIPPAKFILE; FACES_HDR; MAP_FLAGS;
  OVERLAY_FADES; OVERLAY_SYSTEM_LEVELS; PHYSLEVEL; DISP_MULTIBLEND].

Definition lump_eqb (a b : BSP_LUMPS) : bool := lump_value a =? lump_value b.

(** [BSP_LUMPS(n)] *)
Definition BSP_LUMPS_of_value (n : Z) : PyResult BSP_LUMPS :=
  match find (fun l => lump_value l =? n) all_lumps with
  | Some l => Ok l
  | None => Raise (ValueError "not a valid BSP_LUMPS")
  end.

Definition LUMP_COUNT : Z :=
  fold_right Z.max 0 (map lump_value all_lumps) + 1.

(** The packfile lump goes last, so that the BSP can be opened by generic zip
    programs. *)
Definition LUMP_WRITE_ORDER : list BSP_LUMPS :=
  filter (fun l => negb (lump_eqb l PAKFILE)) all_lumps ++ [PAKFILE].

(** ** Deferred writes *)

(** The keys the writer tags its deferrals with: a lump name or a game-lump
    id. *)
Inductive DKey : Type :=
| KLump (l : BSP_LUMPS)
| KBytes (b : bytes).

Definition dkey_eqb (a b : DKey) : bool :=
  match a, b with
  | KLump x, KLump y => lump_eqb x y
  | KBytes x, KBytes y => bytes_eqb x y
  | _, _ => false
  end.

(** Modelled from the spec: [DeferredWrites] lives in
    [srctools/binformat.py], which is not among the sources.  Section 4.1: the
    helper records "at absolute position p in the stream, write this
    little-endian pattern later"; each deferral is tagged with a key, one
    [set_data(key, values...)] call provides the values, and the helper
    rewrites those positions at the end.  With [write=True] the deferral also
    emits placeholder bytes of the pattern's size, as the game-lump directory
    of [BSP.save] needs for its 16-byte entries. *)
Record DeferredWrites : Type := mkDefer {
  loc : list (DKey * (Z * string));
  ddata : list (DKey * bytes)
}.

Definition DeferredWrites_new : DeferredWrites := mkDefer [] [].

Definition defer_defer (d : DeferredWrites) (f : File) (key : DKey)
    (fmt : string) (write : bool) : PyResult (DeferredWrites * File) :=
  size <- Struct.calcsize fmt ;;
  let d' := mkDefer (dict_set dkey_eqb (loc d) key (file_tell f, fmt)) (ddata d) in
  Ok (d', if write then file_write f (zero_bytes (Z.to_nat size)) else f).

Definition defer_set_data (d : DeferredWrites) (key : DKey) (vals : list pyval)
  : PyResult DeferredWrites :=
  '(_, fmt) <- dict_lookup dkey_eqb (loc d) key ;;
  b <- Struct.pack fmt vals ;;
  Ok (mkDefer (loc d) (dict_set dkey_eqb (ddata d) key b)).

Definition defer_write (d : DeferredWrites) (f : File) : PyResult File :=
  let prev := file_tell f in
  '(_, f') <-
    for_each (loc d)
      (fun '(key, (off, _)) '(dd, f) =>
         match dict_get dkey_eqb dd key with
         | None => Raise (ValueError "No data for key")
         | Some b =>
             f1 <- file_seek f off ;;
             Ok (dict_remove dkey_eqb dd key, file_write f1 b)
         end)
      (ddata d, f) ;;
  file_seek f' prev.

(** ** Lumps *)

Record Lump : Type := mkLump {
  lump_type : BSP_LUMPS;
  lump_version : Z;
  lump_ident : list Z;
  lump_data : bytes
}.

(** [Lump.__init__]: the ident is kept as a list of ints, the data starts
    empty. *)
Definition Lump_init (typ : BSP_LUMPS) (version : Z) (ident : bytes) : Lump :=
  mkLump typ version (map byte_to_Z ident) [].

Definition Lump_with_data (l : Lump) (d : bytes) : Lump :=
  mkLump (lump_type l) (lump_version l) (lump_ident l) d.

Record GameLump : Type := mkGameLump {
  gl_id : bytes;
  gl_flags : Z;
  gl_version : Z;
  gl_data : bytes
}.

Definition GameLump_ST : string := "<4s HH ii".

Definition GameLump_with_data (g : GameLump) (d : bytes) : GameLump :=
  mkGameLump (gl_id g) (gl_flags g) (gl_version g) d.

(** [self.version]: unset, a member of [VERSIONS], or a plain int. *)
Inductive version_t : Type :=
| VNone
| VMember (v : VERSIONS)
| VPlain (n : Z).

Record BSP : Type := mkBSP {
  map_revision : Z;
  lumps : list (BSP_LUMPS * Lump);
  game_lumps : list (bytes * GameLump);
  header_off : Z;
  version : version_t
}.

(** [bytes(ints)]: every int must be a byte value. *)
Fixpoint bytes_of_ints (l : list Z) : PyResult bytes :=
  match l with
  | [] => Ok []
  | z :: r =>
      if (0 <=? z) && (z <? 256)
      then rest <- bytes_of_ints r ;; Ok (byte_of_Z z :: rest)
      else Raise (ValueError "bytes must be in range(0, 256)")
  end.

(** Tuple unpacking of a [struct] result into names: a result of another
    shape does not bind. *)
Definition bad_unpack {A} : PyResult A := Raise (ValueError "unpack").

(** ** [BSP.read] *)

(** The version check at the head of [read]: without a version given by the
    caller the file's version is adopted, as a member of [VERSIONS] when there
    is one with that value and as the plain int otherwise; a version given by
    the caller must equal the file's ([VERSIONS.__eq__] compares the member's
    value). *)
Definition read_version (self_version : version_t) (bsp_version : Z)
  : PyResult version_t :=
  match self_version with
  | VNone =>
      match VERSIONS_of_value bsp_version with
      | Ok v => Ok (VMember v)
      | Raise e => if is_ValueError e then Ok (VPlain bsp_version) else Raise e
      end
  | VMember v =>
      if bsp_version =? version_value v then Ok self_version
      else Raise (AssertionError "Different BSP version!")
  | VPlain n =>
      if bsp_version =? n then Ok self_version
      else Raise (AssertionError "Different BSP version!")
  end.

(** One turn of the loop over the lump index. *)
Definition read_lump_header (index : Z)
    (st : list (BSP_LUMPS * Lump) * list (BSP_LUMPS * (Z * Z)) * File)
  : PyResult (list (BSP_LUMPS * Lump) * list (BSP_LUMPS * (Z * Z)) * File) :=
  let '(lumps, lump_offsets, file) := st in
  '(vals, file) <- struct_read HEADER_LUMP file ;;
  match vals with
  | [PInt offset; PInt length; PInt version; PBytes ident] =>
      lump_id <- BSP_LUMPS_of_value index ;;
      Ok (dict_set lump_eqb lumps lump_id (Lump_init lump_id version ident),
          dict_set lump_eqb lump_offsets lump_id (offset, length),
          file)
  | _ => bad_unpack
  end.

(** One turn of the loop that reads each lump's bytes. *)
Definition read_lump_data (lump_offsets : list (BSP_LUMPS * (Z * Z)))
    (entry : BSP_LUMPS * Lump) (st : list (BSP_LUMPS * Lump) * File)
  : PyResult (list (BSP_LUMPS * Lump) * File) :=
  let '(lumps, file) := st in
  let lump := snd entry in
  '(offset, length) <- dict_lookup lump_eqb lump_offsets (lump_type lump) ;;
  file <- file_seek file offset ;;
  '(data, file) <- file_read file length ;;
  Ok (dict_set lump_eqb lumps (fst entry) (Lump_with_data lump data), file).

(** One turn of the loop over the game-lump directory. *)
Definition read_game_lump (data : bytes)
    (st : Z * list (bytes * GameLump) * File)
  : PyResult (Z * list (bytes * GameLump) * File) :=
  let '(lump_offset, game_lumps, file) := st in
  vals <- Struct.unpack_from GameLump_ST data lump_offset ;;
  match vals with
  | [PBytes game_lump_id; PInt flags; PInt glump_version; PInt file_off;
     PInt file_len] =>
      size <- Struct.calcsize GameLump_ST ;;
      let lump_offset := lump_offset + size in
      file <- file_seek file file_off ;;
      (* The lump ID is backward.. *)
      let game_lump_id := reversed game_lump_id in
      '(gdata, file) <- file_read file file_len ;;
      Ok (lump_offset,
          dict_set bytes_eqb game_lumps game_lump_id
            (mkGameLump game_lump_id flags glump_version gdata),
          file)
  | _ => bad_unpack
  end.

(** [BSP(filename, version)], which is [BSP.read] on a fresh object; the file
    is given by its contents. *)
Definition BSP_read (self_version : version_t) (file_contents : bytes)
  : PyResult BSP :=
  let file := file_open file_contents in
  '(vals, file) <- struct_read HEADER_1 file ;;
  match vals with
  | [PBytes magic_name; PInt bsp_version] =>
      (if bytes_eqb magic_name BSP_MAGIC then Ok tt
       else Raise (AssertionError "Not a BSP file!")) ;;;
      version <- read_version self_version bsp_version ;;
      '(lumps, lump_offsets, file) <-
        for_each (range LUMP_COUNT) read_lump_header ([], [], file) ;;
      '(vals, file) <- struct_read HEADER_2 file ;;
      match vals with
      | [PInt map_revision] =>
          '(lumps, file) <-
            for_each lumps (read_lump_data lump_offsets) (lumps, file) ;;
          game_lump <- dict_lookup lump_eqb lumps GAME_LUMP ;;
          vals <- Struct.unpack_from "<i" (lump_data game_lump) 0 ;;
          match vals with
          | [PInt lump_count] =>
              '(_, game_lumps, file) <-
                for_each (range lump_count)
                  (fun _ => read_game_lump (lump_data game_lump))
                  (4, [], file) ;;
              (* This is not valid any longer. *)
              let lumps :=
                dict_set lump_eqb lumps GAME_LUMP (Lump_with_data game_lump []) in
              Ok (mkBSP map_revision lumps game_lumps 0 version)
          | _ => bad_unpack
          end
      | _ => bad_unpack
      end
  | _ => bad_unpack
  end.

(** ** [BSP.save] *)

(** One turn of the loop that writes the lump headers. *)
Definition save_lump_header (self : BSP) (lump_name : BSP_LUMPS)
    (st : DeferredWrites * File) : PyResult (DeferredWrites * File) :=
  let '(defer, file) := st in
  lump <- dict_lookup lump_eqb (lumps self) lump_name ;;
  '(defer, file) <- defer_defer defer file (KLump lump_name) "<ii" false ;;
  ident <- bytes_of_ints (lump_ident lump) ;;
  b <- Struct.pack HEADER_LUMP
         [PInt 0; PInt 0; PInt (lump_version lump); PBytes ident] ;;
  Ok (defer, file_write file b).

(** One directory entry of the game lump: id (backward), flags and version,
    the deferred offset, the length. *)
Definition save_game_lump_header (game_lump : GameLump)
    (st : DeferredWrites * File) : PyResult (DeferredWrites * File) :=
  let '(defer, file) := st in
  b <- Struct.pack "<4s HH"
         [PBytes (reversed (gl_id game_lump)); PInt (gl_flags game_lump);
          PInt (gl_version game_lump)] ;;
  let file := file_write file b in
  '(defer, file) <- defer_defer defer file (KBytes (gl_id game_lump)) "<i" true ;;
  b <- Struct.pack "<i" [PInt (len (gl_data game_lump))] ;;
  Ok (defer, file_write file b).

Definition save_game_lump_data (game_lump : GameLump)
    (st : DeferredWrites * File) : PyResult (DeferredWrites * File) :=
  let '(defer, file) := st in
  defer <- defer_set_data defer (KBytes (gl_id game_lump)) [PInt (file_tell file)] ;;
  Ok (defer, file_write file (gl_data game_lump)).

(** One turn of the loop that writes the lumps in [LUMP_WRITE_ORDER]. *)
Definition save_lump (self : BSP) (game_lumps : list GameLump)
    (lump_name : BSP_LUMPS) (st : DeferredWrites * File)
  : PyResult (DeferredWrites * File) :=
  let '(defer, file) := st in
  lump <- dict_lookup lump_eqb (lumps self) lump_name ;;
  if lump_eqb lump_name GAME_LUMP then
    (* Construct this right here. *)
    let lump_start := file_tell file in
    b <- Struct.pack "<i" [PInt (len game_lumps)] ;;
    let file := file_write file b in
    '(defer, file) <- for_each game_lumps save_game_lump_header (defer, file) ;;
    '(defer, file) <- for_each game_lumps save_game_lump_data (defer, file) ;;
    defer <- defer_set_data defer (KLump lump_name)
               [PInt lump_start; PInt (file_tell file - lump_start)] ;;
    Ok (defer, file)
  else
    defer <- defer_set_data defer (KLump lump_name)
               [PInt (file_tell file); PInt (len (lump_data lump))] ;;
    Ok (defer, file_write file (lump_data lump)).

(** [BSP.save]: the bytes of the file the atomic writer leaves in place. *)
Definition BSP_save (self : BSP) : PyResult bytes :=
  let game_lumps := dict_values (game_lumps self) in
  let file := file_open [] in
  let defer := DeferredWrites_new in
  version <- match version self with
             | VMember v => Ok (version_value v)
             | VPlain n => Ok n
             | VNone => Raise StructError
             end ;;
  b <- Struct.pack HEADER_1 [PBytes BSP_MAGIC; PInt version] ;;
  let file := file_write file b in
  '(defer, file) <- for_each all_lumps (save_lump_header self) (defer, file) ;;
  b <- Struct.pack HEADER_2 [PInt (map_revision self)] ;;
  let file := file_write file b in
  '(defer, file) <-
    for_each LUMP_WRITE_ORDER (save_lump self game_lumps) (defer, file) ;;
  file <- defer_write defer file ;;
  Ok (contents file).

(** ** [vec.py]: numbers handed to [Vec] and [Angle] *)

(** A Python number: an [int] or a [float]. *)
Inductive scalar : Type :=
| SInt (z : Z)
| SFloat (f : float).

(** [float(s)] *)
Definition float_of (s : scalar) : PyResult float :=
  match s with
  | SInt z => PyFloat.of_int z
  | SFloat f => Ok f
  end.

(** What a special method hands back: a value, or [NotImplemented]. *)
Inductive ret (A : Type) : Type :=
| Returned (a : A)
| NotImplemented.
Arguments Returned {A} a.
Arguments NotImplemented {A}.

(** The operators the multiplication/division template is expanded for. *)
Inductive muldiv : Type := op_mul | op_truediv | op_floordiv | op_mod.

Definition pretty (op : muldiv) : string :=
  match op with
  | op_mul => "multiply"
  | op_truediv => "divide"
  | op_floordiv => "floor-divide"
  | op_mod => "modulus"
  end.

(** [a op b] on two floats. *)
Definition float_op (op : muldiv) (a b : float) : PyResult float :=
  match op with
  | op_mul => PyFloat.mul a b
  | op_truediv => PyFloat.truediv a b
  | op_floordiv => PyFloat.floordiv a b
  | op_mod => PyFloat.rem a b
  end.

(** ** [Vec] *)

Module Vec.
Record t : Type := mk { x : float; y : float; z : float }.
End Vec.
Abbreviation Vec := Vec.t.

(** The right-hand side of an arithmetic operator applied to a [Vec]. *)
Inductive operand : Type :=
| OVec (v : Vec)
| OTuple (l : list scalar)
| OScalar (s : scalar)
| OOther.                 (* any object floats do not operate with *)

(** [a op other] and [other op a] for a float [a]: an [int] is converted
    first, anything that is not a number is a [TypeError]. *)
Definition float_op_operand (op : muldiv) (a : float) (other : operand)
  : PyResult float :=
  match other with
  | OScalar s => b <- float_of s ;; float_op op a b
  | _ => Raise (TypeError "unsupported operand type(s)")
  end.

Definition operand_op_float (op : muldiv) (other : operand) (a : float)
  : PyResult float :=
  match other with
  | OScalar s => b <- float_of s ;; float_op op b a
  | _ => Raise (TypeError "unsupported operand type(s)")
  end.

(** [try: ... except TypeError: return NotImplemented] *)
Definition except_TypeError {A} (c : PyResult A) : PyResult (ret A) :=
  match c with
  | Ok a => Ok (Returned a)
  | Raise (TypeError _) => Ok NotImplemented
  | Raise e => Raise e
  end.

(** [Vec(x, y, z)] with numbers. *)
Definition Vec_init (x y z : scalar) : PyResult Vec :=
  fx <- float_of x ;; fy <- float_of y ;; fz <- float_of z ;;
  Ok (Vec.mk fx fy fz).

(** [Vec(it)] with an iterable of numbers, [y] and [z] the defaults of the
    missing items. *)
Definition Vec_from_iter (it : list scalar) (y z : scalar) : PyResult Vec :=
  fx <- float_of (nth 0 it (SFloat zero)) ;;
  fy <- float_of (nth 1 it y) ;;
  fz <- float_of (nth 2 it z) ;;
  Ok (Vec.mk fx fy fz).

(** [Vec(v)] and [v.copy()] *)
Definition Vec_copy (v : Vec) : Vec := Vec.mk (Vec.x v) (Vec.y v) (Vec.z v).

Definition cannot_2_vectors (op : muldiv) : exn :=
  TypeError ("Cannot " ++ pretty op ++ " 2 Vectors.").

(** [Vec.__mul__], [__truediv__], [__floordiv__], [__mod__]: the expansion of
    [_VEC_MULDIV_TEMP] at [op]. *)
Definition Vec_muldiv (op : muldiv) (self : Vec) (other : operand)
  : PyResult (ret Vec) :=
  match other with
  | OVec _ => Raise (cannot_2_vectors op)
  | _ =>
      except_TypeError
        (x <- float_op_operand op (Vec.x self) other ;;
         y <- float_op_operand op (Vec.y self) other ;;
         z <- float_op_operand op (Vec.z self) other ;;
         Vec_init (SFloat x) (SFloat y) (SFloat z))
  end.

(** [Vec.__rmul__] and the other reflected methods of the template. *)
Definition Vec_rmuldiv (op : muldiv) (self : Vec) (other : operand)
  : PyResult (ret Vec) :=
  match other with
  | OVec _ => Raise (cannot_2_vectors op)
  | _ =>
      except_TypeError
        (x <- operand_op_float op other (Vec.x self) ;;
         y <- operand_op_float op other (Vec.y self) ;;
         z <- operand_op_float op other (Vec.z self) ;;
         Vec_init (SFloat x) (SFloat y) (SFloat z))
  end.

(** [Vec.__imul__] and the other in-place methods of the template: the
    components are assigned one after the other, so the object is returned
    together with the outcome. *)
Definition Vec_imuldiv (op : muldiv) (self : Vec) (other : operand)
  : Vec * PyResult unit :=
  match other with
  | OVec _ => (self, Raise (cannot_2_vectors op))
  | _ =>
      match float_op_operand op (Vec.x self) other with
      | Raise e => (self, Raise e)
      | Ok x =>
          let self := Vec.mk x (Vec.y self) (Vec.z self) in
          match float_op_operand op (Vec.y self) other with
          | Raise e => (self, Raise e)
          | Ok y =>
              let self := Vec.mk (Vec.x self) y (Vec.z self) in
              match float_op_operand op (Vec.z self) other with
              | Raise e => (self, Raise e)
              | Ok z => (Vec.mk (Vec.x self) (Vec.y self) z, Ok tt)
              end
          end
      end
  end.

(** [divmod(a, other)] for a float [a]. *)
Definition float_divmod_operand (a : float) (other : operand)
  : PyResult (float * float) :=
  match other with
  | OScalar s => b <- float_of s ;; PyFloat.divmod a b
  | _ => Raise (TypeError "unsupported operand type(s)")
  end.

(** [Vec.__divmod__] *)
Definition Vec_divmod (self : Vec) (other : operand)
  : PyResult (ret (Vec * Vec)) :=
  match other with
  | OVec _ => Raise (TypeError "Cannot divide 2 Vectors.")
  | _ =>
      match
        ('(x1, x2) <- float_divmod_operand (Vec.x self) other ;;
         '(y1, y2) <- float_divmod_operand (Vec.y self) other ;;
         '(z1, z2) <- float_divmod_operand (Vec.z self) other ;;
         Ok (x1, y1, z1, (x2, y2, z2)))
      with
      | Raise (TypeError _) => Ok NotImplemented
      | Raise e => Raise e
      | Ok (x1, y1, z1, (x2, y2, z2)) =>
          a <- Vec_init (SFloat x1) (SFloat y1) (SFloat z1) ;;
          b <- Vec_init (SFloat x2) (SFloat y2) (SFloat z2) ;;
          Ok (Returned (a, b))
      end
  end.

(** The binary operator [self op other] as Python evaluates it: when the
    left operand's method returns [NotImplemented] the reflected method of
    the right operand is tried, and numbers, tuples and the other objects
    considered here have none that accepts a [Vec]. *)
Definition binop {A} (r : PyResult (ret A)) : PyResult A :=
  match r with
  | Ok (Returned a) => Ok a
  | Ok NotImplemented => Raise (TypeError "unsupported operand type(s)")
  | Raise e => Raise e
  end.

Definition Vec_op (op : muldiv) (v : Vec) (other : operand) : PyResult Vec :=
  binop (Vec_muldiv op v other).

Definition Vec_divmod_op (v : Vec) (other : operand) : PyResult (Vec * Vec) :=
  binop (Vec_divmod v other).

(** ** [Matrix] and [Angle] *)

Module Matrix.
Record t : Type := mk {
  aa : float; ab : float; ac : float;
  ba : float; bb : float; bc : float;
  ca : float; cb : float; cc : float
}.
End Matrix.
Abbreviation Matrix := Matrix.t.

Module Angle.
(** The slots [_pitch], [_yaw], [_roll]. *)
Record t : Type := mk { pitch : float; yaw : float; roll : float }.
End Angle.
Abbreviation Angle := Angle.t.

(** [float(v) % 360 % 360]: the divisor is the int [360], converted to the
    float [360.0] by the operator. *)
Definition norm360 (v : scalar) : PyResult float :=
  f <- float_of v ;;
  a <- PyFloat.rem f PyFloat.cst_360 ;;
  PyFloat.rem a PyFloat.cst_360.

(** [Angle(pitch, yaw, roll)] with numbers. *)
Definition Angle_init (pitch yaw roll : scalar) : PyResult Angle :=
  p <- norm360 pitch ;; y <- norm360 yaw ;; r <- norm360 roll ;;
  Ok (Angle.mk p y r).

(** [Angle(it)] with an iterable of numbers. *)
Definition Angle_from_iter (it : list scalar) (yaw roll : scalar)
  : PyResult Angle :=
  p <- norm360 (nth 0 it (SFloat zero)) ;;
  y <- norm360 (nth 1 it yaw) ;;
  r <- norm360 (nth 2 it roll) ;;
  Ok (Angle.mk p y r).

(** [Angle.copy] *)
Definition Angle_copy (self : Angle) : PyResult Angle :=
  Angle_init (SFloat (Angle.pitch self)) (SFloat (Angle.yaw self))
             (SFloat (Angle.roll self)).

(** The property setters. *)
Definition Angle_set_pitch (self : Angle) (pitch : scalar) : PyResult Angle :=
  p <- norm360 pitch ;; Ok (Angle.mk p (Angle.yaw self) (Angle.roll self)).

Definition Angle_set_yaw (self : Angle) (yaw : scalar) : PyResult Angle :=
  y <- norm360 yaw ;; Ok (Angle.mk (Angle.pitch self) y (Angle.roll self)).

Definition Angle_set_roll (self : Angle) (roll : scalar) : PyResult Angle :=
  r <- norm360 roll ;; Ok (Angle.mk (Angle.pitch self) (Angle.yaw self) r).

(** An index handed to [__getitem__] or [__setitem__]. *)
Inductive axis_key : Type :=
| AxInt (i : Z)
| AxStr (s : string).

Definition axis_key_eqb (a b : axis_key) : bool :=
  match a, b with
  | AxInt i, AxInt j => i =? j
  | AxStr s, AxStr t => String.eqb s t
  | _, _ => false
  end.

Definition key_in (k : axis_key) (l : list axis_key) : bool :=
  existsb (axis_key_eqb k) l.

(** [Angle.__setitem__] *)
Definition Angle_setitem (self : Angle) (ind : axis_key) (val : scalar)
  : PyResult Angle :=
  if key_in ind [AxInt 0; AxStr "p"; AxStr "pit"; AxStr "pitch"] then
    p <- norm360 val ;; Ok (Angle.mk p (Angle.yaw self) (Angle.roll self))
  else if key_in ind [AxInt 1; AxStr "y"; AxStr "yaw"] then
    y <- norm360 val ;; Ok (Angle.mk (Angle.pitch self) y (Angle.roll self))
  else if key_in ind [AxInt 2; AxStr "r"; AxStr "rol"; AxStr "roll"] then
    r <- norm360 val ;; Ok (Angle.mk (Angle.pitch self) (Angle.yaw self) r)
  else Raise (KeyError "Invalid axis").

(** [a * s] for a float and a number. *)
Definition float_times (a : float) (s : scalar) : PyResult float :=
  b <- float_of s ;; Ok (a * b)%float.

(** [Angle.__mul__] and [Angle.__rmul__]: only numbers are accepted. *)
Definition Angle_mul (self : Angle) (other : operand) : PyResult (ret Angle) :=
  match other with
  | OScalar s =>
      p <- float_times (Angle.pitch self) s ;;
      y <- float_times (Angle.yaw self) s ;;
      r <- float_times (Angle.roll self) s ;;
      a <- Angle_init (SFloat p) (SFloat y) (SFloat r) ;;
      Ok (Returned a)
  | _ => Ok NotImplemented
  end.

Definition Angle_rmul (self : Angle) (other : operand) : PyResult (ret Angle) :=
  match other with
  | OScalar s =>
      o <- float_of s ;;
      a <- Angle_init (SFloat (o * Angle.pitch self)) (SFloat (o * Angle.yaw self))
             (SFloat (o * Angle.roll self)) ;;
      Ok (Returned a)
  | _ => Ok NotImplemented
  end.

(** [Matrix()]: the identity. *)
Definition Matrix_init : Matrix :=
  Matrix.mk one zero zero zero one zero zero zero one.

(** [Matrix._mat_mul]: rotate [self] by [other]. *)
Definition Matrix_mat_mul (self other : Matrix) : Matrix :=
  let row (a b c : float) :=
    ((a * Matrix.aa other + b * Matrix.ba other + c * Matrix.ca other)%float,
     (a * Matrix.ab other + b * Matrix.bb other + c * Matrix.cb other)%float,
     (a * Matrix.ac other + b * Matrix.bc other + c * Matrix.cc other)%float) in
  let '(aa, ab, ac) := row (Matrix.aa self) (Matrix.ab self) (Matrix.ac self) in
  let '(ba, bb, bc) := row (Matrix.ba self) (Matrix.bb self) (Matrix.bc self) in
  let '(ca, cb, cc) := row (Matrix.ca self) (Matrix.cb self) (Matrix.cc self) in
  Matrix.mk aa ab ac ba bb bc ca cb cc.

(** [math.pi], and the factors of [math.degrees] and [math.radians]. *)
Definition math_pi : float := 0x1.921fb54442d18p+1%float.
Definition cst_180 : float := Eval vm_compute in PyFloat.normalize 180 0.
Definition math_degrees (x : float) : float := (x * (cst_180 / math_pi))%float.
Definition math_radians (x : float) : float := (x * (math_pi / cst_180))%float.

(** [x ** 2] on a float: an [OverflowError] when the square of a finite
    number is not finite.  The power is taken as the correctly rounded
    product [x * x]; [float.__pow__] calls C's [pow], which a C library
    may round differently in the last bit. *)
Definition float_sq (x : float) : PyResult float :=
  let r := (x * x)%float in
  if is_infinity r && PyFloat.is_finite x then Raise OverflowError else Ok r.

(** [math.sqrt]: a negative argument is a [ValueError]. *)
Definition math_sqrt (x : float) : PyResult float :=
  if (x <? zero)%float then Raise (ValueError "math domain error")
  else Ok (sqrt x).

(** [0.001] *)
Definition cst_milli : float := 0x1.0624dd2f1a9fcp-10%float.

Section Rotation.
(** The C library's [sin], [cos] and [atan2], which [math] wraps. *)
Variables math_sin math_cos : float -> float.
Variable math_atan2 : float -> float -> float.

(** [Matrix.from_angle] *)
Definition Matrix_from_angle (angle : Angle) : Matrix :=
  let rad_pitch := math_radians (Angle.pitch angle) in
  let cos_p := math_cos rad_pitch in
  let sin_p := math_sin rad_pitch in
  let rad_yaw := math_radians (Angle.yaw angle) in
  let sin_y := math_sin rad_yaw in
  let cos_y := math_cos rad_yaw in
  let rad_roll := math_radians (Angle.roll angle) in
  let cos_r := math_cos rad_roll in
  let sin_r := math_sin rad_roll in
  let cos_r_cos_y := (cos_r * cos_y)%float in
  let cos_r_sin_y := (cos_r * sin_y)%float in
  let sin_r_cos_y := (sin_r * cos_y)%float in
  let sin_r_sin_y := (sin_r * sin_y)%float in
  Matrix.mk
    (cos_p * cos_y) (cos_p * sin_y) (- sin_p)
    (sin_p * sin_r_cos_y - cos_r_sin_y) (sin_p * sin_r_sin_y + cos_r_cos_y)
    (sin_r * cos_p)
    (sin_p * cos_r_cos_y + sin_r_sin_y) (sin_p * cos_r_sin_y - sin_r_cos_y)
    (cos_r * cos_p).

(** The three values [Matrix.to_angle] hands to [Angle(...)], as
    (pitch, yaw, roll). *)
Definition Matrix_to_angle_args (self : Matrix)
  : PyResult (scalar * scalar * scalar) :=
  let for_x := Matrix.aa self in
  let for_y := Matrix.ab self in
  let for_z := Matrix.ac self in
  let left_x := Matrix.ba self in
  let left_y := Matrix.bb self in
  let left_z := Matrix.bc self in
  let up_z := Matrix.cc self in
  sx <- float_sq for_x ;;
  sy <- float_sq for_y ;;
  horiz_dist <- math_sqrt (sx + sy)%float ;;
  if (cst_milli <? horiz_dist)%float then
    Ok (SFloat (math_degrees (math_atan2 (- for_z) horiz_dist)),
        SFloat (math_degrees (math_atan2 for_y for_x)),
        SFloat (math_degrees (math_atan2 left_z up_z)))
  else
    (* Vertical, gimbal lock (yaw=roll)... *)
    Ok (SFloat (math_degrees (math_atan2 (- for_z) horiz_dist)),
        SFloat (math_degrees (math_atan2 (- left_x) left_y)),
        SInt 0).

(** [Matrix.to_angle] *)
Definition Matrix_to_angle (self : Matrix) : PyResult Angle :=
  '(p, y, r) <- Matrix_to_angle_args self ;;
  Angle_init p y r.

(** [mat @= angle] *)
Definition Matrix_imatmul_angle (self : Matrix) (other : Angle) : Matrix :=
  Matrix_mat_mul self (Matrix_from_angle other).

(** [Angle._rotate_angle]: rotate the target by this angle. *)
Definition Angle_rotate_angle (self target : Angle) : PyResult Angle :=
  let mat := Matrix_init in
  let mat := Matrix_imatmul_angle mat target in
  let mat := Matrix_imatmul_angle mat self in
  Matrix_to_angle mat.

(** [Angle.__matmul__] and [Angle.__rmatmul__] with an [Angle]:
    [a @ b] rotates [a] by [b]. *)
Definition Angle_matmul (self other : Angle) : PyResult Angle :=
  Angle_rotate_angle other self.

Definition Angle_rmatmul (self other : Angle) : PyResult Angle :=
  Angle_rotate_angle self other.

(** [with angle.transform() as mat: body]: the matrix the body leaves is
    turned into an angle whose components replace the angle's. *)
Definition Angle_transform (self : Angle) (body : Matrix -> Matrix)
  : PyResult Angle :=
  new_ang <- Matrix_to_angle (body Matrix_init) ;;
  Ok (Angle.mk (Angle.pitch new_ang) (Angle.yaw new_ang) (Angle.roll new_ang)).
End Rotation.

(** ** Visleaf tree *)

Record VisLeaf : Type := mkVisLeaf {
  vl_id : Z;
  vl_area : Z;
  vl_flags : Z;
  vl_mins : Vec;
  vl_maxes : Vec;
  vl_first_face : Z;
  vl_face_count : Z;
  vl_first_brush : Z;
  vl_brush_count : Z;
  vl_water_id : Z
}.

(** [VisLeaf.__init__] *)
Definition VisLeaf_init (leaf_id area_and_flags : Z) (mins maxes : Vec)
    (first_face face_count first_brush brush_count water_id : Z) : VisLeaf :=
  mkVisLeaf leaf_id
    (Z.land area_and_flags 0xff80)   (* 0b1111111110000000 *)
    (Z.land area_and_flags 0x007f)   (* 0b0000000001111111 *)
    mins maxes first_face face_count first_brush brush_count water_id.

(** A child of a tree node is an object shared with the list it was taken
    from: a reference to the leaf or to the node with that index in the
    lists [vis_tree] builds. *)
Inductive vis_ref : Type :=
| RefLeaf (i : nat)
| RefTree (i : nat).

Record VisTree : Type := mkVisTree {
  plane_norm : Vec;
  plane_dist : float;
  vt_mins : Vec;
  vt_maxes : Vec;
  child_neg : option vis_ref;
  child_pos : option vis_ref
}.

(** [VisTree.__init__]: the children are replaced after. *)
Definition VisTree_init (norm : Vec) (dist : float) (mins maxes : Vec) : VisTree :=
  mkVisTree norm dist mins maxes None None.

(** The objects a visleaf tree is made of, and its root. *)
Record VisHeap : Type := mkVisHeap {
  heap_trees : list VisTree;
  heap_leafs : list VisLeaf;
  heap_root : vis_ref
}.

(** [BSP.get_lump] *)
Definition get_lump (self : BSP) (lump : BSP_LUMPS) : PyResult bytes :=
  l <- dict_lookup lump_eqb (lumps self) lump ;; Ok (lump_data l).

(** The loop over the PLANES lump: one [(normal, distance)] pair per
    record. *)
Definition plane_of_record (rec : list pyval) : PyResult (Vec * float) :=
  match rec with
  | [PFloat x; PFloat y; PFloat z; PFloat dist; PInt flags] =>
      v <- Vec_init (SFloat x) (SFloat y) (SFloat z) ;;
      Ok (v, dist)
  | _ => bad_unpack
  end.

(** [xs.append(f(x))] as the body of a loop. *)
Definition appending {A B} (f : A -> PyResult B) (x : A) (acc : list B)
  : PyResult (list B) :=
  b <- f x ;; Ok (acc ++ [b]).

Definition vis_planes (self : BSP) : PyResult (list (Vec * float)) :=
  data <- get_lump self PLANES ;;
  recs <- Struct.iter_unpack "<ffffi" data ;;
  for_each recs (appending plane_of_record) [].

(** The loop over the NODES lump: each node with the indexes of its
    children. *)
Definition node_of_record (planes : list (Vec * float)) (rec : list pyval)
  : PyResult (VisTree * Z * Z) :=
  match rec with
  | [PInt plane_ind; PInt neg_ind; PInt pos_ind;
     PInt min_x; PInt min_y; PInt min_z;
     PInt max_x; PInt max_y; PInt max_z;
     PInt first_face; PInt face_count; PInt area_ind] =>
      '(plane_norm, plane_dist) <- py_index planes plane_ind ;;
      mins <- Vec_init (SInt min_x) (SInt min_y) (SInt min_z) ;;
      maxes <- Vec_init (SInt max_x) (SInt max_y) (SInt max_z) ;;
      Ok (VisTree_init plane_norm plane_dist mins maxes, neg_ind, pos_ind)
  | _ => bad_unpack
  end.

(** The records of the NODES lump. *)
Definition node_records (self : BSP) : PyResult (list (list pyval)) :=
  data <- get_lump self NODES ;;
  Struct.iter_unpack "<iii6hHHh2x" data.

Definition vis_nodes (self : BSP) (planes : list (Vec * float))
  : PyResult (list (VisTree * Z * Z)) :=
  recs <- node_records self ;;
  for_each recs (appending (node_of_record planes)) [].

(** The leaf format: [self.version.value] exists on a member of [VERSIONS]
    only. *)
Definition no_value_attribute : exn :=
  AttributeError "'int' object has no attribute 'value'".

Definition vis_leaf_fmt (self : BSP) : PyResult string :=
  let leaf_fmt := "<ihh6h4Hh2x"%string in
  match version self with
  | VMember v =>
      (* Some extra ambient light data. *)
      if version_value v <=? 19 then Ok (leaf_fmt ++ "26x")%string
      else Ok leaf_fmt
  | VPlain _ => Raise no_value_attribute
  | VNone => Raise (AttributeError "'NoneType' object has no attribute 'value'")
  end.

(** The loop over the LEAFS lump. *)
Definition leaf_of_record (entry : Z * list pyval) : PyResult VisLeaf :=
  let '(i, rec) := entry in
  match rec with
  | [PInt contents; PInt cluster_ind; PInt area_and_flags;
     PInt min_x; PInt min_y; PInt min_z;
     PInt max_x; PInt max_y; PInt max_z;
     PInt first_face; PInt num_faces;
     PInt first_brush; PInt num_brushes;
     PInt water_ind] =>
      mins <- Vec_init (SInt min_x) (SInt min_y) (SInt min_z) ;;
      maxes <- Vec_init (SInt max_x) (SInt max_y) (SInt max_z) ;;
      Ok (VisLeaf_init i area_and_flags mins maxes
            first_face num_faces first_brush num_brushes water_ind)
  | _ => bad_unpack
  end.

(** [enumerate(xs)] *)
Definition enumerate {A} (xs : list A) : list (Z * A) :=
  combine (range (len xs)) xs.

(** The records of the LEAFS lump. *)
Definition leaf_records (self : BSP) (leaf_fmt : string)
  : PyResult (list (list pyval)) :=
  data <- get_lump self LEAFS ;;
  Struct.iter_unpack leaf_fmt data.

Definition vis_leafs (self : BSP) (leaf_fmt : string) : PyResult (list VisLeaf) :=
  recs <- leaf_records self leaf_fmt ;;
  for_each (enumerate recs) (appending leaf_of_record) [].

(** [l[i]] as the reference to the object found: the position in the list. *)
Definition py_index_ref {A} (l : list A) (i : Z) : PyResult nat :=
  let j := if i <? 0 then i + len l else i in
  if (j <? 0) || (len l <=? j) then Raise IndexError else Ok (Z.to_nat j).

(** The object a child index denotes. *)
Definition vis_child {A} (nodes : list A) (leafs : list VisLeaf) (ind : Z)
  : PyResult vis_ref :=
  if ind <? 0
  then i <- py_index_ref leafs (-1 - ind) ;; Ok (RefLeaf i)
  else i <- py_index_ref nodes ind ;; Ok (RefTree i).

Fixpoint list_update {A} (l : list A) (i : nat) (f : A -> A) : list A :=
  match l, i with
  | [], _ => []
  | a :: r, O => f a :: r
  | a :: r, S k => a :: list_update r k f
  end.

Definition set_child_neg (c : vis_ref) (n : VisTree) : VisTree :=
  mkVisTree (plane_norm n) (plane_dist n) (vt_mins n) (vt_maxes n)
            (Some c) (child_pos n).

Definition set_child_pos (c : vis_ref) (n : VisTree) : VisTree :=
  mkVisTree (plane_norm n) (plane_dist n) (vt_mins n) (vt_maxes n)
            (child_neg n) (Some c).

(** One turn of the linking loop: the node object of the [i]-th entry gets
    its two children. *)
Definition vis_link (nodes : list (VisTree * Z * Z)) (leafs : list VisLeaf)
    (entry : Z * (VisTree * Z * Z)) (trees : list VisTree)
  : PyResult (list VisTree) :=
  let '(i, (_, neg_ind, pos_ind)) := entry in
  c <- vis_child nodes leafs neg_ind ;;
  let trees := list_update trees (Z.to_nat i) (set_child_neg c) in
  c <- vis_child nodes leafs pos_ind ;;
  Ok (list_update trees (Z.to_nat i) (set_child_pos c)).

(** [BSP.vis_tree]: first parse everything, then link up the objects. *)
Definition vis_tree (self : BSP) : PyResult VisHeap :=
  planes <- vis_planes self ;;
  nodes <- vis_nodes self planes ;;
  leaf_fmt <- vis_leaf_fmt self ;;
  leafs <- vis_leafs self leaf_fmt ;;
  trees <- for_each (enumerate nodes) (vis_link nodes leafs)
             (map (fun n => fst (fst n)) nodes) ;;
  (* First node is the top of the tree. *)
  root <- py_index_ref nodes 0 ;;
  Ok (mkVisHeap trees leafs (RefTree root)).

(** ** Static props *)

(** [StaticPropFlags]: a [Flag], held by its value. *)
Definition StaticPropFlags := Z.

Definition DOES_FADE : StaticPropFlags := 0x01.
Definition HAS_LIGHTING_ORIGIN : StaticPropFlags := 0x02.
Definition DISABLE_DRAW : StaticPropFlags := 0x04.
Definition IGNORE_NORMALS : StaticPropFlags := 0x08.
Definition NO_SHADOW : StaticPropFlags := 0x10.
Definition SCREEN_SPACE_FADE : StaticPropFlags := 0x20.
Definition NO_PER_VERTEX_LIGHTING : StaticPropFlags := 0x40.
Definition NO_SELF_SHADOWING : StaticPropFlags := 0x80.
Definition NO_FLASHLIGHT : StaticPropFlags := 0x100.
Definition BOUNCED_LIGHTING : StaticPropFlags := 0x0400.

Definition all_flags : list StaticPropFlags :=
  [DOES_FADE; HAS_LIGHTING_ORIGIN; DISABLE_DRAW; IGNORE_NORMALS; NO_SHADOW;
   SCREEN_SPACE_FADE; NO_PER_VERTEX_LIGHTING; NO_SELF_SHADOWING;
   NO_FLASHLIGHT; BOUNCED_LIGHTING].

(** [StaticPropFlags(n)]: a value with a bit no member defines is a
    [ValueError].  This is [Flag] up to Python 3.10 and under the [STRICT]
    boundary of the later versions; a [Flag] whose boundary is [CONFORM]
    drops the undefined bits instead and raises nothing. *)
Definition StaticPropFlags_of_value (n : Z) : PyResult StaticPropFlags :=
  let known := fold_right Z.lor 0 all_flags in
  if (0 <=? n) && (Z.land n (Z.lnot known) =? 0) then Ok n
  else Raise (ValueError "not a valid StaticPropFlags").

Definition value_prim (f : StaticPropFlags) : Z := Z.land f 0xFF.
Definition value_sec (f : StaticPropFlags) : Z := Z.shiftr f 8.

Record StaticProp : Type := mkStaticProp {
  sp_model : string;
  sp_origin : Vec;
  sp_angles : Angle;
  sp_scaling : float;
  sp_visleafs : list Z;
  sp_solidity : Z;
  sp_flags : StaticPropFlags;
  sp_skin : Z;
  sp_min_fade : float;
  sp_max_fade : float;
  sp_lighting : Vec;
  sp_fade_scale : scalar;
  sp_min_dx_level : Z;
  sp_max_dx_level : Z;
  sp_min_cpu_level : Z;
  sp_max_cpu_level : Z;
  sp_min_gpu_level : Z;
  sp_max_gpu_level : Z;
  sp_tint : Vec;
  sp_renderfx : Z;
  sp_disable_on_xbox : bool
}.

(** A generator run to its end: what it yielded, and the exception that
    ended it, if any. *)
Definition generated (A : Type) : Type := (list A * option exn)%type.

(** [for _ in range(n): ... yield a] over a state. *)
Fixpoint gen_for {A S} (n : nat) (body : S -> PyResult (A * S)) (s : S)
  : generated A :=
  match n with
  | O => ([], None)
  | S k =>
      match body s with
      | Raise e => ([], Some e)
      | Ok (a, s') => let '(l, e) := gen_for k body s' in (a :: l, e)
      end
  end.

(** [list(g)] *)
Definition list_of_gen {A} (g : generated A) : PyResult (list A) :=
  match g with
  | (l, None) => Ok l
  | (_, Some e) => Raise e
  end.

(** [b.rstrip(b'\x00')] *)
Definition rstrip_nul (b : bytes) : bytes :=
  rev (let fix drop (l : bytes) :=
         match l with
         | x00 :: r => drop r
         | _ => l
         end in drop (rev b)).

(** [b.decode('ascii')] *)
Definition decode_ascii (b : bytes) : PyResult string :=
  if forallb (fun c => byte_to_Z c <? 128) b
  then Ok (string_of_list_byte b)
  else Raise UnicodeDecodeError.

(** [s * n] for a str. *)
Definition str_repeat (s : string) (n : Z) : string :=
  String.concat EmptyString (repeat s (Z.to_nat n)).

(** [BSP._read_static_props_models], run to its end. *)
Definition read_static_props_models (static_lump : File)
  : PyResult (list string * File) :=
  '(vals, static_lump) <- struct_read "<i" static_lump ;;
  match vals with
  | [PInt dict_num] =>
      for_each (range dict_num)
        (fun _ '(names, f) =>
           '(vals, f) <- struct_read "<128s" f ;;
           match vals with
           | [PBytes padded_name] =>
               name <- decode_ascii (rstrip_nul padded_name) ;;
               Ok (names ++ [name], f)
           | _ => bad_unpack
           end)
        ([], static_lump)
  | _ => bad_unpack
  end.

Definition scalar_of_pyval (v : pyval) : scalar :=
  match v with
  | PInt z => SInt z
  | PFloat f => SFloat f
  | PBool b => SInt (if b then 1 else 0)
  | PBytes _ => SInt 0
  end.

Definition ints_of (vals : list pyval) : list Z :=
  flat_map (fun v => match v with PInt z => [z] | _ => [] end) vals.

(** The body of the loop over the props: one record, of the layout of the
    given version. *)
Definition read_static_prop (version : Z) (model_dict : list string)
    (visleaf_list : list Z) (static_lump : File)
  : PyResult (StaticProp * File) :=
  '(vals, f) <- struct_read "fff" static_lump ;;
  origin <- Vec_from_iter (map scalar_of_pyval vals) (SFloat zero) (SFloat zero) ;;
  '(vals, f) <- struct_read "fff" f ;;
  angles <- Angle_from_iter (map scalar_of_pyval vals) (SFloat zero) (SFloat zero) ;;
  '(vals, f) <- struct_read "<H" f ;;
  match vals with
  | [PInt model_ind] =>
  '(vals, f) <- struct_read "<HHBBiff" f ;;
  match vals with
  | [PInt first_leaf; PInt leaf_count; PInt solidity; PInt flags; PInt skin;
     PFloat min_fade; PFloat max_fade] =>
  model_name <- py_index model_dict model_ind ;;
  let visleafs := py_slice visleaf_list first_leaf (first_leaf + leaf_count) in
  '(vals, f) <- struct_read "<fff" f ;;
  lighting_origin <-
    Vec_from_iter (map scalar_of_pyval vals) (SFloat zero) (SFloat zero) ;;
  '(fade_scale, f) <-
    (if 5 <=? version then
       '(vals, f) <- struct_read "<f" f ;;
       v <- py_index vals 0 ;; Ok (scalar_of_pyval v, f)
     else Ok (SInt 1, f)) ;;
  '(min_dx_level, max_dx_level, f) <-
    (if (version =? 6) || (version =? 7) then
       '(vals, f) <- struct_read "<HH" f ;;
       match vals with
       | [PInt a; PInt b] => Ok (a, b, f)
       | _ => bad_unpack
       end
     else Ok (0, 0, f)) ;;
  '(min_cpu_level, max_cpu_level, min_gpu_level, max_gpu_level, f) <-
    (if 8 <=? version then
       '(vals, f) <- struct_read "BBBB" f ;;
       match vals with
       | [PInt a; PInt b; PInt c; PInt d] => Ok (a, b, c, d, f)
       | _ => bad_unpack
       end
     else Ok (0, 0, 0, 0, f)) ;;
  '(tint, renderfx, f) <-
    (if 7 <=? version then
       '(vals, f) <- struct_read "BBBB" f ;;
       match vals with
       | [PInt r; PInt g; PInt b; PInt renderfx] =>
           (* Alpha isn't used. *)
           tint <- Vec_init (SInt r) (SInt g) (SInt b) ;;
           Ok (tint, renderfx, f)
       | _ => bad_unpack
       end
     else
       tint <- Vec_init (SInt 255) (SInt 255) (SInt 255) ;;
       Ok (tint, 255, f)) ;;
  f <- (if 11 <=? version then
          (* Unknown data, though it's float-like. *)
          '(_, f) <- struct_read "<i" f ;; Ok f
        else Ok f) ;;
  '(flags, f) <-
    (if 10 <=? version then
       (* Extra flags, post-CSGO. *)
       '(vals, f) <- struct_read "<I" f ;;
       match vals with
       | [PInt hi] => Ok (Z.lor flags (Z.shiftl hi 8), f)
       | _ => bad_unpack
       end
     else Ok (flags, f)) ;;
  flags <- StaticPropFlags_of_value flags ;;
  '(scaling, disable_on_xbox, f) <-
    (if 11 <=? version then
       (* XBox support was removed. Instead this is the scaling factor. *)
       '(vals, f) <- struct_read "<f" f ;;
       match vals with
       | [PFloat scaling] => Ok (scaling, false, f)
       | _ => bad_unpack
       end
     else if 9 <=? version then
       (* The single boolean byte also produces 3 pad bytes. *)
       '(vals, f) <- struct_read "<?xxx" f ;;
       match vals with
       | [PBool d] => Ok (one, d, f)
       | _ => bad_unpack
       end
     else Ok (one, false, f)) ;;
  Ok (mkStaticProp model_name origin angles scaling visleafs solidity flags
        skin min_fade max_fade lighting_origin fade_scale
        min_dx_level max_dx_level
        min_cpu_level max_cpu_level min_gpu_level max_gpu_level
        (Vec_copy tint) renderfx disable_on_xbox,
      f)
  | _ => bad_unpack
  end
  | _ => bad_unpack
  end.

(** What [static_props] does once the version is accepted: the model names,
    the visleaf list, then one prop per record. *)
Definition decode_static_props (version : Z) (data : bytes)
  : generated StaticProp :=
  let static_lump := file_open data in
  match
    ('(model_dict, f) <- read_static_props_models static_lump ;;
     '(vals, f) <- struct_read "<i" f ;;
     match vals with
     | [PInt visleaf_count] =>
         '(vals, f) <- struct_read (str_repeat "H" visleaf_count) f ;;
         let visleaf_list := ints_of vals in
         '(vals, f) <- struct_read "<i" f ;;
         match vals with
         | [PInt prop_count] => Ok (model_dict, visleaf_list, prop_count, f)
         | _ => bad_unpack
         end
     | _ => bad_unpack
     end)
  with
  | Raise e => ([], Some e)
  | Ok (model_dict, visleaf_list, prop_count, f) =>
      gen_for (Z.to_nat prop_count)
        (read_static_prop version model_dict visleaf_list) f
  end.

Definition sprp : bytes := bytes_of_string "sprp".

(** The decimal text of an int, as [str.format] prints it. *)
Definition str_of_int (z : Z) : string :=
  DecimalString.NilZero.string_of_int (Z.to_int z).

Definition unknown_version (version : Z) : exn :=
  ValueError ("Unknown version (" ++ str_of_int version ++ ")!").

Definition version_too_old : exn :=
  ValueError "Static prop version {} is too old!".

(** [BSP.static_props], run to its end. *)
Definition static_props (self : BSP) : generated StaticProp :=
  (* The version of the static prop format - different features. *)
  match dict_get bytes_eqb (game_lumps self) sprp with
  | None => ([], Some (ValueError "No static prop lump!"))
  | Some lump =>
      let version := gl_version lump in
      if 11 <? version then ([], Some (unknown_version version))
      else if version <? 4 then
        (* Predates HL2... *)
        ([], Some version_too_old)
      else decode_static_props version (gl_data lump)
  end.

(** ** Entity lump *)

Definition is_prefix (p l : bytes) : bool :=
  bytes_eqb (firstn (List.length p) l) p.

(** [b.splitlines()] on bytes: the line boundaries are [\n], [\r] and
    [\r\n]; no empty line follows a final boundary. *)
Fixpoint splitlines_go (l : bytes) (cur : bytes) (after_cr : bool) : list bytes :=
  match l with
  | [] => match cur with [] => [] | _ => [rev cur] end
  | c :: r =>
      match c with
      | x0a => if after_cr then splitlines_go r [] false
               else rev cur :: splitlines_go r [] false
      | x0d => rev cur :: splitlines_go r [] true
      | _ => splitlines_go r (c :: cur) false
      end
  end.

Definition splitlines (b : bytes) : list bytes := splitlines_go b [] false.

(** [b.split(sep, maxsplit)] *)
Fixpoint split_go (sep : bytes) (l : bytes) (skip maxsplit : nat) (cur : bytes)
  : list bytes :=
  match l with
  | [] => [rev cur]
  | c :: r =>
      match skip with
      | S k => split_go sep r k maxsplit cur
      | O =>
          match maxsplit with
          | S m =>
              if is_prefix sep l
              then rev cur :: split_go sep r (List.length sep - 1) m []
              else split_go sep r 0 maxsplit (c :: cur)
          | O => split_go sep r 0 maxsplit (c :: cur)
          end
      end
  end.

Definition bytes_split (b sep : bytes) (maxsplit : nat) : list bytes :=
  split_go sep b 0 maxsplit [].

(** [b.replace(old, new)] for a non-empty [old]. *)
Fixpoint bytes_replace_go (old new : bytes) (l : bytes) (skip : nat) : bytes :=
  match l with
  | [] => []
  | c :: r =>
      match skip with
      | S k => bytes_replace_go old new r k
      | O =>
          if is_prefix old l
          then new ++ bytes_replace_go old new r (List.length old - 1)
          else c :: bytes_replace_go old new r 0
      end
  end.

Definition bytes_replace (b old new : bytes) : bytes :=
  bytes_replace_go old new b 0.

(** [n in b] and [b.count(c)] for a byte. *)
Definition byte_in (n : Z) (b : bytes) : bool :=
  existsb (fun c => byte_to_Z c =? n) b.

Definition bytes_count (b : bytes) (c : byte) : Z :=
  len (filter (fun d => byte_to_Z d =? byte_to_Z c) b).

(** The byte strings of the key/value lines: the separator between a key and
    its value (quote, space, quote), an escaped quote (backslash, quote) and
    a quote. *)
Definition KV_SEP : bytes := [x22; x20; x22].
Definition ESCAPED_QUOTE : bytes := [x5c; x22].
Definition QUOTE : bytes := [x22].

(** [b[1:]] and [b[:-1]] *)
Definition drop_first (b : bytes) : bytes := tl b.
Definition drop_last (b : bytes) : bytes := removelast b.

(** What [read_ent_data] uses of [srctools.vmf], [srctools.property_parser]
    and [srctools.conv_int], none of which is among the sources: the classes
    [VMF], [Entity] and [Output] with the operations called on them. *)
Class VmfOps (VMF Entity Output : Type) : Type := {
  VMF_new : VMF;                                       (* VMF() *)
  vmf_spawn : VMF -> Entity;                           (* vmf.spawn *)
  vmf_with_spawn : VMF -> Entity -> VMF;               (* vmf.spawn, mutated *)
  Entity_new : VMF -> Entity;                          (* Entity(vmf) *)
  ent_getitem : Entity -> string -> string;            (* ent[key] *)
  ent_setitem : Entity -> string -> string -> Entity;  (* ent[key] = value *)
  ent_add_out : Entity -> Output -> Entity;            (* ent.add_out(out) *)
  vmf_add_ent : VMF -> Entity -> VMF;                  (* vmf.add_ent(ent) *)
  vmf_map_ver : VMF -> Z;                              (* vmf.map_ver *)
  vmf_with_map_ver : VMF -> Z -> VMF;
  (* Output.parse(Property(key, value)) *)
  Output_parse : string -> string -> PyResult Output;
  conv_int : string -> Z -> Z
}.

Section EntData.
Context {VMF Entity Output : Type} {ops : VmfOps VMF Entity Output}.

(** [cur_ent]: [None] between brackets, the world spawn of the VMF (the
    same object as [vmf.spawn]), or an entity not yet added to the VMF. *)
Inductive cur_ent_t : Type :=
| CurNone
| CurSpawn
| CurEnt (e : Entity).

Record ent_state : Type := mkEntState {
  st_vmf : VMF;
  st_cur : cur_ent_t;
  st_seen_spawn : bool
}.

(** One turn of the loop either goes on with the next line or returns. *)
Inductive line_result : Type :=
| Next (s : ent_state)
| Return (vmf : VMF).

(** An update of the entity [cur_ent] refers to: the world spawn is
    updated inside the VMF. *)
Definition update_cur (s : ent_state) (f : Entity -> Entity)
  : PyResult ent_state :=
  match st_cur s with
  | CurNone => Raise (AttributeError "'NoneType' object")
  | CurSpawn =>
      Ok (mkEntState (vmf_with_spawn (st_vmf s) (f (vmf_spawn (st_vmf s))))
                     CurSpawn (st_seen_spawn s))
  | CurEnt e => Ok (mkEntState (st_vmf s) (CurEnt (f e)) (st_seen_spawn s))
  end.

(** The end of the loop body: a keyvalue or a connection. *)
Definition read_keyvalue (line : bytes) (s : ent_state) : PyResult ent_state :=
  match st_cur s with
  | CurNone => Raise (ValueError "Keyvalue outside brackets!")
  | _ =>
      match bytes_split line KV_SEP 2 with
      | [key; value] =>
          decoded_key <- decode_ascii (drop_first key) ;;
          decoded_value <-
            decode_ascii
              (bytes_replace (drop_last value) ESCAPED_QUOTE QUOTE) ;;
          if byte_in 27 value then
            (* All outputs use the comma_sep, so we can ID them. *)
            out <- Output_parse decoded_key decoded_value ;;
            update_cur s (fun e => ent_add_out e out)
          else if bytes_count value ","%byte =? 4 then
            match Output_parse decoded_key decoded_value with
            | Ok out => update_cur s (fun e => ent_add_out e out)
            | Raise err =>
                if is_ValueError err
                then update_cur s (fun e => ent_setitem e decoded_key decoded_value)
                else Raise err
            end
          else
            (* Normal keyvalue. *)
            update_cur s (fun e => ent_setitem e decoded_key decoded_value)
      | _ => Raise (ValueError "values to unpack")
      end
  end.

(** The body of the loop over the lines. *)
Definition read_ent_line (line : bytes) (s : ent_state) : PyResult line_result :=
  if bytes_eqb line (bytes_of_string "{") then
    match st_cur s with
    | CurNone =>
        if negb (st_seen_spawn s)
        then Ok (Next (mkEntState (st_vmf s) CurSpawn true))
        else Ok (Next (mkEntState (st_vmf s) (CurEnt (Entity_new (st_vmf s)))
                                  (st_seen_spawn s)))
    | _ => Raise (ValueError "2 levels of nesting")
    end
  else if bytes_eqb line (bytes_of_string "}") then
    match st_cur s with
    | CurNone => Raise (ValueError "Too many closing brackets")
    | CurSpawn =>
        if negb (String.eqb (ent_getitem (vmf_spawn (st_vmf s)) "classname")
                            "worldspawn")
        then Raise (ValueError "No worldspawn entity!")
        else Ok (Next (mkEntState (st_vmf s) CurNone (st_seen_spawn s)))
    | CurEnt e =>
        (* The spawn ent is stored in the attribute, not in the ent list. *)
        Ok (Next (mkEntState (vmf_add_ent (st_vmf s) e) CurNone (st_seen_spawn s)))
    end
  else if bytes_eqb line [x00] then
    (* Null byte at end of lump. *)
    match st_cur s with
    | CurNone => Ok (Return (st_vmf s))
    | _ => Raise (ValueError "Last entity didn't end!")
    end
  else
    s' <- read_keyvalue line s ;; Ok (Next s').

Fixpoint read_ent_lines (lines : list bytes) (s : ent_state) : PyResult VMF :=
  match lines with
  | [] =>
      (* This keyvalue needs to be stored in the VMF object too. *)
      let vmf := st_vmf s in
      Ok (vmf_with_map_ver vmf
            (conv_int (ent_getitem (vmf_spawn vmf) "mapversion") (vmf_map_ver vmf)))
  | line :: rest =>
      r <- read_ent_line line s ;;
      match r with
      | Next s' => read_ent_lines rest s'
      | Return vmf => Ok vmf
      end
  end.

(** The loop over the first lines of a lump, stopped before the others:
    the state it is in then, or the VMF it has returned. *)
Fixpoint read_ent_prefix (lines : list bytes) (s : ent_state)
  : PyResult line_result :=
  match lines with
  | [] => Ok (Next s)
  | line :: rest =>
      r <- read_ent_line line s ;;
      match r with
      | Next s' => read_ent_prefix rest s'
      | Return vmf => Ok (Return vmf)
      end
  end.

(** [BSP.read_ent_data] *)
Definition read_ent_data (self : BSP) : PyResult VMF :=
  ent_data <- get_lump self ENTITIES ;;
  read_ent_lines (splitlines ent_data) (mkEntState VMF_new CurNone false).
End EntData.

(** ** A reference implementation of the VMF classes *)

Module SimpleVmf.

Record Output : Type := mkOutput {
  out_name : string;
  out_target : string;
  out_input : string;
  out_param : string;
  out_delay : string;
  out_times : string
}.

Record Entity : Type := mkEntity {
  keys : list (string * string);
  outputs : list Output
}.

Record VMF : Type := mkVMF {
  spawn : Entity;
  entities : list Entity;
  map_ver : Z
}.

Fixpoint str_split_go (sep : ascii) (s : string) (cur : string) : list string :=
  match s with
  | EmptyString => [cur]
  | String c r =>
      if Ascii.eqb c sep then cur :: str_split_go sep r EmptyString
      else str_split_go sep r (cur ++ String c EmptyString)
  end.

Definition str_split (sep : ascii) (s : string) : list string :=
  str_split_go sep s EmptyString.

Definition is_digit (c : ascii) : bool :=
  let n := nat_of_ascii c in (48 <=? n)%nat && (n <=? 57)%nat.

Definition unsigned_part (s : string) : string :=
  match s with
  | String "-"%char r => r
  | String "+"%char r => r
  | _ => s
  end.

Definition all_digits (s : string) : bool :=
  match s with
  | EmptyString => false
  | _ => forallb is_digit (list_ascii_of_string s)
  end.

Definition is_int_str (s : string) : bool := all_digits (unsigned_part s).

Definition is_float_str (s : string) : bool :=
  match str_split "."%char (unsigned_part s) with
  | [a] => all_digits a
  | [a; b] =>
      match a, b with
      | EmptyString, EmptyString => false
      | _, _ =>
          forallb is_digit (list_ascii_of_string a)
          && forallb is_digit (list_ascii_of_string b)
      end
  | _ => false
  end.

Definition int_of_str (s : string) : Z :=
  let mag :=
    fold_left (fun acc c => 10 * acc + Z.of_nat (nat_of_ascii c - 48))
              (list_ascii_of_string (unsigned_part s)) 0 in
  match s with
  | String "-"%char _ => - mag
  | _ => mag
  end.

Definition str_contains (c : ascii) (s : string) : bool :=
  existsb (Ascii.eqb c) (list_ascii_of_string s).

(** Modelled from the spec: [Output.parse] lives in [srctools/vmf.py],
    which is not among the sources.  Section 4.3: outputs are comma- or
    0x1D-separated records of the form
    [target,input,parameter,delay,times_to_fire] in the value; a value of
    another shape, or whose delay or times to fire is not a number, does
    not parse.  The reader takes [Output.parse] as an operation of
    [VmfOps] and what is proved of it holds for every parser; this one
    serves the examples that are run. *)
Definition parse (key value : string) : PyResult Output :=
  let sep := if str_contains "029"%char value then "029"%char else ","%char in
  match str_split sep value with
  | [target; input; param; delay; times] =>
      if is_float_str delay && is_int_str times
      then Ok (mkOutput key target input param delay times)
      else Raise (ValueError "could not convert")
  | _ => Raise (ValueError "Bad number of values")
  end.

(** Modelled from the spec: [Entity] and [VMF] live in [srctools/vmf.py],
    which is not among the sources.  Section 4.3: an entity's body is its
    key/value lines followed by its output lines; the VMF holds the world
    spawn and the other entities in order.  Reading a key that is not set
    gives the empty string. *)
Definition getitem (e : Entity) (key : string) : string :=
  match dict_get String.eqb (keys e) key with
  | Some v => v
  | None => EmptyString
  end.

Definition setitem (e : Entity) (key value : string) : Entity :=
  mkEntity (dict_set String.eqb (keys e) key value) (outputs e).

Definition add_out (e : Entity) (o : Output) : Entity :=
  mkEntity (keys e) (outputs e ++ [o]).

Definition add_ent (v : VMF) (e : Entity) : VMF :=
  mkVMF (spawn v) (entities v ++ [e]) (map_ver v).

(** Modelled from the spec: [conv_int] lives in [srctools/__init__.py],
    which is not among the sources: the int a string spells, the default
    for a string that spells none. *)
Definition conv_int_str (s : string) (default : Z) : Z :=
  if is_int_str s then int_of_str s else default.

#[export] Instance ops : VmfOps VMF Entity Output := {
  VMF_new := mkVMF (mkEntity [] []) [] 0;
  vmf_spawn := spawn;
  vmf_with_spawn v e := mkVMF e (entities v) (map_ver v);
  Entity_new _ := mkEntity [] [];
  ent_getitem := getitem;
  ent_setitem := setitem;
  ent_add_out := add_out;
  vmf_add_ent := add_ent;
  vmf_map_ver := map_ver;
  vmf_with_map_ver v n := mkVMF (spawn v) (entities v) n;
  Output_parse := parse;
  conv_int := conv_int_str
}.

End SimpleVmf.

(** A BSP whose ENTITIES lump holds the given bytes. *)
Definition bsp_with_lump (l : BSP_LUMPS) (data : bytes) : BSP :=
  mkBSP 0 [(l, mkLump l 0 [0; 0; 0; 0] data)] [] 0 (VMember VER_20).

(** ** Concrete files *)

(** A directory entry with version 0 and a zero ident. *)
Definition dir_entry (offset length : Z) : bytes :=
  le_encode 4 offset ++ le_encode 4 length ++ zero_bytes 8.

(** Magic, version 20, 64 all-zero directory entries, map revision 0. *)
Definition empty_bsp : bytes :=
  BSP_MAGIC ++ le_encode 4 20 ++ zero_bytes (64 * 16) ++ le_encode 4 0.

(** The same header over a game lump that holds its count (zero), with the
    directory as [save] lays it out: the empty lumps written before the game
    lump sit at 1036, the 4-byte game lump too, the others at 1040. *)
Definition minimal_bsp : bytes :=
  BSP_MAGIC ++ le_encode 4 20
  ++ List.concat (map (fun l => if lump_value l <? 35 then dir_entry 1036 0
                           else if lump_value l =? 35 then dir_entry 1036 4
                           else dir_entry 1040 0) all_lumps)
  ++ le_encode 4 0
  ++ le_encode 4 0.

(** The same file with zero offsets in the directory of its empty lumps. *)
Definition zero_offset_bsp : bytes :=
  BSP_MAGIC ++ le_encode 4 20
  ++ List.concat (map (fun l => if lump_value l =? 35 then dir_entry 1036 4
                           else dir_entry 0 0) all_lumps)
  ++ le_encode 4 0
  ++ le_encode 4 0.

Definition empty_lumps : list (BSP_LUMPS * Lump) :=
  map (fun l => (l, Lump_init l 0 (zero_bytes 4))) all_lumps.

(** The BSP object of version 20 with 64 empty lumps and no game lump. *)
Definition minimal_BSP : BSP := mkBSP 0 empty_lumps [] 0 (VMember VER_20).

(** A visleaf tree of one plane, one node and two leaves: the node's
    children are the indexes -1 and -2, the leaves' area-and-flags words are
    0x0080 and 0xff85. *)
Definition tiny_plane : bytes :=
  le_encode 4 0x3f800000 ++ le_encode 4 0 ++ le_encode 4 0
  ++ le_encode 4 0x41000000 ++ le_encode 4 0.

Definition tiny_bounds : bytes :=
  le_encode 2 (-16) ++ le_encode 2 (-16) ++ le_encode 2 (-16)
  ++ le_encode 2 16 ++ le_encode 2 16 ++ le_encode 2 16.

Definition tiny_node (plane neg pos : Z) : bytes :=
  le_encode 4 plane ++ le_encode 4 neg ++ le_encode 4 pos ++ tiny_bounds
  ++ le_encode 2 0 ++ le_encode 2 0 ++ le_encode 2 0 ++ zero_bytes 2.

Definition tiny_leaf (area_and_flags : Z) : bytes :=
  le_encode 4 0 ++ le_encode 2 (-1) ++ le_encode 2 area_and_flags
  ++ tiny_bounds
  ++ le_encode 2 0 ++ le_encode 2 0 ++ le_encode 2 0 ++ le_encode 2 0
  ++ le_encode 2 (-1) ++ zero_bytes 2.

Definition tiny_vis_lumps : list (BSP_LUMPS * Lump) :=
  [(PLANES, mkLump PLANES 0 [0; 0; 0; 0] tiny_plane);
   (NODES, mkLump NODES 0 [0; 0; 0; 0] (tiny_node 0 (-1) (-2)));
   (LEAFS, mkLump LEAFS 0 [0; 0; 0; 0] (tiny_leaf 0x0080 ++ tiny_leaf 0xff85))].

Definition tiny_vis_bsp : BSP := mkBSP 0 tiny_vis_lumps [] 0 (VMember VER_20).

Definition tiny_box_min : Vec :=
  Eval vm_compute in
    match Vec_init (SInt (-16)) (SInt (-16)) (SInt (-16)) with
    | Ok v => v
    | Raise _ => Vec.mk zero zero zero
    end.

Definition tiny_box_max : Vec :=
  Eval vm_compute in
    match Vec_init (SInt 16) (SInt 16) (SInt 16) with
    | Ok v => v
    | Raise _ => Vec.mk zero zero zero
    end.

Definition tiny_vis_heap : VisHeap :=
  mkVisHeap
    [mkVisTree (Vec.mk one zero zero) (PyFloat.normalize 8 0)
       tiny_box_min tiny_box_max (Some (RefLeaf 0)) (Some (RefLeaf 1))]
    [VisLeaf_init 0 0x0080 tiny_box_min tiny_box_max 0 0 0 0 (-1);
     VisLeaf_init 1 (0xff85 - 0x10000) tiny_box_min tiny_box_max 0 0 0 0 (-1)]
    (RefTree 0).

(** A visleaf tree of two nodes and three leaves: the first node has the
    first leaf and the second node as its children, the second node the two
    other leaves. *)
Definition twin_vis_lumps : list (BSP_LUMPS * Lump) :=
  [(PLANES, mkLump PLANES 0 [0; 0; 0; 0] tiny_plane);
   (NODES, mkLump NODES 0 [0; 0; 0; 0]
             (tiny_node 0 (-1) 1 ++ tiny_node 0 (-2) (-3)));
   (LEAFS, mkLump LEAFS 0 [0; 0; 0; 0]
             (tiny_leaf 0x0080 ++ tiny_leaf 0xff85 ++ tiny_leaf 0x0100))].

Definition twin_vis_bsp : BSP := mkBSP 0 twin_vis_lumps [] 0 (VMember VER_20).

Definition twin_vis_heap : VisHeap :=
  mkVisHeap
    [mkVisTree (Vec.mk one zero zero) (PyFloat.normalize 8 0)
       tiny_box_min tiny_box_max (Some (RefLeaf 0)) (Some (RefTree 1));
     mkVisTree (Vec.mk one zero zero) (PyFloat.normalize 8 0)
       tiny_box_min tiny_box_max (Some (RefLeaf 1)) (Some (RefLeaf 2))]
    [VisLeaf_init 0 0x0080 tiny_box_min tiny_box_max 0 0 0 0 (-1);
     VisLeaf_init 1 (0xff85 - 0x10000) tiny_box_min tiny_box_max 0 0 0 0 (-1);
     VisLeaf_init 2 0x0100 tiny_box_min tiny_box_max 0 0 0 0 (-1)]
    (RefTree 0).

(** What follows the magic and the version in [minimal_bsp]. *)
Definition minimal_bsp_tail : bytes := skipn 8 minimal_bsp.

(** The object a child index denotes, in the words of the specification: a
    negative index [c] is the leaf [-1 - c], any other the node [c]. *)
Definition child_ref (c : Z) : vis_ref :=
  if c <? 0 then RefLeaf (Z.to_nat (-1 - c)) else RefTree (Z.to_nat c).

(** A reference into the lists of a heap. *)
Definition ref_in_heap (h : VisHeap) (r : vis_ref) : Prop :=
  match r with
  | RefLeaf i => (i < List.length (heap_leafs h))%nat
  | RefTree i => (i < List.length (heap_trees h))%nat
  end.

(** The [k]-th value of the [i]-th record. *)
Definition field (recs : list (list pyval)) (i k : nat) : option pyval :=
  match nth_error recs i with
  | Some rec => nth_error rec k
  | None => None
  end.

(** [minimal_BSP] read from a file that gives the version 25, which no member
    of [VERSIONS] has. *)
Definition plain_version_BSP : BSP := mkBSP 0 empty_lumps [] 0 (VPlain 25).

(** The error kind of a static-prop lump of a version outside 4..11: one of
    the two errors [static_props] raises on the version. *)
Definition UnsupportedStaticPropVersion (e : exn) : Prop :=
  (exists v, e = unknown_version v) \/ e = version_too_old.

(** The errors the decoding of records can end in. *)
Definition decoding_errors : list exn :=
  [StructError; ValueError "read length must be non-negative or -1";
   ValueError "unpack"; ValueError "not a valid StaticPropFlags";
   UnicodeDecodeError; IndexError; OverflowError; ZeroDivisionError].

(** One prop record of each layout, over one model name and three visleaf
    indexes. *)
Definition prop_record (v : Z) : bytes :=
  le_encode 4 0x3f800000 ++ le_encode 4 0x40000000 ++ le_encode 4 0x40400000
  ++ le_encode 4 0xc2b40000 ++ le_encode 4 0x43b40000 ++ le_encode 4 0x44340000
  ++ le_encode 2 0
  ++ le_encode 2 1 ++ le_encode 2 2 ++ [x06; x03] ++ le_encode 4 0
  ++ le_encode 4 0 ++ le_encode 4 0
  ++ le_encode 4 0 ++ le_encode 4 0 ++ le_encode 4 0
  ++ (if 5 <=? v then le_encode 4 0x3f800000 else [])
  ++ (if (v =? 6) || (v =? 7) then le_encode 2 80 ++ le_encode 2 95 else [])
  ++ (if 8 <=? v then [x01; x02; x03; x04] else [])
  ++ (if 7 <=? v then [x0a; x14; x1e; xff] else [])
  ++ (if 11 <=? v then le_encode 4 0 else [])
  ++ (if 10 <=? v then le_encode 4 5 else [])
  ++ (if 11 <=? v then le_encode 4 0x40200000
      else if 9 <=? v then [x01; x00; x00; x00] else []).

Definition sprp_data (v : Z) : bytes :=
  le_encode 4 1 ++ Struct.pad_to 128 (bytes_of_string "models/props/a.mdl")
  ++ le_encode 4 3 ++ le_encode 2 7 ++ le_encode 2 8 ++ le_encode 2 9
  ++ le_encode 4 1 ++ prop_record v.

Definition sprp_lump (v : Z) : GameLump := mkGameLump sprp 0 v (sprp_data v).

Definition sprp_bsp (v : Z) : BSP :=
  mkBSP 0 [] [(sprp, sprp_lump v)] 0 (VMember VER_20).

(** Entity lumps. *)
Definition ent_line (key : string) (value : bytes) : bytes :=
  QUOTE ++ bytes_of_string key ++ KV_SEP ++ value ++ QUOTE ++ [x0a].

Definition open_brace : bytes := bytes_of_string "{" ++ [x0a].
Definition close_brace : bytes := bytes_of_string "}" ++ [x0a].

(** The world spawn alone, closed by the NUL. *)
Definition worldspawn_lump : bytes :=
  open_brace ++ ent_line "classname" (bytes_of_string "worldspawn")
  ++ close_brace ++ [x00].

(** The connection [relay,Trigger,,0,-1] with 0x1D for the commas. *)
Definition x1d_value : bytes :=
  bytes_of_string "relay" ++ [x1d] ++ bytes_of_string "Trigger" ++ [x1d; x1d]
  ++ bytes_of_string "0" ++ [x1d] ++ bytes_of_string "-1".

Definition x1d_lump : bytes :=
  open_brace ++ ent_line "classname" (bytes_of_string "worldspawn")
  ++ ent_line "OnTrigger" x1d_value
  ++ close_brace ++ [x00].

(** The same connection with commas, and a value with two commas. *)
Definition comma_lump : bytes :=
  open_brace ++ ent_line "classname" (bytes_of_string "worldspawn")
  ++ ent_line "OnTrigger" (bytes_of_string "relay,Trigger,,0,-1")
  ++ ent_line "OnBad" (bytes_of_string "a,b,c,d,e")
  ++ ent_line "origin" (bytes_of_string "a,b,c")
  ++ close_brace ++ [x00].

(** The line ["OnBad" "a,b,c,d,e"], its key with the opening quote and its
    value with the closing one. *)
Definition on_bad_key : bytes := QUOTE ++ bytes_of_string "OnBad".
Definition on_bad_value : bytes := bytes_of_string "a,b,c,d,e" ++ QUOTE.
Definition on_bad_line : bytes := on_bad_key ++ KV_SEP ++ on_bad_value.

(** The lines of [worldspawn_lump] before the NUL, and the state of the
    loop of [read_ent_data] after them, with the reference classes. *)
Definition worldspawn_lines : list bytes :=
  [bytes_of_string "{";
   QUOTE ++ bytes_of_string "classname" ++ KV_SEP
     ++ bytes_of_string "worldspawn" ++ QUOTE;
   bytes_of_string "}"].

Definition after_worldspawn : @ent_state SimpleVmf.VMF SimpleVmf.Entity :=
  mkEntState
    (SimpleVmf.mkVMF
       (SimpleVmf.mkEntity [("classname", "worldspawn")]%string []) [] 0)
    CurNone true.

(** The terminator line and what follows it. *)
Definition NUL_LINE : bytes := [x0a; x00; x0a].
Definition garbage : bytes := bytes_of_string "garbage".

(** The vector (1, 2, 3) and the float 2.0. *)
Definition vec_123 : Vec :=
  Vec.mk one (PyFloat.normalize 2 0) (PyFloat.normalize 3 0).
Definition float_2 : float := Eval vm_compute in PyFloat.normalize 2 0.

(** The error kind of a product or quotient of two vectors. *)
Definition AmbiguousVectorProduct (e : exn) : Prop :=
  (exists op, e = cannot_2_vectors op) \/ e = TypeError "Cannot divide 2 Vectors.".

(** A BSP with empty lumps and two game lumps. *)
Definition two_game_lumps : list (bytes * GameLump) :=
  [(sprp, mkGameLump sprp 0 6 (sprp_data 6));
   (bytes_of_string "abcd", mkGameLump (bytes_of_string "abcd") 1 2 [x2a])].

Definition game_lump_BSP : BSP :=
  mkBSP 7 empty_lumps two_game_lumps 0 (VMember VER_20).

(** A directory entry of the game lump as it is on disk. *)
Definition game_lump_entry (id_on_disk : bytes) (flags version file_off file_len : Z)
  : bytes :=
  id_on_disk ++ le_encode 2 flags ++ le_encode 2 version
  ++ le_encode 4 file_off ++ le_encode 4 file_len.

(** ** The range of an angle *)

(** [0 <= r < 360] on floats. *)
Definition in_0_360 (r : float) : bool :=
  (zero <=? r)%float && (r <? PyFloat.cst_360)%float.

Definition Angle_in_range (a : Angle) : bool :=
  in_0_360 (Angle.pitch a) && in_0_360 (Angle.yaw a) && in_0_360 (Angle.roll a).

(** A number whose conversion to [float] is neither an infinity nor a NaN. *)
Definition scalar_finite (s : scalar) : bool :=
  match s with
  | SInt z => PyFloat.is_finite (PyFloat.normalize z 0)
  | SFloat f => PyFloat.is_finite f
  end.

(** The mantissa of 360: [360 = m360 * 2^-44]. *)
Definition m360 : positive := 6333186975989760.

(** A binary64 value of magnitude below 360: at exponent [e] the mantissa
    stays below that of 360 at the same exponent. *)
Definition below_360 (s : spec_float) : Prop :=
  match s with
  | S754_zero _ => True
  | S754_finite _ m e =>
      -1074 <= e <= -44 /\ Z.pos m < Z.pos m360 * 2 ^ (-44 - e)
  | _ => False
  end.

(** A value in the closed interval from [+0] to [360]. *)
Definition upto_360 (s : spec_float) : Prop :=
  match s with
  | S754_zero false => True
  | S754_finite false m e =>
      -1074 <= e <= -44 /\ Z.pos m <= Z.pos m360 * 2 ^ (-44 - e)
  | _ => False
  end.

(** A component as the normalisation leaves it: in [0, 360), or the NaN
    that the modulus of an infinity or of a NaN is. *)
Definition component_ok (r : float) : bool := in_0_360 r || is_nan r.

Definition Angle_normalised (a : Angle) : bool :=
  component_ok (Angle.pitch a) && component_ok (Angle.yaw a)
  && component_ok (Angle.roll a).

(** The ways an [Angle] is built or changed. *)
Inductive mutation : Type :=
| Construct (pitch yaw roll : scalar)
| ConstructIter (it : list scalar) (yaw roll : scalar)
| Copy
| SetPitch (v : scalar)
| SetYaw (v : scalar)
| SetRoll (v : scalar)
| SetItem (ind : axis_key) (v : scalar)
| Mul (s : scalar)
| RMul (s : scalar)
| MatMul (other : Angle)
| RMatMul (other : Angle)
| Transform (body : Matrix -> Matrix).

Section Mutate.
Variables math_sin math_cos : float -> float.
Variable math_atan2 : float -> float -> float.

(** The angle a mutation of [self] leaves (for the operators, returns). *)
Definition mutate (self : Angle) (m : mutation) : PyResult Angle :=
  match m with
  | Construct p y r => Angle_init p y r
  | ConstructIter it y r => Angle_from_iter it y r
  | Copy => Angle_copy self
  | SetPitch v => Angle_set_pitch self v
  | SetYaw v => Angle_set_yaw self v
  | SetRoll v => Angle_set_roll self v
  | SetItem ind v => Angle_setitem self ind v
  | Mul s => binop (Angle_mul self (OScalar s))
  | RMul s => binop (Angle_rmul self (OScalar s))
  | MatMul other => Angle_matmul math_sin math_cos math_atan2 self other
  | RMatMul other => Angle_rmatmul math_sin math_cos math_atan2 self other
  | Transform body => Angle_transform math_atan2 self body
  end.
End Mutate.

(** [Angle(359, 0, 0)], the finite factor [1e306], and [-1e-14]. *)
Definition angle_359 : Angle :=
  Angle.mk 0x1.67p+8%float zero zero.
Definition float_1e306 : float := 0x1.6c8e5ca239029p+1016%float.
Definition float_m1em14 : float := (-0x1.6849b86a12b9bp-47)%float.
Definition angle_0 : Angle := Angle.mk zero zero zero.

(** ** [Vec]: addition and subtraction *)

(** The operators [_VEC_ADDSUB_TEMP] is expanded for. *)
Inductive addsub : Type := op_add | op_sub.

(** [a op b] on two floats; neither operator raises.  The floats have a
    single NaN: the sign and the payload that the hardware copies from a NaN
    operand are not modelled, so an equation between results says of two
    NaNs only that both are NaN. *)
Definition float_addsub (op : addsub) (a b : float) : float :=
  match op with
  | op_add => (a + b)%float
  | op_sub => (a - b)%float
  end.

(** [a op other[i]] for a tuple and [a op other] for a number; anything else
    is a [TypeError]. *)
Definition float_addsub_operand (op : addsub) (a : float) (other : operand)
    (i : Z) : PyResult float :=
  match other with
  | OTuple l => s <- py_index l i ;; b <- float_of s ;; Ok (float_addsub op a b)
  | OScalar s => b <- float_of s ;; Ok (float_addsub op a b)
  | _ => Raise (TypeError "unsupported operand type(s)")
  end.

Definition operand_addsub_float (op : addsub) (other : operand) (i : Z)
    (a : float) : PyResult float :=
  match other with
  | OTuple l => s <- py_index l i ;; b <- float_of s ;; Ok (float_addsub op b a)
  | OScalar s => b <- float_of s ;; Ok (float_addsub op b a)
  | _ => Raise (TypeError "unsupported operand type(s)")
  end.

(** [Vec.__add__] and [Vec.__sub__]: the expansion of [_VEC_ADDSUB_TEMP]. *)
Definition Vec_addsub (op : addsub) (self : Vec) (other : operand)
  : PyResult (ret Vec) :=
  match other with
  | OVec o =>
      v <- Vec_init (SFloat (float_addsub op (Vec.x self) (Vec.x o)))
                    (SFloat (float_addsub op (Vec.y self) (Vec.y o)))
                    (SFloat (float_addsub op (Vec.z self) (Vec.z o))) ;;
      Ok (Returned v)
  | _ =>
      match
        (x <- float_addsub_operand op (Vec.x self) other 0 ;;
         y <- float_addsub_operand op (Vec.y self) other 1 ;;
         z <- float_addsub_operand op (Vec.z self) other 2 ;;
         Ok (x, y, z))
      with
      | Raise (TypeError _) => Ok NotImplemented
      | Raise e => Raise e
      | Ok (x, y, z) =>
          v <- Vec_init (SFloat x) (SFloat y) (SFloat z) ;; Ok (Returned v)
      end
  end.

(** [Vec.__radd__] and [Vec.__rsub__] *)
Definition Vec_raddsub (op : addsub) (self : Vec) (other : operand)
  : PyResult (ret Vec) :=
  match other with
  | OVec o =>
      v <- Vec_init (SFloat (float_addsub op (Vec.x o) (Vec.x self)))
                    (SFloat (float_addsub op (Vec.y o) (Vec.y self)))
                    (SFloat (float_addsub op (Vec.z o) (Vec.z self))) ;;
      Ok (Returned v)
  | _ =>
      match
        (x <- operand_addsub_float op other 0 (Vec.x self) ;;
         y <- operand_addsub_float op other 1 (Vec.y self) ;;
         z <- operand_addsub_float op other 2 (Vec.z self) ;;
         Ok (x, y, z))
      with
      | Raise (TypeError _) => Ok NotImplemented
      | Raise e => Raise e
      | Ok (x, y, z) =>
          v <- Vec_init (SFloat x) (SFloat y) (SFloat z) ;; Ok (Returned v)
      end
  end.

(** [Vec.__iadd__] and [Vec.__isub__]: the components are assigned one after
    the other, so the object is returned together with the outcome. *)
Definition Vec_iaddsub (op : addsub) (self : Vec) (other : operand)
  : Vec * PyResult (ret unit) :=
  match other with
  | OVec o =>
      (Vec.mk (float_addsub op (Vec.x self) (Vec.x o))
              (float_addsub op (Vec.y self) (Vec.y o))
              (float_addsub op (Vec.z self) (Vec.z o)),
       Ok (Returned tt))
  | OOther => (self, Ok NotImplemented)
  | _ =>
      match float_addsub_operand op (Vec.x self) other 0 with
      | Raise e => (self, Raise e)
      | Ok x =>
          let self := Vec.mk x (Vec.y self) (Vec.z self) in
          match float_addsub_operand op (Vec.y self) other 1 with
          | Raise e => (self, Raise e)
          | Ok y =>
              let self := Vec.mk (Vec.x self) y (Vec.z self) in
              match float_addsub_operand op (Vec.z self) other 2 with
              | Raise e => (self, Raise e)
              | Ok z => (Vec.mk (Vec.x self) (Vec.y self) z, Ok (Returned tt))
              end
          end
      end
  end.

(** [v + other] and [v - other] as Python evaluates them for the operands
    considered here, none of which has a reflected method accepting a
    [Vec]. *)
Definition Vec_add (v : Vec) (other : operand) : PyResult Vec :=
  binop (Vec_addsub op_add v other).

Definition Vec_sub (v : Vec) (other : operand) : PyResult Vec :=
  binop (Vec_addsub op_sub v other).

(** ** [Vec]: comparisons, items and products *)

(** [a != 0] on a float. *)
Definition float_nonzero (a : float) : bool := negb (a =? zero)%float.

(** [Vec.__neg__], [Vec.__pos__] and [Vec.__abs__] *)
Definition Vec_neg (self : Vec) : PyResult Vec :=
  Vec_init (SFloat (- Vec.x self)) (SFloat (- Vec.y self)) (SFloat (- Vec.z self)).

Definition Vec_pos (self : Vec) : PyResult Vec :=
  Vec_init (SFloat (Vec.x self)) (SFloat (Vec.y self)) (SFloat (Vec.z self)).

Definition Vec_abs (self : Vec) : PyResult Vec :=
  Vec_init (SFloat (abs (Vec.x self))) (SFloat (abs (Vec.y self)))
           (SFloat (abs (Vec.z self))).

(** [Vec.__bool__] and [Vec.__len__] *)
Definition Vec_bool (self : Vec) : bool :=
  float_nonzero (Vec.x self) || float_nonzero (Vec.y self)
  || float_nonzero (Vec.z self).

Definition Vec_len (self : Vec) : Z :=
  Z.b2z (float_nonzero (Vec.x self)) + Z.b2z (float_nonzero (Vec.y self))
  + Z.b2z (float_nonzero (Vec.z self)).

(** [Vec.__eq__] and [Vec.__ne__] with a [Vec]. *)
Definition Vec_eq (self other : Vec) : bool :=
  (Vec.x other =? Vec.x self)%float && (Vec.y other =? Vec.y self)%float
  && (Vec.z other =? Vec.z self)%float.

Definition Vec_ne (self other : Vec) : bool :=
  negb (Vec.x other =? Vec.x self)%float || negb (Vec.y other =? Vec.y self)%float
  || negb (Vec.z other =? Vec.z self)%float.

(** [Vec.__lt__], [__le__], [__gt__] and [__ge__] with a [Vec]. *)
Definition Vec_lt (self other : Vec) : bool :=
  (Vec.x self <? Vec.x other)%float && (Vec.y self <? Vec.y other)%float
  && (Vec.z self <? Vec.z other)%float.

Definition Vec_le (self other : Vec) : bool :=
  (Vec.x self <=? Vec.x other)%float && (Vec.y self <=? Vec.y other)%float
  && (Vec.z self <=? Vec.z other)%float.

Definition Vec_gt (self other : Vec) : bool :=
  (Vec.x other <? Vec.x self)%float && (Vec.y other <? Vec.y self)%float
  && (Vec.z other <? Vec.z self)%float.

Definition Vec_ge (self other : Vec) : bool :=
  (Vec.x other <=? Vec.x self)%float && (Vec.y other <=? Vec.y self)%float
  && (Vec.z other <=? Vec.z self)%float.

(** [Vec.__getitem__] and [Vec.__setitem__] *)
Definition Vec_getitem (self : Vec) (ind : axis_key) : PyResult float :=
  if axis_key_eqb ind (AxInt 0) || axis_key_eqb ind (AxStr "x") then
    Ok (Vec.x self)
  else if axis_key_eqb ind (AxInt 1) || axis_key_eqb ind (AxStr "y") then
    Ok (Vec.y self)
  else if axis_key_eqb ind (AxInt 2) || axis_key_eqb ind (AxStr "z") then
    Ok (Vec.z self)
  else Raise (KeyError "Invalid axis").

Definition Vec_setitem (self : Vec) (ind : axis_key) (val : scalar)
  : PyResult Vec :=
  if axis_key_eqb ind (AxInt 0) || axis_key_eqb ind (AxStr "x") then
    f <- float_of val ;; Ok (Vec.mk f (Vec.y self) (Vec.z self))
  else if axis_key_eqb ind (AxInt 1) || axis_key_eqb ind (AxStr "y") then
    f <- float_of val ;; Ok (Vec.mk (Vec.x self) f (Vec.z self))
  else if axis_key_eqb ind (AxInt 2) || axis_key_eqb ind (AxStr "z") then
    f <- float_of val ;; Ok (Vec.mk (Vec.x self) (Vec.y self) f)
  else Raise (KeyError "Invalid axis").

(** [Vec.other_axes] *)
Definition Vec_other_axes (self : Vec) (axis : string)
  : PyResult (float * float) :=
  if String.eqb axis "x" then Ok (Vec.y self, Vec.z self)
  else if String.eqb axis "y" then Ok (Vec.x self, Vec.z self)
  else if String.eqb axis "z" then Ok (Vec.x self, Vec.y self)
  else Raise (KeyError "Bad axis").

(** [Vec.axis] *)
Definition Vec_axis (self : Vec) : PyResult string :=
  let x := float_nonzero (Vec.x self) in
  let y := float_nonzero (Vec.y self) in
  let z := float_nonzero (Vec.z self) in
  if x && negb y && negb z then Ok "x"%string
  else if negb x && y && negb z then Ok "y"%string
  else if negb x && negb y && z then Ok "z"%string
  else Raise (ValueError "not an on-axis vector!").

(** An [AnyVec] argument: a [Vec], or a tuple of floats. *)
Inductive anyvec : Type :=
| AVec (v : Vec)
| ATuple (l : list float).

(** [other[i]] for an [AnyVec] and an int index. *)
Definition anyvec_item (other : anyvec) (i : Z) : PyResult float :=
  match other with
  | AVec v => Vec_getitem v (AxInt i)
  | ATuple l => py_index l i
  end.

(** [Vec.max] and [Vec.min]: in place, one component after the other. *)
Definition Vec_max (self : Vec) (other : anyvec) : Vec * PyResult unit :=
  match anyvec_item other 0 with
  | Raise e => (self, Raise e)
  | Ok o =>
      let self := if (Vec.x self <? o)%float
                  then Vec.mk o (Vec.y self) (Vec.z self) else self in
      match anyvec_item other 1 with
      | Raise e => (self, Raise e)
      | Ok o =>
          let self := if (Vec.y self <? o)%float
                      then Vec.mk (Vec.x self) o (Vec.z self) else self in
          match anyvec_item other 2 with
          | Raise e => (self, Raise e)
          | Ok o =>
              (if (Vec.z self <? o)%float
               then Vec.mk (Vec.x self) (Vec.y self) o else self,
               Ok tt)
          end
      end
  end.

Definition Vec_min (self : Vec) (other : anyvec) : Vec * PyResult unit :=
  match anyvec_item other 0 with
  | Raise e => (self, Raise e)
  | Ok o =>
      let self := if (o <? Vec.x self)%float
                  then Vec.mk o (Vec.y self) (Vec.z self) else self in
      match anyvec_item other 1 with
      | Raise e => (self, Raise e)
      | Ok o =>
          let self := if (o <? Vec.y self)%float
                      then Vec.mk (Vec.x self) o (Vec.z self) else self in
          match anyvec_item other 2 with
          | Raise e => (self, Raise e)
          | Ok o =>
              (if (o <? Vec.z self)%float
               then Vec.mk (Vec.x self) (Vec.y self) o else self,
               Ok tt)
          end
      end
  end.

(** The arguments of [Vec.bbox]: one iterable of [Vec]s, or the [Vec]s
    themselves. *)
Inductive bbox_args : Type :=
| BboxIterable (points : list Vec)
| BboxPoints (points : list Vec).

(** [Vec.bbox] *)
Definition Vec_bbox (args : bbox_args) : PyResult (Vec * Vec) :=
  '(first, point_coll) <-
    match args with
    | BboxIterable (first :: point_coll) => Ok (first, point_coll)
    | BboxIterable [] =>
        Raise (ValueError "Vec.bbox() arg is an empty sequence")
    | BboxPoints (first :: point_coll) => Ok (first, point_coll)
    | BboxPoints [] =>
        Raise (TypeError "Vec.bbox() expected at least 1 argument, got 0.")
    end ;;
  let bbox_min := Vec_copy first in
  let bbox_max := Vec_copy bbox_min in
  for_each point_coll
    (fun point '(bbox_min, bbox_max) =>
       let '(bbox_min, r) := Vec_min bbox_min (AVec point) in
       r ;;;
       let '(bbox_max, r) := Vec_max bbox_max (AVec point) in
       r ;;;
       Ok (bbox_min, bbox_max))
    (bbox_min, bbox_max).

(** [Vec.dot] and [Vec.cross] *)
Definition Vec_dot (self : Vec) (other : anyvec) : PyResult float :=
  o0 <- anyvec_item other 0 ;;
  o1 <- anyvec_item other 1 ;;
  o2 <- anyvec_item other 2 ;;
  Ok (Vec.x self * o0 + Vec.y self * o1 + Vec.z self * o2)%float.

Definition Vec_cross (self : Vec) (other : anyvec) : PyResult Vec :=
  o2 <- anyvec_item other 2 ;;
  o1 <- anyvec_item other 1 ;;
  let x := (Vec.y self * o2 - Vec.z self * o1)%float in
  o0 <- anyvec_item other 0 ;;
  o2 <- anyvec_item other 2 ;;
  let y := (Vec.z self * o0 - Vec.x self * o2)%float in
  o1 <- anyvec_item other 1 ;;
  o0 <- anyvec_item other 0 ;;
  let z := (Vec.x self * o1 - Vec.y self * o0)%float in
  Vec_init (SFloat x) (SFloat y) (SFloat z).

(** [Vec.len_sq] and [Vec.mag] *)
Definition Vec_len_sq (self : Vec) : PyResult float :=
  sx <- float_sq (Vec.x self) ;;
  sy <- float_sq (Vec.y self) ;;
  sz <- float_sq (Vec.z self) ;;
  Ok (sx + sy + sz)%float.

Definition Vec_mag (self : Vec) : PyResult float :=
  sq <- Vec_len_sq self ;; math_sqrt sq.

(** [Vec.norm] *)
Definition Vec_norm (self : Vec) : PyResult Vec :=
  if (Vec.x self =? zero)%float && (Vec.y self =? zero)%float
     && (Vec.z self =? zero)%float then
    (* Don't do anything for this - otherwise we'd get division
       by zero errors - we want this to be a valid normal! *)
    Ok (Vec_copy self)
  else
    (* Adding 0 clears -0 values - we don't want those. *)
    m <- Vec_mag self ;;
    val <- Vec_op op_truediv self (OScalar (SFloat m)) ;;
    let '(val, r) := Vec_iaddsub op_add val (OScalar (SInt 0)) in
    r ;;; Ok val.

(** [Vec.norm_mask] *)
Definition Vec_norm_mask (self normal : Vec) : PyResult Vec :=
  norm <- Vec_norm normal ;;
  d <- Vec_dot self (AVec norm) ;;
  Vec_op op_mul norm (OScalar (SFloat d)).

(** The axis an index of [Vec.__getitem__] names: 0, 1 or 2. *)
Definition vec_axis (ind : axis_key) : option Z :=
  if axis_key_eqb ind (AxInt 0) || axis_key_eqb ind (AxStr "x") then Some 0
  else if axis_key_eqb ind (AxInt 1) || axis_key_eqb ind (AxStr "y") then Some 1
  else if axis_key_eqb ind (AxInt 2) || axis_key_eqb ind (AxStr "z") then Some 2
  else None.

Definition vec_no_nan (v : Vec) : bool :=
  negb (is_nan (Vec.x v)) && negb (is_nan (Vec.y v)) && negb (is_nan (Vec.z v)).

(** Operands without a NaN.  The floats of the model have one NaN, where
    the machine has many, told apart by a sign and a payload that an
    operation on two NaNs takes from one of its operands: what is stated
    of results down to the bit is stated for operands that are no NaN. *)
Definition scalar_no_nan (s : scalar) : bool :=
  match s with
  | SInt _ => true
  | SFloat f => negb (is_nan f)
  end.

Definition operand_no_nan (o : operand) : bool :=
  match o with
  | OVec w => vec_no_nan w
  | OTuple l => forallb scalar_no_nan l
  | OScalar s => scalar_no_nan s
  | OOther => true
  end.

(** A tuple of a float and two ints. *)
Definition tuple_211 : operand := OTuple [SFloat float_2; SInt 1; SInt 1].

(** A small vector: [Vec(2**-600, 0, 0)]. *)
Definition tiny_vec : Vec := Vec.mk 0x1p-600%float zero zero.

(** [-0.0] *)
Definition is_neg_zero (c : float) : bool :=
  match Prim2SF c with
  | S754_zero true => true
  | _ => false
  end.

(** The zeros among the decompositions. *)
Definition is_SF_zero (x : spec_float) : Prop :=
  match x with S754_zero _ => True | _ => False end.

(** ** [Matrix]: the remaining methods *)

(** [Matrix.__eq__] with a [Matrix]. *)
Definition Matrix_eq (self other : Matrix) : bool :=
  (Matrix.aa self =? Matrix.aa other)%float
  && (Matrix.ab self =? Matrix.ab other)%float
  && (Matrix.ac self =? Matrix.ac other)%float
  && (Matrix.ba self =? Matrix.ba other)%float
  && (Matrix.bb self =? Matrix.bb other)%float
  && (Matrix.bc self =? Matrix.bc other)%float
  && (Matrix.ca self =? Matrix.ca other)%float
  && (Matrix.cb self =? Matrix.cb other)%float
  && (Matrix.cc self =? Matrix.cc other)%float.

(** [Matrix.copy] *)
Definition Matrix_copy (self : Matrix) : Matrix :=
  Matrix.mk (Matrix.aa self) (Matrix.ab self) (Matrix.ac self)
            (Matrix.ba self) (Matrix.bb self) (Matrix.bc self)
            (Matrix.ca self) (Matrix.cb self) (Matrix.cc self).

(** [Matrix.transpose] *)
Definition Matrix_transpose (self : Matrix) : Matrix :=
  Matrix.mk (Matrix.aa self) (Matrix.ba self) (Matrix.ca self)
            (Matrix.ab self) (Matrix.bb self) (Matrix.cb self)
            (Matrix.ac self) (Matrix.bc self) (Matrix.cc self).

(** [Matrix.forward], [Matrix.left] and [Matrix.up] *)
Definition Matrix_forward (self : Matrix) : PyResult Vec :=
  Vec_init (SFloat (Matrix.aa self)) (SFloat (Matrix.ab self))
           (SFloat (Matrix.ac self)).

Definition Matrix_left (self : Matrix) : PyResult Vec :=
  Vec_init (SFloat (Matrix.ba self)) (SFloat (Matrix.bb self))
           (SFloat (Matrix.bc self)).

Definition Matrix_up (self : Matrix) : PyResult Vec :=
  Vec_init (SFloat (Matrix.ca self)) (SFloat (Matrix.cb self))
           (SFloat (Matrix.cc self)).

(** [Matrix._vec_rot]: the vector it leaves. *)
Definition Matrix_vec_rot (self : Matrix) (vec : Vec) : Vec :=
  let x := Vec.x vec in
  let y := Vec.y vec in
  let z := Vec.z vec in
  Vec.mk ((x * Matrix.aa self) + (y * Matrix.ba self) + (z * Matrix.ca self))%float
         ((x * Matrix.ab self) + (y * Matrix.bb self) + (z * Matrix.cb self))%float
         ((x * Matrix.ac self) + (y * Matrix.bc self) + (z * Matrix.cc self))%float.

(** [Matrix.from_basis]: the vectors that are given; the third is computed
    when two are. *)
Definition Matrix_from_basis (x y z : option Vec) : PyResult Matrix :=
  '(x, y, z) <-
    match x, y, z with
    | None, Some y', Some z' =>
        x' <- Vec_cross y' (AVec z') ;; Ok (Some x', y, z)
    | Some x', None, Some z' =>
        y' <- Vec_cross z' (AVec x') ;; Ok (x, Some y', z)
    | Some x', Some y', None =>
        z' <- Vec_cross x' (AVec y') ;; Ok (x, y, Some z')
    | None, None, None =>
        Raise (TypeError "At least two vectors must be provided!")
    | _, _, _ => Ok (x, y, z)
    end ;;
  let norm (v : option Vec) : PyResult Vec :=
    match v with
    | Some v => Vec_norm v
    | None => Raise (AttributeError "'NoneType' object has no attribute 'norm'")
    end in
  a <- norm x ;;
  b <- norm y ;;
  c <- norm z ;;
  Ok (Matrix.mk (Vec.x a) (Vec.y a) (Vec.z a)
                (Vec.x b) (Vec.y b) (Vec.z b)
                (Vec.x c) (Vec.y c) (Vec.z c)).

(** The operand of [@] next to a [Matrix]. *)
Inductive rot_operand : Type :=
| RMatrix (m : Matrix)
| RAngle (a : Angle)
| RVec (v : Vec)
| ROther.

(** What [Matrix.__rmatmul__] hands back. *)
Inductive rmatmul_result : Type :=
| ResVec (v : Vec)
| ResAngle (a : Angle)
| ResNone.

Section MatrixRotation.
Variables math_sin math_cos : float -> float.
Variable math_atan2 : float -> float -> float.

(** [Matrix.from_pitch], [Matrix.from_yaw] and [Matrix.from_roll] *)
Definition Matrix_from_pitch (pitch : float) : Matrix :=
  let rad_pitch := math_radians pitch in
  let cos := math_cos rad_pitch in
  let sin := math_sin rad_pitch in
  Matrix.mk cos zero (- sin)
            zero one zero
            sin zero cos.

Definition Matrix_from_yaw (yaw : float) : Matrix :=
  let rad_yaw := math_radians yaw in
  let sin := math_sin rad_yaw in
  let cos := math_cos rad_yaw in
  Matrix.mk cos sin zero
            (- sin) cos zero
            zero zero one.

Definition Matrix_from_roll (roll : float) : Matrix :=
  let rad_roll := math_radians roll in
  let cos_r := math_cos rad_roll in
  let sin_r := math_sin rad_roll in
  Matrix.mk one zero zero
            zero cos_r sin_r
            zero (- sin_r) cos_r.

(** [Matrix.__matmul__] *)
Definition Matrix_matmul (self : Matrix) (other : rot_operand) : ret Matrix :=
  match other with
  | RMatrix o => Returned (Matrix_mat_mul (Matrix_copy self) o)
  | RAngle a =>
      Returned (Matrix_mat_mul (Matrix_copy self)
                  (Matrix_from_angle math_sin math_cos a))
  | _ => NotImplemented
  end.

(** [Matrix.__rmatmul__]: [other @ self] for a left operand without a
    [__matmul__] of its own.  With a matrix the method returns what
    [_mat_mul] returns, which is [None]. *)
Definition Matrix_rmatmul (self : Matrix) (other : rot_operand)
  : PyResult (ret rmatmul_result) :=
  match other with
  | RVec v => Ok (Returned (ResVec (Matrix_vec_rot self (Vec_copy v))))
  | RAngle a =>
      let mat := Matrix_mat_mul (Matrix_from_angle math_sin math_cos a) self in
      ang <- Matrix_to_angle math_atan2 mat ;;
      Ok (Returned (ResAngle ang))
  | RMatrix o => Ok (Returned ResNone)
  | ROther => Ok NotImplemented
  end.

(** [Matrix.__imatmul__] *)
Definition Matrix_imatmul (self : Matrix) (other : rot_operand) : ret Matrix :=
  match other with
  | RMatrix o => Returned (Matrix_mat_mul self o)
  | RAngle a =>
      Returned (Matrix_mat_mul self (Matrix_from_angle math_sin math_cos a))
  | _ => NotImplemented
  end.

(** [Angle.from_basis] *)
Definition Angle_from_basis (x y z : option Vec) : PyResult Angle :=
  mat <- Matrix_from_basis x y z ;; Matrix_to_angle math_atan2 mat.
End MatrixRotation.

Definition matrix_finite (m : Matrix) : bool :=
  PyFloat.is_finite (Matrix.aa m) && PyFloat.is_finite (Matrix.ab m)
  && PyFloat.is_finite (Matrix.ac m) && PyFloat.is_finite (Matrix.ba m)
  && PyFloat.is_finite (Matrix.bb m) && PyFloat.is_finite (Matrix.bc m)
  && PyFloat.is_finite (Matrix.ca m) && PyFloat.is_finite (Matrix.cb m)
  && PyFloat.is_finite (Matrix.cc m).

Definition vec_finite (v : Vec) : bool :=
  PyFloat.is_finite (Vec.x v) && PyFloat.is_finite (Vec.y v)
  && PyFloat.is_finite (Vec.z v).

Definition matrix_no_nan (m : Matrix) : bool :=
  negb (is_nan (Matrix.aa m)) && negb (is_nan (Matrix.ab m))
  && negb (is_nan (Matrix.ac m)) && negb (is_nan (Matrix.ba m))
  && negb (is_nan (Matrix.bb m)) && negb (is_nan (Matrix.bc m))
  && negb (is_nan (Matrix.ca m)) && negb (is_nan (Matrix.cb m))
  && negb (is_nan (Matrix.cc m)).

(** A matrix with finite entries, a [-0.0] among them. *)
Definition sample_matrix : Matrix :=
  Matrix.mk float_2 zero one
            one float_2 zero
            zero neg_zero float_2.

(** ** [Angle]: item access *)

(** [Angle.__getitem__] *)
Definition Angle_getitem (self : Angle) (ind : axis_key) : PyResult float :=
  if key_in ind [AxInt 0; AxStr "p"; AxStr "pit"; AxStr "pitch"] then
    Ok (Angle.pitch self)
  else if key_in ind [AxInt 1; AxStr "y"; AxStr "yaw"] then
    Ok (Angle.yaw self)
  else if key_in ind [AxInt 2; AxStr "r"; AxStr "rol"; AxStr "roll"] then
    Ok (Angle.roll self)
  else Raise (KeyError "Invalid axis").

(** The axis an index of [Angle.__getitem__] names: 0, 1 or 2. *)
Definition angle_axis (ind : axis_key) : option Z :=
  if key_in ind [AxInt 0; AxStr "p"; AxStr "pit"; AxStr "pitch"] then Some 0
  else if key_in ind [AxInt 1; AxStr "y"; AxStr "yaw"] then Some 1
  else if key_in ind [AxInt 2; AxStr "r"; AxStr "rol"; AxStr "roll"] then Some 2
  else None.

(** ** More concrete inputs *)

(** The lines of a world spawn with a map version, without the NUL line. *)
Definition versioned_spawn_lines : list bytes :=
  [bytes_of_string "{";
   QUOTE ++ bytes_of_string "classname" ++ KV_SEP ++ bytes_of_string "worldspawn"
     ++ QUOTE;
   QUOTE ++ bytes_of_string "mapversion" ++ KV_SEP ++ bytes_of_string "5"
     ++ QUOTE;
   bytes_of_string "}"].

(** A byte string without a space. *)
Definition no_space (b : bytes) : bool := negb (byte_in 0x20 b).

(** The state [read_ent_data] starts its loop in, with the reference
    classes. *)
Definition simple_start : @ent_state SimpleVmf.VMF SimpleVmf.Entity :=
  mkEntState (VMF_new (VmfOps := SimpleVmf.ops)) CurNone false.

(** The world spawn of [versioned_spawn_lines]. *)
Definition versioned_vmf : SimpleVmf.VMF :=
  SimpleVmf.mkVMF
    (SimpleVmf.mkEntity
       [("classname", "worldspawn"); ("mapversion", "5")]%string [])
    [] 0.

(** [sep] starts at no position of [p] in [p ++ tail]: with [tail := sep],
    the first [sep] of [p ++ sep ++ rest] is the one after [p]. *)
Fixpoint no_sep_before (sep p tail : bytes) : bool :=
  match p with
  | [] => true
  | _ :: r => negb (is_prefix sep (p ++ tail)) && no_sep_before sep r tail
  end.

(** The line ["origin" "1 2 3" "x"], cut at its two separators. *)
Definition origin_key : bytes := QUOTE ++ bytes_of_string "origin".
Definition origin_value : bytes := bytes_of_string "1 2 3".
Definition origin_rest : bytes := bytes_of_string "x" ++ QUOTE.

(** The state inside the brackets of the world spawn. *)
Definition in_spawn : @ent_state SimpleVmf.VMF SimpleVmf.Entity :=
  mkEntState (VMF_new (VmfOps := SimpleVmf.ops)) CurSpawn true.

(** The key and the value of the line ["origin" "1 2 3"]. *)
Definition origin_name : bytes := bytes_of_string "origin".

(** The bytes the ASCII codec decodes: all below 128. *)
Definition bytes_isascii (b : bytes) : bool :=
  forallb (fun c => byte_to_Z c <? 128) b.

(** ** The lump directory of a file *)

(** [c[off:off + n]] *)
Definition bytes_at (c : bytes) (off : Z) (n : nat) : bytes :=
  firstn n (skipn (Z.to_nat off) c).

(** The four fields of the directory entry of a lump: the entries are 16
    bytes each and start after the 8 bytes of the magic and the version. *)
Definition dir_offset (c : bytes) (l : BSP_LUMPS) : Z :=
  le_signed (bytes_at c (8 + 16 * lump_value l) 4).
Definition dir_length (c : bytes) (l : BSP_LUMPS) : Z :=
  le_signed (bytes_at c (8 + 16 * lump_value l + 4) 4).
Definition dir_version (c : bytes) (l : BSP_LUMPS) : Z :=
  le_signed (bytes_at c (8 + 16 * lump_value l + 8) 4).
Definition dir_ident (c : bytes) (l : BSP_LUMPS) : bytes :=
  bytes_at c (8 + 16 * lump_value l + 12) 4.

(** What [file.read(n)] returns after [file.seek(off)]. *)
Definition file_slice (c : bytes) (off n : Z) : bytes :=
  let rest := skipn (Z.to_nat off) c in
  if n =? -1 then rest else firstn (Z.to_nat n) rest.

(** The lump object [read] leaves for a lump, and the entry of its
    offsets. *)
Definition dir_lump (c : bytes) (l : BSP_LUMPS) : BSP_LUMPS * Lump :=
  (l, Lump_init l (dir_version c l) (dir_ident c l)).

Definition dir_offsets (c : bytes) (l : BSP_LUMPS) : BSP_LUMPS * (Z * Z) :=
  (l, (dir_offset c l, dir_length c l)).

Definition read_lump (c : bytes) (l : BSP_LUMPS) : BSP_LUMPS * Lump :=
  (l, Lump_with_data (snd (dir_lump c l))
        (file_slice c (dir_offset c l) (dir_length c l))).

(** ** Texture names *)

(** [range(a, b)] *)
Definition range_between (a b : Z) : list Z :=
  map (fun i => a + Z.of_nat i) (seq 0 (Z.to_nat (b - a))).

(** [for x in xs: ... yield b]: a generator with one value per turn. *)
Fixpoint gen_each {A B} (xs : list A) (body : A -> PyResult B) : generated B :=
  match xs with
  | [] => ([], None)
  | x :: rest =>
      match body x with
      | Raise e => ([], Some e)
      | Ok b => let '(l, e) := gen_each rest body in (b :: l, e)
      end
  end.

(** The inner loop of [read_texture_names]: the first position of the range
    at which the data holds a NUL, [None] when the range is used up (the
    [else] of the [for]). *)
Fixpoint texture_name_end (tex_data : bytes) (offs : list Z)
  : PyResult (option Z) :=
  match offs with
  | [] => Ok None
  | str_off :: rest =>
      b <- py_index tex_data str_off ;;
      if byte_to_Z b =? 0 then Ok (Some str_off)
      else texture_name_end tex_data rest
  end.

(** The body of the loop over the table: the name at one offset. *)
Definition read_texture_name (tex_data : bytes) (off : Z) : PyResult string :=
  (* Look for the NULL at the end - strings are limited to 128 chars. *)
  found <- texture_name_end tex_data (range_between off (off + 128)) ;;
  match found with
  | Some str_off => decode_ascii (py_slice tex_data off str_off)
  | None =>
      (* Reached the 128 char limit without finding a null. *)
      Raise (ValueError "Bad string at")
  end.

(** [BSP.read_texture_names], run to its end. *)
Definition read_texture_names (self : BSP) : generated string :=
  match
    (tex_data <- get_lump self TEXDATA_STRING_DATA ;;
     tex_table <- get_lump self TEXDATA_STRING_TABLE ;;
     size <- Struct.calcsize "i" ;;
     (* The number of ints + i, for the repetitions in the struct. *)
     table_offsets <-
       Struct.unpack (str_of_int (len tex_table / size) ++ "i") tex_table ;;
     Ok (tex_data, ints_of table_offsets))
  with
  | Raise e => ([], Some e)
  | Ok (tex_data, table_offsets) =>
      gen_each table_offsets (read_texture_name tex_data)
  end.

(** A string data lump with two names, and the BSP that holds it with the
    table of the two offsets. *)
Definition two_names : bytes :=
  bytes_of_string "brick/wall" ++ [x00] ++ bytes_of_string "tools/nodraw"
  ++ [x00].

Definition texture_BSP : BSP :=
  mkBSP 0
    [(TEXDATA_STRING_DATA, mkLump TEXDATA_STRING_DATA 0 [] two_names);
     (TEXDATA_STRING_TABLE,
      mkLump TEXDATA_STRING_TABLE 0 [] (le_encode 4 0 ++ le_encode 4 11))]
    [] 0 (VMember VER_20).

(** ** Writing static props *)

(** [int(f)] for a float: truncated towards zero; NaN is a [ValueError],
    an infinity an [OverflowError]. *)
Definition int_of_float (f : float) : PyResult Z :=
  match Prim2SF f with
  | S754_nan => Raise (ValueError "cannot convert float NaN to integer")
  | S754_infinity _ => Raise OverflowError
  | S754_zero _ => Ok 0
  | S754_finite s m e =>
      let v := if 0 <=? e then Z.pos m * 2 ^ e else Z.pos m / 2 ^ (- e) in
      Ok (if s then - v else v)
  end.

(** The body of the loop of [write_static_props] that writes the props: the
    bytes of one record, of the layout of the given version.  [model_ind]
    is the dictionary from the model names to their indexes, [leaf_off] the
    offset of the prop's visleafs; a number handed to the [f] code is
    converted to a float. *)
Definition write_static_prop (version : Z) (model_ind : list (string * Z))
    (leaf_off : Z) (prop : StaticProp) : PyResult bytes :=
  ind <- dict_lookup String.eqb model_ind (sp_model prop) ;;
  b1 <- Struct.pack "<6fH"
          [PFloat (Vec.x (sp_origin prop));
           PFloat (Vec.y (sp_origin prop));
           PFloat (Vec.z (sp_origin prop));
           PFloat (Angle.pitch (sp_angles prop));
           PFloat (Angle.yaw (sp_angles prop));
           PFloat (Angle.roll (sp_angles prop));
           PInt ind] ;;
  b2 <- Struct.pack "<HHBBifffff"
          [PInt leaf_off;
           PInt (len (sp_visleafs prop));
           PInt (sp_solidity prop);
           PInt (value_prim (sp_flags prop));
           PInt (sp_skin prop);
           PFloat (sp_min_fade prop);
           PFloat (sp_max_fade prop);
           PFloat (Vec.x (sp_lighting prop));
           PFloat (Vec.y (sp_lighting prop));
           PFloat (Vec.z (sp_lighting prop))] ;;
  b3 <- (if 5 <=? version then
           fade_scale <- float_of (sp_fade_scale prop) ;;
           Struct.pack "<f" [PFloat fade_scale]
         else Ok []) ;;
  b4 <- (if (version =? 6) || (version =? 7) then
           Struct.pack "<HH"
             [PInt (sp_min_dx_level prop); PInt (sp_max_dx_level prop)]
         else Ok []) ;;
  b5 <- (if 8 <=? version then
           Struct.pack "<BBBB"
             [PInt (sp_min_cpu_level prop); PInt (sp_max_cpu_level prop);
              PInt (sp_min_gpu_level prop); PInt (sp_max_gpu_level prop)]
         else Ok []) ;;
  b6 <- (if 7 <=? version then
           r <- int_of_float (Vec.x (sp_tint prop)) ;;
           g <- int_of_float (Vec.y (sp_tint prop)) ;;
           b <- int_of_float (Vec.z (sp_tint prop)) ;;
           Struct.pack "<BBBB" [PInt r; PInt g; PInt b; PInt (sp_renderfx prop)]
         else Ok []) ;;
  b7 <- (if 10 <=? version then
           Struct.pack "<I" [PInt (value_sec (sp_flags prop))]
         else Ok []) ;;
  b8 <- (if 11 <=? version then
           (* Unknown padding/data, though it's always zero. *)
           Struct.pack "<xxxxf" [PFloat (sp_scaling prop)]
         else if 9 <=? version then
           (* The 1-byte bool gets expanded to the full 4-byte size. *)
           Struct.pack "<?xxx" [PBool (sp_disable_on_xbox prop)]
         else Ok []) ;;
  Ok (b1 ++ b2 ++ b3 ++ b4 ++ b5 ++ b6 ++ b7 ++ b8).

(** The size of a record of a version. *)
Definition static_prop_size (version : Z) : Z :=
  56
  + (if 5 <=? version then 4 else 0)
  + (if (version =? 6) || (version =? 7) then 4 else 0)
  + (if 8 <=? version then 4 else 0)
  + (if 7 <=? version then 4 else 0)
  + (if 10 <=? version then 4 else 0)
  + (if 11 <=? version then 8 else if 9 <=? version then 4 else 0).

(** A prop with a primary and a secondary flag. *)
Definition flagged_prop : StaticProp :=
  mkStaticProp "models/a.mdl" (Vec.mk one zero zero)
    (Angle.mk zero zero zero) one [3; 4] 6
    (Z.lor NO_SHADOW NO_FLASHLIGHT) 0 zero zero (Vec.mk one zero zero)
    (SFloat one) 0 0 0 0 0 0 (Vec.mk one one one) 255 false.

(** Its record of version 11, and what is read back from it. *)
Definition flagged_models : list (string * Z) := [("models/a.mdl"%string, 0)].

Definition flagged_record : bytes :=
  Eval vm_compute in
    match write_static_prop 11 flagged_models 0 flagged_prop with
    | Ok b => b
    | Raise _ => []
    end.

Definition flagged_prop_read : StaticProp :=
  mkStaticProp "models/a.mdl" (Vec.mk one zero zero)
    (Angle.mk zero zero zero) one [3; 4] 6
    NO_SHADOW 0 zero zero (Vec.mk one zero zero)
    (SFloat one) 0 0 0 0 0 0 (Vec.mk one one one) 255 false.

(** ** The deferred writes of [BSP.save] *)

(** The pattern and the size of the deferral of a key: the offset and the
    length of a lump, or the offset of a game lump. *)
Definition dfmt (k : DKey) : string :=
  match k with KLump _ => "<ii" | KBytes _ => "<i" end.

Definition dsize (k : DKey) : Z :=
  match k with KLump _ => 8 | KBytes _ => 4 end.

(** The place of a deferral: the directory entry of the lump, or a place
    in the block [g0, g1) of the game lump. *)
Definition loc_shape (g0 g1 : Z) (e : DKey * (Z * string)) : Prop :=
  snd (snd e) = dfmt (fst e)
  /\ match fst e with
     | KLump l => fst (snd e) = 8 + 16 * lump_value l
     | KBytes _ => g0 <= fst (snd e) /\ fst (snd e) + 4 <= g1
     end.

Definition data_shape (e : DKey * bytes) : Prop :=
  len (snd e) = dsize (fst e).

(** The region [P, P + n) lies outside the block [g0, g1). *)
Definition outside (g0 g1 P n : Z) : Prop := P + n <= g0 \/ g1 <= P.

(** A lump already written: its data stands at [P] in the file, and the
    values set for its directory entry are [P] and the data's length. *)
Definition lump_saved (R : Z -> Z -> Prop) (c : bytes)
    (dd : list (DKey * bytes)) (l : BSP_LUMPS) (data : bytes) : Prop :=
  exists P,
    dict_get dkey_eqb dd (KLump l)
    = Some (le_encode 4 P ++ le_encode 4 (len data))
    /\ 1036 <= P /\ P < 2 ^ 31 /\ len data < 2 ^ 31
    /\ bytes_at c P (List.length data) = data
    /\ P + len data <= len c
    /\ R P (len data).

(** The state of [save] between two lumps. *)
Definition save_inv (self : BSP) (R : Z -> Z -> Prop) (g0 g1 : Z)
    (done : list BSP_LUMPS) (st : DeferredWrites * File) : Prop :=
  let '(d, f) := st in
  pos f = len (contents f)
  /\ 1036 <= len (contents f)
  /\ 1036 <= g0 /\ g0 <= g1 /\ g1 <= len (contents f)
  /\ Forall (loc_shape g0 g1) (loc d)
  /\ NoDup (map fst (loc d))
  /\ (forall l, In (KLump l) (map fst (loc d)))
  /\ Forall data_shape (ddata d)
  /\ forall l, In l done -> l <> GAME_LUMP ->
       exists lump,
         dict_get lump_eqb (lumps self) l = Some lump
         /\ lump_saved R (contents f) (ddata d) l (lump_data lump).

(** The state of [save] inside the game lump, whose block starts at [G0]
    and reaches to the end of the file: the lumps written before lie
    before it. *)
Definition game_inv (self : BSP) (G0 : Z) (done : list BSP_LUMPS)
    (st : DeferredWrites * File) : Prop :=
  save_inv self (fun P n => P + n <= G0) G0 (len (contents (snd st))) done st.

(** The state of [save] after the directory entries of the first [k]
    lumps. *)
Definition header_inv (k : Z) (st : DeferredWrites * File) : Prop :=
  let '(d, f) := st in
  pos f = len (contents f)
  /\ len (contents f) = 8 + 16 * k
  /\ Forall (loc_shape 1036 1036) (loc d)
  /\ NoDup (map fst (loc d))
  /\ (forall l, lump_value l < k -> In (KLump l) (map fst (loc d)))
  /\ ddata d = [].

(** One turn of the loop of [DeferredWrites.write]. *)
Definition write_deferred
  : DKey * (Z * string) -> list (DKey * bytes) * File ->
    PyResult (list (DKey * bytes) * File) :=
  fun '(key, (off, _)) '(dd, f) =>
    match dict_get dkey_eqb dd key with
    | None => Raise (ValueError "No data for key")
    | Some b =>
        f1 <- file_seek f off ;;
        Ok (dict_remove dkey_eqb dd key, file_write f1 b)
    end.

(** A BSP of version 20 with data in its first lump and in the pakfile and
    with two game lumps, and the file [save] writes for it. *)
Definition sample_lumps : list (BSP_LUMPS * Lump) :=
  map (fun l =>
         (l, mkLump l 0 [0; 0; 0; 0]
               (if lump_eqb l PAKFILE then bytes_of_string "PK"
                else if lump_eqb l ENTITIES then bytes_of_string "{}"
                else [])))
      all_lumps.

Definition sample_BSP : BSP :=
  mkBSP 7 sample_lumps two_game_lumps 0 (VMember VER_20).

Definition sample_file : bytes :=
  Eval vm_compute in
    match BSP_save sample_BSP with
    | Ok b => b
    | Raise _ => []
    end.

(** ** The layout of a saved file

    A description of the file [save] leaves, part by part and without the
    loops and the deferred writes of the writer; [BSP_save] is proved to
    produce it. *)

(** The lump object of a lump, and what [save] writes first as its
    directory entry: zero offset and length, the version, the ident. *)
Definition lump_of (self : BSP) (l : BSP_LUMPS) : Lump :=
  match dict_get lump_eqb (lumps self) l with
  | Some lump => lump
  | None => Lump_init l 0 []
  end.

Definition ident_bytes (self : BSP) (l : BSP_LUMPS) : bytes :=
  Struct.pad_to 4 (map byte_of_Z (lump_ident (lump_of self l))).

Definition lump_entry0 (self : BSP) (l : BSP_LUMPS) : bytes :=
  le_encode 4 0 ++ le_encode 4 0
  ++ le_encode 4 (lump_version (lump_of self l)) ++ ident_bytes self l.

(** The deferral of the directory entry of a lump. *)
Definition header_loc (l : BSP_LUMPS) : DKey * (Z * string) :=
  (KLump l, (8 + 16 * lump_value l, "<ii"%string)).

(** What [save] needs of a lump to write its directory entry: the lump is
    there, its version fits four bytes and its ident is made of byte
    values. *)
Definition lump_packed (self : BSP) (l : BSP_LUMPS) : Prop :=
  (exists lump, dict_get lump_eqb (lumps self) l = Some lump)
  /\ - 2 ^ 31 <= lump_version (lump_of self l) < 2 ^ 31
  /\ Forall (fun z => 0 <= z < 256) (lump_ident (lump_of self l)).

(** The data of the lumps of a list, one after the other, and the values
    set for their directory entries when the first is written at [P]. *)
Definition lump_datas (self : BSP) (ls : list BSP_LUMPS) : bytes :=
  List.concat (map (fun l => lump_data (lump_of self l)) ls).

Fixpoint lump_entries (self : BSP) (P : Z) (ls : list BSP_LUMPS)
  : list (DKey * bytes) :=
  match ls with
  | [] => []
  | l :: rest =>
      (KLump l,
       le_encode 4 P ++ le_encode 4 (len (lump_data (lump_of self l))))
      :: lump_entries self (P + len (lump_data (lump_of self l))) rest
  end.

(** What [save] needs of the lumps of a list written from [P] on: each
    offset and each length fits four bytes. *)
Fixpoint lumps_written (self : BSP) (P : Z) (ls : list BSP_LUMPS) : Prop :=
  match ls with
  | [] => True
  | l :: rest =>
      (- 2 ^ 31 <= P < 2 ^ 31
       /\ len (lump_data (lump_of self l)) < 2 ^ 31)
      /\ lumps_written self (P + len (lump_data (lump_of self l))) rest
  end.

(** The directory entry of a game lump with the offset [P] of its data. *)
Definition game_entry (g : GameLump) (P : Z) : bytes :=
  game_lump_entry (Struct.pad_to 4 (reversed (gl_id g))) (gl_flags g)
    (gl_version g) P (len (gl_data g)).

(** What [save] needs of a game lump to write its entry: flags and version
    fit two bytes, the length of the data four. *)
Definition game_packed (g : GameLump) : Prop :=
  0 <= gl_flags g < 2 ^ 16
  /\ 0 <= gl_version g < 2 ^ 16
  /\ len (gl_data g) < 2 ^ 31.

(** The offsets of the data of the game lumps written from [P] on fit four
    bytes. *)
Fixpoint games_written (P : Z) (gls : list GameLump) : Prop :=
  match gls with
  | [] => True
  | g :: rest =>
      - 2 ^ 31 <= P < 2 ^ 31 /\ games_written (P + len (gl_data g)) rest
  end.

(** The deferrals of the game lumps whose entries start at [E], and the
    values set for them when the data of the first is written at [P]. *)
Fixpoint game_locs (E : Z) (gls : list GameLump)
  : list (DKey * (Z * string)) :=
  match gls with
  | [] => []
  | g :: rest =>
      (KBytes (gl_id g), (E + 8, "<i"%string)) :: game_locs (E + 16) rest
  end.

Fixpoint game_entries (P : Z) (gls : list GameLump) : list (DKey * bytes) :=
  match gls with
  | [] => []
  | g :: rest =>
      (KBytes (gl_id g), le_encode 4 P)
      :: game_entries (P + len (gl_data g)) rest
  end.

(** The game lumps with the offsets of their data, the first at [P]. *)
Fixpoint game_places (P : Z) (gls : list GameLump) : list (GameLump * Z) :=
  match gls with
  | [] => []
  | g :: rest => (g, P) :: game_places (P + len (gl_data g)) rest
  end.

(** The directory of the game lumps with these offsets. *)
Definition game_directory (P : Z) (gls : list GameLump) : bytes :=
  List.concat (map (fun x => game_entry (fst x) (snd x)) (game_places P gls)).

(** The entries as they are first written, the offsets still zero. *)
Definition game_directory0 (gls : list GameLump) : bytes :=
  List.concat (map (fun g => game_entry g 0) gls).

Definition game_datas (gls : list GameLump) : bytes :=
  List.concat (map gl_data gls).

(** ** The file [save] writes *)

(** The lumps [save] writes before the game lump and after it. *)
Definition lumps_before_game : list BSP_LUMPS := firstn 35 all_lumps.
Definition lumps_after_game : list BSP_LUMPS :=
  filter (fun l => negb (lump_eqb l PAKFILE)) (skipn 36 all_lumps)
  ++ [PAKFILE].

(** Where the data of [l] starts when the lumps [ls] are written from [P]
    on. *)
Fixpoint offset_in (self : BSP) (P : Z) (ls : list BSP_LUMPS)
    (l : BSP_LUMPS) : Z :=
  match ls with
  | [] => P
  | x :: rest =>
      if lump_eqb l x then P
      else offset_in self (P + len (lump_data (lump_of self x))) rest l
  end.

(** The number [save] writes for the version. *)
Definition version_number (v : version_t) : Z :=
  match v with
  | VMember m => version_value m
  | VPlain n => n
  | VNone => 0
  end.

(** The game lump: where it starts, where its data start, where it ends. *)
Definition game_start (self : BSP) : Z :=
  1036 + len (lump_datas self lumps_before_game).
Definition game_data_start (self : BSP) : Z :=
  game_start self + 4 + 16 * len (dict_values (game_lumps self)).
Definition game_end (self : BSP) : Z :=
  game_data_start self + len (game_datas (dict_values (game_lumps self))).

(** Offset and length of a lump in the file, and its directory entry. *)
Definition lump_start (self : BSP) (l : BSP_LUMPS) : Z :=
  if lump_eqb l GAME_LUMP then game_start self
  else if existsb (lump_eqb l) lumps_before_game
       then offset_in self 1036 lumps_before_game l
       else offset_in self (game_end self) lumps_after_game l.

Definition lump_size (self : BSP) (l : BSP_LUMPS) : Z :=
  if lump_eqb l GAME_LUMP then game_end self - game_start self
  else len (lump_data (lump_of self l)).

Definition lump_entry (self : BSP) (l : BSP_LUMPS) : bytes :=
  le_encode 4 (lump_start self l) ++ le_encode 4 (lump_size self l)
  ++ le_encode 4 (lump_version (lump_of self l)) ++ ident_bytes self l.

(** The whole file: magic and version, the directory of the 64 lumps, the
    map revision, the lumps before the game lump, the game lump (count,
    directory, data), the other lumps with the pakfile last. *)
Definition BSP_layout (self : BSP) : bytes :=
  BSP_MAGIC ++ le_encode 4 (version_number (version self))
  ++ List.concat (map (lump_entry self) all_lumps)
  ++ le_encode 4 (map_revision self)
  ++ lump_datas self lumps_before_game
  ++ le_encode 4 (len (dict_values (game_lumps self)))
  ++ game_directory (game_data_start self) (dict_values (game_lumps self))
  ++ game_datas (dict_values (game_lumps self))
  ++ lump_datas self lumps_after_game.

(** The head of the file up to the map revision, and the game lump. *)
Definition layout_head (self : BSP) : bytes :=
  BSP_MAGIC ++ le_encode 4 (version_number (version self))
  ++ List.concat (map (lump_entry self) all_lumps)
  ++ le_encode 4 (map_revision self).

Definition game_block (self : BSP) : bytes :=
  le_encode 4 (len (dict_values (game_lumps self)))
  ++ game_directory (game_data_start self) (dict_values (game_lumps self))
  ++ game_datas (dict_values (game_lumps self)).

(** A BSP as [read] makes it: the 64 lumps in the order of the enumeration,
    each under its own type and with an ident of four bytes, no data left
    in the game lump, and the game lumps under their own ids of four bytes,
    each id once. *)
Definition BSP_wf (self : BSP) : Prop :=
  map fst (lumps self) = all_lumps
  /\ Forall (fun e => lump_type (snd e) = fst e
                      /\ List.length (lump_ident (snd e)) = 4%nat)
            (lumps self)
  /\ lump_data (lump_of self GAME_LUMP) = []
  /\ Forall (fun e => gl_id (snd e) = fst e /\ List.length (fst e) = 4%nat)
            (game_lumps self)
  /\ NoDup (map fst (game_lumps self))
  /\ header_off self = 0.

(** ** Deferred writes into records of one size *)

(** The deferrals of records that lie [s] bytes apart from [E] on, each
    with its hole [a] bytes into the record. *)
Fixpoint chunk_locs {A} (key : A -> DKey) (a s : Z) (fmt : string) (E : Z)
    (xs : list A) : list (DKey * (Z * string)) :=
  match xs with
  | [] => []
  | x :: rest => (key x, (E + a, fmt)) :: chunk_locs key a s fmt (E + s) rest
  end.

(** The dictionary once the values of the keys of [xs] are taken out. *)
Definition without_keys {A} (key : A -> DKey) (xs : list A)
    (dd : list (DKey * bytes)) : list (DKey * bytes) :=
  fold_left (fun dd x => dict_remove dkey_eqb dd (key x)) xs dd.

(** What [save] needs of a BSP to pack every number it writes. *)
Definition save_fits (self : BSP) : Prop :=
  version self <> VNone
  /\ - 2 ^ 31 <= version_number (version self) < 2 ^ 31
  /\ - 2 ^ 31 <= map_revision self < 2 ^ 31
  /\ (forall l, lump_packed self l)
  /\ lumps_written self 1036 lumps_before_game
  /\ lumps_written self (game_end self) lumps_after_game
  /\ len (dict_values (game_lumps self)) < 2 ^ 31
  /\ Forall game_packed (dict_values (game_lumps self))
  /\ games_written (game_data_start self) (dict_values (game_lumps self))
  /\ game_start self < 2 ^ 31
  /\ game_end self - game_start self < 2 ^ 31.

(** The values [save] has set for its deferrals when it comes to write
    them. *)
Definition saved_values (self : BSP) : list (DKey * bytes) :=
  (lump_entries self 1036 lumps_before_game
   ++ game_entries (game_data_start self) (dict_values (game_lumps self))
   ++ [(KLump GAME_LUMP,
        le_encode 4 (game_start self)
        ++ le_encode 4 (game_end self - game_start self))])
  ++ lump_entries self (game_end self) lumps_after_game.

(** The data of the game lumps stand in the file [c] from [P] on. *)
Fixpoint games_stored (c : bytes) (P : Z) (gls : list GameLump) : Prop :=
  match gls with
  | [] => True
  | g :: rest =>
      bytes_at c P (List.length (gl_data g)) = gl_data g
      /\ games_stored c (P + len (gl_data g)) rest
  end.

(** * Properties *)

(** ** The container: [BSP.read] and [BSP.save] *)

(** C1, as stated, fails: the file made of the magic, version 20, 64 all-zero
    directory entries and map revision 0 has 1036 bytes, not 400, and
    [BSP.read] raises [struct.error] on it (its GAME_LUMP region is empty, so
    the game-lump count cannot be unpacked), as it does on its first 400
    bytes. *)
Lemma empty_bsp_is_rejected :
  len empty_bsp = 1036
  /\ BSP_read VNone empty_bsp = Raise StructError
  /\ BSP_read VNone (firstn 400 empty_bsp) = Raise StructError.
Proof. repeat split; vm_compute; reflexivity. Qed.

(** C1, amended: the 1040-byte file with the same header, a game lump that
    holds a zero count and the directory offsets [save] assigns parses to a
    BSP whose 64 lumps are all empty and which has no game lump, and saving
    that BSP gives back the same 1040 bytes. *)
Theorem minimal_bsp_round_trip :
  len minimal_bsp = 1040
  /\ BSP_read VNone minimal_bsp = Ok minimal_BSP
  /\ len (lumps minimal_BSP) = 64
  /\ Forall (fun e => lump_data (snd e) = []) (lumps minimal_BSP)
  /\ game_lumps minimal_BSP = []
  /\ BSP_save minimal_BSP = Ok minimal_bsp.
Proof.
  repeat split; try (vm_compute; reflexivity).
  unfold minimal_BSP, empty_lumps; cbv [lumps].
  apply Forall_forall; intros e He.
  apply in_map_iff in He; destruct He as [l [<- _]]; reflexivity.
Qed.

(** The offsets of a directory are not kept over a read and a save: the file
    with zero offsets parses to the same BSP, which is saved as
    [minimal_bsp]. *)
Lemma zero_offset_bsp_is_relaid :
  BSP_read VNone zero_offset_bsp = Ok minimal_BSP
  /\ zero_offset_bsp <> minimal_bsp.
Proof.
  split; [vm_compute; reflexivity|].
  intros H. apply (f_equal (fun b => nth 8 b x00)) in H. vm_compute in H. discriminate.
Qed.

(** ** Loops and lists *)

Lemma bind_Ok {A B} (c : PyResult A) (k : A -> PyResult B) (b : B) :
  bind c k = Ok b -> exists a, c = Ok a /\ k a = Ok b.
Proof. destruct c; simpl; intros H; [eauto | discriminate]. Qed.

Lemma Ok_inj {A} (a b : A) : Ok a = Ok b -> a = b.
Proof. congruence. Qed.

(** Inverts a chain of binds that ended in [Ok]. *)
Lemma bind_ret {A B} (a : A) (k : A -> PyResult B) : bind (Ok a) k = k a.
Proof. reflexivity. Qed.

Ltac inv_bind H :=
  let a := fresh "a" in
  let Ha := fresh "Ha" in
  cbv beta iota in H;
  lazymatch type of H with
  | bind _ _ = Ok _ =>
      apply bind_Ok in H; destruct H as [a [Ha H]]; cbv beta iota in H
  end.

Lemma Forall2_nth_error_r {A B} (R : A -> B -> Prop) xs bs :
  Forall2 R xs bs ->
  forall i b, nth_error bs i = Some b ->
  exists x, nth_error xs i = Some x /\ R x b.
Proof.
  induction 1; intros [|i] c Hc; simpl in *; try discriminate.
  - inversion Hc; subst; eauto.
  - eauto.
Qed.

Lemma Forall2_nth_error_l {A B} (R : A -> B -> Prop) xs bs :
  Forall2 R xs bs ->
  forall i x, nth_error xs i = Some x ->
  exists b, nth_error bs i = Some b /\ R x b.
Proof.
  induction 1; intros [|i] c Hc; simpl in *; try discriminate.
  - inversion Hc; subst; eauto.
  - eauto.
Qed.

(** A loop that appends one decoded value per item yields the decoded
    items, in order, after what the list held. *)
Lemma for_each_appending {A B} (f : A -> PyResult B) xs :
  forall acc res,
  for_each xs (appending f) acc = Ok res ->
  exists bs, res = acc ++ bs /\ Forall2 (fun x b => f x = Ok b) xs bs.
Proof.
  induction xs as [|x xs IH]; simpl; intros acc res H.
  - injection H as <-. exists []. rewrite app_nil_r. auto.
  - inv_bind H. unfold appending in Ha. inv_bind Ha. injection Ha as <-.
    destruct (IH _ _ H) as [bs [-> Hbs]].
    exists (a0 :: bs). rewrite <- app_assoc. simpl. auto.
Qed.

Lemma nth_error_enumerate_from {A} (xs : list A) :
  forall k i z x,
  nth_error (combine (map Z.of_nat (seq k (List.length xs))) xs) i = Some (z, x) ->
  z = Z.of_nat (k + i) /\ nth_error xs i = Some x.
Proof.
  induction xs as [|y xs IH]; intros k [|i] z x H; simpl in *; try discriminate.
  - inversion H; subst. rewrite Nat.add_0_r. auto.
  - apply IH in H. rewrite <- Nat.add_succ_comm. exact H.
Qed.

Lemma nth_error_enumerate {A} (xs : list A) i z x :
  nth_error (enumerate xs) i = Some (z, x) ->
  z = Z.of_nat i /\ nth_error xs i = Some x.
Proof.
  unfold enumerate, range, len. rewrite Nat2Z.id.
  intros H. apply nth_error_enumerate_from in H. exact H.
Qed.

Lemma length_list_update {A} (f : A -> A) l :
  forall i, List.length (list_update l i f) = List.length l.
Proof. induction l; intros [|i]; simpl; auto. Qed.

Lemma nth_error_list_update_same {A} (f : A -> A) l :
  forall i, nth_error (list_update l i f) i = option_map f (nth_error l i).
Proof. induction l; intros [|i]; simpl; auto. Qed.

Lemma nth_error_list_update_other {A} (f : A -> A) l :
  forall i j, i <> j -> nth_error (list_update l i f) j = nth_error l j.
Proof.
  induction l; intros [|i] [|j] H; simpl; auto; try congruence.
Qed.

(** ** The visleaf tree *)

(** The mask of the area keeps bits 7..15 where they are: the value is 128
    times the 9-bit number those bits spell. *)
Lemma area_mask_in_place (w : Z) :
  Z.land w 0xff80 = 128 * Z.land (Z.shiftr w 7) 0x1ff.
Proof.
  change 128 with (2 ^ 7). rewrite Z.mul_comm, <- Z.shiftl_mul_pow2 by lia.
  apply Z.bits_inj'. intros n Hn.
  rewrite Z.land_spec.
  destruct (Z.ltb_spec n 7) as [Hlt | Hge].
  - rewrite Z.shiftl_spec_low by lia.
    replace (Z.testbit 65408 n) with false; [apply andb_false_r|].
    assert (n = 0 \/ n = 1 \/ n = 2 \/ n = 3 \/ n = 4 \/ n = 5 \/ n = 6) as Hc by lia.
    repeat (destruct Hc as [-> | Hc]; [reflexivity|]). subst; reflexivity.
  - rewrite Z.shiftl_spec by lia. rewrite Z.land_spec, Z.shiftr_spec by lia.
    replace (n - 7 + 7) with n by lia. f_equal.
    change 65408 with (Z.shiftl 511 7). rewrite Z.shiftl_spec by lia. reflexivity.
Qed.

Lemma vis_child_spec {A} (nodes : list A) (leafs : list VisLeaf) (ind : Z) r :
  vis_child nodes leafs ind = Ok r ->
  r = child_ref ind
  /\ match r with
     | RefLeaf i => (i < List.length leafs)%nat
     | RefTree i => (i < List.length nodes)%nat
     end.
Proof.
  unfold vis_child, child_ref.
  destruct (ind <? 0) eqn:Hneg; intros H; inv_bind H; apply Ok_inj in H;
    subst r; unfold py_index_ref in Ha.
  - apply Z.ltb_lt in Hneg.
    assert (E : (-1 - ind <? 0) = false) by (apply Z.ltb_ge; lia).
    rewrite E in Ha; cbv iota in Ha; rewrite E, orb_false_l in Ha.
    destruct (len leafs <=? -1 - ind) eqn:Hle; [discriminate|].
    apply Z.leb_gt in Hle. apply Ok_inj in Ha. subst a. unfold len in Hle.
    split; [reflexivity | lia].
  - apply Z.ltb_ge in Hneg.
    assert (E : (ind <? 0) = false) by (apply Z.ltb_ge; lia).
    rewrite E in Ha; cbv iota in Ha; rewrite E, orb_false_l in Ha.
    destruct (len nodes <=? ind) eqn:Hle; [discriminate|].
    apply Z.leb_gt in Hle. apply Ok_inj in Ha. subst a. unfold len in Hle.
    split; [reflexivity | lia].
Qed.

(** The linking loop, started at the [k]-th node: the trees before [k] are
    left as they are, each later one gets the two children its record
    names. *)
Lemma vis_link_loop (nodes : list (VisTree * Z * Z)) (leafs : list VisLeaf) xs :
  forall k trees res,
  for_each (combine (map Z.of_nat (seq k (List.length xs))) xs)
           (vis_link nodes leafs) trees = Ok res ->
  List.length res = List.length trees
  /\ (forall j, (j < k)%nat -> nth_error res j = nth_error trees j)
  /\ (forall j n neg pos, nth_error xs j = Some (n, neg, pos) ->
      exists cn cp,
        vis_child nodes leafs neg = Ok cn /\ vis_child nodes leafs pos = Ok cp
        /\ nth_error res (k + j)
           = option_map (fun t => set_child_pos cp (set_child_neg cn t))
                        (nth_error trees (k + j))).
Proof.
  induction xs as [|[[n0 neg0] pos0] xs IH]; intros k trees res H.
  - simpl in H. injection H as <-. repeat split; auto.
    intros [|j] ? ? ? Hj; discriminate.
  - cbn [List.length seq map combine for_each] in H.
    inv_bind H. unfold vis_link in Ha.
    inv_bind Ha. rename a0 into cn, Ha0 into Hcn.
    inv_bind Ha. rename a0 into cp, Ha0 into Hcp.
    injection Ha as <-.
    rewrite Nat2Z.id in H.
    apply IH in H. destruct H as [Hlen [Hbefore Hafter]].
    rewrite !length_list_update in Hlen.
    split; [exact Hlen|]. split.
    + intros j Hj. rewrite Hbefore by lia.
      rewrite !nth_error_list_update_other by lia. reflexivity.
    + intros [|j] n neg pos Hj; simpl in Hj.
      * inversion Hj; subst. exists cn, cp. repeat split; auto.
        rewrite Nat.add_0_r, Hbefore by lia.
        rewrite !nth_error_list_update_same.
        destruct (nth_error trees k); reflexivity.
      * destruct (Hafter _ _ _ _ Hj) as [cn' [cp' [H1 [H2 H3]]]].
        exists cn', cp'. repeat split; auto.
        rewrite <- Nat.add_succ_comm, H3.
        rewrite !nth_error_list_update_other by lia. reflexivity.
Qed.
Lemma leaf_of_record_inv (i : Z) (rec : list pyval) (leaf : VisLeaf) :
  leaf_of_record (i, rec) = Ok leaf ->
  exists w,
    nth_error rec 2 = Some (PInt w)
    /\ vl_id leaf = i
    /\ vl_area leaf = Z.land w 0xff80
    /\ vl_flags leaf = Z.land w 0x7f.
Proof.
  unfold leaf_of_record, bad_unpack.
  do 14 (destruct rec as [|[?|?|?|?] rec]; try discriminate).
  destruct rec; try discriminate.
  intros H. inv_bind H. inv_bind H. apply Ok_inj in H. subst leaf.
  eexists. split; [reflexivity|]. repeat split.
Qed.

Lemma node_of_record_inv planes (rec : list pyval) (n : VisTree) (neg pos : Z) :
  node_of_record planes rec = Ok (n, neg, pos) ->
  nth_error rec 1 = Some (PInt neg) /\ nth_error rec 2 = Some (PInt pos)
  /\ child_neg n = None /\ child_pos n = None.
Proof.
  unfold node_of_record, bad_unpack.
  do 12 (destruct rec as [|[?|?|?|?] rec]; try discriminate).
  destruct rec; try discriminate.
  intros H. inv_bind H. destruct a as [pn pd]. inv_bind H. inv_bind H.
  apply Ok_inj in H. injection H as <- <- <-. repeat split.
Qed.

(** C3, as stated, fails: the leaf decoded from the area-and-flags word
    0x0080 has area 128, where bits 7..15 of the word spell 1. *)
Lemma vis_leaf_area_is_not_shifted :
  exists heap leaf,
    vis_tree tiny_vis_bsp = Ok heap
    /\ nth_error (heap_leafs heap) 0 = Some leaf
    /\ vl_area leaf = 128
    /\ Z.land (Z.shiftr 0x0080 7) 0x1ff = 1
    /\ vl_area leaf <> Z.land (Z.shiftr 0x0080 7) 0x1ff.
Proof.
  exists tiny_vis_heap. eexists. split; [vm_compute; reflexivity|].
  split; [reflexivity|]. repeat split. discriminate.
Qed.

(** C3, amended: for every leaf record decoded by [vis_tree], the area of
    the [VisLeaf] is the area-and-flags word masked with 0xFF80, bits 7..15
    left where they are (128 times the number they spell), and its flags are
    bits 0..6, the word masked with 0x7F. *)
Theorem vis_leaf_area_and_flags (self : BSP) (heap : VisHeap) :
  vis_tree self = Ok heap ->
  exists leaf_fmt recs,
    vis_leaf_fmt self = Ok leaf_fmt
    /\ leaf_records self leaf_fmt = Ok recs
    /\ List.length (heap_leafs heap) = List.length recs
    /\ forall i leaf,
        nth_error (heap_leafs heap) i = Some leaf ->
        exists w,
          field recs i 2 = Some (PInt w)
          /\ vl_id leaf = Z.of_nat i
          /\ vl_area leaf = Z.land w 0xff80
          /\ vl_area leaf = 128 * Z.land (Z.shiftr w 7) 0x1ff
          /\ vl_flags leaf = Z.land w 0x7f.
Proof.
  unfold vis_tree. intros H.
  inv_bind H. inv_bind H. inv_bind H. rename a1 into leaf_fmt.
  inv_bind H. rename a1 into leafs. inv_bind H. inv_bind H.
  apply Ok_inj in H. subst heap. cbn [heap_leafs].
  unfold vis_leafs in Ha2. inv_bind Ha2. rename a3 into recs.
  apply for_each_appending in Ha2. destruct Ha2 as [bs [-> Hall]]. simpl.
  exists leaf_fmt, recs. repeat split; auto.
  - apply Forall2_length in Hall. unfold enumerate, range in Hall.
    rewrite length_combine, length_map, length_seq in Hall.
    unfold len in Hall. rewrite Nat2Z.id, Nat.min_id in Hall. auto.
  - intros i leaf Hi.
    destruct (Forall2_nth_error_r _ _ _ Hall _ _ Hi) as [[z rec] [Hrec Hleaf]].
    apply nth_error_enumerate in Hrec. destruct Hrec as [-> Hrec].
    apply leaf_of_record_inv in Hleaf. destruct Hleaf as [w [Hw [Hid [Har Hfl]]]].
    exists w. unfold field. rewrite Hrec. repeat split; auto.
    rewrite Har. apply area_mask_in_place.
Qed.

Lemma vis_leaf_area_and_flags_witness :
  vis_tree tiny_vis_bsp = Ok tiny_vis_heap
  /\ exists leaf_fmt recs,
    vis_leaf_fmt tiny_vis_bsp = Ok leaf_fmt
    /\ leaf_records tiny_vis_bsp leaf_fmt = Ok recs
    /\ List.length (heap_leafs tiny_vis_heap) = List.length recs
    /\ forall i leaf,
        nth_error (heap_leafs tiny_vis_heap) i = Some leaf ->
        exists w,
          field recs i 2 = Some (PInt w)
          /\ vl_id leaf = Z.of_nat i
          /\ vl_area leaf = Z.land w 0xff80
          /\ vl_area leaf = 128 * Z.land (Z.shiftr w 7) 0x1ff
          /\ vl_flags leaf = Z.land w 0x7f.
Proof.
  split; [vm_compute; reflexivity|].
  apply (vis_leaf_area_and_flags tiny_vis_bsp tiny_vis_heap).
  vm_compute; reflexivity.
Defined.

(** C4: when [vis_tree] returns, the root it returns is node 0, there is
    one node for every node record, and every node record with child index
    [c] is linked to the leaf [-1 - c] of the leaf list when [c] is negative
    and to the node [c] otherwise, both within the lists built from the
    lumps; with a negative child of -1 in the first node record, the
    negative child of the root is the leaf built from the first leaf
    record. *)
Theorem vis_tree_links_children (self : BSP) (heap : VisHeap) :
  vis_tree self = Ok heap ->
  exists planes node_recs nodes,
    vis_planes self = Ok planes
    /\ node_records self = Ok node_recs
    /\ vis_nodes self planes = Ok nodes
    /\ heap_root heap = RefTree 0
    /\ (0 < List.length nodes)%nat
    /\ List.length nodes = List.length node_recs
    /\ List.length (heap_trees heap) = List.length nodes
    /\ (forall i n neg pos,
          nth_error nodes i = Some (n, neg, pos) ->
          field node_recs i 1 = Some (PInt neg)
          /\ field node_recs i 2 = Some (PInt pos)
          /\ nth_error (heap_trees heap) i
             = Some (mkVisTree (plane_norm n) (plane_dist n) (vt_mins n)
                       (vt_maxes n) (Some (child_ref neg)) (Some (child_ref pos)))
          /\ ref_in_heap heap (child_ref neg)
          /\ ref_in_heap heap (child_ref pos))
    /\ (forall n pos,
          nth_error nodes 0 = Some (n, -1, pos) ->
          exists root leaf leaf_fmt recs rec,
            nth_error (heap_trees heap) 0 = Some root
            /\ child_neg root = Some (RefLeaf 0)
            /\ nth_error (heap_leafs heap) 0 = Some leaf
            /\ vis_leaf_fmt self = Ok leaf_fmt
            /\ leaf_records self leaf_fmt = Ok recs
            /\ nth_error recs 0 = Some rec
            /\ leaf_of_record (0, rec) = Ok leaf).
Proof.
  unfold vis_tree. intros H.
  inv_bind H. rename a into planes, Ha into Hplanes.
  inv_bind H. rename a into nodes, Ha into Hnodes.
  inv_bind H. rename a into leaf_fmt, Ha into Hfmt.
  inv_bind H. rename a into leafs, Ha into Hleafs.
  inv_bind H. rename a into trees, Ha into Hlink.
  inv_bind H. rename a into root, Ha into Hroot.
  apply Ok_inj in H. subst heap. cbn [heap_root heap_trees heap_leafs].
  (* the root *)
  assert (Hr : root = 0%nat /\ (0 < List.length nodes)%nat).
  { unfold py_index_ref in Hroot. cbn [Z.ltb Z.compare orb] in Hroot.
    destruct (len nodes <=? 0) eqn:E; [discriminate|].
    apply Z.leb_gt in E. apply Ok_inj in Hroot. unfold len in E.
    split; [subst; reflexivity | lia]. }
  destruct Hr as [-> Hpos].
  (* the node records *)
  pose proof Hnodes as Hnodes'.
  unfold vis_nodes in Hnodes'. inv_bind Hnodes'. rename a into node_recs.
  apply for_each_appending in Hnodes'. destruct Hnodes' as [bs [E Hrecs]].
  simpl in E. subst bs.
  (* the linking loop *)
  unfold enumerate, range, len in Hlink. rewrite Nat2Z.id in Hlink.
  apply vis_link_loop in Hlink. destruct Hlink as [Hlen [_ Hlinked]].
  rewrite length_map in Hlen.
  assert (Hnode : forall i n neg pos,
             nth_error nodes i = Some (n, neg, pos) ->
             nth_error trees i
             = Some (mkVisTree (plane_norm n) (plane_dist n) (vt_mins n)
                       (vt_maxes n) (Some (child_ref neg)) (Some (child_ref pos)))
             /\ ref_in_heap (mkVisHeap trees leafs (RefTree 0)) (child_ref neg)
             /\ ref_in_heap (mkVisHeap trees leafs (RefTree 0)) (child_ref pos)).
  { intros i n neg pos Hi.
    destruct (Hlinked _ _ _ _ Hi) as [cn [cp [Hcn [Hcp Hres]]]].
    apply vis_child_spec in Hcn, Hcp.
    destruct Hcn as [-> Hcn], Hcp as [-> Hcp].
    simpl in Hres. rewrite nth_error_map, Hi in Hres. simpl in Hres.
    split; [exact Hres|]. unfold ref_in_heap. cbn [heap_trees heap_leafs].
    rewrite Hlen. split; assumption. }
  assert (Hcount : List.length nodes = List.length node_recs)
    by (symmetry; apply (Forall2_length Hrecs)).
  exists planes, node_recs, nodes. repeat split; auto.
  - destruct (Forall2_nth_error_r _ _ _ Hrecs _ _ H) as [rec [Hrec Hdec]].
    apply node_of_record_inv in Hdec. unfold field. rewrite Hrec. apply Hdec.
  - destruct (Forall2_nth_error_r _ _ _ Hrecs _ _ H) as [rec [Hrec Hdec]].
    apply node_of_record_inv in Hdec. unfold field. rewrite Hrec. apply Hdec.
  - apply (Hnode _ _ _ _ H).
  - apply (Hnode _ _ _ _ H).
  - apply (Hnode _ _ _ _ H).
  - intros n pos H0.
    destruct (Hnode _ _ _ _ H0) as [Ht [Hin _]].
    change (child_ref (-1)) with (RefLeaf 0) in Ht, Hin.
    unfold ref_in_heap in Hin. cbn [heap_leafs] in Hin.
    destruct leafs as [|leaf leafs]; [simpl in Hin; lia|].
    unfold vis_leafs in Hleafs. inv_bind Hleafs. rename a into recs.
    apply for_each_appending in Hleafs. destruct Hleafs as [bs [E Hl]].
    simpl in E. subst bs.
    destruct (Forall2_nth_error_r _ _ _ Hl 0%nat leaf eq_refl)
      as [[z rec] [Hrec Hdec]].
    apply nth_error_enumerate in Hrec. destruct Hrec as [-> Hrec].
    eexists _, leaf, leaf_fmt, recs, rec. repeat split; eauto.
Qed.

Lemma vis_tree_links_children_witness :
  vis_tree twin_vis_bsp = Ok twin_vis_heap
  /\ exists planes node_recs nodes,
    vis_planes twin_vis_bsp = Ok planes
    /\ node_records twin_vis_bsp = Ok node_recs
    /\ vis_nodes twin_vis_bsp planes = Ok nodes
    /\ heap_root twin_vis_heap = RefTree 0
    /\ (0 < List.length nodes)%nat
    /\ List.length nodes = List.length node_recs
    /\ List.length (heap_trees twin_vis_heap) = List.length nodes
    /\ (forall i n neg pos,
          nth_error nodes i = Some (n, neg, pos) ->
          field node_recs i 1 = Some (PInt neg)
          /\ field node_recs i 2 = Some (PInt pos)
          /\ nth_error (heap_trees twin_vis_heap) i
             = Some (mkVisTree (plane_norm n) (plane_dist n) (vt_mins n)
                       (vt_maxes n) (Some (child_ref neg)) (Some (child_ref pos)))
          /\ ref_in_heap twin_vis_heap (child_ref neg)
          /\ ref_in_heap twin_vis_heap (child_ref pos))
    /\ (forall n pos,
          nth_error nodes 0 = Some (n, -1, pos) ->
          exists root leaf leaf_fmt recs rec,
            nth_error (heap_trees twin_vis_heap) 0 = Some root
            /\ child_neg root = Some (RefLeaf 0)
            /\ nth_error (heap_leafs twin_vis_heap) 0 = Some leaf
            /\ vis_leaf_fmt twin_vis_bsp = Ok leaf_fmt
            /\ leaf_records twin_vis_bsp leaf_fmt = Ok recs
            /\ nth_error recs 0 = Some rec
            /\ leaf_of_record (0, rec) = Ok leaf).
Proof.
  split; [vm_compute; reflexivity|].
  apply (vis_tree_links_children twin_vis_bsp twin_vis_heap).
  vm_compute; reflexivity.
Defined.

(** In the tree of two nodes the first node record has the children -1 and
    1: the root's negative child is the first leaf, its positive child the
    second node, whose children are the two other leaves. *)
Example twin_vis_children :
  node_records twin_vis_bsp
  = Ok [[PInt 0; PInt (-1); PInt 1; PInt (-16); PInt (-16); PInt (-16);
         PInt 16; PInt 16; PInt 16; PInt 0; PInt 0; PInt 0];
        [PInt 0; PInt (-2); PInt (-3); PInt (-16); PInt (-16); PInt (-16);
         PInt 16; PInt 16; PInt 16; PInt 0; PInt 0; PInt 0]]
  /\ vis_tree twin_vis_bsp = Ok twin_vis_heap
  /\ option_map child_neg (nth_error (heap_trees twin_vis_heap) 0)
     = Some (Some (RefLeaf 0))
  /\ option_map child_pos (nth_error (heap_trees twin_vis_heap) 0)
     = Some (Some (RefTree 1))
  /\ option_map child_neg (nth_error (heap_trees twin_vis_heap) 1)
     = Some (Some (RefLeaf 1))
  /\ option_map child_pos (nth_error (heap_trees twin_vis_heap) 1)
     = Some (Some (RefLeaf 2)).
Proof. repeat split; vm_compute; reflexivity. Qed.

(** In the tiny tree the first node record has the negative child -1, and
    the root's negative child is the first leaf. *)
Example tiny_vis_root_child :
  node_records tiny_vis_bsp
  = Ok [[PInt 0; PInt (-1); PInt (-2); PInt (-16); PInt (-16); PInt (-16);
         PInt 16; PInt 16; PInt 16; PInt 0; PInt 0; PInt 0]]
  /\ option_map child_neg (nth_error (heap_trees tiny_vis_heap) 0)
     = Some (Some (RefLeaf 0)).
Proof. split; vm_compute; reflexivity. Qed.
(** ** Bytes and integers *)

Lemma byte_to_Z_of_Z (z : Z) : byte_to_Z (byte_of_Z z) = z mod 256.
Proof.
  unfold byte_to_Z, byte_of_Z.
  assert (Hr : 0 <= z mod 256 < 256) by (apply Z.mod_pos_bound; lia).
  destruct (Byte.of_N (Z.to_N (z mod 256))) as [b|] eqn:E.
  - apply Byte.to_of_N in E. rewrite E. rewrite Z2N.id; lia.
  - apply Byte.of_N_None_iff in E. lia.
Qed.

Lemma byte_to_Z_range (b : byte) : 0 <= byte_to_Z b < 256.
Proof.
  unfold byte_to_Z. pose proof (Byte.to_N_bounded b). lia.
Qed.

Lemma byte_of_Z_to_Z (b : byte) : byte_of_Z (byte_to_Z b) = b.
Proof.
  unfold byte_of_Z. pose proof (byte_to_Z_range b) as Hr.
  rewrite Z.mod_small by lia. unfold byte_to_Z. rewrite N2Z.id.
  rewrite Byte.of_to_N. reflexivity.
Qed.

Lemma le_unsigned_le_encode (n : nat) :
  forall z, le_unsigned (le_encode n z) = z mod 2 ^ (8 * Z.of_nat n).
Proof.
  induction n as [|n IH]; intros z.
  - simpl. rewrite Z.mod_1_r. reflexivity.
  - cbn [le_encode le_unsigned]. rewrite byte_to_Z_of_Z, IH.
    replace (8 * Z.of_nat (S n)) with (8 + 8 * Z.of_nat n) by lia.
    rewrite Z.pow_add_r by lia. change (2 ^ 8) with 256.
    rewrite Z.rem_mul_r by lia. reflexivity.
Qed.

Lemma length_le_encode (n : nat) : forall z, List.length (le_encode n z) = n.
Proof. induction n; intros z; simpl; auto. Qed.

Lemma le_signed_le_encode_4 (z : Z) :
  - 2 ^ 31 <= z < 2 ^ 31 -> le_signed (le_encode 4 z) = z.
Proof.
  intros Hz. unfold le_signed, len.
  rewrite le_unsigned_le_encode, length_le_encode.
  change (8 * Z.of_nat 4) with 32. change (32 - 1) with 31.
  destruct (Z.ltb_spec (z mod 2 ^ 32) (2 ^ 31)) as [H | H].
  - destruct (Z.le_gt_cases 0 z); [rewrite Z.mod_small in *; lia|].
    rewrite <- (Z_mod_plus_full z 1 (2 ^ 32)) in H.
    rewrite Z.mod_small in H; lia.
  - destruct (Z.le_gt_cases 0 z).
    + rewrite Z.mod_small in H; lia.
    + rewrite <- (Z_mod_plus_full z 1 (2 ^ 32)).
      rewrite Z.mod_small; lia.
Qed.

(** ** The version a BSP is read with *)

(** The head of a file that starts with the magic and a version. *)
Lemma struct_read_header_1 (n : Z) (rest : bytes) :
  - 2 ^ 31 <= n < 2 ^ 31 ->
  struct_read HEADER_1 (file_open (BSP_MAGIC ++ le_encode 4 n ++ rest))
  = Ok ([PBytes BSP_MAGIC; PInt n],
        mkFile (BSP_MAGIC ++ le_encode 4 n ++ rest) 8).
Proof.
  intros Hn. unfold struct_read.
  change (Struct.calcsize HEADER_1) with (Ok (A := Z) 8).
  unfold file_read, file_open. cbn [bind pos contents].
  change (8 <? -1) with false. change (8 =? -1) with false. cbv iota.
  change (skipn (Z.to_nat 0) (BSP_MAGIC ++ le_encode 4 n ++ rest))
    with (BSP_MAGIC ++ le_encode 4 n ++ rest).
  change (firstn (Z.to_nat 8) (BSP_MAGIC ++ le_encode 4 n ++ rest))
    with (BSP_MAGIC ++ le_encode 4 n).
  cbn [bind]. unfold Struct.unpack.
  change (Struct.parse HEADER_1) with (Ok [IStr 4; IInt true 4]).
  cbn [bind].
  change ((List.length (BSP_MAGIC ++ le_encode 4 n)
           =? Struct.items_size [IStr 4; IInt true 4])%nat) with true.
  cbv iota.
  change (Struct.unpack_items [IStr 4; IInt true 4] (BSP_MAGIC ++ le_encode 4 n))
    with [PBytes BSP_MAGIC; PInt (le_signed (le_encode 4 n))].
  rewrite le_signed_le_encode_4 by exact Hn.
  reflexivity.
Qed.

Lemma VERSIONS_of_value_unknown (n : Z) :
  (forall v, version_value v <> n) ->
  VERSIONS_of_value n = Raise (ValueError "not a valid VERSIONS").
Proof.
  intros Hn. unfold VERSIONS_of_value.
  destruct (find _ all_versions) as [v|] eqn:E; [|reflexivity].
  apply find_some in E. destruct E as [_ E].
  apply Z.eqb_eq in E. destruct (Hn v E).
Qed.

(** With a file version no member of [VERSIONS] has, a read that succeeds
    leaves the plain int as the version. *)
Lemma read_version_unknown (sv : version_t) (n : Z) (v : version_t) :
  (forall m, version_value m <> n) ->
  read_version sv n = Ok v -> v = VPlain n.
Proof.
  intros Hn. destruct sv as [|m|k]; simpl.
  - rewrite (VERSIONS_of_value_unknown n Hn). simpl. congruence.
  - destruct (Z.eqb_spec n (version_value m)) as [E|E]; [|discriminate].
    destruct (Hn m (eq_sym E)).
  - destruct (Z.eqb_spec n k) as [E|E]; [|discriminate]. congruence.
Qed.

Lemma BSP_read_version (sv : version_t) (n : Z) (rest : bytes) (bsp : BSP) :
  - 2 ^ 31 <= n < 2 ^ 31 ->
  BSP_read sv (BSP_MAGIC ++ le_encode 4 n ++ rest) = Ok bsp ->
  read_version sv n = Ok (version bsp).
Proof.
  intros Hn. unfold BSP_read. rewrite (struct_read_header_1 n rest Hn).
  rewrite bind_ret. intros H.
  inv_bind H. inv_bind H. rename a0 into v.
  inv_bind H. destruct a0 as [[ls offs] f].
  inv_bind H. destruct a0 as [vals f'].
  destruct vals as [|[rev| | |] [|? ?]]; try discriminate H.
  inv_bind H. destruct a0 as [ls' f''].
  inv_bind H. inv_bind H.
  destruct a1 as [|[cnt| | |] [|? ?]]; try discriminate H.
  inv_bind H. destruct a1 as [[off gls] f3].
  apply Ok_inj in H. subst bsp. exact Ha0.
Qed.

(** C10: a file whose version no member of [VERSIONS] has is read into a BSP
    that stores the version as a plain int, and on every such BSP [vis_tree]
    fails no later than the selection of the leaf format, which reads
    [self.version.value]: no leaf record is decoded. *)
Theorem plain_version_breaks_vis_tree
    (sv : version_t) (n : Z) (rest : bytes) (bsp : BSP) :
  - 2 ^ 31 <= n < 2 ^ 31 ->
  (forall v, version_value v <> n) ->
  BSP_read sv (BSP_MAGIC ++ le_encode 4 n ++ rest) = Ok bsp ->
  version bsp = VPlain n
  /\ vis_leaf_fmt bsp = Raise no_value_attribute
  /\ vis_tree bsp
     = (planes <- vis_planes bsp ;;
        nodes <- vis_nodes bsp planes ;;
        Raise no_value_attribute)
  /\ exists e, vis_tree bsp = Raise e.
Proof.
  intros Hn Hv Hread.
  apply BSP_read_version in Hread; [|exact Hn].
  apply read_version_unknown in Hread; [|exact Hv].
  assert (Hfmt : vis_leaf_fmt bsp = Raise no_value_attribute).
  { unfold vis_leaf_fmt. rewrite Hread. reflexivity. }
  assert (Htree : vis_tree bsp
                  = (planes <- vis_planes bsp ;;
                     nodes <- vis_nodes bsp planes ;;
                     Raise no_value_attribute)).
  { unfold vis_tree. rewrite Hfmt. reflexivity. }
  split; [exact Hread|]. split; [exact Hfmt|]. split; [exact Htree|].
  rewrite Htree.
  destruct (vis_planes bsp) as [planes|e]; [|exists e; reflexivity].
  rewrite bind_ret.
  destruct (vis_nodes bsp planes) as [nodes|e]; [|exists e; reflexivity].
  exists no_value_attribute. reflexivity.
Qed.

Lemma plain_version_breaks_vis_tree_witness :
  (- 2 ^ 31 <= 25 < 2 ^ 31)
  /\ (forall v, version_value v <> 25)
  /\ BSP_read VNone (BSP_MAGIC ++ le_encode 4 25 ++ minimal_bsp_tail)
     = Ok plain_version_BSP
  /\ version plain_version_BSP = VPlain 25
  /\ vis_leaf_fmt plain_version_BSP = Raise no_value_attribute
  /\ vis_tree plain_version_BSP
     = (planes <- vis_planes plain_version_BSP ;;
        nodes <- vis_nodes plain_version_BSP planes ;;
        Raise no_value_attribute)
  /\ exists e, vis_tree plain_version_BSP = Raise e.
Proof.
  assert (Hn : - 2 ^ 31 <= 25 < 2 ^ 31) by lia.
  assert (Hv : forall v, version_value v <> 25) by (intros v; destruct v; discriminate).
  assert (Hr : BSP_read VNone (BSP_MAGIC ++ le_encode 4 25 ++ minimal_bsp_tail)
               = Ok plain_version_BSP) by (vm_compute; reflexivity).
  split; [exact Hn|]. split; [exact Hv|]. split; [exact Hr|].
  exact (plain_version_breaks_vis_tree VNone 25 minimal_bsp_tail
           plain_version_BSP Hn Hv Hr).
Defined.

(** With empty PLANES and NODES lumps the failure is the missing
    attribute. *)
Example plain_version_vis_tree_error :
  vis_tree plain_version_BSP = Raise no_value_attribute.
Proof. vm_compute. reflexivity. Qed.

(** A version given by the caller as a plain int is kept as such, also when
    a member of [VERSIONS] has that value: [vis_tree] fails all the same. *)
Example caller_version_vis_tree_error :
  exists bsp,
    BSP_read (VPlain 20) minimal_bsp = Ok bsp
    /\ version bsp = VPlain 20
    /\ vis_tree bsp = Raise no_value_attribute.
Proof.
  exists (mkBSP 0 empty_lumps [] 0 (VPlain 20)).
  split; [vm_compute; reflexivity|]. split; [reflexivity|].
  vm_compute; reflexivity.
Qed.

(** ** Static props: the version check *)

Lemma bind_Raise {A B} (c : PyResult A) (k : A -> PyResult B) (e : exn) :
  bind c k = Raise e -> c = Raise e \/ exists a, c = Ok a /\ k a = Raise e.
Proof. destruct c; simpl; intros H; [right; eauto | left; congruence]. Qed.

Lemma Raise_inj {A} (e1 e2 : exn) : @Raise A e1 = Raise e2 -> e1 = e2.
Proof. congruence. Qed.

Lemma parse_items_error (s : string) :
  forall count e, Struct.parse_items s count = Raise e -> e = StructError.
Proof.
  induction s as [|c s IH]; intros count e H; cbn [Struct.parse_items] in H.
  - destruct count; [congruence | discriminate H].
  - destruct (Struct.digit_of c); [eauto|].
    destruct (Struct.is_space c).
    + destruct count; [congruence | eauto].
    + apply bind_Raise in H. destruct H as [H | [its [_ H]]].
      * unfold Struct.item_of_code in H.
        destruct c as [[] [] [] [] [] [] [] []]; cbv iota in H; congruence.
      * apply bind_Raise in H. destruct H as [H | [more [_ H]]];
          [eauto | discriminate H].
Qed.

Lemma parse_error (fmt : string) (e : exn) :
  Struct.parse fmt = Raise e -> e = StructError.
Proof.
  unfold Struct.parse. destruct fmt as [|c s].
  - intros H. eapply parse_items_error; eauto.
  - destruct c as [[] [] [] [] [] [] [] []]; intros H;
      eapply parse_items_error; eauto.
Qed.

Lemma struct_read_error (fmt : string) (f : File) (e : exn) :
  struct_read fmt f = Raise e -> In e decoding_errors.
Proof.
  unfold struct_read, Struct.calcsize, Struct.unpack, file_read. intros H.
  apply bind_Raise in H. destruct H as [H | [size [_ H]]].
  - apply bind_Raise in H. destruct H as [H | [its [_ H]]]; [|discriminate H].
    apply parse_error in H. subst. simpl; auto.
  - apply bind_Raise in H. destruct H as [H | [[data f'] [_ H]]].
    + destruct (size <? -1); [|discriminate H].
      apply Raise_inj in H. subst. simpl; auto.
    + apply bind_Raise in H. destruct H as [H | [vals [_ H]]]; [|discriminate H].
      apply bind_Raise in H. destruct H as [H | [its [_ H]]].
      * apply parse_error in H. subst. simpl; auto.
      * destruct (_ =? _)%nat; [discriminate H|].
        apply Raise_inj in H. subst. simpl; auto.
Qed.

Lemma float_of_error (s : scalar) (e : exn) :
  float_of s = Raise e -> In e decoding_errors.
Proof.
  destruct s as [z|f]; simpl; [|discriminate].
  unfold PyFloat.of_int. destruct (PyFloat.is_finite _); [discriminate|].
  intros H. apply Raise_inj in H. subst. simpl; auto 10.
Qed.

Lemma Vec_init_error (x y z : scalar) (e : exn) :
  Vec_init x y z = Raise e -> In e decoding_errors.
Proof.
  unfold Vec_init. intros H.
  repeat (apply bind_Raise in H;
          destruct H as [H | [? [_ H]]]; [eapply float_of_error; eauto|]).
  discriminate H.
Qed.

Lemma Vec_from_iter_error (it : list scalar) (y z : scalar) (e : exn) :
  Vec_from_iter it y z = Raise e -> In e decoding_errors.
Proof.
  unfold Vec_from_iter. intros H.
  repeat (apply bind_Raise in H;
          destruct H as [H | [? [_ H]]]; [eapply float_of_error; eauto|]).
  discriminate H.
Qed.

Lemma float_rem_error (a b : float) (e : exn) :
  PyFloat.rem a b = Raise e -> In e decoding_errors.
Proof.
  unfold PyFloat.rem. destruct (is_zero b); [|discriminate].
  intros H. apply Raise_inj in H. subst. simpl; auto 10.
Qed.

Lemma norm360_error (s : scalar) (e : exn) :
  norm360 s = Raise e -> In e decoding_errors.
Proof.
  unfold norm360. intros H.
  apply bind_Raise in H. destruct H as [H | [f [_ H]]];
    [eapply float_of_error; eauto|].
  apply bind_Raise in H. destruct H as [H | [a [_ H]]];
    eapply float_rem_error; eauto.
Qed.

Lemma Angle_from_iter_error (it : list scalar) (y z : scalar) (e : exn) :
  Angle_from_iter it y z = Raise e -> In e decoding_errors.
Proof.
  unfold Angle_from_iter. intros H.
  repeat (apply bind_Raise in H;
          destruct H as [H | [? [_ H]]]; [eapply norm360_error; eauto|]).
  discriminate H.
Qed.

Lemma py_index_error {A} (l : list A) (i : Z) (e : exn) :
  py_index l i = Raise e -> In e decoding_errors.
Proof.
  unfold py_index. destruct (_ <? 0).
  - intros H. apply Raise_inj in H. subst. simpl; auto 10.
  - destruct (nth_error _ _); [discriminate|].
    intros H. apply Raise_inj in H. subst. simpl; auto 10.
Qed.

Lemma decode_ascii_error (b : bytes) (e : exn) :
  decode_ascii b = Raise e -> In e decoding_errors.
Proof.
  unfold decode_ascii. destruct (forallb _ _); [discriminate|].
  intros H. apply Raise_inj in H. subst. simpl; auto 10.
Qed.

Lemma StaticPropFlags_error (n : Z) (e : exn) :
  StaticPropFlags_of_value n = Raise e -> In e decoding_errors.
Proof.
  unfold StaticPropFlags_of_value. destruct (_ && _); [discriminate|].
  intros H. apply Raise_inj in H. subst. simpl; auto 10.
Qed.

Lemma bad_unpack_error {A} (e : exn) :
  @bad_unpack A = Raise e -> In e decoding_errors.
Proof.
  unfold bad_unpack. intros H. apply Raise_inj in H. subst. simpl; auto 10.
Qed.

Lemma for_each_error {A S} (P : exn -> Prop) (body : A -> S -> PyResult S) xs :
  (forall x s e, body x s = Raise e -> P e) ->
  forall s e, for_each xs body s = Raise e -> P e.
Proof.
  intros Hbody. induction xs as [|x xs IH]; simpl; intros s e H.
  - discriminate.
  - apply bind_Raise in H. destruct H as [H | [s' [_ H]]]; eauto.
Qed.

Create HintDb decode_err.
#[local] Hint Resolve struct_read_error Vec_init_error Vec_from_iter_error
  Angle_from_iter_error py_index_error decode_ascii_error
  StaticPropFlags_error bad_unpack_error float_of_error : decode_err.

(** Peels one step off a computation that raised: a failing bind, a branch
    or a match on a decoded value. *)
Ltac peel H :=
  cbv beta iota in H;
  lazymatch type of H with
  | bind _ _ = Raise _ =>
      let a := fresh "a" in
      apply bind_Raise in H;
      destruct H as [H | [a [_ H]]]
  | (if ?c then _ else _) = Raise _ => destruct c
  | (let (_, _) := ?p in _) = Raise _ => destruct p
  | match ?v with _ => _ end = Raise _ => destruct v
  | Ok _ = Raise _ => discriminate H
  | _ = Raise _ => solve [eauto with decode_err]
  end.

Lemma read_static_props_models_error (f : File) (e : exn) :
  read_static_props_models f = Raise e -> In e decoding_errors.
Proof.
  unfold read_static_props_models. intros H.
  repeat peel H.
  eapply (for_each_error (fun e => In e decoding_errors)); [|exact H].
  clear. intros _ [names f] e H.
  repeat peel H.
Qed.

Lemma read_static_prop_error version model_dict visleaf_list f e :
  read_static_prop version model_dict visleaf_list f = Raise e ->
  In e decoding_errors.
Proof.
  unfold read_static_prop. intros H.
  repeat peel H.
Qed.

Lemma gen_for_error {A S} (P : exn -> Prop) (body : S -> PyResult (A * S)) n :
  (forall s e, body s = Raise e -> P e) ->
  forall s l e, gen_for n body s = (l, Some e) -> P e.
Proof.
  intros Hbody. induction n as [|n IH]; intros s l e H; cbn [gen_for] in H.
  - discriminate H.
  - destruct (body s) as [[a s']|e'] eqn:E.
    + destruct (gen_for n body s') as [l' e'] eqn:E'.
      injection H as _ ->. eauto.
    + injection H as _ ->. eauto.
Qed.

Lemma decode_static_props_error (v : Z) (data : bytes) l (e : exn) :
  decode_static_props v data = (l, Some e) -> In e decoding_errors.
Proof.
  unfold decode_static_props.
  match goal with |- context [match ?c with _ => _ end] => destruct c as [r|e'] eqn:E end.
  - destruct r as [[[model_dict visleaf_list] prop_count] f].
    apply (gen_for_error (fun e => In e decoding_errors)).
    intros s e0. apply read_static_prop_error.
  - intros H. injection H as _ ->. clear l.
    peel E; [eapply read_static_props_models_error; eauto|].
    repeat peel E.
Qed.

Lemma version_error_is_no_decoding_error (e : exn) :
  UnsupportedStaticPropVersion e -> ~ In e decoding_errors.
Proof.
  intros [[v ->] | ->] Hin; unfold unknown_version, version_too_old in Hin;
    simpl in Hin;
    repeat (destruct Hin as [Hin | Hin]; [discriminate Hin|]);
    exact Hin.
Qed.

(** C7: with a static-prop game lump present, [static_props] ends in the
    unsupported-version error exactly when the lump's version is below 4 or
    above 11, and then before any prop; for the versions 4 to 11 it goes on
    to decode the lump. *)
Theorem static_props_version_gate (self : BSP) (lump : GameLump) :
  dict_get bytes_eqb (game_lumps self) sprp = Some lump ->
  ((exists e, snd (static_props self) = Some e /\ UnsupportedStaticPropVersion e)
   <-> (gl_version lump < 4 \/ 11 < gl_version lump))
  /\ (gl_version lump < 4 \/ 11 < gl_version lump ->
      fst (static_props self) = [])
  /\ (4 <= gl_version lump <= 11 ->
      static_props self = decode_static_props (gl_version lump) (gl_data lump)).
Proof.
  intros Hlump. unfold static_props. rewrite Hlump.
  destruct (Z.ltb_spec 11 (gl_version lump)) as [Hhi | Hhi].
  { split; [|split].
    - split; [intros _; lia|]. intros _. eexists. split; [reflexivity|].
      left. eexists. reflexivity.
    - reflexivity.
    - lia. }
  destruct (Z.ltb_spec (gl_version lump) 4) as [Hlo | Hlo].
  { split; [|split].
    - split; [intros _; lia|]. intros _. eexists. split; [reflexivity|].
      right. reflexivity.
    - reflexivity.
    - lia. }
  split; [|split].
  - split; [|lia]. intros [e [He Hv]]. exfalso.
    destruct (decode_static_props (gl_version lump) (gl_data lump)) as [l oe] eqn:E.
    simpl in He. subst oe.
    apply decode_static_props_error in E.
    exact (version_error_is_no_decoding_error e Hv E).
  - lia.
  - reflexivity.
Qed.

Lemma static_props_version_gate_witness :
  dict_get bytes_eqb (game_lumps (sprp_bsp 12)) sprp = Some (sprp_lump 12)
  /\ ((exists e, snd (static_props (sprp_bsp 12)) = Some e
                 /\ UnsupportedStaticPropVersion e)
      <-> (gl_version (sprp_lump 12) < 4 \/ 11 < gl_version (sprp_lump 12)))
  /\ (gl_version (sprp_lump 12) < 4 \/ 11 < gl_version (sprp_lump 12) ->
      fst (static_props (sprp_bsp 12)) = [])
  /\ (4 <= gl_version (sprp_lump 12) <= 11 ->
      static_props (sprp_bsp 12)
      = decode_static_props (gl_version (sprp_lump 12)) (gl_data (sprp_lump 12))).
Proof.
  split; [reflexivity|].
  apply (static_props_version_gate (sprp_bsp 12) (sprp_lump 12)).
  reflexivity.
Defined.

(** The two errors, and a lump of each version from 4 to 11 that decodes to
    its one prop. *)
Example static_props_versions :
  static_props (sprp_bsp 3) = ([], Some version_too_old)
  /\ static_props (sprp_bsp 12)
     = ([], Some (ValueError "Unknown version (12)!"))
  /\ Forall (fun v => exists p, static_props (sprp_bsp v) = ([p], None))
            [4; 5; 6; 7; 8; 9; 10; 11].
Proof.
  split; [vm_compute; reflexivity|]. split; [vm_compute; reflexivity|].
  repeat (apply Forall_cons; [eexists; vm_compute; reflexivity|]).
  apply Forall_nil.
Qed.

(** ** The entity lump *)

Section EntDataFacts.
Context {VMF Entity Output : Type} {ops : VmfOps VMF Entity Output}.

(** How a key/value line is told from a connection: by the byte 27 (0x1B)
    in the value, else by a count of four commas and an attempt to parse. *)
Lemma read_keyvalue_dispatch (line key value : bytes) (k v : string)
    (s : ent_state) :
  st_cur s <> CurNone ->
  bytes_split line KV_SEP 2 = [key; value] ->
  decode_ascii (drop_first key) = Ok k ->
  decode_ascii (bytes_replace (drop_last value) ESCAPED_QUOTE QUOTE) = Ok v ->
  read_keyvalue line s
  = if byte_in 0x1b value then
      out <- Output_parse k v ;; update_cur s (fun e => ent_add_out e out)
    else if bytes_count value ","%byte =? 4 then
      match Output_parse k v with
      | Ok out => update_cur s (fun e => ent_add_out e out)
      | Raise err =>
          if is_ValueError err
          then update_cur s (fun e => ent_setitem e k v)
          else Raise err
      end
    else update_cur s (fun e => ent_setitem e k v).
Proof.
  intros Hcur Hsplit Hk Hv. unfold read_keyvalue.
  rewrite Hsplit, Hk, Hv. rewrite !bind_ret.
  destruct (st_cur s); [contradiction | reflexivity | reflexivity].
Qed.

(** A value with the byte 0x1D but without the byte 0x1B, and with another
    number of commas than four, is stored as a plain key/value: no parse
    is attempted. *)
Lemma x1d_without_esc_is_keyvalue (line key value : bytes) (k v : string)
    (s : ent_state) :
  st_cur s <> CurNone ->
  bytes_split line KV_SEP 2 = [key; value] ->
  decode_ascii (drop_first key) = Ok k ->
  decode_ascii (bytes_replace (drop_last value) ESCAPED_QUOTE QUOTE) = Ok v ->
  byte_in 0x1d value = true ->
  byte_in 0x1b value = false ->
  bytes_count value ","%byte <> 4 ->
  read_keyvalue line s = update_cur s (fun e => ent_setitem e k v).
Proof.
  intros Hcur Hsplit Hk Hv _ Hesc Hcount.
  rewrite (read_keyvalue_dispatch line key value k v s Hcur Hsplit Hk Hv).
  rewrite Hesc. apply Z.eqb_neq in Hcount. rewrite Hcount. reflexivity.
Qed.

(** Once a line is the lone NUL, the lines after it are not read. *)
Lemma read_ent_lines_stop (before after : list bytes) :
  forall s,
  read_ent_lines (before ++ [x00] :: after) s
  = read_ent_lines (before ++ [[x00]]) s.
Proof.
  induction before as [|line before IH]; intros s.
  - cbn [app read_ent_lines]. unfold read_ent_line.
    change (bytes_eqb [x00] (bytes_of_string "{")) with false.
    change (bytes_eqb [x00] (bytes_of_string "}")) with false.
    change (bytes_eqb [x00] [x00]) with true. cbv iota.
    destruct (st_cur s); reflexivity.
  - cbn [app read_ent_lines].
    destruct (read_ent_line line s) as [[s'|vmf]|e]; cbn [bind]; auto.
Qed.

(** The loop over all the lines is the loop over the first ones, then over
    the others unless it has returned. *)
Lemma read_ent_lines_app (before rest : list bytes) :
  forall s,
  read_ent_lines (before ++ rest) s
  = (r <- read_ent_prefix before s ;;
     match r with
     | Next s' => read_ent_lines rest s'
     | Return vmf => Ok vmf
     end).
Proof.
  induction before as [|line before IH]; intros s.
  - reflexivity.
  - cbn [app read_ent_lines read_ent_prefix].
    destruct (read_ent_line line s) as [[s'|vmf]|e]; cbn [bind];
      [apply IH|reflexivity|reflexivity].
Qed.

(** The line of the lone NUL: between entities the loop returns the VMF,
    inside an entity it raises. *)
Lemma read_ent_line_nul (s : ent_state) :
  read_ent_line [x00] s
  = match st_cur s with
    | CurNone => Ok (Return (st_vmf s))
    | _ => Raise (ValueError "Last entity didn't end!")
    end.
Proof. reflexivity. Qed.

(** A line that starts with the NUL and goes on is not the terminator:
    between entities it is a keyvalue outside brackets. *)
Lemma nul_with_data_is_rejected (vmf : VMF) (seen : bool) (b : byte)
    (extra : bytes) :
  read_ent_line (x00 :: b :: extra) (mkEntState vmf CurNone seen)
  = Raise (ValueError "Keyvalue outside brackets!").
Proof. reflexivity. Qed.
End EntDataFacts.

(** The lines of a lump up to a line feed, then the lines of the rest. *)
Lemma splitlines_go_line_feed (a b : bytes) :
  forall cur after_cr,
  splitlines_go (a ++ x0a :: b) cur after_cr
  = splitlines_go (a ++ [x0a]) cur after_cr ++ splitlines_go b [] false.
Proof.
  induction a as [|c a IH]; intros cur after_cr.
  - cbn [app splitlines_go]. destruct after_cr; reflexivity.
  - cbn [app].
    destruct (Byte.byte_eq_dec c x0a) as [-> | Hlf].
    { cbn [splitlines_go]. destruct after_cr; rewrite IH; reflexivity. }
    destruct (Byte.byte_eq_dec c x0d) as [-> | Hcr].
    { cbn [splitlines_go]. rewrite IH. reflexivity. }
    assert (Hc : forall l, splitlines_go (c :: l) cur after_cr
                           = splitlines_go l (c :: cur) false).
    { intros l. destruct c; try reflexivity; congruence. }
    rewrite !Hc. apply IH.
Qed.

Lemma splitlines_nul_line (pre rest : bytes) :
  splitlines (pre ++ NUL_LINE ++ rest)
  = splitlines (pre ++ [x0a]) ++ [x00] :: splitlines rest.
Proof.
  unfold splitlines, NUL_LINE. cbn [app].
  rewrite splitlines_go_line_feed. reflexivity.
Qed.

(** C2, as stated, fails: the connection written with the separator 0x1D
    holds no byte 27 and not four commas, and [read_ent_data] stores it as
    a plain key/value; no output is added to the entity. *)
Lemma x1d_value_is_stored_as_keyvalue :
  byte_in 0x1d x1d_value = true
  /\ byte_in 0x1b x1d_value = false
  /\ bytes_count x1d_value ","%byte = 0
  /\ read_ent_data (ops := SimpleVmf.ops) (bsp_with_lump ENTITIES x1d_lump)
     = Ok (SimpleVmf.mkVMF
             (SimpleVmf.mkEntity
                [("classname", "worldspawn");
                 ("OnTrigger", string_of_list_byte x1d_value)]%string
                [])
             [] 0).
Proof. repeat split; vm_compute; reflexivity. Qed.

(** C2, amended: the byte that marks a connection is 27 (0x1B), not 0x1D.
    For every key/value line inside an entity, whatever the classes of the
    VMF library do: when the value holds the byte 27 the pair is handed to
    [Output.parse] and the output added, an error of the parse not being
    caught; otherwise, when the value holds exactly four commas, the parse
    is tried and on a [ValueError] the pair is stored as a plain key/value
    (another error is raised); otherwise the pair is stored as a plain
    key/value without a parse. *)
Theorem keyvalue_or_output_by_byte_27
    {VMF Entity Output : Type} {ops : VmfOps VMF Entity Output}
    (line key value : bytes) (k v : string) (s : ent_state) :
  st_cur s <> CurNone ->
  bytes_split line KV_SEP 2 = [key; value] ->
  decode_ascii (drop_first key) = Ok k ->
  decode_ascii (bytes_replace (drop_last value) ESCAPED_QUOTE QUOTE) = Ok v ->
  read_ent_line line s
  = if byte_in 27 value then
      out <- Output_parse k v ;;
      s' <- update_cur s (fun e => ent_add_out e out) ;;
      Ok (Next s')
    else if bytes_count value ","%byte =? 4 then
      match Output_parse k v with
      | Ok out =>
          s' <- update_cur s (fun e => ent_add_out e out) ;; Ok (Next s')
      | Raise err =>
          if is_ValueError err
          then s' <- update_cur s (fun e => ent_setitem e k v) ;;
               Ok (Next s')
          else Raise err
      end
    else s' <- update_cur s (fun e => ent_setitem e k v) ;; Ok (Next s').
Proof.
  intros Hcur Hsplit Hk Hv.
  assert (Hline : read_ent_line line s
                  = (s' <- read_keyvalue line s ;; Ok (Next s'))).
  { unfold read_ent_line.
    destruct (bytes_eqb line (bytes_of_string "{")) eqn:E1.
    { unfold bytes_eqb in E1.
      destruct (list_eq_dec Byte.byte_eq_dec line (bytes_of_string "{"))
        as [->|]; [|discriminate E1].
      vm_compute in Hsplit. discriminate Hsplit. }
    destruct (bytes_eqb line (bytes_of_string "}")) eqn:E2.
    { unfold bytes_eqb in E2.
      destruct (list_eq_dec Byte.byte_eq_dec line (bytes_of_string "}"))
        as [->|]; [|discriminate E2].
      vm_compute in Hsplit. discriminate Hsplit. }
    destruct (bytes_eqb line [x00]) eqn:E3.
    { unfold bytes_eqb in E3.
      destruct (list_eq_dec Byte.byte_eq_dec line [x00])
        as [->|]; [|discriminate E3].
      vm_compute in Hsplit. discriminate Hsplit. }
    reflexivity. }
  rewrite Hline, (read_keyvalue_dispatch line key value k v s Hcur Hsplit Hk Hv).
  destruct (byte_in 27 value).
  - destruct (Output_parse k v); reflexivity.
  - destruct (bytes_count value ","%byte =? 4); [|reflexivity].
    destruct (Output_parse k v) as [out|err]; [reflexivity|].
    destruct (is_ValueError err); reflexivity.
Qed.

Lemma keyvalue_or_output_by_byte_27_witness :
  st_cur in_spawn <> CurNone
  /\ bytes_split on_bad_line KV_SEP 2 = [on_bad_key; on_bad_value]
  /\ decode_ascii (drop_first on_bad_key) = Ok "OnBad"%string
  /\ decode_ascii (bytes_replace (drop_last on_bad_value) ESCAPED_QUOTE QUOTE)
     = Ok "a,b,c,d,e"%string
  /\ read_ent_line (ops := SimpleVmf.ops) on_bad_line in_spawn
     = if byte_in 27 on_bad_value then
         out <- Output_parse (VmfOps := SimpleVmf.ops) "OnBad" "a,b,c,d,e" ;;
         s' <- update_cur (ops := SimpleVmf.ops) in_spawn
                 (fun e => ent_add_out (VmfOps := SimpleVmf.ops) e out) ;;
         Ok (Next s')
       else if bytes_count on_bad_value ","%byte =? 4 then
         match Output_parse (VmfOps := SimpleVmf.ops) "OnBad" "a,b,c,d,e" with
         | Ok out =>
             s' <- update_cur (ops := SimpleVmf.ops) in_spawn
                     (fun e => ent_add_out (VmfOps := SimpleVmf.ops) e out) ;;
             Ok (Next s')
         | Raise err =>
             if is_ValueError err
             then s' <- update_cur (ops := SimpleVmf.ops) in_spawn
                          (fun e => ent_setitem (VmfOps := SimpleVmf.ops) e
                                      "OnBad" "a,b,c,d,e") ;;
                  Ok (Next s')
             else Raise err
         end
       else s' <- update_cur (ops := SimpleVmf.ops) in_spawn
                    (fun e => ent_setitem (VmfOps := SimpleVmf.ops) e
                                "OnBad" "a,b,c,d,e") ;;
            Ok (Next s').
Proof.
  split; [discriminate|]. split; [reflexivity|]. split; [reflexivity|].
  split; [reflexivity|].
  apply (keyvalue_or_output_by_byte_27 (ops := SimpleVmf.ops)
           on_bad_line on_bad_key on_bad_value "OnBad" "a,b,c,d,e" in_spawn).
  - discriminate.
  - reflexivity.
  - reflexivity.
  - reflexivity.
Defined.

(** The line of the witness has four commas and does not parse: the pair
    is stored. *)
Example on_bad_line_is_stored :
  read_ent_line (ops := SimpleVmf.ops) on_bad_line in_spawn
  = Ok (Next (mkEntState
                (SimpleVmf.mkVMF
                   (SimpleVmf.mkEntity [("OnBad", "a,b,c,d,e")]%string [])
                   [] 0)
                CurSpawn true)).
Proof. vm_compute. reflexivity. Qed.

(** The comma rule: a value with four commas that parses is an output, one
    that does not parse and one with two commas are plain key/values. *)
Example comma_values :
  read_ent_data (ops := SimpleVmf.ops) (bsp_with_lump ENTITIES comma_lump)
  = Ok (SimpleVmf.mkVMF
          (SimpleVmf.mkEntity
             [("classname", "worldspawn"); ("OnBad", "a,b,c,d,e");
              ("origin", "a,b,c")]%string
             [SimpleVmf.mkOutput "OnTrigger" "relay" "Trigger" EmptyString
                "0" "-1"])
          [] 0).
Proof. vm_compute; reflexivity. Qed.

(** C8, as stated, fails: with data on the lines after the final NUL the
    lump is read as if it ended at the NUL. *)
Lemma data_after_nul_is_ignored :
  read_ent_data (ops := SimpleVmf.ops)
    (bsp_with_lump ENTITIES (worldspawn_lump ++ [x0a] ++ garbage))
  = Ok (SimpleVmf.mkVMF
          (SimpleVmf.mkEntity [("classname", "worldspawn")]%string []) [] 0).
Proof. vm_compute; reflexivity. Qed.

(** What follows the line of the lone NUL is not read: the runs with and
    without it are the same. *)
Lemma read_ent_data_ignores_the_rest
    {VMF Entity Output : Type} {ops : VmfOps VMF Entity Output}
    (pre rest : bytes) :
  read_ent_data (bsp_with_lump ENTITIES (pre ++ NUL_LINE ++ rest))
  = read_ent_data (bsp_with_lump ENTITIES (pre ++ NUL_LINE)).
Proof.
  unfold read_ent_data.
  change (get_lump (bsp_with_lump ENTITIES (pre ++ NUL_LINE ++ rest)) ENTITIES)
    with (Ok (pre ++ NUL_LINE ++ rest)).
  change (get_lump (bsp_with_lump ENTITIES (pre ++ NUL_LINE)) ENTITIES)
    with (Ok (pre ++ NUL_LINE)).
  rewrite !bind_ret.
  rewrite <- (app_nil_r (pre ++ NUL_LINE)), <- app_assoc.
  rewrite !splitlines_nul_line.
  rewrite read_ent_lines_stop. reflexivity.
Qed.

(** C8, amended: [read_ent_data] returns at the first line that is the lone
    NUL.  With the lines of the lump cut at that line (however the lines
    are ended), and the loop over the lines before it in the state [s']:
    between entities, the VMF of [s'] is returned whatever lines follow,
    none of which is read or causes an error; inside an entity the error is
    "Last entity didn't end!".  Bytes that follow the NUL on its own line
    make that line another line than the terminator, which between entities
    is rejected as a keyvalue outside brackets. *)
Theorem read_ent_data_stops_at_nul
    {VMF Entity Output : Type} {ops : VmfOps VMF Entity Output}
    (self : BSP) (data : bytes) (before after : list bytes)
    (s' : ent_state) :
  get_lump self ENTITIES = Ok data ->
  splitlines data = before ++ [x00] :: after ->
  read_ent_prefix before (mkEntState VMF_new CurNone false) = Ok (Next s') ->
  (st_cur s' = CurNone -> read_ent_data self = Ok (st_vmf s'))
  /\ (st_cur s' <> CurNone ->
      read_ent_data self = Raise (ValueError "Last entity didn't end!"))
  /\ (forall (vmf : VMF) (seen : bool) (b : byte) (extra : bytes),
        read_ent_line (x00 :: b :: extra) (mkEntState vmf CurNone seen)
        = Raise (ValueError "Keyvalue outside brackets!")).
Proof.
  intros Hlump Hlines Hbefore.
  assert (Hrun : read_ent_data self
                 = (r <- read_ent_line [x00] s' ;;
                    match r with
                    | Next s'' => read_ent_lines after s''
                    | Return vmf => Ok vmf
                    end)).
  { unfold read_ent_data. rewrite Hlump. cbn [bind].
    rewrite Hlines, read_ent_lines_app, Hbefore. reflexivity. }
  rewrite Hrun, read_ent_line_nul.
  split; [|split].
  - intros ->. reflexivity.
  - intros Hcur. destruct (st_cur s'); [contradiction|reflexivity|reflexivity].
  - apply nul_with_data_is_rejected.
Qed.

Lemma read_ent_data_stops_at_nul_witness :
  get_lump (bsp_with_lump ENTITIES (worldspawn_lump ++ [x0d] ++ garbage))
    ENTITIES
  = Ok (worldspawn_lump ++ [x0d] ++ garbage)
  /\ splitlines (worldspawn_lump ++ [x0d] ++ garbage)
     = worldspawn_lines ++ [x00] :: [garbage]
  /\ read_ent_prefix (ops := SimpleVmf.ops) worldspawn_lines
       (mkEntState (VMF_new (VmfOps := SimpleVmf.ops)) CurNone false)
     = Ok (Next after_worldspawn)
  /\ (st_cur after_worldspawn = CurNone ->
      read_ent_data (ops := SimpleVmf.ops)
        (bsp_with_lump ENTITIES (worldspawn_lump ++ [x0d] ++ garbage))
      = Ok (st_vmf after_worldspawn))
  /\ (st_cur after_worldspawn <> CurNone ->
      read_ent_data (ops := SimpleVmf.ops)
        (bsp_with_lump ENTITIES (worldspawn_lump ++ [x0d] ++ garbage))
      = Raise (ValueError "Last entity didn't end!"))
  /\ (forall (vmf : SimpleVmf.VMF) (seen : bool) (b : byte) (extra : bytes),
        read_ent_line (ops := SimpleVmf.ops) (x00 :: b :: extra)
          (mkEntState vmf CurNone seen)
        = Raise (ValueError "Keyvalue outside brackets!")).
Proof.
  split; [reflexivity|]. split; [vm_compute; reflexivity|].
  split; [vm_compute; reflexivity|].
  apply (read_ent_data_stops_at_nul (ops := SimpleVmf.ops)
           (bsp_with_lump ENTITIES (worldspawn_lump ++ [x0d] ++ garbage))
           (worldspawn_lump ++ [x0d] ++ garbage)
           worldspawn_lines [garbage] after_worldspawn).
  - reflexivity.
  - vm_compute. reflexivity.
  - vm_compute. reflexivity.
Defined.

(** The witness, run: the NUL line is ended by a carriage return here, the
    line after it is not read and the world spawn is returned. *)
Example world_spawn_before_garbage :
  st_cur after_worldspawn = CurNone
  /\ read_ent_data (ops := SimpleVmf.ops)
       (bsp_with_lump ENTITIES (worldspawn_lump ++ [x0d] ++ garbage))
     = Ok (SimpleVmf.mkVMF
             (SimpleVmf.mkEntity [("classname", "worldspawn")]%string [])
             [] 0).
Proof. split; vm_compute; reflexivity. Qed.

(** Data right after the NUL, on its line, is rejected. *)
Example data_on_the_nul_line :
  read_ent_data (ops := SimpleVmf.ops)
    (bsp_with_lump ENTITIES (worldspawn_lump ++ garbage))
  = Raise (ValueError "Keyvalue outside brackets!").
Proof. vm_compute; reflexivity. Qed.

(** ** [Vec]: products and quotients *)

Lemma Vec_init_floats (a b c : float) :
  Vec_init (SFloat a) (SFloat b) (SFloat c) = Ok (Vec.mk a b c).
Proof. reflexivity. Qed.

(** Two vectors: every expansion of the template, the reflected and the
    in-place methods included, raises the error of its operator. *)
Lemma Vec_muldiv_two_vectors (op : muldiv) (v w : Vec) :
  Vec_muldiv op v (OVec w) = Raise (cannot_2_vectors op)
  /\ Vec_rmuldiv op v (OVec w) = Raise (cannot_2_vectors op)
  /\ Vec_imuldiv op v (OVec w) = (v, Raise (cannot_2_vectors op))
  /\ AmbiguousVectorProduct (cannot_2_vectors op).
Proof. repeat split. left. exists op. reflexivity. Qed.

(** C9, as stated, fails: a division by the scalar zero does not succeed,
    nor any operation with an int too large for a float. *)
Lemma vec_by_zero_scalar_raises :
  Vec_op op_truediv vec_123 (OScalar (SInt 0)) = Raise ZeroDivisionError
  /\ Vec_op op_floordiv vec_123 (OScalar (SFloat zero)) = Raise ZeroDivisionError
  /\ Vec_op op_mod vec_123 (OScalar (SInt 0)) = Raise ZeroDivisionError
  /\ Vec_divmod_op vec_123 (OScalar (SInt 0)) = Raise ZeroDivisionError
  /\ Vec_op op_mul vec_123 (OScalar (SInt (2 ^ 1024))) = Raise OverflowError.
Proof. repeat split; vm_compute; reflexivity. Qed.

(** C9, amended: two vectors raise the ambiguous-product error under each of
    [*], [/], [//], [%] and [divmod]; with a scalar that is a float, or an
    int that converts to one, multiplication applies componentwise, and so do
    the divisions, the modulus and [divmod] when the scalar is not zero; by a
    zero scalar they raise [ZeroDivisionError]. *)
Theorem vec_muldiv_operands (v w : Vec) (s : scalar) (f : float) :
  float_of s = Ok f ->
  (forall op, Vec_op op v (OVec w) = Raise (cannot_2_vectors op))
  /\ Vec_divmod_op v (OVec w) = Raise (TypeError "Cannot divide 2 Vectors.")
  /\ Vec_op op_mul v (OScalar s)
     = Ok (Vec.mk (Vec.x v * f) (Vec.y v * f) (Vec.z v * f))
  /\ (is_zero f = false ->
      Vec_op op_truediv v (OScalar s)
      = Ok (Vec.mk (Vec.x v / f) (Vec.y v / f) (Vec.z v / f))
      /\ Vec_op op_floordiv v (OScalar s)
         = Ok (Vec.mk (fst (PyFloat.divmod_val (Vec.x v) f))
                      (fst (PyFloat.divmod_val (Vec.y v) f))
                      (fst (PyFloat.divmod_val (Vec.z v) f)))
      /\ Vec_op op_mod v (OScalar s)
         = Ok (Vec.mk (PyFloat.rem_val (Vec.x v) f)
                      (PyFloat.rem_val (Vec.y v) f)
                      (PyFloat.rem_val (Vec.z v) f))
      /\ Vec_divmod_op v (OScalar s)
         = Ok (Vec.mk (fst (PyFloat.divmod_val (Vec.x v) f))
                      (fst (PyFloat.divmod_val (Vec.y v) f))
                      (fst (PyFloat.divmod_val (Vec.z v) f)),
               Vec.mk (snd (PyFloat.divmod_val (Vec.x v) f))
                      (snd (PyFloat.divmod_val (Vec.y v) f))
                      (snd (PyFloat.divmod_val (Vec.z v) f))))
  /\ (is_zero f = true ->
      Vec_op op_truediv v (OScalar s) = Raise ZeroDivisionError
      /\ Vec_op op_floordiv v (OScalar s) = Raise ZeroDivisionError
      /\ Vec_op op_mod v (OScalar s) = Raise ZeroDivisionError
      /\ Vec_divmod_op v (OScalar s) = Raise ZeroDivisionError).
Proof.
  intros Hs.
  split; [intros op; reflexivity|]. split; [reflexivity|].
  unfold Vec_op, Vec_divmod_op, Vec_muldiv, Vec_divmod, float_op_operand,
    float_divmod_operand, float_op.
  rewrite Hs, !bind_ret.
  split; [reflexivity|].
  unfold PyFloat.truediv, PyFloat.floordiv, PyFloat.rem, PyFloat.divmod.
  split; intros ->; rewrite ?bind_ret; repeat split;
    try reflexivity;
    destruct (PyFloat.divmod_val (Vec.x v) f),
             (PyFloat.divmod_val (Vec.y v) f),
             (PyFloat.divmod_val (Vec.z v) f); reflexivity.
Qed.

Lemma vec_muldiv_operands_witness :
  float_of (SInt 2) = Ok float_2
  /\ (forall op, Vec_op op vec_123 (OVec vec_123) = Raise (cannot_2_vectors op))
  /\ Vec_divmod_op vec_123 (OVec vec_123)
     = Raise (TypeError "Cannot divide 2 Vectors.")
  /\ Vec_op op_mul vec_123 (OScalar (SInt 2))
     = Ok (Vec.mk (Vec.x vec_123 * float_2) (Vec.y vec_123 * float_2)
                  (Vec.z vec_123 * float_2))
  /\ (is_zero float_2 = false ->
      Vec_op op_truediv vec_123 (OScalar (SInt 2))
      = Ok (Vec.mk (Vec.x vec_123 / float_2) (Vec.y vec_123 / float_2)
                   (Vec.z vec_123 / float_2))
      /\ Vec_op op_floordiv vec_123 (OScalar (SInt 2))
         = Ok (Vec.mk (fst (PyFloat.divmod_val (Vec.x vec_123) float_2))
                      (fst (PyFloat.divmod_val (Vec.y vec_123) float_2))
                      (fst (PyFloat.divmod_val (Vec.z vec_123) float_2)))
      /\ Vec_op op_mod vec_123 (OScalar (SInt 2))
         = Ok (Vec.mk (PyFloat.rem_val (Vec.x vec_123) float_2)
                      (PyFloat.rem_val (Vec.y vec_123) float_2)
                      (PyFloat.rem_val (Vec.z vec_123) float_2))
      /\ Vec_divmod_op vec_123 (OScalar (SInt 2))
         = Ok (Vec.mk (fst (PyFloat.divmod_val (Vec.x vec_123) float_2))
                      (fst (PyFloat.divmod_val (Vec.y vec_123) float_2))
                      (fst (PyFloat.divmod_val (Vec.z vec_123) float_2)),
               Vec.mk (snd (PyFloat.divmod_val (Vec.x vec_123) float_2))
                      (snd (PyFloat.divmod_val (Vec.y vec_123) float_2))
                      (snd (PyFloat.divmod_val (Vec.z vec_123) float_2))))
  /\ (is_zero float_2 = true ->
      Vec_op op_truediv vec_123 (OScalar (SInt 2)) = Raise ZeroDivisionError
      /\ Vec_op op_floordiv vec_123 (OScalar (SInt 2)) = Raise ZeroDivisionError
      /\ Vec_op op_mod vec_123 (OScalar (SInt 2)) = Raise ZeroDivisionError
      /\ Vec_divmod_op vec_123 (OScalar (SInt 2)) = Raise ZeroDivisionError).
Proof.
  split; [vm_compute; reflexivity|].
  apply (vec_muldiv_operands vec_123 vec_123 (SInt 2) float_2).
  vm_compute; reflexivity.
Defined.

(** [Vec(1, 2, 3) * 2], [/ 2], [// 2], [% 2] and [divmod(.., 2)]. *)
Example vec_123_by_2 :
  Vec_op op_mul vec_123 (OScalar (SInt 2))
  = Ok (Vec.mk 2 4 6)
  /\ Vec_op op_truediv vec_123 (OScalar (SInt 2)) = Ok (Vec.mk 0.5 1 1.5)
  /\ Vec_op op_floordiv vec_123 (OScalar (SInt 2)) = Ok (Vec.mk 0 1 1)
  /\ Vec_op op_mod vec_123 (OScalar (SInt 2)) = Ok (Vec.mk 1 0 1)
  /\ Vec_divmod_op vec_123 (OScalar (SInt 2))
     = Ok (Vec.mk 0 1 1, Vec.mk 1 0 1).
Proof. repeat split; vm_compute; reflexivity. Qed.

(** ** Game lumps: the id is stored backward *)

Lemma file_write_at_end (f : File) (b : bytes) :
  pos f = len (contents f) ->
  file_write f b = mkFile (contents f ++ b) (len (contents f ++ b)).
Proof.
  intros Hp. unfold file_write. cbv zeta. rewrite Hp. unfold len.
  rewrite !Nat2Z.id, firstn_all, Nat.sub_diag.
  rewrite skipn_all2 by lia. cbn [zero_bytes repeat app]. rewrite app_nil_r.
  f_equal. rewrite !length_app. lia.
Qed.

Lemma le_unsigned_le_encode_2 (z : Z) :
  0 <= z < 2 ^ 16 -> le_unsigned (le_encode 2 z) = z.
Proof.
  intros Hz. rewrite le_unsigned_le_encode.
  change (8 * Z.of_nat 2) with 16. apply Z.mod_small. exact Hz.
Qed.

Lemma unpack_items_cons (i : item) (r : list item) (b1 b2 : bytes) :
  List.length b1 = Struct.item_size i ->
  Struct.unpack_items (i :: r) (b1 ++ b2)
  = Struct.unpack_item i b1 ++ Struct.unpack_items r b2.
Proof.
  intros Hl. cbn [Struct.unpack_items]. rewrite <- Hl.
  rewrite firstn_app, firstn_all, Nat.sub_diag, firstn_O, app_nil_r.
  rewrite skipn_app, skipn_all, Nat.sub_diag. reflexivity.
Qed.

Lemma pack_id_flags_version (id : bytes) (flags version : Z) :
  List.length id = 4%nat ->
  0 <= flags < 2 ^ 16 -> 0 <= version < 2 ^ 16 ->
  Struct.pack "<4s HH" [PBytes id; PInt flags; PInt version]
  = Ok (id ++ le_encode 2 flags ++ le_encode 2 version).
Proof.
  intros Hid Hf Hv. unfold Struct.pack.
  change (Struct.parse "<4s HH") with (Ok [IStr 4; IInt false 2; IInt false 2]).
  rewrite bind_ret. cbn [Struct.pack_items].
  assert (Hr : forall z, 0 <= z < 2 ^ 16 -> Struct.int_in_range false 2 z = true).
  { intros z Hz. unfold Struct.int_in_range.
    change (8 * Z.of_nat 2) with 16.
    apply andb_true_intro. split; [apply Z.leb_le | apply Z.ltb_lt]; lia. }
  rewrite (Hr flags Hf), (Hr version Hv). rewrite !bind_ret.
  unfold Struct.pad_to. rewrite <- Hid at 1. rewrite firstn_all, Hid.
  cbn [Nat.sub zero_bytes repeat]. rewrite !app_nil_r. reflexivity.
Qed.

Lemma pack_i32 (z : Z) :
  - 2 ^ 31 <= z < 2 ^ 31 -> Struct.pack "<i" [PInt z] = Ok (le_encode 4 z).
Proof.
  intros Hz. unfold Struct.pack.
  change (Struct.parse "<i") with (Ok [IInt true 4]).
  rewrite bind_ret. cbn [Struct.pack_items].
  replace (Struct.int_in_range true 4 z) with true.
  - rewrite !bind_ret, app_nil_r. reflexivity.
  - symmetry. unfold Struct.int_in_range.
    change (8 * Z.of_nat 4 - 1) with 31.
    apply andb_true_intro. split; [apply Z.leb_le | apply Z.ltb_lt]; lia.
Qed.

(** What [save] writes for a game lump's directory entry: the id backward,
    the flags, the version, four placeholder bytes for the offset, and the
    length. *)
Lemma save_game_lump_header_spec (g : GameLump) (defer : DeferredWrites)
    (file : File) :
  List.length (gl_id g) = 4%nat ->
  0 <= gl_flags g < 2 ^ 16 ->
  0 <= gl_version g < 2 ^ 16 ->
  len (gl_data g) < 2 ^ 31 ->
  pos file = len (contents file) ->
  exists defer' file',
    save_game_lump_header g (defer, file) = Ok (defer', file')
    /\ contents file'
       = contents file
         ++ game_lump_entry (rev (gl_id g)) (gl_flags g) (gl_version g) 0
              (len (gl_data g))
    /\ pos file' = len (contents file').
Proof.
  intros Hid Hf Hv Hd Hp. unfold save_game_lump_header.
  rewrite pack_id_flags_version by (rewrite ?length_rev; assumption).
  rewrite bind_ret. unfold defer_defer.
  change (Struct.calcsize "<i") with (Ok (A := Z) 4). rewrite !bind_ret.
  rewrite pack_i32 by (unfold len in *; lia). rewrite bind_ret.
  rewrite (file_write_at_end file) by exact Hp.
  rewrite (file_write_at_end (mkFile _ _)) by reflexivity.
  rewrite (file_write_at_end (mkFile _ _)) by reflexivity.
  eexists _, _. split; [reflexivity|]. cbn [contents pos]. split; [|reflexivity].
  unfold game_lump_entry, reversed. rewrite <- !app_assoc. reflexivity.
Qed.

(** What [read] makes of a directory entry: the four id bytes are turned
    around and the lump is stored under that id. *)
Lemma read_game_lump_spec (head tail id_on_disk : bytes)
    (flags version file_off file_len : Z)
    (gls : list (bytes * GameLump)) (file : File) :
  List.length id_on_disk = 4%nat ->
  0 <= flags < 2 ^ 16 ->
  0 <= version < 2 ^ 16 ->
  - 2 ^ 31 <= file_off < 2 ^ 31 ->
  - 2 ^ 31 <= file_len < 2 ^ 31 ->
  read_game_lump
    (head ++ game_lump_entry id_on_disk flags version file_off file_len ++ tail)
    (len head, gls, file)
  = (file1 <- file_seek file file_off ;;
     '(gdata, file2) <- file_read file1 file_len ;;
     Ok (len head + 16,
         dict_set bytes_eqb gls (rev id_on_disk)
           (mkGameLump (rev id_on_disk) flags version gdata),
         file2)).
Proof.
  intros Hid Hf Hv Ho Hl. unfold read_game_lump, Struct.unpack_from.
  change (Struct.parse GameLump_ST)
    with (Ok [IStr 4; IInt false 2; IInt false 2; IInt true 4; IInt true 4]).
  rewrite bind_ret.
  assert (Hentry : List.length
                     (game_lump_entry id_on_disk flags version file_off file_len)
                   = 16%nat).
  { unfold game_lump_entry. rewrite !length_app, !length_le_encode, Hid.
    reflexivity. }
  assert (Hh : (len head <? 0) = false) by (apply Z.ltb_ge; unfold len; lia).
  cbv zeta. rewrite Hh. cbv iota. rewrite Hh, orb_false_l.
  replace (len (head ++ game_lump_entry id_on_disk flags version file_off file_len
                  ++ tail) - len head
           <? Z.of_nat (Struct.items_size
                [IStr 4; IInt false 2; IInt false 2; IInt true 4; IInt true 4]))
    with false.
  2:{ symmetry. apply Z.ltb_ge. unfold len. rewrite !length_app, Hentry.
      change (Struct.items_size _) with 16%nat. lia. }
  rewrite bind_ret. unfold len at 1. rewrite Nat2Z.id.
  rewrite skipn_app, skipn_all, Nat.sub_diag. cbn [skipn app].
  unfold game_lump_entry. rewrite <- !app_assoc.
  rewrite unpack_items_cons by exact Hid.
  rewrite unpack_items_cons by apply length_le_encode.
  rewrite unpack_items_cons by apply length_le_encode.
  rewrite unpack_items_cons by apply length_le_encode.
  rewrite unpack_items_cons by apply length_le_encode.
  cbn [Struct.unpack_item Struct.unpack_items app].
  rewrite !le_unsigned_le_encode_2 by assumption.
  rewrite !le_signed_le_encode_4 by assumption.
  cbv beta iota.
  change (Struct.calcsize GameLump_ST) with (Ok (A := Z) 16).
  rewrite bind_ret. reflexivity.
Qed.

(** The two loop bodies: for every game lump with a 4-byte id, the
    directory entry the loop of [save] writes starts with the id's bytes
    reversed, and the loop of [read], over that entry with its offset
    filled in, turns the four bytes back and stores the lump under the
    original id. *)
Lemma game_lump_entry_is_reversed (g : GameLump) (defer : DeferredWrites)
    (file : File) :
  List.length (gl_id g) = 4%nat ->
  0 <= gl_flags g < 2 ^ 16 ->
  0 <= gl_version g < 2 ^ 16 ->
  len (gl_data g) < 2 ^ 31 ->
  pos file = len (contents file) ->
  exists defer' file',
    save_game_lump_header g (defer, file) = Ok (defer', file')
    /\ contents file'
       = contents file
         ++ game_lump_entry (rev (gl_id g)) (gl_flags g) (gl_version g) 0
              (len (gl_data g))
    /\ firstn 4 (skipn (Z.to_nat (pos file)) (contents file')) = rev (gl_id g)
    /\ forall (head tail : bytes) (file_off : Z) gls (rfile : File),
        0 <= file_off < 2 ^ 31 ->
        read_game_lump
          (head
           ++ game_lump_entry (rev (gl_id g)) (gl_flags g) (gl_version g)
                file_off (len (gl_data g))
           ++ tail)
          (len head, gls, rfile)
        = (file1 <- file_seek rfile file_off ;;
           '(gdata, file2) <- file_read file1 (len (gl_data g)) ;;
           Ok (len head + 16,
               dict_set bytes_eqb gls (gl_id g)
                 (mkGameLump (gl_id g) (gl_flags g) (gl_version g) gdata),
               file2)).
Proof.
  intros Hid Hf Hv Hd Hp.
  destruct (save_game_lump_header_spec g defer file Hid Hf Hv Hd Hp)
    as [defer' [file' [Hsave [Hcontents Hpos]]]].
  exists defer', file'. split; [exact Hsave|]. split; [exact Hcontents|]. split.
  - rewrite Hcontents, Hp. unfold len. rewrite Nat2Z.id.
    rewrite skipn_app, skipn_all, Nat.sub_diag. cbn [skipn app].
    unfold game_lump_entry.
    rewrite firstn_app, length_rev, Hid, Nat.sub_diag, firstn_O, app_nil_r.
    rewrite <- Hid, <- length_rev. apply firstn_all.
  - intros head tail file_off gls rfile Hoff.
    rewrite read_game_lump_spec;
      try assumption; try (rewrite length_rev; assumption);
      try (unfold len in *; lia).
    rewrite rev_involutive. reflexivity.
Qed.

(** On whole files: a BSP with the game lumps [sprp] and [abcd] is saved
    with the ids [prps] and [dcba] in the directory of the game lump, and
    reading the file gives back the game lumps under their ids. *)
Example game_lumps_saved_and_read :
  exists file bsp,
    BSP_save game_lump_BSP = Ok file
    /\ firstn 4 (skipn 1040 file) = bytes_of_string "prps"
    /\ firstn 4 (skipn 1056 file) = bytes_of_string "dcba"
    /\ BSP_read VNone file = Ok bsp
    /\ game_lumps bsp = two_game_lumps
    /\ bsp = game_lump_BSP.
Proof.
  destruct (BSP_save game_lump_BSP) as [file|e] eqn:Hsave;
    [|vm_compute in Hsave; discriminate Hsave].
  exists file, game_lump_BSP.
  split; [reflexivity|].
  assert (Hfile : file = match BSP_save game_lump_BSP with Ok f => f | Raise _ => [] end)
    by (rewrite Hsave; reflexivity).
  subst file. clear Hsave.
  repeat split; vm_compute; reflexivity.
Qed.

(** ** Binary64 arithmetic: digits, shifts and rounding *)

Lemma Prim2SF_cst_360 :
  Prim2SF PyFloat.cst_360 = S754_finite false m360 (-44).
Proof. reflexivity. Qed.

Lemma Prim2SF_zero : Prim2SF zero = S754_zero false.
Proof. reflexivity. Qed.

Lemma fexp_64 (e : Z) : fexp prec emax e = Z.max (e - 53) (-1074).
Proof. reflexivity. Qed.

Lemma digits2_pos_bounds (p : positive) :
  2 ^ (Z.pos (digits2_pos p) - 1) <= Z.pos p < 2 ^ Z.pos (digits2_pos p).
Proof.
  induction p as [p IH | p IH |]; cbn [digits2_pos].
  - rewrite Pos2Z.inj_succ. replace (Z.succ (Z.pos (digits2_pos p)) - 1)
      with (Z.succ (Z.pos (digits2_pos p) - 1)) by lia.
    rewrite !Z.pow_succ_r by lia. lia.
  - rewrite Pos2Z.inj_succ. replace (Z.succ (Z.pos (digits2_pos p)) - 1)
      with (Z.succ (Z.pos (digits2_pos p) - 1)) by lia.
    rewrite !Z.pow_succ_r by lia. lia.
  - simpl. lia.
Qed.

(** A number below [2^n] has at most [n] digits. *)
Lemma digits2_pos_le (p : positive) (n : Z) :
  Z.pos p < 2 ^ n -> Z.pos (digits2_pos p) <= n.
Proof.
  intros Hp. destruct (Z.le_gt_cases (Z.pos (digits2_pos p)) n) as [H | H]; [exact H|].
  exfalso. pose proof (digits2_pos_bounds p) as [Hlo _].
  assert (0 <= n).
  { destruct (Z.le_gt_cases 0 n); [assumption|].
    rewrite Z.pow_neg_r in Hp by lia. lia. }
  assert (2 ^ n <= 2 ^ (Z.pos (digits2_pos p) - 1))
    by (apply Z.pow_le_mono_r; lia).
  lia.
Qed.

Lemma pos_iter_xO (m k : positive) :
  Z.pos (Pos.iter xO m k) = Z.pos m * 2 ^ Z.pos k
  /\ digits2_pos (Pos.iter xO m k) = (digits2_pos m + k)%positive.
Proof.
  induction k as [|k IH] using Pos.peano_ind.
  - cbn [Pos.iter]. split; [rewrite Pos2Z.inj_xO; lia|].
    cbn [digits2_pos]. lia.
  - rewrite Pos.iter_succ. destruct IH as [IHv IHd]. split.
    + rewrite Pos2Z.inj_xO, IHv, Pos2Z.inj_succ, Z.pow_succ_r by lia. lia.
    + cbn [digits2_pos]. rewrite IHd. lia.
Qed.

(** Aligning a mantissa to a lower exponent keeps the value and the sum of
    digits and exponent. *)
Lemma shl_align_spec (m : positive) (e e' : Z) :
  let '(mz, ez) := shl_align m e e' in
  ez = Z.min e e'
  /\ Z.pos mz = Z.pos m * 2 ^ (e - ez)
  /\ Z.pos (digits2_pos mz) + ez = Z.pos (digits2_pos m) + e.
Proof.
  unfold shl_align.
  destruct (e' - e) as [|d|d] eqn:Hd.
  - assert (e' = e) by lia. subst e'. rewrite Z.min_id, Z.sub_diag.
    repeat split; lia.
  - rewrite Z.min_l, Z.sub_diag by lia. repeat split; lia.
  - destruct (pos_iter_xO m d) as [Hv Hdig].
    assert (Hde : e - e' = Z.pos d) by lia.
    rewrite Z.min_r by lia. rewrite Hv, Hdig, Hde. repeat split; lia.
Qed.

Lemma shr_m_shr_1 (mrs : shr_record) :
  0 <= shr_m mrs -> shr_m (shr_1 mrs) = shr_m mrs / 2.
Proof.
  destruct mrs as [m r s]. cbn [shr_m]. intros Hm. unfold shr_1.
  destruct m as [|[p|p|]|p]; cbn [shr_m]; try lia.
  - reflexivity.
  - rewrite (Pos2Z.inj_xI p). apply Z.div_unique with (r := 1); lia.
  - rewrite (Pos2Z.inj_xO p). apply Z.div_unique with (r := 0); lia.
  - reflexivity.
Qed.

Lemma shr_m_iter_pos (n : positive) :
  forall mrs, 0 <= shr_m mrs ->
  shr_m (iter_pos shr_1 n mrs) = shr_m mrs / 2 ^ Z.pos n.
Proof.
  induction n as [n IH | n IH |]; intros mrs Hm; cbn [iter_pos].
  - assert (H1 : 0 <= shr_m (shr_1 mrs))
      by (rewrite shr_m_shr_1 by exact Hm; apply Z.div_pos; lia).
    assert (H2 : 0 <= shr_m (iter_pos shr_1 n (shr_1 mrs)))
      by (rewrite IH by exact H1; apply Z.div_pos; lia).
    rewrite IH by exact H2. rewrite IH by exact H1.
    rewrite shr_m_shr_1 by exact Hm.
    rewrite !Z.div_div by lia. f_equal.
    rewrite (Pos2Z.inj_xI n).
    replace (2 * Z.pos n + 1) with (1 + Z.pos n + Z.pos n) by lia.
    rewrite !Z.pow_add_r by lia. lia.
  - assert (H1 : 0 <= shr_m (iter_pos shr_1 n mrs))
      by (rewrite IH by exact Hm; apply Z.div_pos; lia).
    rewrite IH by exact H1. rewrite IH by exact Hm.
    rewrite Z.div_div by lia. f_equal.
    rewrite (Pos2Z.inj_xO n).
    replace (2 * Z.pos n) with (Z.pos n + Z.pos n) by lia.
    rewrite Z.pow_add_r by lia. lia.
  - rewrite shr_m_shr_1 by exact Hm. reflexivity.
Qed.

(** A right shift of a non-negative mantissa to the exponent of its binade:
    the mantissa is divided by a power of two and the exponent raised by as
    much, never above the target exponent. *)
Lemma shr_fexp_spec (m e : Z) (l : location) :
  0 <= m ->
  let '(mrs, e') := shr_fexp prec emax m e l in
  exists k, 0 <= k /\ shr_m mrs = m / 2 ^ k /\ e' = e + k
            /\ e' = Z.max e (fexp prec emax (Zdigits2 m + e))
            /\ (k = 0 -> loc_of_shr_record mrs = l).
Proof.
  intros Hm. unfold shr_fexp, shr.
  set (n := fexp prec emax (Zdigits2 m + e) - e).
  assert (Hrec : shr_m (shr_record_of_loc m l) = m)
    by (destruct l as [|[]]; reflexivity).
  assert (Hloc : loc_of_shr_record (shr_record_of_loc m l) = l)
    by (destruct l as [|[]]; reflexivity).
  destruct n as [|p|p] eqn:Hn.
  - exists 0. rewrite Hrec, Z.div_1_r. repeat split; auto; lia.
  - exists (Z.pos p). rewrite shr_m_iter_pos by (rewrite Hrec; exact Hm).
    rewrite Hrec. repeat split; try lia.
  - exists 0. rewrite Hrec, Z.div_1_r. repeat split; auto; lia.
Qed.

Lemma round_nearest_even_bounds (m : Z) (l : location) :
  m <= round_nearest_even m l <= m + 1.
Proof.
  unfold round_nearest_even. destruct l as [|[]]; try lia.
  destruct (Z.even m); lia.
Qed.

Lemma round_nearest_even_exact (m : Z) : round_nearest_even m loc_Exact = m.
Proof. reflexivity. Qed.

Lemma m360_lt_pow : Z.pos m360 < 2 ^ 53.
Proof. reflexivity. Qed.

(** Below [360 = m360 * 2^-44], digits and exponent sum to at most 9. *)
Lemma digits_le_9 (m e : Z) :
  e <= -44 -> 0 <= m <= Z.pos m360 * 2 ^ (-44 - e) -> Zdigits2 m + e <= 9.
Proof.
  intros He [Hm0 Hm].
  destruct m as [|p|p]; cbn [Zdigits2]; [lia| |lia].
  assert (Hp : Z.pos p < 2 ^ (9 - e)).
  { replace (9 - e) with (53 + (-44 - e)) by lia.
    rewrite Z.pow_add_r by lia.
    pose proof m360_lt_pow.
    assert (0 < 2 ^ (-44 - e)) by (apply Z.pow_pos_nonneg; lia).
    nia. }
  apply digits2_pos_le in Hp. lia.
Qed.

Lemma fexp_le_44 (m e : Z) :
  e <= -44 -> 0 <= m <= Z.pos m360 * 2 ^ (-44 - e) ->
  fexp prec emax (Zdigits2 m + e) <= -44.
Proof.
  intros He Hm. pose proof (digits_le_9 m e He Hm). rewrite fexp_64. lia.
Qed.

Lemma pow_split (e k : Z) :
  0 <= k -> e + k <= -44 -> 2 ^ (-44 - e) = 2 ^ (-44 - (e + k)) * 2 ^ k.
Proof.
  intros Hk He. rewrite <- Z.pow_add_r by lia. f_equal. lia.
Qed.

(** Rounding a non-negative value below 360 to nearest-even gives a value
    between [+0] and 360: never an infinity or a NaN. *)
Lemma binary_round_aux_upto_360 (mz ez : Z) :
  -1074 <= ez <= -44 ->
  0 <= mz < Z.pos m360 * 2 ^ (-44 - ez) ->
  upto_360 (binary_round_aux prec emax false mz ez loc_Exact).
Proof.
  intros He [Hm0 Hm]. unfold binary_round_aux.
  pose proof (shr_fexp_spec mz ez loc_Exact Hm0) as H1.
  destruct (shr_fexp prec emax mz ez loc_Exact) as [mrs1 e1].
  destruct H1 as (k1 & Hk1 & Hq1 & He1 & He1' & _).
  assert (He1le : e1 <= -44).
  { pose proof (fexp_le_44 mz ez ltac:(lia) ltac:(lia)). lia. }
  set (Q := Z.pos m360 * 2 ^ (-44 - e1)).
  assert (HQ : Z.pos m360 * 2 ^ (-44 - ez) = Q * 2 ^ k1).
  { unfold Q. rewrite (pow_split ez k1) by lia. subst e1. ring. }
  assert (Hpow1 : 0 < 2 ^ k1) by (apply Z.pow_pos_nonneg; lia).
  assert (Hq1lt : shr_m mrs1 < Q).
  { rewrite Hq1. apply Z.div_lt_upper_bound; [exact Hpow1|]. lia. }
  assert (Hq1ge : 0 <= shr_m mrs1) by (rewrite Hq1; apply Z.div_pos; lia).
  pose proof (round_nearest_even_bounds (shr_m mrs1) (loc_of_shr_record mrs1))
    as Hr.
  set (q := round_nearest_even (shr_m mrs1) (loc_of_shr_record mrs1)) in *.
  assert (Hq0 : 0 <= q) by lia.
  pose proof (shr_fexp_spec q e1 loc_Exact Hq0) as H2.
  destruct (shr_fexp prec emax q e1 loc_Exact) as [mrs2 e2].
  destruct H2 as (k2 & Hk2 & Hq2 & He2 & He2' & _).
  assert (He2le : e2 <= -44).
  { pose proof (fexp_le_44 q e1 He1le ltac:(unfold Q in *; lia)). lia. }
  assert (HQ2 : Q = Z.pos m360 * 2 ^ (-44 - e2) * 2 ^ k2).
  { unfold Q. rewrite (pow_split e1 k2) by lia. subst e2. ring. }
  assert (Hpow2 : 0 < 2 ^ k2) by (apply Z.pow_pos_nonneg; lia).
  assert (Hq2le : shr_m mrs2 <= Z.pos m360 * 2 ^ (-44 - e2)).
  { rewrite Hq2. apply Z.div_le_upper_bound; [exact Hpow2|]. lia. }
  assert (Hq2ge : 0 <= shr_m mrs2) by (rewrite Hq2; apply Z.div_pos; lia).
  destruct (shr_m mrs2) as [|m|m]; cbn [upto_360]; [exact I| |lia].
  replace (e2 <=? emax - prec) with true
    by (symmetry; apply Z.leb_le; change (emax - prec) with 971; lia).
  cbn [upto_360]. lia.
Qed.

Lemma Prim2SF_SF2Prim_valid (s : spec_float) :
  valid_binary s = true -> Prim2SF (SF2Prim s) = s.
Proof. exact (Prim2SF_SF2Prim s). Qed.

(** A valid finite binary64 is in canonical form. *)
Lemma valid_finite (s : bool) (m : positive) (e : Z) :
  valid_binary (S754_finite s m e) = true ->
  fexp prec emax (Z.pos (digits2_pos m) + e) = e /\ -1074 <= e <= 971.
Proof.
  unfold valid_binary; cbn [SpecFloat.valid_binary]. unfold bounded, canonical_mantissa.
  intros H. apply andb_prop in H as [H1 H2].
  apply Z.eqb_eq in H1. apply Z.leb_le in H2.
  change (emax - prec) with 971 in H2.
  split; [exact H1|]. rewrite fexp_64 in H1. lia.
Qed.

(** [-m + 360] for a negative [-m] of magnitude below 360. *)
Lemma SFadd_360_upto (m : positive) (e : Z) :
  below_360 (S754_finite true m e) ->
  upto_360 (SFadd prec emax (S754_finite true m e) (S754_finite false m360 (-44))).
Proof.
  cbn [below_360]. intros [He Hm]. cbn [SFadd].
  replace (Z.min e (-44)) with e by lia.
  pose proof (shl_align_spec m e e) as Ha.
  destruct (shl_align m e e) as [ma ea]. destruct Ha as (Hea & Ha & _).
  rewrite Z.min_id in Hea. subst ea.
  pose proof (shl_align_spec m360 (-44) e) as Hb.
  destruct (shl_align m360 (-44) e) as [mb eb]. destruct Hb as (Heb & Hb & _).
  rewrite Z.min_r in Heb by lia. subst eb.
  cbn [fst cond_Zopp].
  rewrite Z.sub_diag, Z.pow_0_r, Z.mul_1_r in Ha.
  destruct (- Z.pos ma + Z.pos mb) as [|s|s] eqn:Hs; [lia| |lia].
  cbn [binary_normalize]. unfold binary_round.
  pose proof (shl_align_spec s e (fexp prec emax (Z.pos (digits2_pos s) + e)))
    as Hc.
  destruct (shl_align s e (fexp prec emax (Z.pos (digits2_pos s) + e)))
    as [mz ez].
  destruct Hc as (Hez & Hmz & _).
  assert (Hfexp : -1074 <= fexp prec emax (Z.pos (digits2_pos s) + e))
    by (rewrite fexp_64; lia).
  apply binary_round_aux_upto_360; [lia|].
  split; [lia|]. rewrite Hmz.
  replace (-44 - ez) with ((-44 - e) + (e - ez)) by lia.
  rewrite Z.pow_add_r by lia.
  assert (0 < 2 ^ (e - ez)) by (apply Z.pow_pos_nonneg; lia).
  nia.
Qed.

Lemma SFfmod_finite (sx sy : bool) (mx my : positive) (ex ey : Z) :
  PyFloat.SFfmod (S754_finite sx mx ex) (S754_finite sy my ey) =
  match Z.rem (Z.pos mx * 2 ^ (ex - Z.min ex ey))
              (Z.pos my * 2 ^ (ey - Z.min ex ey)) with
  | Z.pos r =>
      let '(m, e') :=
        shl_align r (Z.min ex ey)
          (fexp prec emax (Z.pos (digits2_pos r) + Z.min ex ey)) in
      S754_finite sx m e'
  | _ => S754_zero sx
  end.
Proof. reflexivity. Qed.

(** [fmod x 360] for a finite [x]: a valid binary64 of the sign of [x] and of
    magnitude below 360. *)
Lemma SFfmod_360 (x : spec_float) :
  valid_binary x = true ->
  match x with S754_nan | S754_infinity _ => False | _ => True end ->
  let r := PyFloat.SFfmod x (S754_finite false m360 (-44)) in
  valid_binary r = true /\ below_360 r
  /\ match r with
     | S754_zero s | S754_finite s _ _ => s = PyFloat.signbit (SF2Prim x)
     | _ => False
     end.
Proof.
  intros Hv Hfin. destruct x as [sx|sx| |sx mx ex]; try contradiction.
  - destruct sx; repeat split; reflexivity.
  - assert (Hsign : sx = PyFloat.signbit (SF2Prim (S754_finite sx mx ex))).
    { unfold PyFloat.signbit. rewrite Prim2SF_SF2Prim_valid by exact Hv.
      reflexivity. }
    cbv zeta. rewrite SFfmod_finite.
    apply valid_finite in Hv as [Hcan Hex].
    set (e := Z.min ex (-44)).
    assert (Hpa : 0 < 2 ^ (ex - e)) by (apply Z.pow_pos_nonneg; lia).
    assert (Hpb : 0 < 2 ^ (-44 - e)) by (apply Z.pow_pos_nonneg; lia).
    set (a := Z.pos mx * 2 ^ (ex - e)).
    set (b := Z.pos m360 * 2 ^ (-44 - e)).
    assert (Ha : 0 <= a) by (unfold a; lia).
    assert (Hb : 0 < b) by (unfold b; lia).
    pose proof (Z.rem_bound_pos a b Ha Hb) as Hr.
    assert (Hra : Z.rem a b <= a).
    { rewrite Z.rem_mod_nonneg by lia. apply Z.mod_le; lia. }
    destruct (Z.rem a b) as [|r|r] eqn:Hrem; [cbn; auto| |lia].
    pose proof (shl_align_spec r e (fexp prec emax (Z.pos (digits2_pos r) + e)))
      as Hs.
    destruct (shl_align r e (fexp prec emax (Z.pos (digits2_pos r) + e)))
      as [m e'].
    destruct Hs as (He' & Hm & Hdig).
    assert (Hfe : fexp prec emax (Z.pos (digits2_pos r) + e) <= e).
    { rewrite fexp_64 in *.
      destruct (Z.le_gt_cases (-44) ex) as [Hc | Hc].
      - assert (e = -44) by lia.
        assert (Hlt : Z.pos r < 2 ^ 53).
        { pose proof m360_lt_pow. unfold b in Hr.
          replace (-44 - e) with 0 in Hr by lia. lia. }
        apply digits2_pos_le in Hlt. lia.
      - assert (He : e = ex) by lia.
        assert (Hlt : Z.pos r < 2 ^ Z.pos (digits2_pos mx)).
        { pose proof (digits2_pos_bounds mx). unfold a in Hra.
          replace (ex - e) with 0 in Hra by lia. lia. }
        apply digits2_pos_le in Hlt. lia. }
    assert (He'' : e' = fexp prec emax (Z.pos (digits2_pos r) + e)) by lia.
    assert (Hlo : -1074 <= e') by (rewrite He'', fexp_64; lia).
    split; [|split; [|exact Hsign]].
    + unfold valid_binary; cbn [SpecFloat.valid_binary]. unfold bounded, canonical_mantissa.
      apply andb_true_intro. split.
      * apply Z.eqb_eq. rewrite Hdig. lia.
      * apply Z.leb_le. change (emax - prec) with 971. lia.
    + cbn [below_360]. split; [lia|]. rewrite Hm.
      replace (-44 - e') with ((-44 - e) + (e - e')) by lia.
      rewrite Z.pow_add_r by lia.
      assert (0 < 2 ^ (e - e')) by (apply Z.pow_pos_nonneg; lia).
      unfold b in Hr. nia.
Qed.

(** ** [x % 360 % 360] *)

Lemma fmod_360_spec (f : float) :
  PyFloat.is_finite f = true ->
  let r := PyFloat.SFfmod (Prim2SF f) (S754_finite false m360 (-44)) in
  Prim2SF (PyFloat.fmod f PyFloat.cst_360) = r
  /\ valid_binary r = true /\ below_360 r.
Proof.
  intros Hfin. cbv zeta. unfold PyFloat.fmod. rewrite Prim2SF_cst_360.
  assert (Hf : match Prim2SF f with
               | S754_nan | S754_infinity _ => False | _ => True end).
  { unfold PyFloat.is_finite in Hfin.
    destruct (Prim2SF f); try discriminate Hfin; exact I. }
  destruct (SFfmod_360 (Prim2SF f) (Prim2SF_valid f) Hf) as (Hv & Hb & _).
  split; [apply Prim2SF_SF2Prim_valid; exact Hv|]. split; assumption.
Qed.

(** The first modulus of a finite float lies between [+0] and [360], both
    included. *)
Lemma rem_val_360_upto (f : float) :
  PyFloat.is_finite f = true ->
  upto_360 (Prim2SF (PyFloat.rem_val f PyFloat.cst_360)).
Proof.
  intros Hfin. destruct (fmod_360_spec f Hfin) as (Hm & _ & Hb).
  unfold PyFloat.rem_val. cbv zeta.
  set (m := PyFloat.fmod f PyFloat.cst_360) in *.
  rewrite eqb_spec, !ltb_spec, Hm, Prim2SF_zero, Prim2SF_cst_360.
  destruct (PyFloat.SFfmod (Prim2SF f) (S754_finite false m360 (-44)))
    as [s|s| |s mm e] eqn:Hr; cbn [below_360] in Hb; try contradiction.
  - exact I.
  - destruct s.
    + change (upto_360 (Prim2SF (m + PyFloat.cst_360)%float)).
      rewrite add_spec, Hm, Prim2SF_cst_360.
      apply SFadd_360_upto. exact Hb.
    + change (upto_360 (Prim2SF m)). rewrite Hm. cbn [upto_360]. lia.
Qed.

Lemma compare_cont_lt (p q : positive) :
  Z.pos p < Z.pos q -> Pos.compare_cont Eq p q = Lt.
Proof. intros H. exact H. Qed.

(** [fmod y 360] on a value between [+0] and [360]: [+0] at both ends, the
    identity in between. *)
Lemma fmod_360_upto (y : float) :
  upto_360 (Prim2SF y) ->
  PyFloat.fmod y PyFloat.cst_360 = zero
  \/ (PyFloat.fmod y PyFloat.cst_360 = y
      /\ exists m e, Prim2SF y = S754_finite false m e
           /\ e <= -44 /\ Z.pos m < Z.pos m360 * 2 ^ (-44 - e)).
Proof.
  intros Hy. pose proof (Prim2SF_valid y) as Hv.
  unfold PyFloat.fmod. rewrite Prim2SF_cst_360.
  destruct (Prim2SF y) as [[|]|s| |[|] m e] eqn:Hp;
    cbn [upto_360] in Hy; try contradiction.
  - left. reflexivity.
  - destruct Hy as [He Hm]. apply valid_finite in Hv as [Hcan _].
    rewrite SFfmod_finite. rewrite Z.min_l by lia.
    rewrite Z.sub_diag, Z.pow_0_r, Z.mul_1_r.
    assert (Hpb : 0 < 2 ^ (-44 - e)) by (apply Z.pow_pos_nonneg; lia).
    destruct (Z.eq_dec (Z.pos m) (Z.pos m360 * 2 ^ (-44 - e))) as [Heq | Hne].
    + left. rewrite Heq, Z.rem_same by lia. reflexivity.
    + right. rewrite Z.rem_small by lia.
      rewrite Hcan. unfold shl_align. rewrite Z.sub_diag.
      split; [rewrite <- Hp; apply SF2Prim_Prim2SF|].
      exists m, e. repeat split; lia.
Qed.

Lemma rem_val_360_range (y : float) :
  upto_360 (Prim2SF y) ->
  in_0_360 (PyFloat.rem_val y PyFloat.cst_360) = true.
Proof.
  intros Hy.
  destruct (fmod_360_upto y Hy) as [Hz | (Hid & m & e & Hp & He & Hm)].
  - unfold PyFloat.rem_val. cbv zeta. rewrite Hz. reflexivity.
  - assert (Hrem : PyFloat.rem_val y PyFloat.cst_360 = y).
    { unfold PyFloat.rem_val. cbv zeta. rewrite Hid.
      rewrite eqb_spec, !ltb_spec, Hp, Prim2SF_zero, Prim2SF_cst_360.
      reflexivity. }
    rewrite Hrem. unfold in_0_360.
    rewrite leb_spec, ltb_spec, Hp, Prim2SF_zero, Prim2SF_cst_360.
    cbn [SFleb SFltb SFcompare andb].
    destruct (Z.compare_spec e (-44)) as [Heq | Hlt | Hgt]; [|reflexivity|lia].
    subst e. rewrite Z.sub_diag, Z.pow_0_r, Z.mul_1_r in Hm.
    rewrite (compare_cont_lt m m360 Hm). reflexivity.
Qed.

(** A number with a finite float value is normalised into [0, 360). *)
Lemma norm360_range (s : scalar) :
  scalar_finite s = true ->
  exists r, norm360 s = Ok r /\ in_0_360 r = true.
Proof.
  intros Hs.
  assert (Hf : exists f, float_of s = Ok f /\ PyFloat.is_finite f = true).
  { destruct s as [z|f]; cbn [scalar_finite float_of] in *.
    - unfold PyFloat.of_int. cbv zeta. rewrite Hs. eauto.
    - eauto. }
  destruct Hf as (f & Hf & Hfin).
  exists (PyFloat.rem_val (PyFloat.rem_val f PyFloat.cst_360) PyFloat.cst_360).
  split.
  - unfold norm360. rewrite Hf. reflexivity.
  - apply rem_val_360_range, rem_val_360_upto. exact Hfin.
Qed.

Lemma rem_360_Ok (f : float) :
  PyFloat.rem f PyFloat.cst_360 = Ok (PyFloat.rem_val f PyFloat.cst_360).
Proof. reflexivity. Qed.

(** The double modulus of an infinity or of a NaN is a NaN. *)
Lemma norm360_not_finite (f : float) :
  PyFloat.is_finite f = false ->
  norm360 (SFloat f) = Ok nan.
Proof.
  intros Hf. unfold norm360. cbn [float_of bind].
  assert (H1 : PyFloat.rem_val f PyFloat.cst_360 = nan).
  { unfold PyFloat.rem_val, PyFloat.fmod. unfold PyFloat.is_finite in Hf.
    destruct (Prim2SF f); try discriminate Hf; reflexivity. }
  rewrite rem_360_Ok. cbn [bind]. rewrite H1. reflexivity.
Qed.

(** Whatever number is assigned, what the normalisation stores is in
    [0, 360) or a NaN. *)
Lemma norm360_component_ok (s : scalar) (r : float) :
  norm360 s = Ok r -> component_ok r = true.
Proof.
  intros H. unfold component_ok.
  destruct (scalar_finite s) eqn:Hs.
  - destruct (norm360_range s Hs) as (r' & Hr & Hin).
    rewrite Hr in H. apply Ok_inj in H. subst r'. rewrite Hin. reflexivity.
  - destruct s as [z|f]; cbn [scalar_finite] in Hs.
    + unfold norm360 in H. cbn [float_of] in H. unfold PyFloat.of_int in H.
      cbv zeta in H. rewrite Hs in H. discriminate H.
    + rewrite (norm360_not_finite f Hs) in H. apply Ok_inj in H. subst r.
      reflexivity.
Qed.

Lemma Angle_init_normalised (p y r : scalar) (a : Angle) :
  Angle_init p y r = Ok a -> Angle_normalised a = true.
Proof.
  unfold Angle_init. intros H.
  destruct (norm360 p) as [p'|] eqn:Hp; [|discriminate H].
  destruct (norm360 y) as [y'|] eqn:Hy; [|discriminate H].
  destruct (norm360 r) as [r'|] eqn:Hr; [|discriminate H].
  cbn [bind] in H. apply Ok_inj in H. subst a.
  unfold Angle_normalised. cbn [Angle.pitch Angle.yaw Angle.roll].
  rewrite (norm360_component_ok _ _ Hp), (norm360_component_ok _ _ Hy),
    (norm360_component_ok _ _ Hr). reflexivity.
Qed.

Lemma Angle_normalised_inv (a : Angle) :
  Angle_normalised a = true ->
  component_ok (Angle.pitch a) = true /\ component_ok (Angle.yaw a) = true
  /\ component_ok (Angle.roll a) = true.
Proof.
  unfold Angle_normalised. intros H.
  apply andb_prop in H as [H Hr]. apply andb_prop in H as [Hp Hy]. auto.
Qed.

Lemma Angle_normalised_mk (p y r : float) :
  component_ok p = true -> component_ok y = true -> component_ok r = true ->
  Angle_normalised (Angle.mk p y r) = true.
Proof.
  intros Hp Hy Hr. unfold Angle_normalised.
  cbn [Angle.pitch Angle.yaw Angle.roll]. rewrite Hp, Hy, Hr. reflexivity.
Qed.

Section MutateFacts.
Variables math_sin math_cos : float -> float.
Variable math_atan2 : float -> float -> float.

Lemma Matrix_to_angle_normalised (mat : Matrix) (a : Angle) :
  Matrix_to_angle math_atan2 mat = Ok a -> Angle_normalised a = true.
Proof.
  unfold Matrix_to_angle. intros H.
  destruct (Matrix_to_angle_args math_atan2 mat) as [[[p y] r]|] eqn:Ha;
    [|discriminate H].
  cbn [bind] in H. eapply Angle_init_normalised. exact H.
Qed.
End MutateFacts.

(** C5 (counterexample).  Scalar multiplication can leave the interval:
    [Angle(359, 0, 0)] has every component in [0, 360), the factor [1e306]
    is finite, and in [Angle(359, 0, 0) * 1e306] the product [359 * 1e306]
    overflows to an infinity, whose double modulus is a NaN: the pitch of
    the result is not in [0, 360). *)
Lemma scaled_angle_leaves_range :
  Angle_init (SInt 359) (SInt 0) (SInt 0) = Ok angle_359
  /\ Angle_in_range angle_359 = true
  /\ PyFloat.is_finite float_1e306 = true
  /\ Angle_mul angle_359 (OScalar (SFloat float_1e306))
     = Ok (Returned (Angle.mk nan zero zero))
  /\ Angle_in_range (Angle.mk nan zero zero) = false.
Proof. repeat split; vm_compute; reflexivity. Qed.

(** Constructing an angle from a NaN or an infinity stores a NaN. *)
Lemma angle_of_nan :
  Angle_init (SFloat nan) (SFloat infinity) (SFloat neg_infinity)
  = Ok (Angle.mk nan nan nan)
  /\ Angle_in_range (Angle.mk nan nan nan) = false.
Proof. split; vm_compute; reflexivity. Qed.

(** Every mutation keeps each component in [0, 360) or NaN. *)
Lemma mutate_normalised
    (math_sin math_cos : float -> float) (math_atan2 : float -> float -> float)
    (self : Angle) (m : mutation) (a : Angle) :
  Angle_normalised self = true ->
  mutate math_sin math_cos math_atan2 self m = Ok a ->
  Angle_normalised a = true.
Proof.
  intros Hself H. apply Angle_normalised_inv in Hself as (Hp & Hy & Hr).
  destruct m as [p y r|it y r| |v|v|v|ind v|s|s|other|other|body];
    cbn [mutate] in H.
  - eapply Angle_init_normalised; exact H.
  - unfold Angle_from_iter in H. eapply Angle_init_normalised; exact H.
  - unfold Angle_copy in H. eapply Angle_init_normalised; exact H.
  - unfold Angle_set_pitch in H.
    destruct (norm360 v) as [c|] eqn:Hc; [|discriminate H].
    cbn [bind] in H. apply Ok_inj in H. subst a.
    apply Angle_normalised_mk; eauto using norm360_component_ok.
  - unfold Angle_set_yaw in H.
    destruct (norm360 v) as [c|] eqn:Hc; [|discriminate H].
    cbn [bind] in H. apply Ok_inj in H. subst a.
    apply Angle_normalised_mk; eauto using norm360_component_ok.
  - unfold Angle_set_roll in H.
    destruct (norm360 v) as [c|] eqn:Hc; [|discriminate H].
    cbn [bind] in H. apply Ok_inj in H. subst a.
    apply Angle_normalised_mk; eauto using norm360_component_ok.
  - unfold Angle_setitem in H.
    destruct (key_in ind _) in H;
      [|destruct (key_in ind _) in H; [|destruct (key_in ind _) in H;
         [|discriminate H]]];
      (destruct (norm360 v) as [c|] eqn:Hc; [|discriminate H]);
      cbn [bind] in H; apply Ok_inj in H; subst a;
      apply Angle_normalised_mk; eauto using norm360_component_ok.
  - unfold Angle_mul in H.
    destruct (float_times (Angle.pitch self) s) as [p|]; [|discriminate H].
    destruct (float_times (Angle.yaw self) s) as [y|]; [|discriminate H].
    destruct (float_times (Angle.roll self) s) as [r|]; [|discriminate H].
    cbn [bind] in H.
    destruct (Angle_init (SFloat p) (SFloat y) (SFloat r)) as [a'|] eqn:Ha;
      [|discriminate H].
    cbn [bind binop] in H. apply Ok_inj in H. subst a'.
    eapply Angle_init_normalised; exact Ha.
  - unfold Angle_rmul in H.
    destruct (float_of s) as [o|]; [|discriminate H].
    cbn [bind] in H.
    destruct (Angle_init _ _ _) as [a'|] eqn:Ha; [|discriminate H].
    cbn [bind binop] in H. apply Ok_inj in H. subst a'.
    eapply Angle_init_normalised; exact Ha.
  - unfold Angle_matmul, Angle_rotate_angle in H.
    eapply Matrix_to_angle_normalised; exact H.
  - unfold Angle_rmatmul, Angle_rotate_angle in H.
    eapply Matrix_to_angle_normalised; exact H.
  - unfold Angle_transform in H.
    destruct (Matrix_to_angle math_atan2 (body Matrix_init)) as [n|] eqn:Hn;
      [|discriminate H].
    cbn [bind] in H. apply Ok_inj in H. subst a.
    apply Matrix_to_angle_normalised in Hn.
    apply Angle_normalised_inv in Hn as (Hnp & Hny & Hnr).
    apply Angle_normalised_mk; assumption.
Qed.

(** C5.  Every mutation of an angle (construction from numbers or from an
    iterable, copy, assignment to pitch, yaw or roll, indexed assignment,
    multiplication by a number on either side, rotation by another angle on
    either side, and the [transform] context manager) stores
    [float(x) % 360 % 360] in each component it sets, so that each of the
    three components of the resulting angle lies in the half-open interval
    [0, 360) or is a NaN.  The double modulus brings every number with a
    finite float value into [0, 360), and turns an infinity or a NaN into a
    NaN. *)
Theorem angle_mutation_normalised
    (math_sin math_cos : float -> float) (math_atan2 : float -> float -> float)
    (self : Angle) (m : mutation) (a : Angle) :
  Angle_normalised self = true ->
  mutate math_sin math_cos math_atan2 self m = Ok a ->
  Angle_normalised a = true
  /\ (forall x : scalar, scalar_finite x = true ->
      exists r, norm360 x = Ok r /\ in_0_360 r = true)
  /\ (forall x : float, PyFloat.is_finite x = false ->
      norm360 (SFloat x) = Ok nan).
Proof.
  intros Hself H. split; [|split].
  - eapply mutate_normalised; eassumption.
  - exact norm360_range.
  - exact norm360_not_finite.
Qed.

(** Assigning [-1e-14] to the pitch: the first modulus is [360.0], the
    second brings it to [0.0]. *)
Lemma angle_mutation_normalised_witness :
  Angle_normalised angle_0 = true
  /\ mutate (fun x => x) (fun x => x) (fun x _ => x) angle_0
       (SetPitch (SFloat float_m1em14)) = Ok angle_0
  /\ Angle_normalised angle_0 = true
  /\ (forall x : scalar, scalar_finite x = true ->
      exists r, norm360 x = Ok r /\ in_0_360 r = true)
  /\ (forall x : float, PyFloat.is_finite x = false ->
      norm360 (SFloat x) = Ok nan).
Proof.
  split; [reflexivity|]. split; [reflexivity|].
  apply (angle_mutation_normalised (fun x => x) (fun x => x) (fun x _ => x)
           angle_0 (SetPitch (SFloat float_m1em14)) angle_0); reflexivity.
Defined.

(** The first modulus of [-1e-14] is [360.0] itself. *)
Lemma first_modulus_of_m1em14 :
  PyFloat.rem float_m1em14 PyFloat.cst_360 = Ok PyFloat.cst_360
  /\ PyFloat.rem PyFloat.cst_360 PyFloat.cst_360 = Ok zero.
Proof. split; reflexivity. Qed.

(** Every mutation whose assigned numbers are finite leaves the components
    it sets in [0, 360): construction is the instance with three numbers. *)
Lemma Angle_init_in_range (p y r : scalar) :
  scalar_finite p = true -> scalar_finite y = true -> scalar_finite r = true ->
  exists a, Angle_init p y r = Ok a /\ Angle_in_range a = true.
Proof.
  intros Hp Hy Hr.
  destruct (norm360_range p Hp) as (p' & Ep & Ip).
  destruct (norm360_range y Hy) as (y' & Ey & Iy).
  destruct (norm360_range r Hr) as (r' & Er & Ir).
  exists (Angle.mk p' y' r'). split.
  - unfold Angle_init. rewrite Ep, Ey, Er. reflexivity.
  - unfold Angle_in_range. cbn [Angle.pitch Angle.yaw Angle.roll].
    rewrite Ip, Iy, Ir. reflexivity.
Qed.

(** * Float arithmetic used by [Vec] and [Matrix] *)

(** Two floats with the same decomposition are the same float. *)
Lemma float_ext (x y : float) : Prim2SF x = Prim2SF y -> x = y.
Proof.
  intros H. rewrite <- (SF2Prim_Prim2SF x), <- (SF2Prim_Prim2SF y), H.
  reflexivity.
Qed.

Lemma SFadd_comm (x y : spec_float) : SFadd prec emax x y = SFadd prec emax y x.
Proof.
  destruct x as [[|]|[|]| |sx mx ex], y as [[|]|[|]| |sy my ey];
    try reflexivity.
  cbn [SFadd]. rewrite (Z.min_comm ey ex), Z.add_comm. reflexivity.
Qed.

Lemma SFmul_comm (x y : spec_float) : SFmul prec emax x y = SFmul prec emax y x.
Proof.
  destruct x as [sx|sx| |sx mx ex], y as [sy|sy| |sy my ey];
    cbn [SFmul]; rewrite ?(xorb_comm sy sx); try reflexivity.
  rewrite (Pos.mul_comm my mx), (Z.add_comm ey ex). reflexivity.
Qed.

Lemma float_add_comm (x y : float) : (x + y = y + x)%float.
Proof.
  apply float_ext. rewrite !add_spec. apply SFadd_comm.
Qed.

Lemma float_mul_comm (x y : float) : (x * y = y * x)%float.
Proof.
  apply float_ext. rewrite !mul_spec. apply SFmul_comm.
Qed.

Lemma cond_Zopp_negb (s : bool) (m : Z) :
  cond_Zopp (negb s) m = - cond_Zopp s m.
Proof. destruct s; cbn; lia. Qed.

Lemma SFsub_add_opp (x y : spec_float) :
  SFsub prec emax x y = SFadd prec emax x (SFopp y).
Proof.
  destruct x as [[|]|[|]| |sx mx ex], y as [[|]|[|]| |sy my ey];
    try reflexivity.
  cbn [SFsub SFadd SFopp]. rewrite cond_Zopp_negb. reflexivity.
Qed.

Lemma float_sub_add_opp (x y : float) : (x - y = x + - y)%float.
Proof.
  apply float_ext. rewrite sub_spec, add_spec, opp_spec. apply SFsub_add_opp.
Qed.

Lemma float_opp_involutive (x : float) : (- - x = x)%float.
Proof.
  apply float_ext. rewrite !opp_spec.
  destruct (Prim2SF x) as [s|s| |s m e]; cbn [SFopp];
    rewrite ?negb_involutive; reflexivity.
Qed.

Lemma float_abs_idempotent (x : float) : abs (abs x) = abs x.
Proof.
  apply float_ext. rewrite !abs_spec.
  destruct (Prim2SF x); reflexivity.
Qed.

(** ** The order of the floats *)

Lemma SFcompare_antisym (x y : spec_float) :
  SFcompare y x = option_map CompOpp (SFcompare x y).
Proof.
  destruct x as [[|]|[|]| |[|] mx ex], y as [[|]|[|]| |[|] my ey];
    try reflexivity; cbn [SFcompare option_map]; f_equal;
    rewrite (Z.compare_antisym ey ex);
    destruct (ey ?= ex); cbn [CompOpp]; try reflexivity;
    rewrite (Pos.compare_cont_antisym mx my Eq); cbn [CompOpp];
    rewrite ?CompOpp_involutive; reflexivity.
Qed.

(** [is_nan] on the decomposition. *)
Lemma is_nan_spec (x : float) :
  is_nan x = match Prim2SF x with S754_nan => true | _ => false end.
Proof.
  unfold is_nan. rewrite eqb_spec. unfold SFeqb.
  destruct (Prim2SF x) as [[|]|[|]| |[|] m e]; cbn [SFcompare negb];
    try reflexivity;
    rewrite Z.compare_refl, Pos.compare_cont_refl; reflexivity.
Qed.

Lemma SFcompare_not_nan (x y : spec_float) :
  x <> S754_nan -> y <> S754_nan -> exists c, SFcompare x y = Some c.
Proof.
  intros Hx Hy.
  destruct x as [[|]|[|]| |[|] mx ex], y as [[|]|[|]| |[|] my ey];
    try congruence; cbn [SFcompare]; eauto.
Qed.

(** Without NaNs, [a < b] fails exactly when [b <= a]. *)
Lemma float_ltb_false_leb (a b : float) :
  is_nan a = false -> is_nan b = false ->
  (a <? b)%float = negb (b <=? a)%float.
Proof.
  rewrite !is_nan_spec, ltb_spec, leb_spec. unfold SFltb, SFleb.
  intros Ha Hb. rewrite (SFcompare_antisym (Prim2SF a) (Prim2SF b)).
  destruct (SFcompare_not_nan (Prim2SF a) (Prim2SF b)) as [c Hc].
  - destruct (Prim2SF a); congruence.
  - destruct (Prim2SF b); congruence.
  - rewrite Hc. destruct c; reflexivity.
Qed.

Lemma float_leb_refl (a : float) : is_nan a = false -> (a <=? a)%float = true.
Proof.
  rewrite is_nan_spec, leb_spec. unfold SFleb.
  destruct (Prim2SF a) as [[|]|[|]| |[|] m e]; cbn [SFcompare];
    try reflexivity; try discriminate;
    rewrite Z.compare_refl, Pos.compare_cont_refl; reflexivity.
Qed.

Lemma float_ltb_leb (a b : float) : (a <? b)%float = true -> (a <=? b)%float = true.
Proof.
  rewrite ltb_spec, leb_spec. unfold SFltb, SFleb.
  destruct (SFcompare (Prim2SF a) (Prim2SF b)) as [[| |]|]; congruence.
Qed.

Lemma SFleb_pos_finite (m1 m2 : positive) (e1 e2 : Z) :
  SFleb (S754_finite false m1 e1) (S754_finite false m2 e2) = true
  <-> e1 < e2 \/ (e1 = e2 /\ (m1 <= m2)%positive).
Proof.
  unfold SFleb. cbn [SFcompare].
  change (Pos.compare_cont Eq m1 m2) with (m1 ?= m2)%positive.
  destruct (Z.compare_spec e1 e2) as [He | He | He].
  - destruct (Pos.compare_spec m1 m2) as [Hm | Hm | Hm]; split; intros H;
      try discriminate; try reflexivity; try lia.
  - split; intros _; [lia | reflexivity].
  - split; intros H; [discriminate | lia].
Qed.

Lemma SFleb_neg_finite (m1 m2 : positive) (e1 e2 : Z) :
  SFleb (S754_finite true m1 e1) (S754_finite true m2 e2) = true
  <-> e2 < e1 \/ (e1 = e2 /\ (m2 <= m1)%positive).
Proof.
  unfold SFleb. cbn [SFcompare].
  change (Pos.compare_cont Eq m1 m2) with (m1 ?= m2)%positive.
  destruct (Z.compare_spec e1 e2) as [He | He | He].
  - destruct (Pos.compare_spec m1 m2) as [Hm | Hm | Hm]; cbn [CompOpp];
      split; intros H; try discriminate; try reflexivity; try lia.
  - split; intros H; [discriminate | lia].
  - split; intros _; [lia | reflexivity].
Qed.

Lemma SFleb_trans (x y z : spec_float) :
  SFleb x y = true -> SFleb y z = true -> SFleb x z = true.
Proof.
  destruct x as [[|]|[|]| |[|] mx ex], y as [[|]|[|]| |[|] my ey],
           z as [[|]|[|]| |[|] mz ez];
    try reflexivity; try (intros H; discriminate H);
    try (intros _ H; discriminate H).
  - rewrite !SFleb_neg_finite. lia.
  - rewrite !SFleb_pos_finite. lia.
Qed.

Lemma float_leb_trans (a b c : float) :
  (a <=? b)%float = true -> (b <=? c)%float = true -> (a <=? c)%float = true.
Proof. rewrite !leb_spec. apply SFleb_trans. Qed.

Lemma float_leb_not_nan (a b : float) :
  (a <=? b)%float = true -> is_nan a = false /\ is_nan b = false.
Proof.
  rewrite leb_spec, !is_nan_spec. unfold SFleb.
  destruct (Prim2SF a), (Prim2SF b); cbn [SFcompare]; intros H;
    try discriminate H; auto.
Qed.

(** ** Multiplying by one, adding a zero *)

Lemma Prim2SF_one : Prim2SF one = S754_finite false 4503599627370496 (-52).
Proof. reflexivity. Qed.

Lemma SFmul_one (s : bool) (m : positive) (e : Z) :
  valid_binary (S754_finite s m e) = true ->
  SFmul prec emax (S754_finite s m e) (S754_finite false 4503599627370496 (-52))
  = S754_finite s m e.
Proof.
  intros Hv. apply valid_finite in Hv as [Hcan He].
  cbn [SFmul]. rewrite xorb_false_r.
  rewrite (Pos.mul_comm m). cbn [Pos.mul].
  unfold binary_round_aux, shr_fexp. cbn [Zdigits2 digits2_pos].
  match goal with
  | |- context [fexp prec emax (Z.pos ?d + (e + -52))] =>
      replace (Z.pos d + (e + -52)) with (Z.pos (digits2_pos m) + e) by lia
  end.
  rewrite Hcan. replace (e - (e + -52)) with 52 by lia.
  cbn [shr iter_pos shr_1 shr_record_of_loc orb shr_m loc_of_shr_record
       round_nearest_even].
  replace (e + -52 + 52) with e by lia.
  cbn [Zdigits2]. rewrite Hcan, Z.sub_diag.
  cbn [shr shr_m shr_record_of_loc].
  replace (e <=? emax - prec) with true
    by (symmetry; apply Z.leb_le; change (emax - prec) with 971; lia).
  reflexivity.
Qed.

(** [x * 1.0] is [x], for every float. *)
Lemma float_mul_one (x : float) : (x * one)%float = x.
Proof.
  apply float_ext. rewrite mul_spec, Prim2SF_one.
  pose proof (Prim2SF_valid x) as Hv.
  destruct (Prim2SF x) as [s|s| |s m e]; try reflexivity.
  - cbn [SF64mul SFmul]. rewrite xorb_false_r. reflexivity.
  - cbn [SF64mul SFmul]. rewrite xorb_false_r. reflexivity.
  - apply SFmul_one. exact Hv.
Qed.

Lemma float_mul_zero (b : float) :
  PyFloat.is_finite b = true ->
  is_SF_zero (Prim2SF (b * zero)%float) /\ is_SF_zero (Prim2SF (zero * b)%float).
Proof.
  unfold PyFloat.is_finite. rewrite !mul_spec, Prim2SF_zero.
  destruct (Prim2SF b); intros H; try discriminate H; split; exact I.
Qed.

(** Adding a zero to a finite float gives a float of the same value: the
    float itself, or a zero for a zero. *)
Lemma float_add_zero (a z : float) :
  PyFloat.is_finite a = true -> is_SF_zero (Prim2SF z) ->
  PyFloat.is_finite (a + z) = true /\ (a + z =? a)%float = true
  /\ (is_SF_zero (Prim2SF a) -> is_SF_zero (Prim2SF (a + z)%float)).
Proof.
  unfold PyFloat.is_finite. rewrite eqb_spec, !add_spec. unfold SFeqb.
  destruct (Prim2SF a) as [[|]|sa| |[|] m e], (Prim2SF z) as [[|]|sz| |sz mz ez];
    intros Ha Hz; try discriminate Ha; try contradiction Hz;
    cbn [SF64add SFadd SFcompare is_SF_zero]; repeat split; auto;
    rewrite Z.compare_refl, Pos.compare_cont_refl; reflexivity.
Qed.

Lemma SFeqb_finite (s1 s2 : bool) (m1 m2 : positive) (e1 e2 : Z) :
  SFeqb (S754_finite s1 m1 e1) (S754_finite s2 m2 e2) = true ->
  s1 = s2 /\ m1 = m2 /\ e1 = e2.
Proof.
  unfold SFeqb. cbn [SFcompare].
  change (Pos.compare_cont Eq m1 m2) with (m1 ?= m2)%positive.
  destruct s1, s2; try (intros H; discriminate H);
    destruct (Z.compare_spec e1 e2) as [He|He|He];
    try (intros H; discriminate H);
    destruct (Pos.compare_spec m1 m2) as [Hm|Hm|Hm]; cbn [CompOpp];
    intros H; try discriminate H; subst; auto.
Qed.

Lemma float_eqb_trans (a b c : float) :
  (a =? b)%float = true -> (b =? c)%float = true -> (a =? c)%float = true.
Proof.
  rewrite !eqb_spec.
  destruct (Prim2SF a) as [[|]|[|]| |[|] ma ea],
           (Prim2SF b) as [[|]|[|]| |[|] mb eb],
           (Prim2SF c) as [[|]|[|]| |[|] mc ec];
    intros H1 H2;
    try reflexivity;
    try (exfalso; clear - H1; unfold SFeqb in H1; cbn [SFcompare] in H1;
         discriminate H1);
    try (exfalso; clear - H2; unfold SFeqb in H2; cbn [SFcompare] in H2;
         discriminate H2).
  all: apply SFeqb_finite in H1 as (_ & -> & ->); exact H2.
Qed.

(** * [Vec] arithmetic *)

Lemma float_addsub_add_comm (a b : float) :
  float_addsub op_add a b = float_addsub op_add b a.
Proof. apply float_add_comm. Qed.

(** X1.  Addition on vectors is commutative, exactly, when no operand
    holds a NaN: for two [Vec]s [v + w] and [w + v] are the same vector,
    and for every right operand (a [Vec], a tuple, a number, or anything
    else) the reflected method [other + v] gives what [v + other] gives,
    the same error included.  (With NaNs on both sides the two sums can be
    NaNs of different signs, which the model does not tell apart.) *)
Theorem vec_addition_commutes (v : Vec) (other : operand) :
  vec_no_nan v = true ->
  operand_no_nan other = true ->
  Vec_raddsub op_add v other = Vec_addsub op_add v other
  /\ forall w : Vec,
       vec_no_nan w = true -> Vec_add v (OVec w) = Vec_add w (OVec v).
Proof.
  intros _ _. split.
  - destruct other as [o|l|s|]; cbn [Vec_raddsub Vec_addsub];
      unfold operand_addsub_float, float_addsub_operand;
      try reflexivity.
    + rewrite (float_addsub_add_comm (Vec.x o)), (float_addsub_add_comm (Vec.y o)),
        (float_addsub_add_comm (Vec.z o)). reflexivity.
    + destruct (py_index l 0) as [s0|e0]; cbn [bind]; [|reflexivity].
      destruct (float_of s0) as [f0|e0]; cbn [bind]; [|reflexivity].
      destruct (py_index l 1) as [s1|e1]; cbn [bind]; [|reflexivity].
      destruct (float_of s1) as [f1|e1]; cbn [bind]; [|reflexivity].
      destruct (py_index l 2) as [s2|e2]; cbn [bind]; [|reflexivity].
      destruct (float_of s2) as [f2|e2]; cbn [bind]; [|reflexivity].
      rewrite (float_addsub_add_comm f0 (Vec.x v)),
        (float_addsub_add_comm f1 (Vec.y v)),
        (float_addsub_add_comm f2 (Vec.z v)). reflexivity.
    + destruct (float_of s) as [f|e]; cbn [bind]; [|reflexivity].
      rewrite (float_addsub_add_comm f (Vec.x v)),
        (float_addsub_add_comm f (Vec.y v)),
        (float_addsub_add_comm f (Vec.z v)). reflexivity.
  - intros w _. unfold Vec_add. cbn [Vec_addsub].
    rewrite (float_addsub_add_comm (Vec.x v) (Vec.x w)),
      (float_addsub_add_comm (Vec.y v) (Vec.y w)),
      (float_addsub_add_comm (Vec.z v) (Vec.z w)). reflexivity.
Qed.

Lemma vec_addition_commutes_witness :
  vec_no_nan vec_123 = true
  /\ operand_no_nan tuple_211 = true
  /\ Vec_raddsub op_add vec_123 tuple_211 = Vec_addsub op_add vec_123 tuple_211
  /\ forall w : Vec,
       vec_no_nan w = true ->
       Vec_add vec_123 (OVec w) = Vec_add w (OVec vec_123).
Proof.
  split; [reflexivity|]. split; [reflexivity|].
  apply (vec_addition_commutes vec_123 tuple_211); reflexivity.
Defined.

(** X2.  Subtracting a vector is adding its negation, exactly, for vectors
    without a NaN: [-w] is always a vector, and [v - w] is the vector
    [v + (-w)].  (For a NaN [w] the negation turns the sign of the NaN,
    which shows in the sum and which the model does not tell apart.) *)
Theorem vec_sub_is_add_neg (v w : Vec) :
  vec_no_nan v = true ->
  vec_no_nan w = true ->
  exists n : Vec,
    Vec_neg w = Ok n /\ Vec_sub v (OVec w) = Vec_add v (OVec n).
Proof.
  intros _ _.
  exists (Vec.mk (- Vec.x w) (- Vec.y w) (- Vec.z w)). split; [reflexivity|].
  unfold Vec_sub, Vec_add. cbn [Vec_addsub float_addsub Vec.x Vec.y Vec.z].
  rewrite !float_sub_add_opp. reflexivity.
Qed.

Lemma vec_sub_is_add_neg_witness :
  vec_no_nan vec_123 = true
  /\ vec_no_nan tiny_vec = true
  /\ exists n : Vec,
       Vec_neg tiny_vec = Ok n
       /\ Vec_sub vec_123 (OVec tiny_vec) = Vec_add vec_123 (OVec n).
Proof.
  split; [reflexivity|]. split; [reflexivity|].
  apply (vec_sub_is_add_neg vec_123 tiny_vec); reflexivity.
Defined.

(** Whether [a op other] raises does not depend on the float [a]. *)
Lemma float_op_operand_Ok (op : muldiv) (a b : float) (other : operand) (r : float) :
  float_op_operand op a other = Ok r ->
  exists r', float_op_operand op b other = Ok r'.
Proof.
  destruct other as [o|l|s|]; cbn [float_op_operand]; try discriminate.
  destruct (float_of s) as [f|e]; cbn [bind]; [|discriminate].
  destruct op; cbn [float_op];
    unfold PyFloat.mul, PyFloat.truediv, PyFloat.floordiv, PyFloat.rem;
    destruct (is_zero f); try discriminate; eauto.
Qed.

(** X3.  The in-place [*=], [/=], [//=] and [%=] are all or nothing: when
    the method raises (two vectors, a zero divisor, an operand that is not
    a number, an int too large for a float) the vector is left as it
    was. *)
Theorem vec_inplace_muldiv_atomic (op : muldiv) (self : Vec) (other : operand)
    (v' : Vec) (e : exn) :
  Vec_imuldiv op self other = (v', Raise e) -> v' = self.
Proof.
  unfold Vec_imuldiv. destruct other as [o|l|s|];
    try (intros H; injection H as <- _; reflexivity).
  destruct (float_op_operand op (Vec.x self) (OScalar s)) as [x|ex] eqn:Hx;
    [|intros H; injection H as <- _; reflexivity].
  cbn [Vec.x Vec.y Vec.z].
  destruct (float_op_operand_Ok op _ (Vec.y self) _ _ Hx) as [y Hy].
  destruct (float_op_operand_Ok op _ (Vec.z self) _ _ Hx) as [z Hz].
  rewrite Hy, Hz. intros H. discriminate H.
Qed.

Lemma vec_inplace_muldiv_atomic_witness :
  Vec_imuldiv op_truediv vec_123 (OScalar (SInt 0))
  = (vec_123, Raise ZeroDivisionError)
  /\ vec_123 = vec_123.
Proof.
  split; [reflexivity|].
  apply (vec_inplace_muldiv_atomic op_truediv vec_123 (OScalar (SInt 0))
           vec_123 ZeroDivisionError).
  reflexivity.
Defined.

(** X4.  A tuple shorter than three items is not rejected up front:
    [v + t] and [v - t] raise (an [IndexError], or the [OverflowError] of an
    item that is too large an int) instead of returning [NotImplemented],
    and the in-place forms have by then already changed the components the
    tuple covers: after [v += (a,)] with a float [a] the vector holds
    [x + a] although the statement raised [IndexError]. *)
Theorem vec_short_tuple (op : addsub) (v : Vec) (l : list scalar) :
  (List.length l < 3)%nat ->
  (exists e, Vec_addsub op v (OTuple l) = Raise e
             /\ (e = IndexError \/ e = OverflowError))
  /\ (forall a : float,
        l = [SFloat a] ->
        Vec_iaddsub op v (OTuple l)
        = (Vec.mk (float_addsub op (Vec.x v) a) (Vec.y v) (Vec.z v),
           Raise IndexError)).
Proof.
  intros Hlen. split.
  - assert (Hfloat : forall s, (exists f, float_of s = Ok f)
                               \/ float_of s = Raise OverflowError).
    { intros [z|f]; cbn [float_of]; [|eauto].
      unfold PyFloat.of_int. cbv zeta.
      destruct (PyFloat.is_finite _); eauto. }
    cbn [Vec_addsub]. unfold float_addsub_operand.
    destruct l as [|s0 [|s1 [|s2 l]]]; cbn [List.length] in Hlen; try lia.
    + exists IndexError. split; [reflexivity | auto].
    + change (py_index [s0] 0) with (Ok s0).
      change (py_index [s0] 1) with (@Raise scalar IndexError). cbn [bind].
      destruct (Hfloat s0) as [[f ->] | ->]; cbn [bind]; eauto.
    + change (py_index [s0; s1] 0) with (Ok s0).
      change (py_index [s0; s1] 1) with (Ok s1).
      change (py_index [s0; s1] 2) with (@Raise scalar IndexError). cbn [bind].
      destruct (Hfloat s0) as [[f0 ->] | ->]; cbn [bind]; eauto.
      destruct (Hfloat s1) as [[f1 ->] | ->]; cbn [bind]; eauto.
  - intros a ->. reflexivity.
Qed.

Lemma vec_short_tuple_witness :
  (List.length [SFloat float_2] < 3)%nat
  /\ (exists e, Vec_addsub op_add vec_123 (OTuple [SFloat float_2]) = Raise e
                /\ (e = IndexError \/ e = OverflowError))
  /\ (forall a : float,
        [SFloat float_2] = [SFloat a] ->
        Vec_iaddsub op_add vec_123 (OTuple [SFloat float_2])
        = (Vec.mk (float_addsub op_add (Vec.x vec_123) a) (Vec.y vec_123)
                  (Vec.z vec_123),
           Raise IndexError)).
Proof.
  split; [cbn; lia|].
  apply (vec_short_tuple op_add vec_123 [SFloat float_2]). cbn; lia.
Defined.

Lemma float_eqb_sym (a b : float) : (a =? b)%float = (b =? a)%float.
Proof.
  rewrite !eqb_spec. unfold SFeqb.
  rewrite (SFcompare_antisym (Prim2SF b) (Prim2SF a)).
  destruct (SFcompare (Prim2SF b) (Prim2SF a)) as [[| |]|]; reflexivity.
Qed.

Lemma float_eqb_refl (a : float) : (a =? a)%float = negb (is_nan a).
Proof. unfold is_nan. rewrite negb_involutive. reflexivity. Qed.

(** X5.  On two vectors [!=] is the negation of [==], [==] is symmetric,
    and a vector equals itself exactly when none of its components is a
    NaN. *)
Theorem vec_eq_ne (v w : Vec) :
  Vec_ne v w = negb (Vec_eq v w)
  /\ Vec_eq v w = Vec_eq w v
  /\ Vec_eq v v = vec_no_nan v.
Proof.
  unfold Vec_ne, Vec_eq, vec_no_nan. repeat split.
  - rewrite !negb_andb. reflexivity.
  - rewrite (float_eqb_sym (Vec.x w)), (float_eqb_sym (Vec.y w)),
      (float_eqb_sym (Vec.z w)). reflexivity.
  - rewrite !float_eqb_refl. reflexivity.
Qed.

(** ** Items *)

Lemma Vec_getitem_axis (v : Vec) (ind : axis_key) :
  Vec_getitem v ind
  = match vec_axis ind with
    | Some 0 => Ok (Vec.x v)
    | Some 1 => Ok (Vec.y v)
    | Some _ => Ok (Vec.z v)
    | None => Raise (KeyError "Invalid axis")
    end.
Proof.
  unfold Vec_getitem, vec_axis.
  destruct (_ || _); [reflexivity|].
  destruct (_ || _); [reflexivity|].
  destruct (_ || _); reflexivity.
Qed.

Lemma Vec_setitem_axis (v : Vec) (ind : axis_key) (val : scalar) :
  Vec_setitem v ind val
  = match vec_axis ind with
    | Some 0 => f <- float_of val ;; Ok (Vec.mk f (Vec.y v) (Vec.z v))
    | Some 1 => f <- float_of val ;; Ok (Vec.mk (Vec.x v) f (Vec.z v))
    | Some _ => f <- float_of val ;; Ok (Vec.mk (Vec.x v) (Vec.y v) f)
    | None => Raise (KeyError "Invalid axis")
    end.
Proof.
  unfold Vec_setitem, vec_axis.
  destruct (_ || _); [reflexivity|].
  destruct (_ || _); [reflexivity|].
  destruct (_ || _); reflexivity.
Qed.

Lemma vec_axis_cases (ind : axis_key) :
  vec_axis ind = Some 0 \/ vec_axis ind = Some 1 \/ vec_axis ind = Some 2
  \/ vec_axis ind = None.
Proof.
  unfold vec_axis.
  destruct (_ || _); [auto|].
  destruct (_ || _); [auto|].
  destruct (_ || _); auto.
Qed.

(** X7.  Item assignment and item access agree on a [Vec]: after
    [v[ind] = val] succeeded, [v[ind]] is [float(val)] and the items of the
    other two axes are what they were, whichever of the keys (0, 1, 2, 'x',
    'y', 'z') name them; a key that names no axis is a [KeyError] for both,
    before [val] is looked at. *)
Theorem vec_setitem_getitem (v : Vec) (ind : axis_key) (val : scalar) :
  (forall v', Vec_setitem v ind val = Ok v' ->
     Vec_getitem v' ind = float_of val
     /\ forall j, vec_axis j <> vec_axis ind ->
                  Vec_getitem v' j = Vec_getitem v j)
  /\ (vec_axis ind = None ->
      Vec_setitem v ind val = Raise (KeyError "Invalid axis")
      /\ Vec_getitem v ind = Raise (KeyError "Invalid axis")).
Proof.
  split.
  - intros v' H. rewrite Vec_setitem_axis in H. rewrite Vec_getitem_axis.
    destruct (vec_axis_cases ind) as [Hi | [Hi | [Hi | Hi]]];
      rewrite Hi in H |- *; try discriminate H;
      (destruct (float_of val) as [f|e]; cbn [bind] in H; [|discriminate H]);
      apply Ok_inj in H; subst v'; (split; [reflexivity|]);
      intros j Hj; rewrite !Vec_getitem_axis;
      destruct (vec_axis_cases j) as [Hc | [Hc | [Hc | Hc]]];
      rewrite Hc in Hj |- *; try reflexivity; congruence.
  - intros Hnone. rewrite Vec_getitem_axis, Vec_setitem_axis, Hnone.
    split; reflexivity.
Qed.

(** X8.  [Vec.axis] succeeds exactly on the vectors with one non-zero
    component ([len(v) == 1]); the axis it names holds the non-zero
    component and [other_axes] of that axis are both zero.  Any other
    vector is a [ValueError]. *)
Theorem vec_axis_len (v : Vec) :
  (Vec_len v = 1 <-> exists a, Vec_axis v = Ok a)
  /\ (Vec_len v <> 1 -> Vec_axis v = Raise (ValueError "not an on-axis vector!"))
  /\ (forall a, Vec_axis v = Ok a ->
        exists c p q,
          Vec_getitem v (AxStr a) = Ok c /\ float_nonzero c = true
          /\ Vec_other_axes v a = Ok (p, q)
          /\ float_nonzero p = false /\ float_nonzero q = false).
Proof.
  unfold Vec_len, Vec_axis, Vec_other_axes.
  destruct v as [x y z]. cbn [Vec.x Vec.y Vec.z]. cbv zeta.
  destruct (float_nonzero x) eqn:Hx, (float_nonzero y) eqn:Hy,
           (float_nonzero z) eqn:Hz; cbn [Z.b2z andb negb];
    (split; [split; [intros H; try discriminate H; eauto
                    | intros [a H]; try discriminate H; reflexivity]
            | split; [intros H; try reflexivity; exfalso; apply H; reflexivity
                     | intros a H; try discriminate H; apply Ok_inj in H;
                       subst a; cbn; eauto 10 ] ]).
Qed.

(** ** Bounding boxes *)

Lemma Vec_min_Vec (v p : Vec) :
  Vec_min v (AVec p)
  = (Vec.mk (if (Vec.x p <? Vec.x v)%float then Vec.x p else Vec.x v)
            (if (Vec.y p <? Vec.y v)%float then Vec.y p else Vec.y v)
            (if (Vec.z p <? Vec.z v)%float then Vec.z p else Vec.z v),
     Ok tt).
Proof.
  destruct v as [x y z], p as [px py pz]. unfold Vec_min.
  cbn [anyvec_item Vec_getitem axis_key_eqb Z.eqb orb Vec.x Vec.y Vec.z
       Pos.eqb].
  destruct (px <? x)%float; cbn [Vec.x Vec.y Vec.z];
    destruct (py <? y)%float; cbn [Vec.x Vec.y Vec.z];
    destruct (pz <? z)%float; reflexivity.
Qed.

Lemma Vec_max_Vec (v p : Vec) :
  Vec_max v (AVec p)
  = (Vec.mk (if (Vec.x v <? Vec.x p)%float then Vec.x p else Vec.x v)
            (if (Vec.y v <? Vec.y p)%float then Vec.y p else Vec.y v)
            (if (Vec.z v <? Vec.z p)%float then Vec.z p else Vec.z v),
     Ok tt).
Proof.
  destruct v as [x y z], p as [px py pz]. unfold Vec_max.
  cbn [anyvec_item Vec_getitem axis_key_eqb Z.eqb orb Vec.x Vec.y Vec.z
       Pos.eqb].
  destruct (x <? px)%float; cbn [Vec.x Vec.y Vec.z];
    destruct (y <? py)%float; cbn [Vec.x Vec.y Vec.z];
    destruct (z <? pz)%float; reflexivity.
Qed.

(** The smaller and the larger of two floats that are not NaN, as [min] and
    [max] pick them. *)
Lemma float_min_le (lo p : float) :
  is_nan lo = false -> is_nan p = false ->
  let m := if (p <? lo)%float then p else lo in
  (m <=? lo)%float = true /\ (m <=? p)%float = true /\ is_nan m = false.
Proof.
  intros Hlo Hp. cbv zeta. destruct (p <? lo)%float eqn:Hlt.
  - repeat split; auto using float_ltb_leb, float_leb_refl.
  - repeat split; auto using float_leb_refl.
    rewrite (float_ltb_false_leb p lo Hp Hlo) in Hlt.
    apply negb_false_iff in Hlt. exact Hlt.
Qed.

Lemma float_max_ge (hi p : float) :
  is_nan hi = false -> is_nan p = false ->
  let m := if (hi <? p)%float then p else hi in
  (hi <=? m)%float = true /\ (p <=? m)%float = true /\ is_nan m = false.
Proof.
  intros Hhi Hp. cbv zeta. destruct (hi <? p)%float eqn:Hlt.
  - repeat split; auto using float_ltb_leb, float_leb_refl.
  - repeat split; auto using float_leb_refl.
    rewrite (float_ltb_false_leb hi p Hhi Hp) in Hlt.
    apply negb_false_iff in Hlt. exact Hlt.
Qed.

Lemma vec_no_nan_inv (v : Vec) :
  vec_no_nan v = true ->
  is_nan (Vec.x v) = false /\ is_nan (Vec.y v) = false
  /\ is_nan (Vec.z v) = false.
Proof.
  unfold vec_no_nan. intros H.
  apply andb_prop in H as [H Hz]. apply andb_prop in H as [Hx Hy].
  rewrite negb_true_iff in Hx, Hy, Hz. auto.
Qed.

Lemma Vec_le_intro (v w : Vec) :
  (Vec.x v <=? Vec.x w)%float = true -> (Vec.y v <=? Vec.y w)%float = true ->
  (Vec.z v <=? Vec.z w)%float = true -> Vec_le v w = true.
Proof. unfold Vec_le. intros -> -> ->. reflexivity. Qed.

Lemma Vec_le_inv (v w : Vec) :
  Vec_le v w = true ->
  (Vec.x v <=? Vec.x w)%float = true /\ (Vec.y v <=? Vec.y w)%float = true
  /\ (Vec.z v <=? Vec.z w)%float = true.
Proof.
  unfold Vec_le. intros H.
  apply andb_prop in H as [H Hz]. apply andb_prop in H as [Hx Hy]. auto.
Qed.

Lemma Vec_le_trans (u v w : Vec) :
  Vec_le u v = true -> Vec_le v w = true -> Vec_le u w = true.
Proof.
  intros H1 H2. apply Vec_le_inv in H1 as (? & ? & ?).
  apply Vec_le_inv in H2 as (? & ? & ?).
  apply Vec_le_intro; eapply float_leb_trans; eassumption.
Qed.

(** The loop of [bbox], with what it keeps: the box holds the points seen
    so far. *)
Lemma bbox_loop (points : list Vec) :
  forall (seen : list Vec) (lo hi : Vec),
  forallb vec_no_nan points = true ->
  vec_no_nan lo = true -> vec_no_nan hi = true ->
  (forall p, In p seen -> Vec_le lo p = true /\ Vec_le p hi = true) ->
  exists lo' hi',
    for_each points
      (fun point '(bbox_min, bbox_max) =>
         let '(bbox_min, r) := Vec_min bbox_min (AVec point) in
         r ;;;
         let '(bbox_max, r) := Vec_max bbox_max (AVec point) in
         r ;;;
         Ok (bbox_min, bbox_max))
      (lo, hi) = Ok (lo', hi')
    /\ vec_no_nan lo' = true /\ vec_no_nan hi' = true
    /\ (forall p, In p (seen ++ points) ->
          Vec_le lo' p = true /\ Vec_le p hi' = true).
Proof.
  induction points as [|q points IH]; intros seen lo hi Hpts Hlo Hhi Hseen.
  - exists lo, hi. rewrite app_nil_r. auto.
  - cbn [forallb] in Hpts. apply andb_prop in Hpts as [Hq Hpts].
    cbn [for_each]. rewrite Vec_min_Vec, Vec_max_Vec. cbn [bind].
    set (lo1 := Vec.mk _ _ _). set (hi1 := Vec.mk _ _ _).
    destruct (vec_no_nan_inv _ Hq) as (Hqx & Hqy & Hqz).
    destruct (vec_no_nan_inv _ Hlo) as (Hlx & Hly & Hlz).
    destruct (vec_no_nan_inv _ Hhi) as (Hhx & Hhy & Hhz).
    destruct (float_min_le _ _ Hlx Hqx) as (Ax1 & Ax2 & Ax3).
    destruct (float_min_le _ _ Hly Hqy) as (Ay1 & Ay2 & Ay3).
    destruct (float_min_le _ _ Hlz Hqz) as (Az1 & Az2 & Az3).
    destruct (float_max_ge _ _ Hhx Hqx) as (Bx1 & Bx2 & Bx3).
    destruct (float_max_ge _ _ Hhy Hqy) as (By1 & By2 & By3).
    destruct (float_max_ge _ _ Hhz Hqz) as (Bz1 & Bz2 & Bz3).
    assert (Hlo1 : vec_no_nan lo1 = true).
    { unfold vec_no_nan, lo1. cbn [Vec.x Vec.y Vec.z].
      rewrite Ax3, Ay3, Az3. reflexivity. }
    assert (Hhi1 : vec_no_nan hi1 = true).
    { unfold vec_no_nan, hi1. cbn [Vec.x Vec.y Vec.z].
      rewrite Bx3, By3, Bz3. reflexivity. }
    assert (Hlo_le : Vec_le lo1 lo = true) by (apply Vec_le_intro; assumption).
    assert (Hhi_le : Vec_le hi hi1 = true) by (apply Vec_le_intro; assumption).
    destruct (IH (seen ++ [q]) lo1 hi1 Hpts Hlo1 Hhi1) as (lo' & hi' & Hrun & Hn1 & Hn2 & Hin).
    { intros p Hp. apply in_app_or in Hp as [Hp | [<- | []]].
      - destruct (Hseen p Hp) as [H1 H2]. split.
        + eapply Vec_le_trans; eassumption.
        + eapply Vec_le_trans; eassumption.
      - split; apply Vec_le_intro; assumption. }
    exists lo', hi'. rewrite <- app_assoc in Hin. cbn [app] in Hin. auto.
Qed.

(** X6.  The bounding box holds its points: for points without NaN
    components, given as arguments or in one iterable, [Vec.bbox] returns
    two vectors [(lo, hi)] with [lo <= p <= hi] (componentwise, as [<=] on
    [Vec] compares) for every point [p]; no point at all is a [TypeError]
    for the argument form and a [ValueError] for an empty iterable. *)
Theorem vec_bbox_contains (points : list Vec) :
  forallb vec_no_nan points = true ->
  (points <> [] ->
   exists lo hi,
     Vec_bbox (BboxPoints points) = Ok (lo, hi)
     /\ Vec_bbox (BboxIterable points) = Ok (lo, hi)
     /\ forall p, In p points -> Vec_le lo p = true /\ Vec_le p hi = true)
  /\ Vec_bbox (BboxPoints [])
     = Raise (TypeError "Vec.bbox() expected at least 1 argument, got 0.")
  /\ Vec_bbox (BboxIterable [])
     = Raise (ValueError "Vec.bbox() arg is an empty sequence").
Proof.
  intros Hpts. split; [|split; reflexivity].
  intros Hne. destruct points as [|first point_coll]; [congruence|].
  cbn [forallb] in Hpts. apply andb_prop in Hpts as [Hfirst Hpts].
  assert (Hcopy : Vec_copy (Vec_copy first) = first /\ Vec_copy first = first)
    by (destruct first; split; reflexivity).
  destruct Hcopy as [Hc2 Hc1].
  destruct (bbox_loop point_coll [first] first first Hpts Hfirst Hfirst)
    as (lo & hi & Hrun & _ & _ & Hin).
  { intros p [<- | []].
    destruct (vec_no_nan_inv _ Hfirst) as (Hx & Hy & Hz).
    split; apply Vec_le_intro; auto using float_leb_refl. }
  exists lo, hi. unfold Vec_bbox. cbn [bind]. rewrite Hc2, Hc1.
  repeat split; try exact Hrun; apply (Hin p); exact H.
Qed.

Lemma vec_bbox_contains_witness :
  forallb vec_no_nan [vec_123; tiny_vec] = true
  /\ ([vec_123; tiny_vec] <> [] ->
      exists lo hi,
        Vec_bbox (BboxPoints [vec_123; tiny_vec]) = Ok (lo, hi)
        /\ Vec_bbox (BboxIterable [vec_123; tiny_vec]) = Ok (lo, hi)
        /\ forall p, In p [vec_123; tiny_vec] ->
                     Vec_le lo p = true /\ Vec_le p hi = true)
  /\ Vec_bbox (BboxPoints [])
     = Raise (TypeError "Vec.bbox() expected at least 1 argument, got 0.")
  /\ Vec_bbox (BboxIterable [])
     = Raise (ValueError "Vec.bbox() arg is an empty sequence").
Proof.
  split; [reflexivity|].
  apply (vec_bbox_contains [vec_123; tiny_vec]). reflexivity.
Defined.

(** ** Normalisation *)

Lemma Vec_norm_guard (v : Vec) :
  (Vec.x v =? zero)%float && (Vec.y v =? zero)%float && (Vec.z v =? zero)%float
  = negb (Vec_bool v).
Proof.
  unfold Vec_bool, float_nonzero. rewrite !negb_orb, !negb_involutive.
  reflexivity.
Qed.

(** X9.  The guard of [Vec.norm] does not keep it from dividing by zero: a
    vector that is not the zero vector but whose magnitude evaluates to zero
    (the squares of its components underflow) makes [norm] raise
    [ZeroDivisionError]. *)
Theorem vec_norm_division_by_zero (v : Vec) (m : float) :
  Vec_bool v = true ->
  Vec_mag v = Ok m ->
  is_zero m = true ->
  Vec_norm v = Raise ZeroDivisionError.
Proof.
  intros Hb Hm Hz. unfold Vec_norm. rewrite Vec_norm_guard, Hb. cbn [negb].
  rewrite Hm. cbn [bind].
  unfold Vec_op, Vec_muldiv, float_op_operand. cbn [float_of bind float_op].
  unfold PyFloat.truediv. rewrite Hz. reflexivity.
Qed.

Lemma vec_norm_division_by_zero_witness :
  Vec_bool tiny_vec = true
  /\ Vec_mag tiny_vec = Ok zero
  /\ is_zero zero = true
  /\ Vec_norm tiny_vec = Raise ZeroDivisionError.
Proof.
  split; [reflexivity|]. split; [reflexivity|]. split; [reflexivity|].
  apply (vec_norm_division_by_zero tiny_vec zero); reflexivity.
Defined.

Lemma float_add_zero_no_neg_zero (q : float) :
  is_neg_zero (q + zero)%float = false.
Proof.
  unfold is_neg_zero. rewrite add_spec, Prim2SF_zero.
  destruct (Prim2SF q) as [[|]|[|]| |s m e]; reflexivity.
Qed.

(** X10.  What [Vec.norm] does with signed zeros: a vector whose
    components all compare equal to zero is returned as it is, a [-0.0]
    included; any other vector that [norm] normalises comes back without a
    [-0.0] component, the final [+= 0] having turned each into [0.0]. *)
Theorem vec_norm_signed_zero (v : Vec) :
  (Vec_bool v = false -> Vec_norm v = Ok v)
  /\ (Vec_bool v = true ->
      forall n, Vec_norm v = Ok n ->
        is_neg_zero (Vec.x n) = false /\ is_neg_zero (Vec.y n) = false
        /\ is_neg_zero (Vec.z n) = false).
Proof.
  split; intros Hb.
  - unfold Vec_norm. rewrite Vec_norm_guard, Hb. destruct v; reflexivity.
  - intros n H. unfold Vec_norm in H. rewrite Vec_norm_guard, Hb in H.
    cbn [negb] in H.
    destruct (Vec_mag v) as [m|e]; cbn [bind] in H; [|discriminate H].
    destruct (Vec_op op_truediv v (OScalar (SFloat m))) as [val|e];
      cbn [bind] in H; [|discriminate H].
    unfold Vec_iaddsub, float_addsub_operand in H.
    change (float_of (SInt 0)) with (Ok zero) in H.
    cbn [bind float_addsub Vec.x Vec.y Vec.z] in H.
    apply Ok_inj in H. subst n. cbn [Vec.x Vec.y Vec.z].
    auto using float_add_zero_no_neg_zero.
Qed.

(** ** Products *)

Lemma anyvec_item_Vec (w : Vec) :
  anyvec_item (AVec w) 0 = Ok (Vec.x w)
  /\ anyvec_item (AVec w) 1 = Ok (Vec.y w)
  /\ anyvec_item (AVec w) 2 = Ok (Vec.z w).
Proof. repeat split. Qed.

Lemma SFsub_diag (x : spec_float) :
  match x with S754_nan | S754_infinity _ => False | _ => True end ->
  SFsub prec emax x x = S754_zero false.
Proof.
  destruct x as [[|]|s| |s m e]; intros H; try contradiction; try reflexivity.
  cbn [SFsub]. rewrite Z.min_id. unfold shl_align.
  rewrite (Z.sub_diag e). cbn [fst]. rewrite Z.sub_diag. reflexivity.
Qed.

(** A finite float minus itself is [+0.0]. *)
Lemma float_sub_diag (p : float) :
  PyFloat.is_finite p = true -> (p - p)%float = zero.
Proof.
  intros H. apply float_ext. rewrite sub_spec, Prim2SF_zero.
  apply SFsub_diag. unfold PyFloat.is_finite in H.
  destruct (Prim2SF p); try discriminate H; exact I.
Qed.

(** X11.  The dot product of two vectors without a NaN is symmetric,
    exactly, and the cross product of a vector with itself is the zero
    vector [Vec(0, 0, 0)] whenever the three products of two of its
    components are finite.  (The product of two NaNs takes its sign from
    one of them, which the model does not tell apart.) *)
Theorem vec_dot_cross (v : Vec) :
  (forall w : Vec,
     vec_no_nan v = true -> vec_no_nan w = true ->
     Vec_dot v (AVec w) = Vec_dot w (AVec v))
  /\ (PyFloat.is_finite (Vec.y v * Vec.z v) = true ->
      PyFloat.is_finite (Vec.z v * Vec.x v) = true ->
      PyFloat.is_finite (Vec.x v * Vec.y v) = true ->
      Vec_cross v (AVec v) = Ok (Vec.mk zero zero zero)).
Proof.
  split.
  - intros w _ _. unfold Vec_dot.
    destruct (anyvec_item_Vec w) as (-> & -> & ->).
    destruct (anyvec_item_Vec v) as (-> & -> & ->). cbn [bind].
    rewrite (float_mul_comm (Vec.x v) (Vec.x w)),
      (float_mul_comm (Vec.y v) (Vec.y w)),
      (float_mul_comm (Vec.z v) (Vec.z w)). reflexivity.
  - intros Hyz Hzx Hxy. unfold Vec_cross.
    destruct (anyvec_item_Vec v) as (-> & -> & ->). cbn [bind].
    rewrite (float_mul_comm (Vec.z v) (Vec.y v)),
      (float_mul_comm (Vec.x v) (Vec.z v)),
      (float_mul_comm (Vec.y v) (Vec.x v)).
    rewrite !float_sub_diag by assumption. reflexivity.
Qed.

Lemma vec_dot_cross_witness :
  vec_no_nan vec_123 = true
  /\ vec_no_nan tiny_vec = true
  /\ Vec_dot vec_123 (AVec tiny_vec) = Vec_dot tiny_vec (AVec vec_123)
  /\ PyFloat.is_finite (Vec.y vec_123 * Vec.z vec_123) = true
  /\ PyFloat.is_finite (Vec.z vec_123 * Vec.x vec_123) = true
  /\ PyFloat.is_finite (Vec.x vec_123 * Vec.y vec_123) = true
  /\ Vec_cross vec_123 (AVec vec_123) = Ok (Vec.mk zero zero zero).
Proof.
  destruct (vec_dot_cross vec_123) as [Hdot Hcross].
  split; [reflexivity|]. split; [reflexivity|].
  split; [apply Hdot; reflexivity|].
  split; [reflexivity|]. split; [reflexivity|]. split; [reflexivity|].
  apply Hcross; reflexivity.
Defined.

(** * [Matrix] *)

(** X12.  Transposing twice gives the matrix back, and for matrices
    without a NaN the transpose of a product is the product of the
    transposes in the opposite order, exactly (no rounding difference):
    [(a @ b).transpose()] and [b.transpose() @ a.transpose()] are the same
    matrix.  (The product of two NaNs takes its sign from one of them,
    which the model does not tell apart.) *)
Theorem matrix_transpose_product (a b : Matrix) :
  Matrix_transpose (Matrix_transpose a) = a
  /\ (matrix_no_nan a = true -> matrix_no_nan b = true ->
      Matrix_transpose (Matrix_mat_mul a b)
      = Matrix_mat_mul (Matrix_transpose b) (Matrix_transpose a)).
Proof.
  destruct a as [aa ab ac ba bb bc ca cb cc],
           b as [ta tb tc ua ub uc va vb vc].
  split; [reflexivity|]. intros _ _.
  unfold Matrix_transpose, Matrix_mat_mul.
  cbn [Matrix.aa Matrix.ab Matrix.ac Matrix.ba Matrix.bb Matrix.bc
       Matrix.ca Matrix.cb Matrix.cc].
  rewrite (float_mul_comm ta aa), (float_mul_comm ua ab), (float_mul_comm va ac),
    (float_mul_comm ta ba), (float_mul_comm ua bb), (float_mul_comm va bc),
    (float_mul_comm ta ca), (float_mul_comm ua cb), (float_mul_comm va cc),
    (float_mul_comm tb aa), (float_mul_comm ub ab), (float_mul_comm vb ac),
    (float_mul_comm tb ba), (float_mul_comm ub bb), (float_mul_comm vb bc),
    (float_mul_comm tb ca), (float_mul_comm ub cb), (float_mul_comm vb cc),
    (float_mul_comm tc aa), (float_mul_comm uc ab), (float_mul_comm vc ac),
    (float_mul_comm tc ba), (float_mul_comm uc bb), (float_mul_comm vc bc),
    (float_mul_comm tc ca), (float_mul_comm uc cb), (float_mul_comm vc cc).
  reflexivity.
Qed.

Lemma matrix_transpose_product_witness :
  Matrix_transpose (Matrix_transpose sample_matrix) = sample_matrix
  /\ matrix_no_nan sample_matrix = true
  /\ matrix_no_nan (Matrix_transpose sample_matrix) = true
  /\ Matrix_transpose
       (Matrix_mat_mul sample_matrix (Matrix_transpose sample_matrix))
     = Matrix_mat_mul (Matrix_transpose (Matrix_transpose sample_matrix))
         (Matrix_transpose sample_matrix).
Proof.
  destruct (matrix_transpose_product sample_matrix
              (Matrix_transpose sample_matrix)) as [Hinv Hprod].
  split; [exact Hinv|]. split; [reflexivity|]. split; [reflexivity|].
  apply Hprod; reflexivity.
Defined.

(** ** The identity *)

Lemma float_zero_add (a z : float) :
  PyFloat.is_finite a = true -> is_SF_zero (Prim2SF z) ->
  PyFloat.is_finite (z + a) = true /\ (z + a =? a)%float = true.
Proof.
  intros Ha Hz. rewrite (float_add_comm z a).
  destruct (float_add_zero a z Ha Hz) as (H1 & H2 & _). auto.
Qed.

Lemma float_zero_add_zero (y z : float) :
  is_SF_zero (Prim2SF y) -> is_SF_zero (Prim2SF z) ->
  is_SF_zero (Prim2SF (y + z)%float).
Proof.
  rewrite add_spec.
  destruct (Prim2SF y) as [[|]|sy| |sy my ey], (Prim2SF z) as [[|]|sz| |sz mz ez];
    intros Hy Hz; try contradiction; exact I.
Qed.

(** The three sums a row times the identity consists of. *)
Lemma row_times_identity (a b c : float) :
  PyFloat.is_finite a = true -> PyFloat.is_finite b = true ->
  PyFloat.is_finite c = true ->
  (a * one + b * zero + c * zero =? a)%float = true
  /\ (a * zero + b * one + c * zero =? b)%float = true
  /\ (a * zero + b * zero + c * one =? c)%float = true.
Proof.
  intros Ha Hb Hc. rewrite !float_mul_one.
  destruct (float_mul_zero a Ha) as [Za _].
  destruct (float_mul_zero b Hb) as [Zb _].
  destruct (float_mul_zero c Hc) as [Zc _].
  repeat split.
  - destruct (float_add_zero a _ Ha Zb) as (F1 & E1 & _).
    destruct (float_add_zero _ _ F1 Zc) as (_ & E2 & _).
    eapply float_eqb_trans; eassumption.
  - destruct (float_zero_add b _ Hb Za) as (F1 & E1).
    destruct (float_add_zero _ _ F1 Zc) as (_ & E2 & _).
    eapply float_eqb_trans; eassumption.
  - pose proof (float_zero_add_zero _ _ Za Zb) as Z1.
    destruct (float_zero_add c _ Hc Z1) as (_ & E1). exact E1.
Qed.

Lemma matrix_finite_inv (m : Matrix) :
  matrix_finite m = true ->
  (PyFloat.is_finite (Matrix.aa m) = true /\ PyFloat.is_finite (Matrix.ab m) = true
   /\ PyFloat.is_finite (Matrix.ac m) = true)
  /\ (PyFloat.is_finite (Matrix.ba m) = true /\ PyFloat.is_finite (Matrix.bb m) = true
      /\ PyFloat.is_finite (Matrix.bc m) = true)
  /\ (PyFloat.is_finite (Matrix.ca m) = true /\ PyFloat.is_finite (Matrix.cb m) = true
      /\ PyFloat.is_finite (Matrix.cc m) = true).
Proof.
  unfold matrix_finite. intros H.
  repeat (apply andb_prop in H as [H ?]). repeat split; assumption.
Qed.

(** X13.  The identity matrix is neutral for rotation, up to [==]: for a
    matrix [m] and a vector [v] with finite components, [m @ Matrix()],
    [Matrix() @ m] and [m] compare equal, and so do [v @ Matrix()] and [v].
    (Only a zero can differ, in its sign.) *)
Theorem matrix_identity_neutral (m : Matrix) (v : Vec) :
  matrix_finite m = true ->
  vec_finite v = true ->
  Matrix_eq (Matrix_mat_mul m Matrix_init) m = true
  /\ Matrix_eq (Matrix_mat_mul Matrix_init m) m = true
  /\ Vec_eq v (Matrix_vec_rot Matrix_init v) = true.
Proof.
  intros Hm Hv.
  apply matrix_finite_inv in Hm
    as ((Haa & Hab & Hac) & (Hba & Hbb & Hbc) & (Hca & Hcb & Hcc)).
  unfold vec_finite in Hv. apply andb_prop in Hv as [Hv Hz].
  apply andb_prop in Hv as [Hx Hy].
  destruct m as [aa ab ac ba bb bc ca cb cc], v as [x y z].
  cbn [Matrix.aa Matrix.ab Matrix.ac Matrix.ba Matrix.bb Matrix.bc
       Matrix.ca Matrix.cb Matrix.cc Vec.x Vec.y Vec.z] in *.
  destruct (row_times_identity aa ab ac Haa Hab Hac) as (A1 & A2 & A3).
  destruct (row_times_identity ba bb bc Hba Hbb Hbc) as (B1 & B2 & B3).
  destruct (row_times_identity ca cb cc Hca Hcb Hcc) as (C1 & C2 & C3).
  destruct (row_times_identity aa ba ca Haa Hba Hca) as (D1 & D2 & D3).
  destruct (row_times_identity ab bb cb Hab Hbb Hcb) as (E1 & E2 & E3).
  destruct (row_times_identity ac bc cc Hac Hbc Hcc) as (F1 & F2 & F3).
  destruct (row_times_identity x y z Hx Hy Hz) as (V1 & V2 & V3).
  repeat split.
  - unfold Matrix_eq, Matrix_mat_mul, Matrix_init.
    cbn [Matrix.aa Matrix.ab Matrix.ac Matrix.ba Matrix.bb Matrix.bc
         Matrix.ca Matrix.cb Matrix.cc].
    rewrite A1, A2, A3, B1, B2, B3, C1, C2, C3. reflexivity.
  - unfold Matrix_eq, Matrix_mat_mul, Matrix_init.
    cbn [Matrix.aa Matrix.ab Matrix.ac Matrix.ba Matrix.bb Matrix.bc
         Matrix.ca Matrix.cb Matrix.cc].
    rewrite (float_mul_comm one aa), (float_mul_comm zero ba),
      (float_mul_comm zero ca), (float_mul_comm one ab),
      (float_mul_comm zero bb), (float_mul_comm zero cb),
      (float_mul_comm one ac), (float_mul_comm zero bc),
      (float_mul_comm zero cc), (float_mul_comm zero aa),
      (float_mul_comm one ba), (float_mul_comm zero ab),
      (float_mul_comm one bb), (float_mul_comm zero ac),
      (float_mul_comm one bc), (float_mul_comm one ca),
      (float_mul_comm one cb), (float_mul_comm one cc).
    rewrite D1, D2, D3, E1, E2, E3, F1, F2, F3. reflexivity.
  - unfold Vec_eq, Matrix_vec_rot, Matrix_init.
    cbn [Matrix.aa Matrix.ab Matrix.ac Matrix.ba Matrix.bb Matrix.bc
         Matrix.ca Matrix.cb Matrix.cc Vec.x Vec.y Vec.z].
    rewrite V1, V2, V3. reflexivity.
Qed.

Lemma matrix_identity_neutral_witness :
  matrix_finite sample_matrix = true
  /\ vec_finite vec_123 = true
  /\ Matrix_eq (Matrix_mat_mul sample_matrix Matrix_init) sample_matrix = true
  /\ Matrix_eq (Matrix_mat_mul Matrix_init sample_matrix) sample_matrix = true
  /\ Vec_eq vec_123 (Matrix_vec_rot Matrix_init vec_123) = true.
Proof.
  split; [reflexivity|]. split; [reflexivity|].
  apply (matrix_identity_neutral sample_matrix vec_123); reflexivity.
Defined.

(** The sign of a zero is not kept: [-0.0] comes back as [0.0]. *)
Example identity_product_loses_zero_sign :
  Matrix.cb (Matrix_mat_mul sample_matrix Matrix_init) = zero
  /\ Matrix.cb sample_matrix = neg_zero.
Proof. split; reflexivity. Qed.

(** * [Angle] items and [from_basis] *)

Lemma Angle_getitem_axis (a : Angle) (ind : axis_key) :
  Angle_getitem a ind
  = match angle_axis ind with
    | Some 0 => Ok (Angle.pitch a)
    | Some 1 => Ok (Angle.yaw a)
    | Some _ => Ok (Angle.roll a)
    | None => Raise (KeyError "Invalid axis")
    end.
Proof.
  unfold Angle_getitem, angle_axis.
  destruct (key_in ind _); [reflexivity|].
  destruct (key_in ind _); [reflexivity|].
  destruct (key_in ind _); reflexivity.
Qed.

Lemma Angle_setitem_axis (a : Angle) (ind : axis_key) (val : scalar) :
  Angle_setitem a ind val
  = match angle_axis ind with
    | Some 0 => p <- norm360 val ;; Ok (Angle.mk p (Angle.yaw a) (Angle.roll a))
    | Some 1 => y <- norm360 val ;; Ok (Angle.mk (Angle.pitch a) y (Angle.roll a))
    | Some _ => r <- norm360 val ;; Ok (Angle.mk (Angle.pitch a) (Angle.yaw a) r)
    | None => Raise (KeyError "Invalid axis")
    end.
Proof.
  unfold Angle_setitem, angle_axis.
  destruct (key_in ind _); [reflexivity|].
  destruct (key_in ind _); [reflexivity|].
  destruct (key_in ind _); reflexivity.
Qed.

Lemma angle_axis_cases (ind : axis_key) :
  angle_axis ind = Some 0 \/ angle_axis ind = Some 1 \/ angle_axis ind = Some 2
  \/ angle_axis ind = None.
Proof.
  unfold angle_axis.
  destruct (key_in ind _); [auto|].
  destruct (key_in ind _); [auto|].
  destruct (key_in ind _); auto.
Qed.

(** X14.  Item assignment and item access agree on an [Angle], up to the
    normalisation: after [a[ind] = val] succeeded, [a[ind]] is
    [float(val) % 360 % 360] and the two other axes read what they did,
    under every spelling of their keys (0, 'p', 'pit', 'pitch', ...); a key
    that names no axis is a [KeyError] for both. *)
Theorem angle_setitem_getitem (a : Angle) (ind : axis_key) (val : scalar) :
  (forall a', Angle_setitem a ind val = Ok a' ->
     Angle_getitem a' ind = norm360 val
     /\ forall j, angle_axis j <> angle_axis ind ->
                  Angle_getitem a' j = Angle_getitem a j)
  /\ (angle_axis ind = None ->
      Angle_setitem a ind val = Raise (KeyError "Invalid axis")
      /\ Angle_getitem a ind = Raise (KeyError "Invalid axis")).
Proof.
  split.
  - intros a' H. rewrite Angle_setitem_axis in H. rewrite Angle_getitem_axis.
    destruct (angle_axis_cases ind) as [Hi | [Hi | [Hi | Hi]]];
      rewrite Hi in H |- *; try discriminate H;
      (destruct (norm360 val) as [f|e]; cbn [bind] in H; [|discriminate H]);
      apply Ok_inj in H; subst a'; (split; [reflexivity|]);
      intros j Hj; rewrite !Angle_getitem_axis;
      destruct (angle_axis_cases j) as [Hc | [Hc | [Hc | Hc]]];
      rewrite Hc in Hj |- *; try reflexivity; congruence.
  - intros Hnone. rewrite Angle_getitem_axis, Angle_setitem_axis, Hnone.
    split; reflexivity.
Qed.

(** X15.  [Matrix.from_basis] and [Angle.from_basis] announce "At least two
    vectors must be provided!" only when none is: with exactly one vector
    the missing ones surface as the [AttributeError] of calling [norm] on
    [None] (after the given [x] has been normalised, when it is [x] that is
    given). *)
Theorem from_basis_one_vector (v : Vec) :
  Matrix_from_basis None None None
  = Raise (TypeError "At least two vectors must be provided!")
  /\ Matrix_from_basis None (Some v) None
     = Raise (AttributeError "'NoneType' object has no attribute 'norm'")
  /\ Matrix_from_basis None None (Some v)
     = Raise (AttributeError "'NoneType' object has no attribute 'norm'")
  /\ (forall n, Vec_norm v = Ok n ->
      Matrix_from_basis (Some v) None None
      = Raise (AttributeError "'NoneType' object has no attribute 'norm'"))
  /\ (forall e, Vec_norm v = Raise e ->
      Matrix_from_basis (Some v) None None = Raise e).
Proof.
  repeat split; try reflexivity.
  - intros n Hn. unfold Matrix_from_basis. cbn [bind]. rewrite Hn. reflexivity.
  - intros e He. unfold Matrix_from_basis. cbn [bind]. rewrite He. reflexivity.
Qed.

(** * The entity lump: the terminator and the separator *)

Section EntDataMore.
Context {VMF Entity Output : Type} {ops : VmfOps VMF Entity Output}.

Lemma bytes_eqb_eq (a b : bytes) : bytes_eqb a b = true -> a = b.
Proof.
  unfold bytes_eqb. destruct (list_eq_dec Byte.byte_eq_dec a b); congruence.
Qed.

(** Only the line of the lone NUL makes the loop return. *)
Lemma read_ent_line_Return (line : bytes) (s : ent_state) (vmf : VMF) :
  read_ent_line line s = Ok (Return vmf) ->
  line = [x00] /\ st_cur s = CurNone /\ vmf = st_vmf s.
Proof.
  unfold read_ent_line.
  destruct (bytes_eqb line (bytes_of_string "{")).
  { destruct (st_cur s); try discriminate.
    destruct (negb (st_seen_spawn s)); discriminate. }
  destruct (bytes_eqb line (bytes_of_string "}")).
  { destruct (st_cur s); try discriminate.
    destruct (negb _); discriminate. }
  destruct (bytes_eqb line [x00]) eqn:Hnul.
  { apply bytes_eqb_eq in Hnul.
    destruct (st_cur s); try discriminate.
    intros H. apply Ok_inj in H. injection H as <-. auto. }
  destruct (read_keyvalue line s); cbn [bind]; discriminate.
Qed.

(** X16.  The map version is taken from the world spawn only on the path
    that runs out of lines.  When the lines end with the NUL line (as the
    lump of a BSP does) [read_ent_data] returns at that line: the VMF it
    returns is the one the same lines without the NUL line would give,
    before its [map_ver] is set from the spawn's [mapversion]. *)
Theorem ent_terminator_skips_map_version
    (before : list bytes) (s : ent_state) (vmf : VMF) :
  ~ In [x00] before ->
  read_ent_lines (before ++ [[x00]]) s = Ok vmf ->
  read_ent_lines before s
  = Ok (vmf_with_map_ver vmf
          (conv_int (ent_getitem (vmf_spawn vmf) "mapversion")
                    (vmf_map_ver vmf))).
Proof.
  revert s. induction before as [|line before IH]; intros s Hnul H.
  - cbn [app read_ent_lines] in H.
    destruct (read_ent_line [x00] s) as [[s'|v]|e] eqn:Hline;
      cbn [bind] in H; try discriminate H.
    + exfalso. clear - Hline. unfold read_ent_line in Hline.
      change (bytes_eqb [x00] (bytes_of_string "{")) with false in Hline.
      change (bytes_eqb [x00] (bytes_of_string "}")) with false in Hline.
      change (bytes_eqb [x00] [x00]) with true in Hline. cbv iota in Hline.
      destruct (st_cur s); discriminate Hline.
    + apply Ok_inj in H. subst v.
      apply read_ent_line_Return in Hline as (_ & _ & ->). reflexivity.
  - cbn [app read_ent_lines] in H |- *.
    destruct (read_ent_line line s) as [[s'|v]|e] eqn:Hline;
      cbn [bind] in H |- *; try discriminate H.
    + apply IH; [|exact H]. intros Hin. apply Hnul. right. exact Hin.
    + exfalso. apply read_ent_line_Return in Hline as (-> & _ & _).
      apply Hnul. left. reflexivity.
Qed.
End EntDataMore.

Lemma ent_terminator_skips_map_version_witness :
  ~ In [x00] versioned_spawn_lines
  /\ read_ent_lines (ops := SimpleVmf.ops) (versioned_spawn_lines ++ [[x00]])
       simple_start
     = Ok versioned_vmf
  /\ read_ent_lines (ops := SimpleVmf.ops) versioned_spawn_lines simple_start
     = Ok (vmf_with_map_ver (VmfOps := SimpleVmf.ops) versioned_vmf
             (conv_int (VmfOps := SimpleVmf.ops)
                (ent_getitem (VmfOps := SimpleVmf.ops)
                   (vmf_spawn (VmfOps := SimpleVmf.ops) versioned_vmf)
                   "mapversion")
                (vmf_map_ver (VmfOps := SimpleVmf.ops) versioned_vmf))).
Proof.
  assert (Hnul : ~ In [x00] versioned_spawn_lines).
  { intros H. cbn in H. repeat (destruct H as [H | H]; [discriminate H|]).
    exact H. }
  split; [exact Hnul|]. split; [vm_compute; reflexivity|].
  apply (ent_terminator_skips_map_version (ops := SimpleVmf.ops)
           versioned_spawn_lines simple_start).
  - exact Hnul.
  - vm_compute. reflexivity.
Defined.

(** With the reference classes the difference shows: the map version stays
    0 with the NUL line and is 5 without. *)
Example map_version_with_and_without_nul :
  read_ent_lines (ops := SimpleVmf.ops) (versioned_spawn_lines ++ [[x00]])
    simple_start
  = Ok versioned_vmf
  /\ read_ent_lines (ops := SimpleVmf.ops) versioned_spawn_lines simple_start
     = Ok (SimpleVmf.mkVMF (SimpleVmf.spawn versioned_vmf)
             (SimpleVmf.entities versioned_vmf) 5).
Proof. split; vm_compute; reflexivity. Qed.

Lemma is_prefix_app (sep p tail rest : bytes) :
  (List.length sep <= List.length (p ++ tail))%nat ->
  is_prefix sep (p ++ tail ++ rest) = is_prefix sep (p ++ tail).
Proof.
  intros Hlen. unfold is_prefix. rewrite app_assoc, firstn_app.
  replace (List.length sep - List.length (p ++ tail))%nat with 0%nat by lia.
  cbn [firstn]. rewrite app_nil_r. reflexivity.
Qed.

(** The bytes of a separator that was found are passed over. *)
Lemma split_go_skip (sep l rest cur : bytes) (m : nat) :
  split_go sep (l ++ rest) (List.length l) m cur = split_go sep rest 0 m cur.
Proof.
  induction l as [|d l IH]; [reflexivity|].
  cbn [app List.length split_go]. exact IH.
Qed.

(** The first split is at the first separator. *)
Lemma split_go_first (sep p rest cur : bytes) (m : nat) :
  sep <> [] ->
  no_sep_before sep p sep = true ->
  split_go sep (p ++ sep ++ rest) 0 (S m) cur
  = (rev cur ++ p) :: split_go sep rest 0 m [].
Proof.
  intros Hsep. revert cur. induction p as [|c p IH]; intros cur Hfree.
  - cbn [app]. destruct sep as [|c0 sep]; [congruence|].
    cbn [app split_go].
    assert (Hpre : is_prefix (c0 :: sep) (c0 :: sep ++ rest) = true).
    { unfold is_prefix.
      change (c0 :: sep ++ rest) with ((c0 :: sep) ++ rest).
      rewrite firstn_app, Nat.sub_diag, firstn_all. cbn [firstn].
      rewrite app_nil_r. unfold bytes_eqb.
      destruct (list_eq_dec Byte.byte_eq_dec (c0 :: sep) (c0 :: sep));
        congruence. }
    rewrite Hpre, app_nil_r. f_equal.
    replace (List.length (c0 :: sep) - 1)%nat with (List.length sep)
      by (cbn [List.length]; lia).
    apply split_go_skip.
  - cbn [no_sep_before] in Hfree.
    apply andb_true_iff in Hfree as [Hhere Hfree].
    apply negb_true_iff in Hhere.
    rewrite <- (is_prefix_app sep (c :: p) sep rest) in Hhere
      by (rewrite length_app; lia).
    cbn [app] in Hhere |- *. cbn [split_go].
    rewrite Hhere, (IH (c :: cur) Hfree). cbn [rev].
    rewrite <- app_assoc. reflexivity.
Qed.

(** With no split left the rest is one part. *)
Lemma split_go_rest (sep l cur : bytes) :
  split_go sep l 0 0 cur = [rev cur ++ l].
Proof.
  revert cur. induction l as [|c l IH]; intros cur.
  - cbn [split_go]. rewrite app_nil_r. reflexivity.
  - cbn [split_go]. rewrite IH. cbn [rev]. rewrite <- app_assoc. reflexivity.
Qed.

Lemma bytes_split_three (key a b : bytes) :
  no_sep_before KV_SEP key KV_SEP = true ->
  no_sep_before KV_SEP a KV_SEP = true ->
  bytes_split (key ++ KV_SEP ++ a ++ KV_SEP ++ b) KV_SEP 2 = [key; a; b].
Proof.
  intros Hkey Ha. unfold bytes_split.
  rewrite split_go_first by (try exact Hkey; discriminate).
  rewrite split_go_first by (try exact Ha; discriminate).
  rewrite split_go_rest. reflexivity.
Qed.

Lemma bytes_split_two (key a : bytes) :
  no_sep_before KV_SEP key KV_SEP = true ->
  bytes_split (key ++ KV_SEP ++ a) KV_SEP 1 = [key; a].
Proof.
  intros Hkey. unfold bytes_split.
  rewrite split_go_first by (try exact Hkey; discriminate).
  rewrite split_go_rest. reflexivity.
Qed.

Section EntDataSeparator.
Context {VMF Entity Output : Type} {ops : VmfOps VMF Entity Output}.

(** X17.  A key/value line is split at its first two separators (quote,
    space, quote), and the parts are unpacked into a key and a value: a
    line with a second separator, so a value that contains one, makes
    [read_ent_data] raise ValueError, whatever follows it. *)
Theorem ent_value_with_separator (key a b : bytes) (s : ent_state) :
  no_sep_before KV_SEP key KV_SEP = true ->
  no_sep_before KV_SEP a KV_SEP = true ->
  st_cur s <> CurNone ->
  read_ent_line (key ++ KV_SEP ++ a ++ KV_SEP ++ b) s
  = Raise (ValueError "values to unpack").
Proof.
  intros Hkey Ha Hcur. unfold read_ent_line.
  assert (Hlen : forall c : byte,
             bytes_eqb (key ++ KV_SEP ++ a ++ KV_SEP ++ b) [c] = false).
  { intros c. unfold bytes_eqb.
    destruct (list_eq_dec Byte.byte_eq_dec _ [c]) as [E|]; [|reflexivity].
    apply (f_equal (@List.length byte)) in E.
    rewrite !length_app in E. cbn [List.length KV_SEP] in E. lia. }
  change (bytes_of_string "{") with [x7b].
  change (bytes_of_string "}") with [x7d].
  rewrite !Hlen. unfold read_keyvalue.
  rewrite (bytes_split_three key a b Hkey Ha).
  destruct (st_cur s); [congruence| |]; reflexivity.
Qed.
End EntDataSeparator.

Lemma ent_value_with_separator_witness :
  no_sep_before KV_SEP origin_key KV_SEP = true
  /\ no_sep_before KV_SEP origin_value KV_SEP = true
  /\ st_cur in_spawn <> CurNone
  /\ read_ent_line (ops := SimpleVmf.ops)
       (origin_key ++ KV_SEP ++ origin_value ++ KV_SEP ++ origin_rest)
       in_spawn
     = Raise (ValueError "values to unpack").
Proof.
  split; [reflexivity|]. split; [reflexivity|].
  split; [discriminate|].
  apply (ent_value_with_separator (ops := SimpleVmf.ops)
           origin_key origin_value origin_rest).
  - reflexivity.
  - reflexivity.
  - discriminate.
Defined.

(** Without a quote there is no separator and no escaped quote. *)
Lemma is_prefix_no_quote (l : bytes) :
  ~ In x22 l ->
  is_prefix KV_SEP (l ++ QUOTE) = false.
Proof.
  intros Hq. unfold is_prefix, bytes_eqb.
  destruct (list_eq_dec Byte.byte_eq_dec _ _) as [E|]; [|reflexivity].
  exfalso. destruct l as [|a l]; cbn in E; [discriminate E|].
  injection E as E _. apply Hq. left. exact E.
Qed.

Lemma split_go_no_quote (l cur : bytes) (m : nat) :
  ~ In x22 l ->
  split_go KV_SEP (l ++ QUOTE) 0 m cur = [rev cur ++ l ++ QUOTE].
Proof.
  intros Hq. destruct m as [|m]; [apply split_go_rest|].
  revert cur. induction l as [|c l IH]; intros cur; [reflexivity|].
  cbn [app split_go]. change (c :: l ++ QUOTE) with ((c :: l) ++ QUOTE).
  rewrite (is_prefix_no_quote (c :: l) Hq). rewrite IH by (intros H; apply Hq; right; exact H).
  cbn [rev]. rewrite <- app_assoc. reflexivity.
Qed.

Lemma bytes_replace_go_no_quote (l : bytes) :
  ~ In x22 l ->
  bytes_replace_go ESCAPED_QUOTE QUOTE l 0 = l.
Proof.
  intros Hq. induction l as [|c l IH]; [reflexivity|].
  cbn [bytes_replace_go].
  assert (Hpre : is_prefix ESCAPED_QUOTE (c :: l) = false).
  { unfold is_prefix, bytes_eqb.
    destruct (list_eq_dec Byte.byte_eq_dec _ _) as [E|]; [|reflexivity].
    exfalso. destruct l as [|b l]; cbn in E; try discriminate E.
    injection E as _ E. apply Hq. right. left. exact E. }
  rewrite Hpre, IH by (intros H; apply Hq; right; exact H). reflexivity.
Qed.

Lemma byte_in_app_quote (n : Z) (l : bytes) :
  n <> 0x22 -> byte_in n (l ++ QUOTE) = byte_in n l.
Proof.
  intros Hn. unfold byte_in. rewrite existsb_app. cbn [existsb QUOTE].
  change (byte_to_Z x22) with 0x22.
  destruct (Z.eqb_spec 0x22 n); [congruence|].
  rewrite !orb_false_r. reflexivity.
Qed.

Lemma bytes_count_app_quote (l : bytes) (c : byte) :
  byte_to_Z c <> 0x22 -> bytes_count (l ++ QUOTE) c = bytes_count l c.
Proof.
  intros Hn. unfold bytes_count, len. rewrite filter_app. cbn [filter QUOTE].
  change (byte_to_Z x22) with 0x22.
  destruct (Z.eqb_spec 0x22 (byte_to_Z c)); [congruence|].
  rewrite app_nil_r. reflexivity.
Qed.

Section EntDataPlain.
Context {VMF Entity Output : Type} {ops : VmfOps VMF Entity Output}.

(** X18.  A line made of a quoted ASCII key, the separator and a quoted
    ASCII value is stored in the current entity as that key with that
    value, when the value holds no quote, no byte 0x1B and another number
    of commas than four: no output is parsed, and nothing of the key or the
    value is lost or changed. *)
Theorem ent_plain_keyvalue_is_stored (k v : bytes) (s : ent_state) :
  no_sep_before KV_SEP (QUOTE ++ k) KV_SEP = true ->
  ~ In x22 v ->
  byte_in 0x1b v = false ->
  bytes_count v ","%byte <> 4 ->
  bytes_isascii k = true ->
  bytes_isascii v = true ->
  st_cur s <> CurNone ->
  read_ent_line (QUOTE ++ k ++ KV_SEP ++ v ++ QUOTE) s
  = (s' <- update_cur s
             (fun e => ent_setitem e (string_of_list_byte k)
                                   (string_of_list_byte v)) ;;
     Ok (Next s')).
Proof.
  intros Hkey Hq Hesc Hcount Hk Hv Hcur. unfold read_ent_line.
  assert (Hlen : forall c : byte,
             bytes_eqb (QUOTE ++ k ++ KV_SEP ++ v ++ QUOTE) [c] = false).
  { intros c. unfold bytes_eqb.
    destruct (list_eq_dec Byte.byte_eq_dec _ [c]) as [E|]; [|reflexivity].
    apply (f_equal (@List.length byte)) in E.
    rewrite !length_app in E. cbn [List.length KV_SEP QUOTE] in E. lia. }
  change (bytes_of_string "{") with [x7b].
  change (bytes_of_string "}") with [x7d].
  rewrite !Hlen.
  assert (Hsplit : bytes_split (QUOTE ++ k ++ KV_SEP ++ v ++ QUOTE) KV_SEP 2
                   = [QUOTE ++ k; v ++ QUOTE]).
  { unfold bytes_split. rewrite (app_assoc QUOTE k).
    rewrite split_go_first by (try exact Hkey; discriminate).
    rewrite (split_go_no_quote v [] 1 Hq). reflexivity. }
  rewrite (read_keyvalue_dispatch _ (QUOTE ++ k) (v ++ QUOTE)
             (string_of_list_byte k) (string_of_list_byte v) s Hcur Hsplit).
  - rewrite (byte_in_app_quote 0x1b v) by discriminate. rewrite Hesc.
    rewrite (bytes_count_app_quote v ","%byte) by discriminate.
    apply Z.eqb_neq in Hcount. rewrite Hcount. reflexivity.
  - cbn [QUOTE app drop_first tl]. unfold decode_ascii.
    unfold bytes_isascii in Hk. rewrite Hk. reflexivity.
  - unfold drop_last, QUOTE. rewrite removelast_last.
    unfold bytes_replace. fold QUOTE.
    rewrite (bytes_replace_go_no_quote v Hq).
    unfold decode_ascii. unfold bytes_isascii in Hv. rewrite Hv. reflexivity.
Qed.
End EntDataPlain.

Lemma ent_plain_keyvalue_is_stored_witness :
  no_sep_before KV_SEP (QUOTE ++ origin_name) KV_SEP = true
  /\ ~ In x22 origin_value
  /\ byte_in 0x1b origin_value = false
  /\ bytes_count origin_value ","%byte <> 4
  /\ bytes_isascii origin_name = true
  /\ bytes_isascii origin_value = true
  /\ st_cur in_spawn <> CurNone
  /\ read_ent_line (ops := SimpleVmf.ops)
       (QUOTE ++ origin_name ++ KV_SEP ++ origin_value ++ QUOTE) in_spawn
     = (s' <- update_cur (ops := SimpleVmf.ops) in_spawn
                (fun e => ent_setitem (VmfOps := SimpleVmf.ops) e
                            (string_of_list_byte origin_name)
                            (string_of_list_byte origin_value)) ;;
        Ok (Next s')).
Proof.
  assert (Hq : ~ In x22 origin_value).
  { intros H. cbn in H. repeat (destruct H as [H | H]; [discriminate H|]).
    exact H. }
  split; [reflexivity|]. split; [exact Hq|]. split; [reflexivity|].
  split; [discriminate|]. split; [reflexivity|]. split; [reflexivity|].
  split; [discriminate|].
  apply (ent_plain_keyvalue_is_stored (ops := SimpleVmf.ops)
           origin_name origin_value in_spawn).
  - reflexivity.
  - exact Hq.
  - reflexivity.
  - discriminate.
  - reflexivity.
  - reflexivity.
  - discriminate.
Defined.

(** * [BSP.read]: the lump directory *)

(** ** Reading a record at a position *)

Lemma struct_read_inv (fmt : string) (its : list item) (f f' : File)
    (vals : list pyval) :
  Struct.parse fmt = Ok its ->
  (0 < Struct.items_size its)%nat ->
  0 <= pos f ->
  struct_read fmt f = Ok (vals, f') ->
  contents f' = contents f
  /\ pos f' = pos f + Z.of_nat (Struct.items_size its)
  /\ pos f' <= len (contents f)
  /\ vals = Struct.unpack_items its
              (bytes_at (contents f) (pos f) (Struct.items_size its)).
Proof.
  intros Hparse Hsize Hpos.
  unfold struct_read, Struct.calcsize, Struct.unpack.
  rewrite Hparse, !bind_ret. unfold file_read.
  destruct (Z.ltb_spec (Z.of_nat (Struct.items_size its)) (-1)) as [?|_];
    [lia|].
  destruct (Z.eqb_spec (Z.of_nat (Struct.items_size its)) (-1)) as [?|_];
    [lia|].
  cbn [bind]. rewrite Nat2Z.id.
  destruct (Nat.eqb_spec
              (List.length (firstn (Struct.items_size its)
                              (skipn (Z.to_nat (pos f)) (contents f))))
              (Struct.items_size its)) as [Hlen|]; [|discriminate].
  intros H. apply Ok_inj in H. injection H as <- <-.
  cbn [contents pos]. unfold len. rewrite Hlen.
  rewrite length_firstn, length_skipn in Hlen. apply Nat.min_l_iff in Hlen.
  repeat split; try reflexivity; lia.
Qed.

Lemma bytes_at_sub (c : bytes) (off : Z) (n : nat) (a m : nat) :
  0 <= off -> (a + m <= n)%nat ->
  firstn m (skipn a (bytes_at c off n)) = bytes_at c (off + Z.of_nat a) m.
Proof.
  intros Hoff Ham. unfold bytes_at.
  rewrite skipn_firstn_comm, firstn_firstn, skipn_skipn.
  replace (Nat.min m (n - a)) with m by lia.
  replace (Z.to_nat (off + Z.of_nat a)) with (a + Z.to_nat off)%nat by lia.
  reflexivity.
Qed.

(** One directory entry, decoded. *)
Lemma read_directory_entry (f f' : File) (vals : list pyval) :
  0 <= pos f ->
  struct_read HEADER_LUMP f = Ok (vals, f') ->
  contents f' = contents f
  /\ pos f' = pos f + 16
  /\ pos f' <= len (contents f)
  /\ vals = [PInt (le_signed (bytes_at (contents f) (pos f) 4));
             PInt (le_signed (bytes_at (contents f) (pos f + 4) 4));
             PInt (le_signed (bytes_at (contents f) (pos f + 8) 4));
             PBytes (bytes_at (contents f) (pos f + 12) 4)].
Proof.
  intros Hpos H.
  apply (struct_read_inv HEADER_LUMP
           [IInt true 4; IInt true 4; IInt true 4; IStr 4]) in H;
    [|reflexivity|cbn; lia|exact Hpos].
  destruct H as (Hc & Hp & Hle & ->).
  repeat split; try assumption.
  cbn [Struct.unpack_items Struct.unpack_item Struct.item_size app].
  change (Struct.items_size [IInt true 4; IInt true 4; IInt true 4; IStr 4])
    with 16%nat.
  rewrite !skipn_skipn. cbn [Nat.add].
  rewrite (bytes_at_sub _ (pos f) 16 4 4), (bytes_at_sub _ (pos f) 16 8 4),
    (bytes_at_sub _ (pos f) 16 12 4) by lia.
  unfold bytes_at at 1. rewrite firstn_firstn. reflexivity.
Qed.

(** ** The lumps of the enumeration *)

Lemma nth_error_all_lumps (l : BSP_LUMPS) :
  nth_error all_lumps (Z.to_nat (lump_value l)) = Some l.
Proof. destruct l; reflexivity. Qed.

Lemma lump_value_range (l : BSP_LUMPS) : 0 <= lump_value l < 64.
Proof. destruct l; cbn; lia. Qed.

Lemma lump_value_inj (a b : BSP_LUMPS) : lump_value a = lump_value b -> a = b.
Proof.
  intros H. pose proof (nth_error_all_lumps a) as Ha.
  rewrite H, nth_error_all_lumps in Ha. congruence.
Qed.

Lemma lump_eqb_eq (a b : BSP_LUMPS) : lump_eqb a b = true <-> a = b.
Proof.
  unfold lump_eqb. rewrite Z.eqb_eq. split; [apply lump_value_inj|congruence].
Qed.

Lemma BSP_LUMPS_of_value_inv (n : Z) (l : BSP_LUMPS) :
  BSP_LUMPS_of_value n = Ok l -> lump_value l = n.
Proof.
  unfold BSP_LUMPS_of_value.
  destruct (find _ all_lumps) as [l'|] eqn:E; [|discriminate].
  intros H. apply Ok_inj in H. subst l'.
  apply find_some in E. destruct E as [_ E]. apply Z.eqb_eq in E. exact E.
Qed.

Lemma In_all_lumps (l : BSP_LUMPS) : In l all_lumps.
Proof. apply (nth_error_In _ _ (nth_error_all_lumps l)). Qed.

Lemma all_lumps_split (l : BSP_LUMPS) :
  all_lumps
  = firstn (Z.to_nat (lump_value l)) all_lumps
    ++ l :: skipn (S (Z.to_nat (lump_value l))) all_lumps.
Proof. destruct l; reflexivity. Qed.

Lemma nth_error_all_lumps_inv (i : nat) (l : BSP_LUMPS) :
  nth_error all_lumps i = Some l -> lump_value l = Z.of_nat i.
Proof.
  intros H.
  do 64 (destruct i as [|i];
         [cbn in H; injection H as <-; reflexivity|]).
  cbn in H. destruct i; discriminate H.
Qed.

Lemma firstn_all_lumps_value (l : BSP_LUMPS) (k : nat) :
  In l (firstn k all_lumps) -> lump_value l < Z.of_nat k.
Proof.
  intros H. apply In_nth_error in H. destruct H as [i H].
  assert (Hi : (i < k)%nat).
  { assert (Hs : nth_error (firstn k all_lumps) i <> None) by congruence.
    apply nth_error_Some in Hs. rewrite length_firstn in Hs. lia. }
  rewrite nth_error_firstn in H.
  destruct (Nat.ltb_spec i k); [|lia].
  apply nth_error_all_lumps_inv in H. lia.
Qed.

(** ** Dictionaries with distinct keys *)

Section DictFacts.
Context {K V : Type} (eqb : K -> K -> bool).

Lemma dict_set_new (d : list (K * V)) (k : K) (v : V) :
  (forall e, In e d -> eqb k (fst e) = false) ->
  dict_set eqb d k v = d ++ [(k, v)].
Proof.
  induction d as [|[k' v'] d IH]; intros H; [reflexivity|].
  cbn [dict_set app].
  pose proof (H (k', v') (or_introl eq_refl)) as Hk. cbn [fst] in Hk.
  rewrite Hk.
  rewrite IH by (intros e He; apply H; right; exact He). reflexivity.
Qed.

Lemma dict_set_mid (pre post : list (K * V)) (k k' : K) (v v' : V) :
  (forall e, In e pre -> eqb k (fst e) = false) ->
  eqb k k' = true ->
  dict_set eqb (pre ++ (k', v') :: post) k v = pre ++ (k', v) :: post.
Proof.
  induction pre as [|[k0 v0] pre IH]; intros H Hk.
  - cbn [dict_set app]. rewrite Hk. reflexivity.
  - cbn [dict_set app].
    pose proof (H (k0, v0) (or_introl eq_refl)) as Hk0. cbn [fst] in Hk0.
    rewrite Hk0.
    rewrite IH by (try exact Hk; intros e He; apply H; right; exact He).
    reflexivity.
Qed.

Lemma dict_get_mid (pre post : list (K * V)) (k k' : K) (v' : V) :
  (forall e, In e pre -> eqb k (fst e) = false) ->
  eqb k k' = true ->
  dict_get eqb (pre ++ (k', v') :: post) k = Some v'.
Proof.
  induction pre as [|[k0 v0] pre IH]; intros H Hk.
  - cbn [dict_get app]. rewrite Hk. reflexivity.
  - cbn [dict_get app].
    pose proof (H (k0, v0) (or_introl eq_refl)) as Hk0. cbn [fst] in Hk0.
    rewrite Hk0.
    apply IH; [|exact Hk]. intros e He. apply H. right. exact He.
Qed.
End DictFacts.

Lemma firstn_S_nth_error {A} (xs : list A) (k : nat) (x : A) :
  nth_error xs k = Some x -> firstn (S k) xs = firstn k xs ++ [x].
Proof.
  revert k. induction xs as [|a xs IH]; intros [|k] H; try discriminate H.
  - cbn in H. injection H as ->. reflexivity.
  - cbn [firstn app]. f_equal. apply IH. exact H.
Qed.

Lemma NoDup_all_lumps : NoDup all_lumps.
Proof.
  apply NoDup_nth_error. intros i j Hi Hij.
  destruct (nth_error all_lumps i) as [l|] eqn:Ei.
  - symmetry in Hij. apply nth_error_all_lumps_inv in Ei, Hij. lia.
  - apply nth_error_None in Ei. lia.
Qed.

(** A dictionary with one entry per lump, in the order of the enumeration,
    has every lump. *)
Lemma dict_get_all_lumps {V} (h : BSP_LUMPS -> BSP_LUMPS * V) (l : BSP_LUMPS) :
  (forall x, fst (h x) = x) ->
  dict_get lump_eqb (map h all_lumps) l = Some (snd (h l)).
Proof.
  intros Hh. rewrite (all_lumps_split l) at 1. rewrite map_app. cbn [map].
  rewrite (surjective_pairing (h l)), Hh.
  apply dict_get_mid.
  - intros e He. apply in_map_iff in He. destruct He as [x [<- Hx]].
    rewrite Hh. apply firstn_all_lumps_value in Hx.
    unfold lump_eqb. apply Z.eqb_neq. pose proof (lump_value_range l). lia.
  - apply lump_eqb_eq. reflexivity.
Qed.

Lemma keys_before_differ {V} (h : BSP_LUMPS -> BSP_LUMPS * V)
    (done : list BSP_LUMPS) (x : BSP_LUMPS) :
  (forall y, fst (h y) = y) ->
  ~ In x done ->
  forall e, In e (map h done) -> lump_eqb x (fst e) = false.
Proof.
  intros Hh Hx e He. apply in_map_iff in He. destruct He as [y [<- Hy]].
  rewrite Hh. destruct (lump_eqb x y) eqn:E; [|reflexivity].
  apply lump_eqb_eq in E. subst y. contradiction.
Qed.

(** ** The loop over the directory *)

Lemma read_lump_headers (c : bytes) :
  forall (n k : nat) (f : File) st',
  (k + n <= 64)%nat ->
  contents f = c ->
  pos f = 8 + 16 * Z.of_nat k ->
  for_each (map Z.of_nat (seq k n)) read_lump_header
    (map (dir_lump c) (firstn k all_lumps),
     map (dir_offsets c) (firstn k all_lumps), f) = Ok st' ->
  exists f',
    st' = (map (dir_lump c) (firstn (k + n) all_lumps),
           map (dir_offsets c) (firstn (k + n) all_lumps), f')
    /\ contents f' = c
    /\ pos f' = 8 + 16 * Z.of_nat (k + n)
    /\ ((0 < n)%nat -> pos f' <= len c).
Proof.
  induction n as [|n IH]; intros k f st' Hk Hc Hp H.
  - cbn [seq map for_each] in H. apply Ok_inj in H. subst st'.
    exists f. rewrite Nat.add_0_r. repeat split; try assumption. lia.
  - cbn [seq map for_each] in H. inv_bind H.
    unfold read_lump_header in Ha. inv_bind Ha. destruct a0 as [vals f1].
    apply read_directory_entry in Ha0; [|lia].
    destruct Ha0 as (Hc1 & Hp1 & Hle1 & ->).
    inv_bind Ha. rename a0 into l. apply Ok_inj in Ha. subst a.
    apply BSP_LUMPS_of_value_inv in Ha0.
    assert (Hl : firstn (S k) all_lumps = firstn k all_lumps ++ [l]).
    { apply firstn_S_nth_error. rewrite <- (Nat2Z.id k), <- Ha0.
      apply nth_error_all_lumps. }
    assert (Hnew : forall V (h : BSP_LUMPS -> BSP_LUMPS * V),
               (forall x, fst (h x) = x) ->
               forall e, In e (map h (firstn k all_lumps)) ->
                         lump_eqb l (fst e) = false).
    { intros V h Hh e He. apply in_map_iff in He. destruct He as [x [<- Hx]].
      rewrite Hh. apply firstn_all_lumps_value in Hx.
      unfold lump_eqb. apply Z.eqb_neq. lia. }
    rewrite !dict_set_new in H
      by (apply Hnew; intros x; reflexivity).
    replace (Lump_init l (le_signed (bytes_at (contents f) (pos f + 8) 4))
               (bytes_at (contents f) (pos f + 12) 4))
      with (snd (dir_lump c l)) in H
      by (unfold dir_lump, dir_version, dir_ident; cbn [snd];
          rewrite Hc, Hp, Ha0; reflexivity).
    replace (le_signed (bytes_at (contents f) (pos f) 4),
             le_signed (bytes_at (contents f) (pos f + 4) 4))
      with (snd (dir_offsets c l)) in H
      by (unfold dir_offsets, dir_offset, dir_length; cbn [snd];
          rewrite Hc, Hp, Ha0; reflexivity).
    change (l, snd (dir_lump c l)) with (dir_lump c l) in H.
    change (l, snd (dir_offsets c l)) with (dir_offsets c l) in H.
    change [dir_lump c l] with (map (dir_lump c) [l]) in H.
    change [dir_offsets c l] with (map (dir_offsets c) [l]) in H.
    rewrite <- !map_app, <- Hl in H.
    apply IH in H; [|lia|congruence|lia].
    destruct H as (f' & -> & Hc' & Hp' & Hle').
    exists f'. replace (k + S n)%nat with (S k + n)%nat by lia.
    repeat split; try assumption.
    intros _. destruct n as [|n]; [|apply Hle'; lia].
    cbn [seq map for_each] in *. rewrite Hp'.
    rewrite Hp1, Hp, Hc in Hle1. lia.
Qed.

(** ** The loop that reads the data of the lumps *)

Lemma fst_dir_lump (c : bytes) (l : BSP_LUMPS) : fst (dir_lump c l) = l.
Proof. reflexivity. Qed.

Lemma fst_dir_offsets (c : bytes) (l : BSP_LUMPS) : fst (dir_offsets c l) = l.
Proof. reflexivity. Qed.

Lemma fst_read_lump (c : bytes) (l : BSP_LUMPS) : fst (read_lump c l) = l.
Proof. reflexivity. Qed.

Lemma read_lump_datas (c : bytes) :
  forall (rest done : list BSP_LUMPS) (f : File) st',
  done ++ rest = all_lumps ->
  contents f = c ->
  for_each (map (dir_lump c) rest)
    (read_lump_data (map (dir_offsets c) all_lumps))
    (map (read_lump c) done ++ map (dir_lump c) rest, f) = Ok st' ->
  exists f',
    st' = (map (read_lump c) all_lumps, f')
    /\ contents f' = c
    /\ forall l, In l rest -> 0 <= dir_offset c l /\ -1 <= dir_length c l.
Proof.
  induction rest as [|x rest IH]; intros done f st' Hall Hc H.
  - cbn [map for_each] in H. apply Ok_inj in H. subst st'.
    exists f. rewrite !app_nil_r in *. subst done.
    repeat split; try assumption; destruct H.
  - assert (Hx : ~ In x done).
    { pose proof NoDup_all_lumps as Hnd. rewrite <- Hall in Hnd.
      apply NoDup_remove_2 in Hnd. intros Hin. apply Hnd.
      apply in_or_app. left. exact Hin. }
    cbn [map for_each] in H. inv_bind H.
    unfold read_lump_data in Ha.
    change (dir_lump c x) with (x, snd (dir_lump c x)) in Ha.
    cbn [fst] in Ha.
    change (lump_type (snd (x, snd (dir_lump c x)))) with x in Ha.
    unfold dict_lookup in Ha.
    rewrite (dict_get_all_lumps (dir_offsets c) x (fst_dir_offsets c)) in Ha.
    cbn [dir_offsets snd bind] in Ha.
    unfold file_seek in Ha.
    destruct (Z.ltb_spec (dir_offset c x) 0) as [|Hoff]; [discriminate Ha|].
    cbn [bind] in Ha. unfold file_read in Ha. cbn [contents pos] in Ha.
    destruct (Z.ltb_spec (dir_length c x) (-1)) as [|Hlen]; [discriminate Ha|].
    cbn [bind] in Ha.
    rewrite (dict_set_mid lump_eqb (map (read_lump c) done)
               (map (dir_lump c) rest) x x) in Ha;
      [|apply (keys_before_differ (read_lump c) done x (fst_read_lump c) Hx)
       |apply lump_eqb_eq; reflexivity].
    rewrite Hc in Ha. apply Ok_inj in Ha. subst a.
    match type of H with
    | for_each _ _ (_, ?ff) = _ =>
        assert (H' : for_each (map (dir_lump c) rest)
                       (read_lump_data (map (dir_offsets c) all_lumps))
                       (map (read_lump c) (done ++ [x])
                          ++ map (dir_lump c) rest, ff) = Ok st')
          by (rewrite map_app, <- app_assoc; exact H)
    end.
    clear H. rename H' into H.
    apply IH in H; [|rewrite <- app_assoc; exact Hall|reflexivity].
    destruct H as (f' & -> & Hc' & Hrest).
    exists f'. repeat split; try assumption;
      destruct H as [<-|H]; try lia; apply Hrest; exact H.
Qed.

(** ** What a successful read has seen *)

Lemma read_header_1 (f f' : File) (vals : list pyval) :
  pos f = 0 ->
  struct_read HEADER_1 f = Ok (vals, f') ->
  contents f' = contents f
  /\ pos f' = 8
  /\ 8 <= len (contents f)
  /\ vals = [PBytes (bytes_at (contents f) 0 4);
             PInt (le_signed (bytes_at (contents f) 4 4))].
Proof.
  intros Hpos H.
  apply (struct_read_inv HEADER_1 [IStr 4; IInt true 4]) in H;
    [|reflexivity|cbn; lia|lia].
  destruct H as (Hc & Hp & Hle & ->). rewrite Hpos in *.
  repeat split; try assumption; [rewrite Hp in Hle; exact Hle|].
  cbn [Struct.unpack_items Struct.unpack_item Struct.item_size app].
  change (Struct.items_size [IStr 4; IInt true 4]) with 8%nat.
  rewrite (bytes_at_sub _ 0 8 4 4) by lia.
  unfold bytes_at at 1. rewrite firstn_firstn. reflexivity.
Qed.

Lemma read_header_2 (f f' : File) (vals : list pyval) :
  0 <= pos f ->
  struct_read HEADER_2 f = Ok (vals, f') ->
  contents f' = contents f
  /\ pos f' = pos f + 4
  /\ pos f' <= len (contents f)
  /\ vals = [PInt (le_signed (bytes_at (contents f) (pos f) 4))].
Proof.
  intros Hpos H.
  apply (struct_read_inv HEADER_2 [IInt true 4]) in H;
    [|reflexivity|cbn; lia|lia].
  destruct H as (Hc & Hp & Hle & ->).
  repeat split; try assumption.
  cbn [Struct.unpack_items Struct.unpack_item Struct.item_size app].
  change (Struct.items_size [IInt true 4]) with 4%nat.
  unfold bytes_at. rewrite firstn_firstn. reflexivity.
Qed.

(** The lumps [read] leaves: the data of the game lump is dropped. *)
Lemma dict_set_game_lump (h : BSP_LUMPS -> Lump) (g : Lump -> Lump) :
  dict_set lump_eqb (map (fun l => (l, h l)) all_lumps) GAME_LUMP
    (g (h GAME_LUMP))
  = map (fun l => if lump_eqb l GAME_LUMP then (l, g (h l)) else (l, h l))
        all_lumps.
Proof. reflexivity. Qed.

Lemma range_LUMP_COUNT : range LUMP_COUNT = map Z.of_nat (seq 0 64).
Proof. vm_compute. reflexivity. Qed.

Lemma read_directory (c : bytes) (f : File) st' :
  contents f = c ->
  pos f = 8 ->
  for_each (range LUMP_COUNT) read_lump_header ([], [], f) = Ok st' ->
  exists f',
    st' = (map (dir_lump c) all_lumps, map (dir_offsets c) all_lumps, f')
    /\ contents f' = c
    /\ pos f' = 1032.
Proof.
  intros Hc Hp H. rewrite range_LUMP_COUNT in H.
  apply (read_lump_headers c 64 0 f) in H; [|lia|exact Hc|exact Hp].
  destruct H as (f' & Hst & Hc' & Hp' & _).
  exists f'. repeat split; assumption.
Qed.

Lemma read_all_lump_data (c : bytes) (f : File) st' :
  contents f = c ->
  for_each (map (dir_lump c) all_lumps)
    (read_lump_data (map (dir_offsets c) all_lumps))
    (map (dir_lump c) all_lumps, f) = Ok st' ->
  exists f',
    st' = (map (read_lump c) all_lumps, f')
    /\ contents f' = c
    /\ forall l, 0 <= dir_offset c l /\ -1 <= dir_length c l.
Proof.
  intros Hc H.
  apply (read_lump_datas c all_lumps [] f) in H; [|reflexivity|exact Hc].
  destruct H as (f' & Hst & Hc' & Hdir).
  exists f'. repeat split; try assumption; apply Hdir; apply In_all_lumps.
Qed.

Lemma BSP_read_inv (sv : version_t) (c : bytes) (bsp : BSP) :
  BSP_read sv c = Ok bsp ->
  bytes_at c 0 4 = BSP_MAGIC
  /\ read_version sv (le_signed (bytes_at c 4 4)) = Ok (version bsp)
  /\ 1036 <= len c
  /\ map_revision bsp = le_signed (bytes_at c 1032 4)
  /\ (forall l, 0 <= dir_offset c l /\ -1 <= dir_length c l)
  /\ lumps bsp
     = map (fun l => if lump_eqb l GAME_LUMP
                     then (l, Lump_with_data (snd (read_lump c l)) [])
                     else read_lump c l) all_lumps.
Proof.
  unfold BSP_read. intros H.
  inv_bind H. destruct a as [vals f1].
  apply read_header_1 in Ha; [|reflexivity].
  cbn [file_open contents] in Ha. destruct Ha as (Hc1 & Hp1 & _ & ->).
  inv_bind H.
  destruct (bytes_eqb (bytes_at c 0 4) BSP_MAGIC) eqn:Hmagic;
    [|discriminate Ha].
  apply bytes_eqb_eq in Hmagic. clear Ha a.
  inv_bind H. rename a into v. rename Ha into Hv.
  inv_bind H. destruct a as [[ls offs] f2].
  apply (read_directory c f1) in Ha; [|exact Hc1|exact Hp1].
  destruct Ha as (f2' & Hst & Hc2 & Hp2).
  apply pair_equal_spec in Hst. destruct Hst as [Hst <-].
  apply pair_equal_spec in Hst. destruct Hst as [-> ->].
  inv_bind H. destruct a as [vals f3].
  apply read_header_2 in Ha; [|lia].
  destruct Ha as (Hc3 & Hp3 & Hle3 & ->).
  inv_bind H. destruct a as [ls f4].
  apply (read_all_lump_data c f3) in Ha; [|congruence].
  destruct Ha as (f4' & Hst & Hc4 & Hdir).
  apply pair_equal_spec in Hst. destruct Hst as [-> <-].
  inv_bind H. rename a into game_lump.
  unfold dict_lookup in Ha.
  rewrite (dict_get_all_lumps (read_lump c) GAME_LUMP (fst_read_lump c)) in Ha.
  apply Ok_inj in Ha. subst game_lump.
  inv_bind H.
  destruct a as [|[cnt| | |] [|? ?]]; try discriminate H.
  inv_bind H. destruct a as [[off gls] f5].
  apply Ok_inj in H. subst bsp. cbn [version map_revision lumps].
  rewrite Hc2, Hp2.
  split; [exact Hmagic|]. split; [exact Hv|].
  split; [rewrite Hc2, Hp3, Hp2 in Hle3; lia|].
  split; [reflexivity|]. split; [exact Hdir|].
  apply (dict_set_game_lump (fun l => snd (read_lump c l))
           (fun l => Lump_with_data l [])).
Qed.

(** X19.  After a successful [read] every one of the 64 lumps is there, so
    [get_lump] cannot fail.  For any lump but the game lump it returns the
    bytes of the file that the lump's directory entry names: from the
    entry's offset on, as many bytes as its length says and the file has
    (all that follow for the length -1).  For the game lump, whose data
    was taken apart into [game_lumps], it returns the empty bytes. *)
Theorem bsp_read_lump_data (sv : version_t) (c : bytes) (bsp : BSP) :
  BSP_read sv c = Ok bsp ->
  forall l,
    get_lump bsp l
    = Ok (if lump_eqb l GAME_LUMP then []
          else file_slice c (dir_offset c l) (dir_length c l)).
Proof.
  intros H l. apply BSP_read_inv in H.
  destruct H as (_ & _ & _ & _ & _ & Hlumps).
  unfold get_lump, dict_lookup. rewrite Hlumps.
  rewrite (dict_get_all_lumps
             (fun l => if lump_eqb l GAME_LUMP
                       then (l, Lump_with_data (snd (read_lump c l)) [])
                       else read_lump c l) l)
    by (intros x; destruct (lump_eqb x GAME_LUMP); reflexivity).
  cbn [bind]. destruct (lump_eqb l GAME_LUMP); reflexivity.
Qed.

Lemma bsp_read_lump_data_witness :
  BSP_read VNone minimal_bsp = Ok minimal_BSP
  /\ forall l,
       get_lump minimal_BSP l
       = Ok (if lump_eqb l GAME_LUMP then []
             else file_slice minimal_bsp (dir_offset minimal_bsp l)
                    (dir_length minimal_bsp l)).
Proof.
  assert (H : BSP_read VNone minimal_bsp = Ok minimal_BSP)
    by (vm_compute; reflexivity).
  split; [exact H|].
  exact (bsp_read_lump_data VNone minimal_bsp minimal_BSP H).
Defined.

(** X20.  [read] accepts no file without the magic at its start, none
    shorter than the 1036 bytes of the header (magic, version, 64 directory
    entries, map revision), and none with a negative offset or a length
    below -1 in its directory.  The map revision it stores is the int that
    follows the directory, and the version it stores is the one
    [read_version] makes of the int that follows the magic. *)
Theorem bsp_read_header (sv : version_t) (c : bytes) (bsp : BSP) :
  BSP_read sv c = Ok bsp ->
  bytes_at c 0 4 = BSP_MAGIC
  /\ 1036 <= len c
  /\ (forall l, 0 <= dir_offset c l /\ -1 <= dir_length c l)
  /\ map_revision bsp = le_signed (bytes_at c 1032 4)
  /\ read_version sv (le_signed (bytes_at c 4 4)) = Ok (version bsp).
Proof.
  intros H. apply BSP_read_inv in H.
  destruct H as (Hmagic & Hv & Hlen & Hrev & Hdir & _).
  repeat split; try assumption; apply Hdir.
Qed.

Lemma bsp_read_header_witness :
  BSP_read VNone minimal_bsp = Ok minimal_BSP
  /\ bytes_at minimal_bsp 0 4 = BSP_MAGIC
  /\ 1036 <= len minimal_bsp
  /\ (forall l, 0 <= dir_offset minimal_bsp l /\ -1 <= dir_length minimal_bsp l)
  /\ map_revision minimal_BSP = le_signed (bytes_at minimal_bsp 1032 4)
  /\ read_version VNone (le_signed (bytes_at minimal_bsp 4 4))
     = Ok (version minimal_BSP).
Proof.
  assert (H : BSP_read VNone minimal_bsp = Ok minimal_BSP)
    by (vm_compute; reflexivity).
  split; [exact H|].
  exact (bsp_read_header VNone minimal_bsp minimal_BSP H).
Defined.

(** * Texture names *)

Lemma py_index_nth_error {A} (l : list A) (i : nat) (a : A) :
  nth_error l i = Some a -> py_index l (Z.of_nat i) = Ok a.
Proof.
  intros H. unfold py_index.
  destruct (Z.ltb_spec (Z.of_nat i) 0); [lia|].
  destruct (Z.ltb_spec (Z.of_nat i) 0); [lia|].
  rewrite Nat2Z.id, H. reflexivity.
Qed.

Lemma py_index_past_end {A} (l : list A) (i : nat) :
  (List.length l <= i)%nat -> py_index l (Z.of_nat i) = Raise IndexError.
Proof.
  intros H. unfold py_index.
  destruct (Z.ltb_spec (Z.of_nat i) 0); [lia|].
  destruct (Z.ltb_spec (Z.of_nat i) 0); [lia|].
  rewrite Nat2Z.id. apply nth_error_None in H. rewrite H. reflexivity.
Qed.

Lemma py_index_app_nth {A} (pre l : list A) (k : nat) (a : A) :
  nth_error l k = Some a -> py_index (pre ++ l) (len pre + Z.of_nat k) = Ok a.
Proof.
  intros H. unfold len. rewrite <- Nat2Z.inj_add.
  apply py_index_nth_error. rewrite nth_error_app2 by lia.
  replace (List.length pre + k - List.length pre)%nat with k by lia.
  exact H.
Qed.

Lemma py_index_app_past {A} (pre l : list A) (k : nat) :
  (List.length l <= k)%nat ->
  py_index (pre ++ l) (len pre + Z.of_nat k) = Raise IndexError.
Proof.
  intros H. unfold len. rewrite <- Nat2Z.inj_add.
  apply py_index_past_end. rewrite length_app. lia.
Qed.

Lemma byte_in_zero_nth (name : bytes) (k : nat) (b : byte) :
  byte_in 0 name = false -> nth_error name k = Some b ->
  (byte_to_Z b =? 0) = false.
Proof.
  unfold byte_in. intros Hz Hk. apply nth_error_In in Hk.
  destruct (byte_to_Z b =? 0) eqn:E; [|reflexivity].
  assert (Hex : existsb (fun c => byte_to_Z c =? 0) name = true)
    by (apply existsb_exists; exists b; split; assumption).
  congruence.
Qed.

(** The search over the positions [start + k], [start + k + 1], ... of a
    data block that holds [name] at [start]. *)
Lemma texture_name_end_found (pre name rest : bytes) :
  byte_in 0 name = false ->
  forall (n k : nat),
  (k <= List.length name)%nat ->
  (List.length name - k < n)%nat ->
  texture_name_end (pre ++ name ++ x00 :: rest)
    (map (fun i => len pre + Z.of_nat i) (seq k n))
  = Ok (Some (len pre + len name)).
Proof.
  intros Hz. induction n as [|n IH]; intros k Hk Hn; [lia|].
  cbn [seq map texture_name_end].
  destruct (Nat.eq_dec k (List.length name)) as [->|Hne].
  - rewrite (py_index_app_nth pre _ _ x00)
      by (rewrite nth_error_app2 by lia; rewrite Nat.sub_diag; reflexivity).
    cbn [bind]. change (byte_to_Z x00 =? 0) with true. reflexivity.
  - destruct (nth_error name k) as [b|] eqn:Hb;
      [|apply nth_error_None in Hb; lia].
    rewrite (py_index_app_nth pre _ _ b)
      by (rewrite nth_error_app1 by lia; exact Hb).
    cbn [bind]. rewrite (byte_in_zero_nth name k b Hz Hb).
    apply IH; lia.
Qed.

Lemma texture_name_end_none (pre name rest : bytes) :
  byte_in 0 name = false ->
  forall (n k : nat),
  (k + n <= List.length name)%nat ->
  texture_name_end (pre ++ name ++ rest)
    (map (fun i => len pre + Z.of_nat i) (seq k n))
  = Ok None.
Proof.
  intros Hz. induction n as [|n IH]; intros k Hk; [reflexivity|].
  cbn [seq map texture_name_end].
  destruct (nth_error name k) as [b|] eqn:Hb;
    [|apply nth_error_None in Hb; lia].
  rewrite (py_index_app_nth pre _ _ b)
    by (rewrite nth_error_app1 by lia; exact Hb).
  cbn [bind]. rewrite (byte_in_zero_nth name k b Hz Hb). apply IH. lia.
Qed.

Lemma texture_name_end_short (pre name : bytes) :
  byte_in 0 name = false ->
  forall (n k : nat),
  (k <= List.length name)%nat ->
  (List.length name - k < n)%nat ->
  texture_name_end (pre ++ name)
    (map (fun i => len pre + Z.of_nat i) (seq k n))
  = Raise IndexError.
Proof.
  intros Hz. induction n as [|n IH]; intros k Hk Hn; [lia|].
  cbn [seq map texture_name_end].
  destruct (Nat.eq_dec k (List.length name)) as [->|Hne].
  - rewrite py_index_app_past by lia. reflexivity.
  - destruct (nth_error name k) as [b|] eqn:Hb;
      [|apply nth_error_None in Hb; lia].
    rewrite (py_index_app_nth pre _ _ b) by exact Hb.
    cbn [bind]. rewrite (byte_in_zero_nth name k b Hz Hb).
    apply IH; lia.
Qed.

Lemma range_between_128 (off : Z) :
  range_between off (off + 128)
  = map (fun i => off + Z.of_nat i) (seq 0 128).
Proof.
  unfold range_between. replace (off + 128 - off) with 128 by lia.
  reflexivity.
Qed.

Lemma py_slice_middle {A} (pre mid post : list A) :
  py_slice (pre ++ mid ++ post) (len pre) (len pre + len mid) = mid.
Proof.
  unfold py_slice, py_clamp, len.
  destruct (Z.ltb_spec (Z.of_nat (List.length pre)) 0); [lia|].
  destruct (Z.ltb_spec (Z.of_nat (List.length pre)
                        + Z.of_nat (List.length mid)) 0); [lia|].
  rewrite !length_app.
  replace (Z.to_nat (Z.min (Z.of_nat (List.length pre)) _))
    with (List.length pre) by lia.
  replace (Z.to_nat (Z.min _ _) - List.length pre)%nat
    with (List.length mid) by lia.
  rewrite skipn_app, skipn_all, Nat.sub_diag. cbn [skipn app].
  rewrite firstn_app, firstn_all, Nat.sub_diag. cbn [firstn].
  apply app_nil_r.
Qed.

(** X21.  A name stored at an offset as up to 127 ASCII bytes other than
    NUL, followed by a NUL, is read back as those bytes, whatever stands
    before the offset and after the NUL. *)
Theorem texture_name_is_decoded (pre name rest : bytes) :
  byte_in 0 name = false ->
  bytes_isascii name = true ->
  (List.length name < 128)%nat ->
  read_texture_name (pre ++ name ++ x00 :: rest) (len pre)
  = Ok (string_of_list_byte name).
Proof.
  intros Hz Hascii Hlen. unfold read_texture_name.
  rewrite range_between_128.
  rewrite (texture_name_end_found pre name rest Hz 128 0) by lia.
  cbn [bind]. rewrite (py_slice_middle pre name (x00 :: rest)).
  unfold decode_ascii. unfold bytes_isascii in Hascii. rewrite Hascii.
  reflexivity.
Qed.

Lemma texture_name_is_decoded_witness :
  byte_in 0 (bytes_of_string "tools/nodraw") = false
  /\ bytes_isascii (bytes_of_string "tools/nodraw") = true
  /\ (List.length (bytes_of_string "tools/nodraw") < 128)%nat
  /\ read_texture_name
       (bytes_of_string "brick/wall" ++ [x00]
        ++ bytes_of_string "tools/nodraw" ++ x00 :: [])
       (len (bytes_of_string "brick/wall" ++ [x00]))
     = Ok (string_of_list_byte (bytes_of_string "tools/nodraw")).
Proof.
  split; [reflexivity|]. split; [reflexivity|]. split; [cbn; lia|].
  rewrite app_assoc.
  apply (texture_name_is_decoded (bytes_of_string "brick/wall" ++ [x00])
           (bytes_of_string "tools/nodraw") []).
  - reflexivity.
  - reflexivity.
  - cbn. lia.
Defined.

(** X22.  A run of bytes other than NUL is no name unless a NUL ends it
    within 128 bytes of the offset: with 128 such bytes or more the call
    raises ValueError, and when the data ends before that it raises
    IndexError. *)
Theorem texture_name_unterminated (pre name rest : bytes) :
  byte_in 0 name = false ->
  ((128 <= List.length name)%nat ->
   read_texture_name (pre ++ name ++ rest) (len pre)
   = Raise (ValueError "Bad string at"))
  /\ ((List.length name < 128)%nat ->
      read_texture_name (pre ++ name) (len pre) = Raise IndexError).
Proof.
  intros Hz. unfold read_texture_name. rewrite range_between_128. split.
  - intros Hlen.
    rewrite (texture_name_end_none pre name rest Hz 128 0) by lia.
    reflexivity.
  - intros Hlen.
    rewrite (texture_name_end_short pre name Hz 128 0) by lia.
    reflexivity.
Qed.

Lemma texture_name_unterminated_witness :
  byte_in 0 (bytes_of_string "brick/wall") = false
  /\ ((128 <= List.length (bytes_of_string "brick/wall"))%nat ->
      read_texture_name ([x00] ++ bytes_of_string "brick/wall" ++ [x00])
        (len [x00])
      = Raise (ValueError "Bad string at"))
  /\ ((List.length (bytes_of_string "brick/wall") < 128)%nat ->
      read_texture_name ([x00] ++ bytes_of_string "brick/wall") (len [x00])
      = Raise IndexError).
Proof.
  split; [reflexivity|].
  apply (texture_name_unterminated [x00] (bytes_of_string "brick/wall") [x00]).
  reflexivity.
Defined.

Lemma length_string_of_list_byte (b : bytes) :
  String.length (string_of_list_byte b) = List.length b.
Proof.
  unfold string_of_list_byte.
  induction b as [|c b IH]; [reflexivity|].
  cbn [map string_of_list_ascii String.length List.length]. rewrite IH.
  reflexivity.
Qed.

Lemma texture_name_end_In (d : bytes) (offs : list Z) (e : Z) :
  texture_name_end d offs = Ok (Some e) -> In e offs.
Proof.
  induction offs as [|o offs IH]; intros H; [discriminate H|].
  cbn [texture_name_end] in H. inv_bind H.
  destruct (byte_to_Z a =? 0).
  - apply Ok_inj in H. injection H as ->. left. reflexivity.
  - right. apply IH. exact H.
Qed.

Lemma length_py_slice {A} (l : list A) (a b : Z) :
  a <= b ->
  (a < 0 -> b < a + 128) ->
  Z.of_nat (List.length (py_slice l a b)) <= Z.max (b - a) 0 \/
  Z.of_nat (List.length (py_slice l a b)) < 128 /\ a < 0.
Proof.
  intros Hab Hneg. unfold py_slice, py_clamp, len.
  rewrite length_firstn, length_skipn.
  destruct (Z.ltb_spec a 0), (Z.ltb_spec b 0); lia.
Qed.

Lemma read_texture_name_short (d : bytes) (off : Z) (s : string) :
  read_texture_name d off = Ok s -> (String.length s < 128)%nat.
Proof.
  unfold read_texture_name. intros H. inv_bind H.
  destruct a as [e|]; [|discriminate H].
  apply texture_name_end_In in Ha. rewrite range_between_128 in Ha.
  apply in_map_iff in Ha. destruct Ha as [i [<- Hi]].
  apply in_seq in Hi.
  unfold decode_ascii in H.
  destruct (forallb _ _); [|discriminate H].
  apply Ok_inj in H. subst s. rewrite length_string_of_list_byte.
  destruct (length_py_slice d off (off + Z.of_nat i)); lia.
Qed.

Lemma gen_each_Forall {A B} (P : B -> Prop) (body : A -> PyResult B)
    (xs : list A) :
  (forall x b, body x = Ok b -> P b) ->
  Forall P (fst (gen_each xs body)).
Proof.
  intros HP. induction xs as [|x xs IH]; [constructor|].
  cbn [gen_each]. destruct (body x) as [b|e] eqn:E; [|constructor].
  destruct (gen_each xs body) as [l e']. cbn [fst] in *.
  constructor; [apply (HP x b E)|exact IH].
Qed.

(** X23.  No name [read_texture_names] yields has 128 characters or more,
    whatever the two lumps hold: a name ends at the first NUL found within
    128 bytes of its offset. *)
Theorem texture_names_are_short (self : BSP) :
  Forall (fun s => (String.length s < 128)%nat)
         (fst (read_texture_names self)).
Proof.
  unfold read_texture_names.
  destruct (bind _ _) as [[tex_data offs]|e]; [|constructor].
  apply gen_each_Forall. intros off s. apply read_texture_name_short.
Qed.

(** The two names of [texture_BSP], read through its table. *)
Example texture_names_of_two :
  read_texture_names texture_BSP
  = (["brick/wall"; "tools/nodraw"]%string, None).
Proof. vm_compute. reflexivity. Qed.

(** 128 bytes without a NUL are no name. *)
Example texture_name_of_128_bytes :
  read_texture_name (repeat "a"%byte 128 ++ [x00]) 0
  = Raise (ValueError "Bad string at").
Proof. vm_compute. reflexivity. Qed.

(** * Static props: what is written and what is read back *)

(** ** Packed records *)

Lemma pack_items_length (its : list item) :
  forall vals b,
  Struct.pack_items its vals = Ok b ->
  List.length b = Struct.items_size its.
Proof.
  induction its as [|i its IH]; intros vals b H.
  - cbn [Struct.pack_items] in H. destruct vals; [|discriminate H].
    apply Ok_inj in H. subst b. reflexivity.
  - assert (Hpad : forall rest, Struct.pack_items its vals = Ok rest ->
                     List.length (x00 :: rest)
                     = Struct.items_size (IPad :: its)).
    { intros rest Hr. apply IH in Hr. cbn [List.length Struct.items_size
        fold_right Struct.item_size]. unfold Struct.items_size in Hr. lia. }
    destruct i as [|s n| |n|]; cbn [Struct.pack_items] in H.
    + inv_bind H. apply Ok_inj in H. subst b. apply (Hpad a Ha).
    + destruct vals as [|[z|?|?|?] vs]; try discriminate H.
      inv_bind H. inv_bind H. apply Ok_inj in H. subst b.
      destruct (Struct.int_in_range s n z); [|discriminate Ha].
      apply Ok_inj in Ha. subst a. apply IH in Ha0.
      rewrite length_app, length_le_encode.
      cbn [Struct.items_size fold_right Struct.item_size].
      unfold Struct.items_size in Ha0. lia.
    + destruct vals as [|[?|?|x|?] vs]; try discriminate H.
      inv_bind H. inv_bind H. apply Ok_inj in H. subst b.
      inv_bind Ha. apply Ok_inj in Ha. subst a. apply IH in Ha0.
      rewrite length_app, length_le_encode.
      cbn [Struct.items_size fold_right Struct.item_size].
      unfold Struct.items_size in Ha0. lia.
    + destruct vals as [|[?|s|?|?] vs]; try discriminate H.
      inv_bind H. inv_bind H. apply Ok_inj in H. subst b.
      apply Ok_inj in Ha. subst a. apply IH in Ha0.
      unfold Struct.pad_to, zero_bytes.
      rewrite !length_app, length_firstn, repeat_length.
      cbn [Struct.items_size fold_right Struct.item_size].
      unfold Struct.items_size in Ha0. lia.
    + destruct vals as [|[?|?|?|t] vs]; try discriminate H.
      inv_bind H. inv_bind H. apply Ok_inj in H. subst b.
      apply Ok_inj in Ha. subst a. apply IH in Ha0.
      rewrite length_app.
      cbn [List.length Struct.items_size fold_right Struct.item_size].
      unfold Struct.items_size in Ha0. lia.
Qed.

Lemma pack_length (fmt : string) (its : list item) (n : Z) (vals : list pyval)
    (b : bytes) :
  Struct.parse fmt = Ok its ->
  Z.of_nat (Struct.items_size its) = n ->
  Struct.pack fmt vals = Ok b ->
  len b = n.
Proof.
  intros Hparse Hn H. unfold Struct.pack in H. rewrite Hparse in H.
  cbn [bind] in H. apply pack_items_length in H. unfold len. lia.
Qed.

Lemma pack_items_int (s : bool) (n : nat) (its : list item) (z : Z)
    (vals : list pyval) (b : bytes) :
  Struct.pack_items (IInt s n :: its) (PInt z :: vals) = Ok b ->
  Struct.int_in_range s n z = true
  /\ exists rest, Struct.pack_items its vals = Ok rest
                  /\ b = le_encode n z ++ rest.
Proof.
  cbn [Struct.pack_items]. intros H. inv_bind H. inv_bind H.
  apply Ok_inj in H. subst b.
  destruct (Struct.int_in_range s n z); [|discriminate Ha].
  apply Ok_inj in Ha. subst a. split; [reflexivity|].
  exists a0. split; [exact Ha0|reflexivity].
Qed.

Lemma pack_items_pad (its : list item) (vals : list pyval) (b : bytes) :
  Struct.pack_items (IPad :: its) vals = Ok b ->
  exists rest, Struct.pack_items its vals = Ok rest /\ b = x00 :: rest.
Proof.
  cbn [Struct.pack_items]. intros H. inv_bind H.
  apply Ok_inj in H. subst b. exists a. split; [exact Ha|reflexivity].
Qed.

(** ** Bytes at a position *)

Lemma bytes_at_app_skip (a l : bytes) (k : Z) (n : nat) :
  len a <= k -> bytes_at (a ++ l) k n = bytes_at l (k - len a) n.
Proof.
  intros Hk. unfold bytes_at, len in *. rewrite skipn_app.
  rewrite skipn_all2 by lia. cbn [app].
  replace (Z.to_nat k - List.length a)%nat
    with (Z.to_nat (k - Z.of_nat (List.length a))) by lia.
  reflexivity.
Qed.

Lemma bytes_at_app_here (a l : bytes) (n : nat) :
  List.length a = n -> bytes_at (a ++ l) 0 n = a.
Proof.
  intros Hn. unfold bytes_at. cbn [Z.to_nat skipn].
  rewrite firstn_app, <- Hn, Nat.sub_diag, firstn_all. cbn [firstn].
  apply app_nil_r.
Qed.

Lemma bytes_at_app_inside (a l : bytes) (k : Z) (n : nat) :
  0 <= k -> k + Z.of_nat n <= len a ->
  bytes_at (a ++ l) k n = bytes_at a k n.
Proof.
  intros Hk Hn. unfold bytes_at, len in *. rewrite skipn_app, firstn_app.
  rewrite length_skipn.
  replace (n - (List.length a - Z.to_nat k))%nat with 0%nat by lia.
  cbn [firstn]. apply app_nil_r.
Qed.

(** ** Flags *)

Lemma StaticPropFlags_of_value_inv (n m : Z) :
  StaticPropFlags_of_value n = Ok m -> m = n.
Proof.
  unfold StaticPropFlags_of_value.
  destruct (_ && _); [|discriminate]. intros H. apply Ok_inj in H. auto.
Qed.

Lemma value_prim_range (f : Z) : 0 <= value_prim f < 256.
Proof.
  unfold value_prim. change 0xFF with (Z.ones 8).
  rewrite Z.land_ones by lia. apply Z.mod_pos_bound. lia.
Qed.

(** The two parts make up the value. *)
Lemma flags_of_parts (f : Z) :
  Z.lor (value_prim f) (Z.shiftl (value_sec f) 8) = f.
Proof.
  unfold value_prim, value_sec. change 0xFF with (Z.ones 8).
  apply Z.bits_inj'. intros i Hi.
  rewrite Z.lor_spec, Z.land_spec, Z.shiftl_spec by lia.
  destruct (Z.lt_ge_cases i 8) as [Hlt|Hge].
  - rewrite Z.ones_spec_low by lia.
    rewrite (Z.testbit_neg_r _ (i - 8)) by lia.
    rewrite andb_true_r, orb_false_r. reflexivity.
  - rewrite Z.ones_spec_high by lia.
    rewrite Z.shiftr_spec by lia.
    replace (i - 8 + 8) with i by lia.
    rewrite andb_false_r. reflexivity.
Qed.

Lemma le_unsigned_le_encode_small (n : nat) (z : Z) :
  Struct.int_in_range false n z = true ->
  le_unsigned (le_encode n z) = z.
Proof.
  unfold Struct.int_in_range. intros H.
  apply andb_true_iff in H. destruct H as [H0 H1].
  apply Z.leb_le in H0. apply Z.ltb_lt in H1.
  rewrite le_unsigned_le_encode. apply Z.mod_small. lia.
Qed.

(** ** The layout the reader follows *)

Lemma struct_read_at (fmt : string) (its : list item) (n : Z) (c : bytes)
    (p : Z) (f f' : File) (vals : list pyval) :
  Struct.parse fmt = Ok its ->
  Z.of_nat (Struct.items_size its) = n ->
  0 < n ->
  contents f = c ->
  pos f = p ->
  0 <= p ->
  struct_read fmt f = Ok (vals, f') ->
  contents f' = c
  /\ pos f' = p + n
  /\ p + n <= len c
  /\ vals = Struct.unpack_items its (bytes_at c p (Z.to_nat n)).
Proof.
  intros Hparse Hn Hpos Hc Hp Hp0 H.
  apply (struct_read_inv fmt its) in H; [|exact Hparse|lia|lia].
  destruct H as (Hc' & Hp' & Hle & ->). subst n c p.
  rewrite Nat2Z.id. repeat split; try assumption; lia.
Qed.

(** The tests on the version, for the eight layouts. *)
Lemma version_cases (v : Z) :
  let t := ((5 <=? v), (v =? 6), (v =? 7), (8 <=? v), (7 <=? v),
            (11 <=? v), (10 <=? v), (9 <=? v), (v =? 10)) in
  t = (false, false, false, false, false, false, false, false, false)
  \/ t = (true, false, false, false, false, false, false, false, false)
  \/ t = (true, true, false, false, false, false, false, false, false)
  \/ t = (true, false, true, false, true, false, false, false, false)
  \/ t = (true, false, false, true, true, false, false, false, false)
  \/ t = (true, false, false, true, true, false, false, true, false)
  \/ t = (true, false, false, true, true, false, true, true, true)
  \/ t = (true, false, false, true, true, true, true, true, false).
Proof.
  cbv zeta.
  assert (Hv : v <= 4 \/ v = 5 \/ v = 6 \/ v = 7 \/ v = 8 \/ v = 9
               \/ v = 10 \/ 11 <= v) by lia.
  destruct Hv as [Hv|[Hv|[Hv|[Hv|[Hv|[Hv|[Hv|Hv]]]]]]];
    [left|do 1 right; left|do 2 right; left|do 3 right; left
    |do 4 right; left|do 5 right; left|do 6 right; left|do 7 right];
    repeat f_equal;
    first [apply Z.leb_le; lia | apply Z.leb_gt; lia
          | apply Z.eqb_neq; lia | apply Z.eqb_eq; lia].
Qed.

Ltac version_split v :=
  let E := fresh "E" in
  pose proof (version_cases v) as E; cbv zeta in E;
  repeat (destruct E as [E|E]);
  injection E as E5 E6 E7 E8 E7' E11 E10 E9 Ev10.

Lemma bytes_at_part (c : bytes) (off off' : Z) (n a m : nat) :
  0 <= off -> (a + m <= n)%nat -> off' = off + Z.of_nat a ->
  firstn m (skipn a (bytes_at c off n)) = bytes_at c off' m.
Proof. intros H0 Ham ->. apply bytes_at_sub; assumption. Qed.

Lemma bytes_at_head (c : bytes) (off off' : Z) (n m : nat) :
  0 <= off -> (m <= n)%nat -> off' = off ->
  firstn m (bytes_at c off n) = bytes_at c off' m.
Proof.
  intros H0 Hm ->. unfold bytes_at. rewrite firstn_firstn.
  replace (Nat.min m n) with m by lia. reflexivity.
Qed.

Ltac bytes_part :=
  rewrite ?skipn_skipn;
  first [ apply bytes_at_part; [lia|cbn; lia|cbn; lia]
        | apply bytes_at_head; [lia|cbn; lia|lia] ].

Ltac read_steps H :=
  cbv beta iota in H;
  lazymatch type of H with
  | bind (struct_read _ _) _ = Ok _ =>
      let vals := fresh "vals" in
      let f1 := fresh "f" in
      let Hr := fresh "Hr" in
      let Hc := fresh "Hc" in
      let Hp := fresh "Hp" in
      let Hle := fresh "Hle" in
      apply bind_Ok in H; destruct H as [[vals f1] [Hr H]];
      eapply struct_read_at in Hr;
        [|vm_compute; reflexivity|vm_compute; reflexivity|reflexivity
         |eassumption|eassumption|lia];
      destruct Hr as (Hc & Hp & Hle & ->);
      cbn [Struct.unpack_items Struct.unpack_item Struct.item_size app
           Z.to_nat Pos.to_nat Pos.iter_op Nat.add] in H;
      read_steps H
  | bind _ _ = Ok _ =>
      let a := fresh "a" in
      let Ha := fresh "Ha" in
      apply bind_Ok in H; destruct H as [a [Ha H]];
      read_steps Ha; read_steps H
  | Ok _ = Ok _ => apply Ok_inj in H; try subst
  | _ => idtac
  end.

Lemma read_static_prop_layout (v : Z) (model_dict : list string)
    (visleaf_list : list Z) (f f' : File) (c : bytes) (p : Z)
    (prop : StaticProp) :
  contents f = c ->
  pos f = p ->
  0 <= p ->
  read_static_prop v model_dict visleaf_list f = Ok (prop, f') ->
  contents f' = c
  /\ pos f' = p + static_prop_size v
  /\ pos f' <= len c
  /\ sp_flags prop
     = if 10 <=? v
       then Z.lor (le_unsigned (bytes_at c (p + 31) 1))
                  (Z.shiftl
                     (le_unsigned
                        (bytes_at c (p + static_prop_size v - 8) 4)) 8)
       else le_unsigned (bytes_at c (p + 31) 1).
Proof.
  intros Hc0 Hp0 Hpos H. unfold read_static_prop in H.
  unfold static_prop_size.
  version_split v; rewrite ?E5, ?E6, ?E7, ?E8, ?E7', ?E11, ?E10, ?E9 in *;
    cbn [orb] in *.
  all: read_steps H.
  all: apply pair_equal_spec in H; destruct H as [<- <-]; cbn [sp_flags].
  all: match goal with
       | Hf : StaticPropFlags_of_value _ = Ok _ |- _ =>
           apply StaticPropFlags_of_value_inv in Hf; rewrite Hf
       end.
  all: (split; [assumption|]).
  all: (split; [lia|]).
  all: (split; [lia|]).
  all: try (f_equal; [|f_equal]).
  all: f_equal; bytes_part.
Qed.

(** ** The layout the writer produces *)

Lemma bytes_at_app_zero (a l : bytes) (k : Z) (n : nat) :
  k = 0 -> List.length a = n -> bytes_at (a ++ l) k n = a.
Proof. intros ->. apply bytes_at_app_here. Qed.

Ltac pack_len fmt vals b Hb :=
  let Hl := fresh "Hl" in
  let its := eval vm_compute in (Struct.parse fmt) in
  lazymatch its with
  | Ok ?l =>
      let n := eval vm_compute in (Z.of_nat (Struct.items_size l)) in
      assert (Hl : len b = n)
        by (apply (pack_length fmt l n vals b);
            [vm_compute; reflexivity|vm_compute; reflexivity|exact Hb])
  end.

Ltac write_steps H :=
  cbv beta iota in H;
  lazymatch type of H with
  | bind (Struct.pack ?fmt ?vals) _ = Ok _ =>
      let b := fresh "b" in
      let Hb := fresh "Hb" in
      apply bind_Ok in H; destruct H as [b [Hb H]];
      pack_len fmt vals b Hb;
      write_steps H
  | bind _ _ = Ok _ =>
      let a := fresh "a" in
      let Ha := fresh "Ha" in
      apply bind_Ok in H; destruct H as [a [Ha H]];
      write_steps Ha; write_steps H
  | Struct.pack ?fmt ?vals = Ok ?b => pack_len fmt vals b H
  | Ok _ = Ok _ => apply Ok_inj in H; try subst
  | _ => idtac
  end.

(** The byte of the primary flags in the second part of a record. *)
Lemma pack_flags_byte (a b c d : Z) (vals : list pyval) (r l : bytes) (k : Z) :
  Struct.pack "<HHBBifffff" (PInt a :: PInt b :: PInt c :: PInt d :: vals)
  = Ok r ->
  k = 5 ->
  bytes_at (r ++ l) k 1 = le_encode 1 d.
Proof.
  unfold Struct.pack.
  change (Struct.parse "<HHBBifffff")
    with (Ok [IInt false 2; IInt false 2; IInt false 1; IInt false 1;
              IInt true 4; IFloat; IFloat; IFloat; IFloat; IFloat]).
  cbn [bind]. intros H ->.
  apply pack_items_int in H. destruct H as (_ & r1 & H & ->).
  apply pack_items_int in H. destruct H as (_ & r2 & H & ->).
  apply pack_items_int in H. destruct H as (_ & r3 & H & ->).
  apply pack_items_int in H. destruct H as (_ & r4 & H & ->).
  rewrite <- !app_assoc.
  rewrite (bytes_at_app_skip (le_encode 2 a))
    by (unfold len; rewrite !length_le_encode; lia).
  rewrite (bytes_at_app_skip (le_encode 2 b))
    by (unfold len; rewrite !length_le_encode; lia).
  rewrite (bytes_at_app_skip (le_encode 1 c))
    by (unfold len; rewrite !length_le_encode; lia).
  apply bytes_at_app_zero.
  - unfold len. rewrite !length_le_encode. lia.
  - apply length_le_encode.
Qed.

(** The secondary flags, packed. *)
Lemma pack_secondary (z : Z) (r : bytes) :
  Struct.pack "<I" [PInt z] = Ok r ->
  Struct.int_in_range false 4 z = true /\ r = le_encode 4 z.
Proof.
  unfold Struct.pack.
  change (Struct.parse "<I") with (Ok [IInt false 4]).
  cbn [bind]. intros H.
  apply pack_items_int in H. destruct H as (Hr & r1 & H & ->).
  cbn [Struct.pack_items] in H. apply Ok_inj in H. subst r1.
  rewrite app_nil_r. split; [exact Hr|reflexivity].
Qed.

(** The padding before the scaling. *)
Lemma pack_padding (vals : list pyval) (r l : bytes) (k : Z) :
  Struct.pack "<xxxxf" vals = Ok r ->
  k = 0 ->
  bytes_at (r ++ l) k 4 = zero_bytes 4.
Proof.
  unfold Struct.pack.
  change (Struct.parse "<xxxxf") with (Ok [IPad; IPad; IPad; IPad; IFloat]).
  cbn [bind]. intros H ->.
  apply pack_items_pad in H. destruct H as (r1 & H & ->).
  apply pack_items_pad in H. destruct H as (r2 & H & ->).
  apply pack_items_pad in H. destruct H as (r3 & H & ->).
  apply pack_items_pad in H. destruct H as (r4 & H & ->).
  reflexivity.
Qed.

Ltac skip_chunks :=
  cbn [app];
  repeat (rewrite bytes_at_app_skip by (unfold len in *; lia); cbn [app]).

Lemma write_static_prop_layout (v : Z) (model_ind : list (string * Z))
    (leaf_off : Z) (prop : StaticProp) (b : bytes) :
  write_static_prop v model_ind leaf_off prop = Ok b ->
  len b = static_prop_size v
  /\ bytes_at b 31 1 = le_encode 1 (value_prim (sp_flags prop))
  /\ ((10 <=? v) = true ->
      Struct.int_in_range false 4 (value_sec (sp_flags prop)) = true
      /\ bytes_at b (if 11 <=? v then static_prop_size v - 12
                     else static_prop_size v - 8) 4
         = le_encode 4 (value_sec (sp_flags prop)))
  /\ ((11 <=? v) = true ->
      bytes_at b (static_prop_size v - 8) 4 = zero_bytes 4).
Proof.
  intros H. unfold write_static_prop in H. unfold static_prop_size.
  version_split v; rewrite ?E5, ?E6, ?E7, ?E8, ?E7', ?E11, ?E10, ?E9 in *;
    cbn [orb] in *.
  all: write_steps H.
  all: split; [unfold len in *; rewrite !length_app; cbn [List.length]; lia|].
  all: split;
    [skip_chunks;
     match goal with
     | Hp : Struct.pack "<HHBBifffff" _ = Ok ?r |- _ =>
         apply (pack_flags_byte _ _ _ _ _ r _ _ Hp); lia
     end|].
  all: split; [intros Hv; try discriminate Hv|intros Hv; try discriminate Hv].
  all: try match goal with
       | Hp : Struct.pack "<I" _ = Ok ?r |- _ /\ _ =>
           apply pack_secondary in Hp; destruct Hp as [Hrange ->];
           split; [exact Hrange|];
           skip_chunks; apply bytes_at_app_zero;
           [unfold len in *; lia|apply length_le_encode]
       end.
  all: skip_chunks.
  all: rewrite <- (app_nil_r b4).
  all: match goal with
       | Hp : Struct.pack "<xxxxf" _ = Ok ?r |- _ =>
           apply (pack_padding _ r _ _ Hp); unfold len in *; lia
       end.
Qed.

(** ** A record written and read back *)

Lemma bytes_at_record (pre b rest : bytes) (k : Z) (n : nat) :
  0 <= k -> k + Z.of_nat n <= len b ->
  bytes_at (pre ++ b ++ rest) (len pre + k) n = bytes_at b k n.
Proof.
  intros Hk Hn. rewrite bytes_at_app_skip by lia.
  replace (len pre + k - len pre) with k by lia.
  apply bytes_at_app_inside; assumption.
Qed.

(** X24.  A record written for a version is as long as the reader of that
    version takes it to be: reading the props back from where the record
    starts ends where the record ends, so the next record is read from its
    first byte.  This holds for every version. *)
Theorem static_prop_record_is_consumed (v : Z)
    (model_ind : list (string * Z)) (leaf_off : Z) (prop prop' : StaticProp)
    (b pre rest : bytes) (model_dict : list string) (visleaf_list : list Z)
    (f' : File) :
  write_static_prop v model_ind leaf_off prop = Ok b ->
  read_static_prop v model_dict visleaf_list
    (mkFile (pre ++ b ++ rest) (len pre)) = Ok (prop', f') ->
  len b = static_prop_size v
  /\ pos f' = len pre + len b
  /\ contents f' = pre ++ b ++ rest.
Proof.
  intros Hw Hr.
  apply write_static_prop_layout in Hw. destruct Hw as (Hlen & _).
  apply (read_static_prop_layout v model_dict visleaf_list _ f'
           (pre ++ b ++ rest) (len pre)) in Hr;
    [|reflexivity|reflexivity|unfold len; lia].
  destruct Hr as (Hc & Hp & _).
  split; [exact Hlen|]. split; [lia|exact Hc].
Qed.

Lemma static_prop_record_is_consumed_witness :
  write_static_prop 11 flagged_models 0 flagged_prop = Ok flagged_record
  /\ read_static_prop 11 ["models/a.mdl"%string] [3; 4]
       (mkFile ([x00] ++ flagged_record ++ [x01]) (len [x00]))
     = Ok (flagged_prop_read, mkFile ([x00] ++ flagged_record ++ [x01]) 81)
  /\ len flagged_record = static_prop_size 11
  /\ pos (mkFile ([x00] ++ flagged_record ++ [x01]) 81)
     = len [x00] + len flagged_record
  /\ contents (mkFile ([x00] ++ flagged_record ++ [x01]) 81)
     = [x00] ++ flagged_record ++ [x01].
Proof.
  assert (Hw : write_static_prop 11 flagged_models 0 flagged_prop
               = Ok flagged_record) by (vm_compute; reflexivity).
  assert (Hr : read_static_prop 11 ["models/a.mdl"%string] [3; 4]
                 (mkFile ([x00] ++ flagged_record ++ [x01]) (len [x00]))
               = Ok (flagged_prop_read,
                     mkFile ([x00] ++ flagged_record ++ [x01]) 81))
    by (vm_compute; reflexivity).
  split; [exact Hw|]. split; [exact Hr|].
  exact (static_prop_record_is_consumed 11 flagged_models 0 flagged_prop
           flagged_prop_read flagged_record [x00] [x01]
           ["models/a.mdl"%string] [3; 4] _ Hw Hr).
Defined.

(** X25.  Of the flags of a prop, a record keeps the low eight bits in every
    version.  The bits above them come back only in version 10: before it
    the record has no place for them, and from version 11 on the writer puts
    them where the reader expects the unknown field, and the reader takes
    the four padding bytes after them, which are zero, for the secondary
    flags. *)
Theorem static_prop_flags_read_back (v : Z)
    (model_ind : list (string * Z)) (leaf_off : Z) (prop prop' : StaticProp)
    (b pre rest : bytes) (model_dict : list string) (visleaf_list : list Z)
    (f' : File) :
  write_static_prop v model_ind leaf_off prop = Ok b ->
  read_static_prop v model_dict visleaf_list
    (mkFile (pre ++ b ++ rest) (len pre)) = Ok (prop', f') ->
  sp_flags prop'
  = if v =? 10 then sp_flags prop else value_prim (sp_flags prop).
Proof.
  intros Hw Hr.
  apply write_static_prop_layout in Hw.
  destruct Hw as (Hlen & Hprim & Hsec & Hpad).
  apply (read_static_prop_layout v model_dict visleaf_list _ f'
           (pre ++ b ++ rest) (len pre)) in Hr;
    [|reflexivity|reflexivity|unfold len; lia].
  destruct Hr as (_ & _ & _ & ->).
  assert (Hsize : 56 <= static_prop_size v).
  { unfold static_prop_size.
    destruct (5 <=? v), ((v =? 6) || (v =? 7)), (8 <=? v), (7 <=? v),
      (10 <=? v), (11 <=? v), (9 <=? v); lia. }
  rewrite (bytes_at_record pre b rest 31 1) by lia.
  rewrite Hprim.
  rewrite (le_unsigned_le_encode_small 1 (value_prim (sp_flags prop)))
    by (unfold Struct.int_in_range; pose proof (value_prim_range (sp_flags prop));
        apply andb_true_iff; split; [apply Z.leb_le|apply Z.ltb_lt];
        cbn; lia).
  destruct (Z.leb_spec 10 v) as [H10|H10].
  - specialize (Hsec eq_refl). destruct Hsec as [Hrange Hsec].
    assert (Hsize' : 76 <= static_prop_size v).
    { unfold static_prop_size.
      destruct (Z.leb_spec 5 v), (Z.eqb_spec v 6), (Z.eqb_spec v 7),
        (Z.leb_spec 8 v), (Z.leb_spec 7 v), (Z.leb_spec 10 v),
        (Z.leb_spec 11 v), (Z.leb_spec 9 v); cbn [orb]; lia. }
    replace (len pre + static_prop_size v - 8)
      with (len pre + (static_prop_size v - 8)) by lia.
    rewrite (bytes_at_record pre b rest (static_prop_size v - 8) 4) by lia.
    destruct (Z.leb_spec 11 v) as [H11|H11].
    + rewrite (Hpad eq_refl).
      destruct (Z.eqb_spec v 10); [lia|].
      change (le_unsigned (zero_bytes 4)) with 0.
      rewrite Z.shiftl_0_l. apply Z.lor_0_r.
    + rewrite Hsec, (le_unsigned_le_encode_small 4 _ Hrange).
      destruct (Z.eqb_spec v 10); [|lia]. apply flags_of_parts.
  - destruct (Z.eqb_spec v 10); [lia|]. reflexivity.
Qed.

Lemma static_prop_flags_read_back_witness :
  write_static_prop 11 flagged_models 0 flagged_prop = Ok flagged_record
  /\ read_static_prop 11 ["models/a.mdl"%string] [3; 4]
       (mkFile ([x00] ++ flagged_record ++ [x01]) (len [x00]))
     = Ok (flagged_prop_read, mkFile ([x00] ++ flagged_record ++ [x01]) 81)
  /\ sp_flags flagged_prop_read
     = if 11 =? 10 then sp_flags flagged_prop
       else value_prim (sp_flags flagged_prop).
Proof.
  assert (Hw : write_static_prop 11 flagged_models 0 flagged_prop
               = Ok flagged_record) by (vm_compute; reflexivity).
  assert (Hr : read_static_prop 11 ["models/a.mdl"%string] [3; 4]
                 (mkFile ([x00] ++ flagged_record ++ [x01]) (len [x00]))
               = Ok (flagged_prop_read,
                     mkFile ([x00] ++ flagged_record ++ [x01]) 81))
    by (vm_compute; reflexivity).
  split; [exact Hw|]. split; [exact Hr|].
  exact (static_prop_flags_read_back 11 flagged_models 0 flagged_prop
           flagged_prop_read flagged_record [x00] [x01]
           ["models/a.mdl"%string] [3; 4] _ Hw Hr).
Defined.

(** The flags of [flagged_prop] over the versions: the secondary flag
    [NO_FLASHLIGHT] comes back in version 10 only. *)
Example flagged_prop_over_versions :
  map (fun v =>
         match write_static_prop v flagged_models 0 flagged_prop with
         | Ok b =>
             match read_static_prop v ["models/a.mdl"%string] [3; 4]
                     (file_open b) with
             | Ok (p, _) => Some (sp_flags p)
             | Raise _ => None
             end
         | Raise _ => None
         end) [9; 10; 11]
  = [Some NO_SHADOW; Some (Z.lor NO_SHADOW NO_FLASHLIGHT); Some NO_SHADOW].
Proof. vm_compute. reflexivity. Qed.

(** * [BSP.save]: where the lumps end up *)

(** ** Writing into a file *)

Lemma file_write_inside (c b : bytes) (off : Z) :
  0 <= off -> off + len b <= len c ->
  file_write (mkFile c off) b
  = mkFile (firstn (Z.to_nat off) c ++ b
              ++ skipn (Z.to_nat off + List.length b) c)
           (off + len b).
Proof.
  intros H0 Hle. unfold file_write. cbn [contents pos]. unfold len in Hle.
  replace (Z.to_nat off - List.length c)%nat with 0%nat by lia.
  reflexivity.
Qed.

Lemma patch_length (c b : bytes) (p : nat) :
  (p + List.length b <= List.length c)%nat ->
  List.length (firstn p c ++ b ++ skipn (p + List.length b) c)
  = List.length c.
Proof.
  intros H. rewrite !length_app, length_firstn, length_skipn. lia.
Qed.

Lemma patch_before (c b : bytes) (p a n : nat) :
  (p + List.length b <= List.length c)%nat ->
  (a + n <= p)%nat ->
  firstn n (skipn a (firstn p c ++ b ++ skipn (p + List.length b) c))
  = firstn n (skipn a c).
Proof.
  intros Hp Ha. rewrite skipn_app, length_firstn.
  replace (a - Nat.min p (List.length c))%nat with 0%nat by lia.
  cbn [skipn]. rewrite firstn_app, length_skipn, length_firstn.
  replace (n - (Nat.min p (List.length c) - a))%nat with 0%nat by lia.
  cbn [firstn]. rewrite app_nil_r.
  rewrite skipn_firstn_comm, firstn_firstn.
  replace (Nat.min n (p - a)) with n by lia. reflexivity.
Qed.

Lemma patch_after (c b : bytes) (p a n : nat) :
  (p + List.length b <= List.length c)%nat ->
  (p + List.length b <= a)%nat ->
  firstn n (skipn a (firstn p c ++ b ++ skipn (p + List.length b) c))
  = firstn n (skipn a c).
Proof.
  intros Hp Ha. f_equal.
  rewrite skipn_app, length_firstn.
  rewrite (skipn_all2 (firstn p c)) by (rewrite length_firstn; lia).
  cbn [app]. rewrite skipn_app.
  rewrite (skipn_all2 b) by lia. cbn [app]. rewrite skipn_skipn.
  f_equal. lia.
Qed.

Lemma patch_at (c b : bytes) (p : nat) :
  (p + List.length b <= List.length c)%nat ->
  firstn (List.length b)
    (skipn p (firstn p c ++ b ++ skipn (p + List.length b) c))
  = b.
Proof.
  intros Hp. rewrite skipn_app, length_firstn.
  rewrite (skipn_all2 (firstn p c)) by (rewrite length_firstn; lia).
  replace (p - Nat.min p (List.length c))%nat with 0%nat by lia.
  cbn [app skipn]. rewrite firstn_app, Nat.sub_diag, firstn_all.
  cbn [firstn]. apply app_nil_r.
Qed.

(** A write inside the file keeps the length and what lies outside of it. *)
Lemma file_patch (c b : bytes) (off : Z) :
  0 <= off -> off + len b <= len c ->
  exists c',
    file_write (mkFile c off) b = mkFile c' (off + len b)
    /\ len c' = len c
    /\ bytes_at c' off (List.length b) = b
    /\ forall a n, 0 <= a ->
         off + len b <= a \/ a + Z.of_nat n <= off ->
         bytes_at c' a n = bytes_at c a n.
Proof.
  intros H0 Hle. rewrite file_write_inside by assumption.
  eexists. split; [reflexivity|]. unfold len in *.
  split; [|split].
  - rewrite patch_length by lia. reflexivity.
  - unfold bytes_at. apply patch_at. lia.
  - intros a n Ha [Hd|Hd]; unfold bytes_at.
    + apply patch_after; lia.
    + apply patch_before; lia.
Qed.

(** A write at the end appends. *)
Lemma bytes_at_app_old (c b : bytes) (a : Z) (n : nat) :
  0 <= a -> a + Z.of_nat n <= len c ->
  bytes_at (c ++ b) a n = bytes_at c a n.
Proof. apply bytes_at_app_inside. Qed.

Lemma bytes_at_app_new (c b : bytes) :
  bytes_at (c ++ b) (len c) (List.length b) = b.
Proof.
  unfold bytes_at, len. rewrite Nat2Z.id, skipn_app, skipn_all, Nat.sub_diag.
  cbn [app skipn]. apply firstn_all.
Qed.

Lemma bytes_at_split (c : bytes) (off : Z) (n m : nat) (x y : bytes) :
  0 <= off ->
  List.length x = n -> List.length y = m ->
  bytes_at c off (n + m) = x ++ y ->
  bytes_at c off n = x /\ bytes_at c (off + Z.of_nat n) m = y.
Proof.
  intros H0 Hx Hy H. split.
  - rewrite <- (bytes_at_head c off off (n + m) n) by lia.
    rewrite H, firstn_app, <- Hx, Nat.sub_diag, firstn_all. cbn [firstn].
    apply app_nil_r.
  - rewrite <- (bytes_at_sub c off (n + m) n m) by lia.
    rewrite H, skipn_app, <- Hx, skipn_all, Nat.sub_diag. cbn [app skipn].
    rewrite <- Hy. apply firstn_all.
Qed.

(** ** Dictionaries whose key test is equality *)

Section DictEq.
Context {K V : Type} (eqb : K -> K -> bool).
Hypothesis eqb_eq : forall a b, eqb a b = true <-> a = b.

Lemma eqb_refl (k : K) : eqb k k = true.
Proof. apply eqb_eq. reflexivity. Qed.

Lemma eqb_neq (a b : K) : a <> b -> eqb a b = false.
Proof.
  intros H. destruct (eqb a b) eqn:E; [|reflexivity].
  apply eqb_eq in E. contradiction.
Qed.

Lemma dict_get_set_same (d : list (K * V)) (k : K) (v : V) :
  dict_get eqb (dict_set eqb d k v) k = Some v.
Proof.
  induction d as [|[k' v'] d IH]; cbn [dict_set dict_get].
  - rewrite eqb_refl. reflexivity.
  - destruct (eqb k k') eqn:E; cbn [dict_get]; rewrite E; auto.
Qed.

Lemma dict_get_set_other (d : list (K * V)) (k k' : K) (v : V) :
  k <> k' ->
  dict_get eqb (dict_set eqb d k v) k' = dict_get eqb d k'.
Proof.
  intros Hne. induction d as [|[k0 v0] d IH]; cbn [dict_set dict_get].
  - rewrite (eqb_neq k' k) by congruence. reflexivity.
  - destruct (eqb k k0) eqn:E; cbn [dict_get].
    + apply eqb_eq in E. subst k0.
      rewrite (eqb_neq k' k) by congruence. reflexivity.
    + rewrite IH. reflexivity.
Qed.

Lemma dict_set_In (d : list (K * V)) (k : K) (v : V) (e : K * V) :
  In e (dict_set eqb d k v) -> e = (k, v) \/ In e d.
Proof.
  induction d as [|[k0 v0] d IH]; cbn [dict_set].
  - intros [<-|[]]. left. reflexivity.
  - destruct (eqb k k0) eqn:E.
    + apply eqb_eq in E. subst k0. intros [<-|H]; [left|right; right]; auto.
    + intros [<-|H]; [right; left; reflexivity|].
      destruct (IH H) as [->|H']; [left|right; right]; auto.
Qed.

Lemma dict_get_In (d : list (K * V)) (k : K) (v : V) :
  dict_get eqb d k = Some v -> In (k, v) d.
Proof.
  induction d as [|[k0 v0] d IH]; cbn [dict_get]; [discriminate|].
  destruct (eqb k k0) eqn:E.
  - apply eqb_eq in E. subst k0. intros H. injection H as ->. left. reflexivity.
  - intros H. right. apply IH. exact H.
Qed.

Lemma dict_remove_In (d : list (K * V)) (k : K) (e : K * V) :
  In e (dict_remove eqb d k) -> In e d.
Proof.
  induction d as [|[k0 v0] d IH]; cbn [dict_remove]; [auto|].
  destruct (eqb k k0); [intros H; right; exact H|].
  intros [<-|H]; [left; reflexivity|right; apply IH; exact H].
Qed.

Lemma dict_get_remove_other (d : list (K * V)) (k k' : K) :
  k <> k' ->
  dict_get eqb (dict_remove eqb d k) k' = dict_get eqb d k'.
Proof.
  intros Hne. induction d as [|[k0 v0] d IH]; cbn [dict_remove dict_get].
  - reflexivity.
  - destruct (eqb k k0) eqn:E; cbn [dict_get].
    + apply eqb_eq in E. subst k0.
      rewrite (eqb_neq k' k) by congruence. reflexivity.
    + rewrite IH. reflexivity.
Qed.

Lemma dict_set_keys (d : list (K * V)) (k : K) (v : V) :
  map fst (dict_set eqb d k v)
  = if existsb (eqb k) (map fst d) then map fst d else map fst d ++ [k].
Proof.
  induction d as [|[k0 v0] d IH]; cbn [dict_set map existsb fst app].
  - reflexivity.
  - destruct (eqb k k0) eqn:E; cbn [map fst orb]; [reflexivity|].
    rewrite IH. destruct (existsb (eqb k) (map fst d)); reflexivity.
Qed.

Lemma dict_set_NoDup (d : list (K * V)) (k : K) (v : V) :
  NoDup (map fst d) -> NoDup (map fst (dict_set eqb d k v)).
Proof.
  intros H. rewrite dict_set_keys.
  destruct (existsb (eqb k) (map fst d)) eqn:E; [exact H|].
  apply NoDup_app; [exact H|constructor; [intros []|constructor]|].
  intros x Hx [Hk|[]]. subst x.
  assert (Hex : existsb (eqb k) (map fst d) = true)
    by (apply existsb_exists; exists k; split; [exact Hx|apply eqb_refl]).
  congruence.
Qed.

Lemma dict_set_has_key (d : list (K * V)) (k k' : K) (v : V) :
  k' = k \/ In k' (map fst d) -> In k' (map fst (dict_set eqb d k v)).
Proof.
  rewrite dict_set_keys. intros [->|H].
  - destruct (existsb (eqb k) (map fst d)) eqn:E.
    + apply existsb_exists in E. destruct E as [x [Hx E]].
      apply eqb_eq in E. subst x. exact Hx.
    + apply in_or_app. right. left. reflexivity.
  - destruct (existsb (eqb k) (map fst d)); [exact H|].
    apply in_or_app. left. exact H.
Qed.
End DictEq.

Lemma dkey_eqb_eq (a b : DKey) : dkey_eqb a b = true <-> a = b.
Proof.
  destruct a as [x|x], b as [y|y]; cbn [dkey_eqb].
  - rewrite lump_eqb_eq. split; congruence.
  - split; discriminate.
  - split; discriminate.
  - split; [intros H; apply bytes_eqb_eq in H; congruence|].
    intros H. injection H as ->. unfold bytes_eqb.
    destruct (list_eq_dec Byte.byte_eq_dec y y); congruence.
Qed.

Lemma for_each_app {A S} (xs ys : list A) (body : A -> S -> PyResult S)
    (s : S) :
  for_each (xs ++ ys) body s
  = (s' <- for_each xs body s ;; for_each ys body s').
Proof.
  revert s. induction xs as [|x xs IH]; intros s; cbn [app for_each bind].
  - reflexivity.
  - destruct (body x s) as [s'|e]; cbn [bind]; [apply IH|reflexivity].
Qed.

(** ** Deferrals *)

Lemma Forall_dict_set {V} (P : DKey * V -> Prop) (d : list (DKey * V))
    (k : DKey) (v : V) :
  Forall P d -> P (k, v) -> Forall P (dict_set dkey_eqb d k v).
Proof.
  intros Hd Hk. apply Forall_forall. intros e He.
  apply (dict_set_In dkey_eqb dkey_eqb_eq) in He.
  destruct He as [->|He]; [exact Hk|].
  rewrite Forall_forall in Hd. apply Hd. exact He.
Qed.

Lemma Forall_dict_remove {V} (P : DKey * V -> Prop) (d : list (DKey * V))
    (k : DKey) :
  Forall P d -> Forall P (dict_remove dkey_eqb d k).
Proof.
  intros Hd. apply Forall_forall. intros e He.
  apply dict_remove_In in He. rewrite Forall_forall in Hd. apply Hd. exact He.
Qed.

(** Two ints, packed. *)
Lemma pack_two_ints (a b : Z) (r : bytes) :
  Struct.pack "<ii" [PInt a; PInt b] = Ok r ->
  r = le_encode 4 a ++ le_encode 4 b
  /\ - 2 ^ 31 <= a < 2 ^ 31 /\ - 2 ^ 31 <= b < 2 ^ 31.
Proof.
  unfold Struct.pack.
  change (Struct.parse "<ii") with (Ok [IInt true 4; IInt true 4]).
  cbn [bind]. intros H.
  apply pack_items_int in H. destruct H as (Ha & r1 & H & ->).
  apply pack_items_int in H. destruct H as (Hb & r2 & H & ->).
  cbn [Struct.pack_items] in H. apply Ok_inj in H. subst r2.
  rewrite app_nil_r. split; [reflexivity|].
  unfold Struct.int_in_range in Ha, Hb.
  change (8 * Z.of_nat 4 - 1) with 31 in Ha, Hb.
  apply andb_true_iff in Ha, Hb. destruct Ha as [Ha1 Ha2], Hb as [Hb1 Hb2].
  apply Z.leb_le in Ha1, Hb1. apply Z.ltb_lt in Ha2, Hb2. lia.
Qed.

Lemma pack_one_int (a : Z) (r : bytes) :
  Struct.pack "<i" [PInt a] = Ok r -> r = le_encode 4 a.
Proof.
  unfold Struct.pack.
  change (Struct.parse "<i") with (Ok [IInt true 4]).
  cbn [bind]. intros H.
  apply pack_items_int in H. destruct H as (Ha & r1 & H & ->).
  cbn [Struct.pack_items] in H. apply Ok_inj in H. subst r1.
  apply app_nil_r.
Qed.

(** [set_data] for a key whose deferral has the shape of the key. *)
Lemma defer_set_data_inv (g0 g1 : Z) (d d' : DeferredWrites) (k : DKey)
    (vals : list pyval) :
  Forall (loc_shape g0 g1) (loc d) ->
  defer_set_data d k vals = Ok d' ->
  exists b,
    Struct.pack (dfmt k) vals = Ok b
    /\ d' = mkDefer (loc d) (dict_set dkey_eqb (ddata d) k b).
Proof.
  intros Hloc H. unfold defer_set_data in H. inv_bind H.
  destruct a as [off fmt]. inv_bind H. apply Ok_inj in H. subst d'.
  unfold dict_lookup in Ha.
  destruct (dict_get dkey_eqb (loc d) k) as [[off' fmt']|] eqn:E;
    [|discriminate Ha].
  apply Ok_inj in Ha. injection Ha as -> ->.
  apply (dict_get_In dkey_eqb dkey_eqb_eq) in E.
  rewrite Forall_forall in Hloc. destruct (Hloc _ E) as [Hfmt _].
  cbn [fst snd] in Hfmt. subst fmt.
  match goal with
  | Hp : Struct.pack _ _ = Ok ?b |- _ =>
      exists b; split; [exact Hp|reflexivity]
  end.
Qed.

(** ** A lump already written stays written *)

Lemma lump_saved_app (R : Z -> Z -> Prop) (c b : bytes)
    (dd : list (DKey * bytes)) (l : BSP_LUMPS) (data : bytes) :
  lump_saved R c dd l data -> lump_saved R (c ++ b) dd l data.
Proof.
  intros (P & Hdd & HP & HP' & Hn & Hat & Hle & HR).
  exists P. repeat split; try assumption.
  - rewrite bytes_at_app_old; [exact Hat|lia|exact Hle].
  - unfold len in *. rewrite length_app. lia.
Qed.

Lemma lump_saved_set (R : Z -> Z -> Prop) (c : bytes)
    (dd : list (DKey * bytes)) (l : BSP_LUMPS) (data : bytes) (k : DKey)
    (b : bytes) :
  k <> KLump l ->
  lump_saved R c dd l data ->
  lump_saved R c (dict_set dkey_eqb dd k b) l data.
Proof.
  intros Hk (P & Hdd & Hrest).
  exists P. split; [|exact Hrest].
  rewrite (dict_get_set_other dkey_eqb dkey_eqb_eq) by exact Hk. exact Hdd.
Qed.

Lemma lump_saved_weaken (R R' : Z -> Z -> Prop) (c : bytes)
    (dd : list (DKey * bytes)) (l : BSP_LUMPS) (data : bytes) :
  (forall P n, 1036 <= P -> P + n <= len c -> R P n -> R' P n) ->
  lump_saved R c dd l data -> lump_saved R' c dd l data.
Proof.
  intros HR (P & Hdd & HP & HP' & Hn & Hat & Hle & HRP).
  exists P. repeat split; try assumption. apply HR; assumption.
Qed.

(** ** A lump other than the game lump *)

Lemma save_lump_regular (self : BSP) (gls : list GameLump) (g0 g1 : Z)
    (done : list BSP_LUMPS) (l : BSP_LUMPS) (d : DeferredWrites) (f : File)
    st' :
  l <> GAME_LUMP ->
  save_inv self (outside g0 g1) g0 g1 done (d, f) ->
  save_lump self gls l (d, f) = Ok st' ->
  save_inv self (outside g0 g1) g0 g1 (l :: done) st'
  /\ exists lump,
       dict_get lump_eqb (lumps self) l = Some lump
       /\ contents (snd st') = contents f ++ lump_data lump
       /\ dict_get dkey_eqb (ddata (fst st')) (KLump l)
          = Some (le_encode 4 (len (contents f))
                    ++ le_encode 4 (len (lump_data lump)))
       /\ len (contents f) < 2 ^ 31
       /\ len (lump_data lump) < 2 ^ 31.
Proof.
  intros Hl (Hpos & H1036 & Hg0 & Hg01 & Hg1 & Hloc & Hnd & Hall & Hdata & Hdone) H.
  unfold save_lump in H. inv_bind H. rename a into lump.
  unfold dict_lookup in Ha.
  destruct (dict_get lump_eqb (lumps self) l) as [lump'|] eqn:Elump;
    [|discriminate Ha].
  apply Ok_inj in Ha. subst lump'.
  destruct (lump_eqb l GAME_LUMP) eqn:Egame;
    [apply lump_eqb_eq in Egame; contradiction|].
  inv_bind H. apply Ok_inj in H. subst st'.
  apply (defer_set_data_inv g0 g1) in Ha; [|exact Hloc].
  destruct Ha as (b & Hb & ->). cbn [dfmt] in Hb.
  apply pack_two_ints in Hb. destruct Hb as (-> & HP & Hn).
  unfold file_tell in *. rewrite Hpos in *.
  rewrite (file_write_at_end f) by exact Hpos.
  split;
    [|exists lump; split; [reflexivity|]; split; [reflexivity|];
      cbn [fst ddata]; rewrite (dict_get_set_same dkey_eqb dkey_eqb_eq);
      split; [reflexivity|lia]].
  cbn [save_inv contents pos loc ddata].
  assert (Hlen : len (contents f ++ lump_data lump)
                 = len (contents f) + len (lump_data lump))
    by (unfold len; rewrite length_app; lia).
  assert (Hn0 : 0 <= len (lump_data lump)) by (unfold len; lia).
  split; [reflexivity|]. split; [lia|]. split; [exact Hg0|].
  split; [exact Hg01|].
  split; [lia|]. split; [exact Hloc|]. split; [exact Hnd|].
  split; [exact Hall|]. split.
  { apply Forall_dict_set; [exact Hdata|].
    unfold data_shape, len. cbn [fst snd dsize].
    rewrite length_app, !length_le_encode. reflexivity. }
  intros l' [<-|Hin] Hl'.
  - exists lump. split; [exact Elump|].
    exists (len (contents f)).
    rewrite (dict_get_set_same dkey_eqb dkey_eqb_eq).
    split; [reflexivity|]. split; [lia|]. split; [lia|]. split; [lia|].
    split; [apply bytes_at_app_new|]. split; [lia|]. right. exact Hg1.
  - destruct (Hdone l' Hin Hl') as (lump' & Elump' & Hsaved).
    exists lump'. split; [exact Elump'|].
    destruct (lump_eqb l l') eqn:E.
    + apply lump_eqb_eq in E. subst l'.
      assert (lump' = lump) by congruence. subst lump'.
      exists (len (contents f)).
      rewrite (dict_get_set_same dkey_eqb dkey_eqb_eq).
      split; [reflexivity|]. split; [lia|]. split; [lia|]. split; [lia|].
      split; [apply bytes_at_app_new|]. split; [lia|]. right. exact Hg1.
    + apply lump_saved_app. apply lump_saved_set; [|exact Hsaved].
      intros Hk. injection Hk as ->.
      rewrite (proj2 (lump_eqb_eq l' l') eq_refl) in E. discriminate E.
Qed.

(** The lumps of a list without the game lump, one after the other. *)
Lemma save_lumps_regular (self : BSP) (gls : list GameLump) (g0 g1 : Z)
    (ls : list BSP_LUMPS) :
  ~ In GAME_LUMP ls ->
  forall (done : list BSP_LUMPS) st st',
  save_inv self (outside g0 g1) g0 g1 done st ->
  for_each ls (save_lump self gls) st = Ok st' ->
  save_inv self (outside g0 g1) g0 g1 (rev ls ++ done) st'.
Proof.
  induction ls as [|l ls IH]; intros Hgame done st st' Hinv H.
  - cbn [for_each] in H. apply Ok_inj in H. subst st'. exact Hinv.
  - cbn [for_each] in H. inv_bind H. destruct st as [d f].
    apply (save_lump_regular self gls g0 g1 done l) in Ha;
      [|intros ->; apply Hgame; left; reflexivity|exact Hinv].
    destruct Ha as [Hinv' _].
    cbn [rev]. rewrite <- app_assoc. cbn [app].
    apply (IH (fun Hin => Hgame (or_intror Hin)) (l :: done) a st' Hinv' H).
Qed.

(** ** The game lump *)

Lemma loc_shape_move (g0 g1 g0' g1' : Z) (locs : list (DKey * (Z * string))) :
  (forall off, g0 <= off /\ off + 4 <= g1 -> g0' <= off /\ off + 4 <= g1') ->
  Forall (loc_shape g0 g1) locs -> Forall (loc_shape g0' g1') locs.
Proof.
  intros Hg. apply Forall_impl. intros [[l|id] [off fmt]] [Hfmt Hoff];
    split; try exact Hfmt; cbn [fst snd] in *; [exact Hoff|].
  apply Hg. exact Hoff.
Qed.

(** Appending to the file. *)
Lemma game_inv_append (self : BSP) (G0 : Z) (done : list BSP_LUMPS)
    (d : DeferredWrites) (f : File) (b : bytes) :
  game_inv self G0 done (d, f) ->
  game_inv self G0 done (d, file_write f b).
Proof.
  unfold game_inv. cbn [snd].
  intros (Hpos & H1036 & Hg0 & Hg01 & Hg1 & Hloc & Hnd & Hall & Hdata & Hdone).
  rewrite (file_write_at_end f) by exact Hpos.
  assert (Hlen : len (contents f ++ b) = len (contents f) + len b)
    by (unfold len; rewrite length_app; lia).
  assert (Hb : 0 <= len b) by (unfold len; lia).
  cbn [save_inv contents pos loc ddata].
  split; [reflexivity|]. split; [lia|]. split; [exact Hg0|].
  split; [lia|]. split; [lia|]. split.
  { apply (loc_shape_move G0 (len (contents f))); [|exact Hloc].
    intros off Hoff. lia. }
  split; [exact Hnd|]. split; [exact Hall|]. split; [exact Hdata|].
  intros l Hin Hl. destruct (Hdone l Hin Hl) as (lump & Elump & Hsaved).
  exists lump. split; [exact Elump|]. apply lump_saved_app. exact Hsaved.
Qed.

(** A deferral at the end of the file, with its placeholder. *)
Lemma game_inv_defer (self : BSP) (G0 : Z) (done : list BSP_LUMPS)
    (d : DeferredWrites) (f : File) (id : bytes) st' :
  game_inv self G0 done (d, f) ->
  defer_defer d f (KBytes id) "<i" true = Ok st' ->
  game_inv self G0 done st'.
Proof.
  unfold game_inv. cbn [snd].
  intros (Hpos & H1036 & Hg0 & Hg01 & Hg1 & Hloc & Hnd & Hall & Hdata & Hdone)
    H.
  unfold defer_defer in H.
  change (Struct.calcsize "<i") with (Ok (A := Z) 4) in H.
  cbn [bind] in H. apply Ok_inj in H. subst st'. cbn [snd].
  rewrite (file_write_at_end f) by exact Hpos.
  unfold file_tell. rewrite Hpos.
  assert (Hlen : len (contents f ++ zero_bytes (Z.to_nat 4))
                 = len (contents f) + 4)
    by (unfold len, zero_bytes; rewrite length_app, repeat_length; lia).
  cbn [save_inv contents pos loc ddata]. rewrite Hlen.
  split; [reflexivity|]. split; [lia|]. split; [exact Hg0|].
  split; [lia|]. split; [lia|]. split.
  { apply Forall_dict_set.
    - apply (loc_shape_move G0 (len (contents f))); [|exact Hloc].
      intros off Hoff. lia.
    - split; [reflexivity|]. cbn [fst snd]. lia. }
  split; [apply (dict_set_NoDup dkey_eqb dkey_eqb_eq); exact Hnd|].
  split.
  { intros l. apply (dict_set_has_key dkey_eqb dkey_eqb_eq). right.
    apply Hall. }
  split; [exact Hdata|].
  intros l Hin Hl. destruct (Hdone l Hin Hl) as (lump & Elump & Hsaved).
  exists lump. split; [exact Elump|]. apply lump_saved_app. exact Hsaved.
Qed.

(** Data set for a key other than those of the lumps already written. *)
Lemma save_inv_set_data (self : BSP) (R : Z -> Z -> Prop) (g0 g1 : Z)
    (done : list BSP_LUMPS) (d d' : DeferredWrites) (f : File) (k : DKey)
    (vals : list pyval) :
  (forall l, In l done -> l <> GAME_LUMP -> k <> KLump l) ->
  save_inv self R g0 g1 done (d, f) ->
  defer_set_data d k vals = Ok d' ->
  save_inv self R g0 g1 done (d', f).
Proof.
  intros Hk
    (Hpos & H1036 & Hg0 & Hg01 & Hg1 & Hloc & Hnd & Hall & Hdata & Hdone) H.
  apply (defer_set_data_inv g0 g1) in H; [|exact Hloc].
  destruct H as (b & Hb & ->).
  cbn [save_inv contents pos loc ddata].
  repeat (split; [assumption|]). split.
  { apply Forall_dict_set; [exact Hdata|].
    unfold data_shape. cbn [fst snd].
    destruct k as [l|id]; cbn [dfmt dsize] in *.
    - apply (pack_length "<ii" [IInt true 4; IInt true 4] 8 vals b);
        [reflexivity|reflexivity|exact Hb].
    - apply (pack_length "<i" [IInt true 4] 4 vals b);
        [reflexivity|reflexivity|exact Hb]. }
  intros l Hin Hl. destruct (Hdone l Hin Hl) as (lump & Elump & Hsaved).
  exists lump. split; [exact Elump|].
  apply lump_saved_set; [apply Hk; assumption|exact Hsaved].
Qed.

Lemma save_game_lump_header_inv (self : BSP) (G0 : Z)
    (done : list BSP_LUMPS) (g : GameLump) st st' :
  game_inv self G0 done st ->
  save_game_lump_header g st = Ok st' ->
  game_inv self G0 done st'.
Proof.
  intros Hinv H. destruct st as [d f]. unfold save_game_lump_header in H.
  inv_bind H. inv_bind H. destruct a0 as [d1 f1].
  inv_bind H. apply Ok_inj in H. subst st'.
  apply game_inv_append.
  apply (game_inv_defer self G0 done d (file_write f a) (gl_id g));
    [|exact Ha0].
  apply game_inv_append. exact Hinv.
Qed.

Lemma save_game_lump_data_inv (self : BSP) (G0 : Z)
    (done : list BSP_LUMPS) (g : GameLump) st st' :
  game_inv self G0 done st ->
  save_game_lump_data g st = Ok st' ->
  game_inv self G0 done st'.
Proof.
  intros Hinv H. destruct st as [d f]. unfold save_game_lump_data in H.
  inv_bind H. apply Ok_inj in H. subst st'.
  apply game_inv_append. unfold game_inv in *. cbn [snd] in *.
  apply (save_inv_set_data self _ _ _ done d a f (KBytes (gl_id g))
           [PInt (file_tell f)]); [|exact Hinv|exact Ha].
  intros l _ _. discriminate.
Qed.

Lemma for_each_inv {A S} (I : S -> Prop) (body : A -> S -> PyResult S)
    (xs : list A) :
  (forall x s s', I s -> body x s = Ok s' -> I s') ->
  forall s s', I s -> for_each xs body s = Ok s' -> I s'.
Proof.
  intros Hstep. induction xs as [|x xs IH]; intros s s' Hs H.
  - cbn [for_each] in H. apply Ok_inj in H. subst s'. exact Hs.
  - cbn [for_each] in H. inv_bind H. apply (IH a s'); [|exact H].
    apply (Hstep x s a Hs Ha).
Qed.

(** The step of the game lump: the lumps written before it lie before its
    block, the deferrals of the game lumps inside of it. *)
Lemma save_lump_game (self : BSP) (gls : list GameLump)
    (done : list BSP_LUMPS) (d : DeferredWrites) (f : File) st' :
  save_inv self (outside 1036 1036) 1036 1036 done (d, f) ->
  save_lump self gls GAME_LUMP (d, f) = Ok st' ->
  save_inv self (outside (len (contents f)) (len (contents (snd st'))))
    (len (contents f)) (len (contents (snd st'))) done st'.
Proof.
  intros Hinv H.
  assert (Hgame : game_inv self (len (contents f)) done (d, f)).
  { unfold game_inv. cbn [snd].
    destruct Hinv
      as (Hpos & H1036 & Hg0 & Hg01 & Hg1 & Hloc & Hnd & Hall & Hdata & Hdone).
    cbn [save_inv]. split; [exact Hpos|]. split; [exact H1036|].
    split; [exact H1036|]. split; [lia|]. split; [lia|]. split.
    { apply (loc_shape_move 1036 1036); [|exact Hloc]. intros off Hoff. lia. }
    split; [exact Hnd|]. split; [exact Hall|]. split; [exact Hdata|].
    intros l Hin Hl. destruct (Hdone l Hin Hl) as (lump & Elump & Hsaved).
    exists lump. split; [exact Elump|].
    apply (lump_saved_weaken (outside 1036 1036)); [|exact Hsaved].
    intros P n HP Hle _. exact Hle. }
  unfold save_lump in H. inv_bind H. rename a into lump.
  change (lump_eqb GAME_LUMP GAME_LUMP) with true in H. cbv iota in H.
  inv_bind H. inv_bind H. destruct a0 as [d1 f1].
  inv_bind H. destruct a0 as [d2 f2].
  inv_bind H. apply Ok_inj in H. subst st'. cbn [snd].
  apply (game_inv_append self _ done d f a) in Hgame.
  apply (for_each_inv (game_inv self (len (contents f)) done)
           save_game_lump_header gls
           (save_game_lump_header_inv self _ done)) in Ha1; [|exact Hgame].
  apply (for_each_inv (game_inv self (len (contents f)) done)
           save_game_lump_data gls
           (save_game_lump_data_inv self _ done)) in Ha2; [|exact Ha1].
  unfold game_inv in Ha2. cbn [snd] in Ha2.
  assert (Hk : forall l, In l done -> l <> GAME_LUMP ->
                 KLump GAME_LUMP <> KLump l).
  { intros l _ Hl Hk. injection Hk as <-. apply Hl. reflexivity. }
  pose proof (save_inv_set_data self _ _ _ done d2 a0 f2 (KLump GAME_LUMP) _
                Hk Ha2 Ha3) as Hfin.
  destruct Hfin
    as (Hpos & H1036 & Hg0 & Hg01 & Hg1 & Hloc & Hnd & Hall & Hdata & Hdone).
  cbn [save_inv]. repeat (split; [assumption|]).
  intros l Hin Hl. destruct (Hdone l Hin Hl) as (lump' & Elump & Hsaved).
  exists lump'. split; [exact Elump|].
  apply (lump_saved_weaken (fun P n => P + n <= len (contents f)));
    [|exact Hsaved].
  intros P n _ _ HP. left. exact HP.
Qed.

(** ** The directory entries *)

Lemma save_lump_header_inv (self : BSP) (x : BSP_LUMPS) st st' :
  header_inv (lump_value x) st ->
  save_lump_header self x st = Ok st' ->
  header_inv (lump_value x + 1) st'.
Proof.
  destruct st as [d f].
  intros (Hpos & Hlen & Hloc & Hnd & Hall & Hdata) H.
  unfold save_lump_header in H. inv_bind H. rename a into lump.
  inv_bind H. destruct a as [d1 f1].
  unfold defer_defer in Ha0.
  change (Struct.calcsize "<ii") with (Ok (A := Z) 8) in Ha0.
  cbn [bind] in Ha0. apply Ok_inj in Ha0. injection Ha0 as <- <-.
  inv_bind H. inv_bind H. apply Ok_inj in H. subst st'.
  apply (pack_length HEADER_LUMP
           [IInt true 4; IInt true 4; IInt true 4; IStr 4] 16) in Ha1;
    [|reflexivity|reflexivity].
  rewrite (file_write_at_end f) by exact Hpos.
  cbn [header_inv contents pos loc ddata].
  split; [reflexivity|]. split.
  { unfold len in *. rewrite length_app. lia. }
  split.
  { apply Forall_dict_set; [exact Hloc|].
    split; [reflexivity|]. cbn [fst snd]. unfold file_tell. lia. }
  split; [apply (dict_set_NoDup dkey_eqb dkey_eqb_eq); exact Hnd|].
  split; [|exact Hdata].
  intros l Hl. apply (dict_set_has_key dkey_eqb dkey_eqb_eq).
  destruct (Z.eq_dec (lump_value l) (lump_value x)) as [E|E].
  - left. apply lump_value_inj in E. congruence.
  - right. apply Hall. lia.
Qed.

Lemma save_lump_headers (self : BSP) :
  forall (rest prefix : list BSP_LUMPS) st st',
  prefix ++ rest = all_lumps ->
  header_inv (len prefix) st ->
  for_each rest (save_lump_header self) st = Ok st' ->
  header_inv 64 st'.
Proof.
  induction rest as [|x rest IH]; intros prefix st st' Hall Hinv H.
  - cbn [for_each] in H. apply Ok_inj in H. subst st'.
    rewrite app_nil_r in Hall. subst prefix. exact Hinv.
  - cbn [for_each] in H. inv_bind H.
    assert (Hx : lump_value x = len prefix).
    { apply nth_error_all_lumps_inv. rewrite <- Hall.
      rewrite nth_error_app2 by lia. rewrite Nat.sub_diag. reflexivity. }
    rewrite <- Hx in Hinv.
    apply (save_lump_header_inv self x st a Hinv) in Ha.
    apply (IH (prefix ++ [x]) a st'); [|  |exact H].
    + rewrite <- app_assoc. exact Hall.
    + unfold len in *. rewrite length_app. cbn [List.length].
      replace (Z.of_nat (List.length prefix + 1)) with (lump_value x + 1)
        by lia.
      exact Ha.
Qed.

(** ** The deferred writes *)

Lemma defer_write_unfold (d : DeferredWrites) (f : File) :
  defer_write d f
  = ('(_, f') <- for_each (loc d) write_deferred (ddata d, f) ;;
     file_seek f' (file_tell f)).
Proof. reflexivity. Qed.

Lemma write_deferred_loop (g0 g1 : Z) :
  1036 <= g0 ->
  forall (entries : list (DKey * (Z * string))) (dd : list (DKey * bytes))
         (f : File) st',
  Forall (loc_shape g0 g1) entries ->
  NoDup (map fst entries) ->
  Forall data_shape dd ->
  g1 <= len (contents f) ->
  1036 <= len (contents f) ->
  for_each entries write_deferred (dd, f) = Ok st' ->
  len (contents (snd st')) = len (contents f)
  /\ (forall a n, 1036 <= a -> outside g0 g1 a (Z.of_nat n) ->
        bytes_at (contents (snd st')) a n = bytes_at (contents f) a n)
  /\ (forall l,
        (In (KLump l) (map fst entries) ->
         forall b, dict_get dkey_eqb dd (KLump l) = Some b ->
                   bytes_at (contents (snd st')) (8 + 16 * lump_value l) 8 = b)
        /\ (~ In (KLump l) (map fst entries) ->
            bytes_at (contents (snd st')) (8 + 16 * lump_value l) 8
            = bytes_at (contents f) (8 + 16 * lump_value l) 8)).
Proof.
  intros Hg0. induction entries as [|[k [off fmt]] entries IH];
    intros dd f st' Hloc Hnd Hdata Hg1 H1036 H.
  - cbn [for_each] in H. apply Ok_inj in H. subst st'. cbn [snd].
    split; [reflexivity|]. split; [reflexivity|].
    intros l. split; [intros []|reflexivity].
  - cbn [for_each] in H. inv_bind H. unfold write_deferred in Ha.
    cbv beta iota in Ha.
    destruct (dict_get dkey_eqb dd k) as [b|] eqn:Eb; [|discriminate Ha].
    unfold file_seek in Ha.
    inversion Hloc as [|e es [Hfmt Hoff] Hloc']. subst e es.
    cbn [fst snd] in Hfmt, Hoff.
    assert (Hb : len b = dsize k).
    { apply (dict_get_In dkey_eqb dkey_eqb_eq) in Eb.
      rewrite Forall_forall in Hdata. apply (Hdata _ Eb). }
    assert (Hin : 0 <= off /\ off + len b <= len (contents f)
                  /\ (forall p n, 1036 <= p -> outside g0 g1 p (Z.of_nat n) ->
                        off + len b <= p \/ p + Z.of_nat n <= off)
                  /\ (forall l, k <> KLump l ->
                        off + len b <= 8 + 16 * lump_value l
                        \/ 8 + 16 * lump_value l + 8 <= off)).
    { rewrite Hb. destruct k as [l'|id]; cbn [dsize] in *.
      - pose proof (lump_value_range l'). subst off.
        split; [lia|]. split; [lia|]. split; [intros p n Hp _; lia|].
        intros l Hl.
        assert (lump_value l <> lump_value l')
          by (intros E; apply lump_value_inj in E; congruence).
        lia.
      - split; [lia|]. split; [lia|]. split.
        + intros p n Hp [Hout|Hout]; lia.
        + intros l _. pose proof (lump_value_range l). lia. }
    destruct Hin as (Hoff0 & Hoffle & Hregion & Hentry).
    destruct (Z.ltb_spec off 0) as [|_]; [lia|].
    cbn [bind] in Ha. apply Ok_inj in Ha. subst a.
    destruct (file_patch (contents f) b off Hoff0 Hoffle)
      as (c2 & Hw & Hlen2 & Hat & Hkeep).
    cbn [contents] in H. rewrite Hw in H.
    inversion Hnd as [|k0 ks Hnotin Hnd']. subst k0 ks.
    apply IH in H;
      [|exact Hloc'|exact Hnd'|apply Forall_dict_remove; exact Hdata
       |cbn [contents]; lia|cbn [contents]; lia].
    cbn [contents] in H. destruct H as (Hlen' & Hreg' & Hdir').
    split; [lia|]. split.
    { intros p n Hp Hout. rewrite (Hreg' p n Hp Hout).
      apply Hkeep; [lia|]. apply Hregion; assumption. }
    intros l. pose proof (lump_value_range l) as Hv.
    destruct (Hdir' l) as [Hdir1 Hdir2].
    destruct (dkey_eqb k (KLump l)) eqn:Ek.
    + apply dkey_eqb_eq in Ek. subst k. cbn [dsize] in Hb.
      cbn [map fst] in *. subst off.
      assert (Hb8 : List.length b = 8%nat) by (unfold len in Hb; lia).
      split.
      * intros _ b' Hb'. rewrite Eb in Hb'. injection Hb' as <-.
        rewrite (Hdir2 Hnotin). rewrite <- Hb8. exact Hat.
      * intros Hno. exfalso. apply Hno. left. reflexivity.
    + assert (Hk : k <> KLump l).
      { intros E. subst k.
        rewrite (proj2 (dkey_eqb_eq (KLump l) (KLump l)) eq_refl) in Ek.
        discriminate Ek. }
      assert (Hsame : bytes_at c2 (8 + 16 * lump_value l) 8
                      = bytes_at (contents f) (8 + 16 * lump_value l) 8).
      { apply Hkeep; [lia|]. destruct (Hentry l Hk); [left|right]; lia. }
      cbn [map fst]. split.
      * intros [E|Hin] b' Hb'; [congruence|].
        apply (Hdir1 Hin).
        rewrite (dict_get_remove_other dkey_eqb dkey_eqb_eq) by exact Hk.
        exact Hb'.
      * intros Hno. rewrite Hdir2; [exact Hsame|].
        intros Hin. apply Hno. right. exact Hin.
Qed.

(** ** The whole of [save] *)

(** The order of the lumps in the file: those before the game lump, the
    game lump, the others, and the pakfile last. *)
Lemma LUMP_WRITE_ORDER_parts :
  LUMP_WRITE_ORDER
  = firstn 35 all_lumps ++ [GAME_LUMP]
    ++ filter (fun l => negb (lump_eqb l PAKFILE)) (skipn 36 all_lumps)
    ++ [PAKFILE].
Proof. vm_compute. reflexivity. Qed.

Lemma not_In_by_eqb (l : BSP_LUMPS) (ls : list BSP_LUMPS) :
  existsb (lump_eqb l) ls = false -> ~ In l ls.
Proof.
  intros H Hin.
  assert (Hex : existsb (lump_eqb l) ls = true)
    by (apply existsb_exists; exists l; split;
        [exact Hin|apply lump_eqb_eq; reflexivity]).
  congruence.
Qed.

Lemma In_by_eqb (l : BSP_LUMPS) (ls : list BSP_LUMPS) :
  existsb (lump_eqb l) ls = true -> In l ls.
Proof.
  intros H. apply existsb_exists in H. destruct H as [x [Hx E]].
  apply lump_eqb_eq in E. subst x. exact Hx.
Qed.

Lemma before_game_regular : ~ In GAME_LUMP (firstn 35 all_lumps).
Proof. apply not_In_by_eqb. vm_compute. reflexivity. Qed.

Lemma after_game_regular :
  ~ In GAME_LUMP
      (filter (fun l => negb (lump_eqb l PAKFILE)) (skipn 36 all_lumps)).
Proof. apply not_In_by_eqb. vm_compute. reflexivity. Qed.

(** Every lump but the game lump is written by one of the regular steps. *)
Lemma regular_lumps_written (l : BSP_LUMPS) :
  l <> GAME_LUMP ->
  In l (PAKFILE
        :: rev (filter (fun l => negb (lump_eqb l PAKFILE))
                       (skipn 36 all_lumps))
        ++ rev (firstn 35 all_lumps) ++ []).
Proof.
  intros Hl. apply In_by_eqb.
  destruct l; try (vm_compute; reflexivity). exfalso. apply Hl. reflexivity.
Qed.

Lemma for_each_single {A S} (x : A) (body : A -> S -> PyResult S) (s s' : S) :
  for_each [x] body s = Ok s' -> body x s = Ok s'.
Proof.
  cbn [for_each]. destruct (body x s) as [s1|e]; cbn [bind]; congruence.
Qed.

Ltac bind_inv H x Hx :=
  cbv beta iota in H; apply bind_Ok in H; destruct H as [x [Hx H]];
  cbv beta iota in H.

(** What [save] leaves in the file for a lump other than the game lump. *)
Lemma BSP_save_inv (self : BSP) (out : bytes) :
  BSP_save self = Ok out ->
  forall l, l <> GAME_LUMP ->
  exists lump P,
    dict_get lump_eqb (lumps self) l = Some lump
    /\ 1036 <= P
    /\ P + len (lump_data lump) <= len out
    /\ dir_offset out l = P
    /\ dir_length out l = len (lump_data lump)
    /\ bytes_at out P (List.length (lump_data lump)) = lump_data lump
    /\ (l = PAKFILE -> P + len (lump_data lump) = len out).
Proof.
  intros H. unfold BSP_save in H.
  bind_inv H v Hv. clear Hv.
  bind_inv H b1 Hb1.
  apply (pack_length HEADER_1 [IStr 4; IInt true 4] 8) in Hb1;
    [|reflexivity|reflexivity].
  bind_inv H st1 Hst1. destruct st1 as [d1 f1].
  apply (save_lump_headers self all_lumps [] _ (d1, f1)) in Hst1;
    [|reflexivity|].
  2:{ rewrite (file_write_at_end (file_open [])) by reflexivity.
      cbn [header_inv contents pos loc ddata DeferredWrites_new file_open app].
      split; [reflexivity|]. split; [cbn; lia|].
      split; [constructor|]. split; [constructor|].
      split; [|reflexivity].
      intros l Hl. pose proof (lump_value_range l). cbn in Hl. lia. }
  destruct Hst1 as (Hpos1 & Hlen1 & Hloc1 & Hnd1 & Hall1 & Hdata1).
  bind_inv H b2 Hb2.
  apply (pack_length HEADER_2 [IInt true 4] 4) in Hb2;
    [|reflexivity|reflexivity].
  bind_inv H st4 Hloop. destruct st4 as [d4 f4].
  bind_inv H file Hwrite.
  apply Ok_inj in H. subst out.
  (* The state before the first lump. *)
  assert (Hinv0 : save_inv self (outside 1036 1036) 1036 1036 []
                    (d1, file_write f1 b2)).
  { rewrite (file_write_at_end f1) by exact Hpos1.
    cbn [save_inv contents pos].
    assert (Hlen : len (contents f1 ++ b2) = 1036)
      by (unfold len in *; rewrite length_app; lia).
    rewrite Hlen. split; [reflexivity|]. split; [lia|]. split; [lia|].
    split; [lia|]. split; [lia|]. split; [exact Hloc1|].
    split; [exact Hnd1|]. split.
    { intros l. apply Hall1. pose proof (lump_value_range l). lia. }
    split; [rewrite Hdata1; constructor|]. intros l []. }
  (* The four parts of the loop over the lumps. *)
  rewrite LUMP_WRITE_ORDER_parts in Hloop.
  rewrite for_each_app in Hloop.
  bind_inv Hloop sta Ha. destruct sta as [da fa].
  apply (save_lumps_regular self _ 1036 1036 _
           before_game_regular [] _ _ Hinv0) in Ha.
  rewrite for_each_app in Hloop.
  bind_inv Hloop stb Hb. destruct stb as [db fb].
  apply for_each_single in Hb. rename Hb into Hgame.
  apply (save_lump_game self _ _ da fa _ Ha) in Hgame. cbn [snd] in Hgame.
  rewrite for_each_app in Hloop.
  bind_inv Hloop stc Hc. destruct stc as [dc fc].
  apply (save_lumps_regular self _ _ _ _
           after_game_regular _ _ _ Hgame) in Hc.
  apply for_each_single in Hloop. rename Hloop into Hpak.
  apply (save_lump_regular self _ _ _ _ PAKFILE dc fc _
           ltac:(discriminate) Hc) in Hpak.
  cbn [fst snd] in Hpak.
  destruct Hpak as (Hinv & pak & Epak & Hcpak & Hdpak & Hppak & Hnpak).
  destruct Hinv
    as (Hpos & H1036 & Hg0 & Hg01 & Hg1 & Hloc & Hnd & Hall & Hdata & Hdone).
  (* The deferred writes. *)
  rewrite defer_write_unfold in Hwrite.
  bind_inv Hwrite std Hdefer. destruct std as [dd' f'].
  unfold file_seek in Hwrite.
  destruct (file_tell f4 <? 0); [discriminate Hwrite|].
  apply Ok_inj in Hwrite. subst file. cbn [contents].
  apply (write_deferred_loop (len (contents fa)) (len (contents fb)) Hg0
           (loc d4) (ddata d4) f4 _ Hloc Hnd Hdata Hg1 H1036) in Hdefer.
  cbn [snd] in Hdefer. destruct Hdefer as (Hlen' & Hreg & Hdir).
  assert (Hentry : forall l P n,
             dict_get dkey_eqb (ddata d4) (KLump l)
             = Some (le_encode 4 P ++ le_encode 4 n) ->
             - 2 ^ 31 <= P < 2 ^ 31 -> - 2 ^ 31 <= n < 2 ^ 31 ->
             dir_offset (contents f') l = P /\ dir_length (contents f') l = n).
  { intros l P n Hdd HP Hn.
    destruct (Hdir l) as [Hdir1 _].
    specialize (Hdir1 (Hall l) _ Hdd).
    pose proof (lump_value_range l) as Hrange.
    apply (bytes_at_split _ _ 4 4) in Hdir1;
      [|lia|apply length_le_encode|apply length_le_encode].
    destruct Hdir1 as [Hoff Hlen].
    unfold dir_offset, dir_length. rewrite Hoff.
    change (Z.of_nat 4) with 4 in Hlen. rewrite Hlen.
    rewrite !le_signed_le_encode_4 by assumption. split; reflexivity. }
  intros l Hl.
  destruct (lump_eqb l PAKFILE) eqn:Epk.
  - apply lump_eqb_eq in Epk. subst l.
    exists pak, (len (contents fc)).
    assert (Hlen4 : len (contents f4)
                    = len (contents fc) + len (lump_data pak))
      by (rewrite Hcpak; unfold len; rewrite length_app; lia).
    assert (Hn0 : 0 <= len (lump_data pak)) by (unfold len; lia).
    assert (Hc0 : 0 <= len (contents fc)) by (unfold len; lia).
    destruct Hc as (_ & H1036c & _ & _ & Hg1c & _).
    destruct (Hentry PAKFILE _ _ Hdpak) as [Hoff Hlen]; [lia|lia|].
    split; [exact Epak|]. split; [lia|]. split; [lia|].
    split; [exact Hoff|]. split; [exact Hlen|]. split; [|intros _; lia].
    rewrite Hreg; [|lia|right; exact Hg1c].
    rewrite Hcpak. apply bytes_at_app_new.
  - destruct (Hdone l (regular_lumps_written l Hl) Hl)
      as (lump & Elump & P & Hdd & HP & HP' & Hn & Hat & Hle & HR).
    exists lump, P.
    assert (Hn0 : 0 <= len (lump_data lump)) by (unfold len; lia).
    destruct (Hentry l _ _ Hdd) as [Hoff Hlen]; [lia|lia|].
    split; [exact Elump|]. split; [exact HP|]. split; [lia|].
    split; [exact Hoff|]. split; [exact Hlen|]. split.
    + rewrite Hreg; [exact Hat|exact HP|exact HR].
    + intros ->. rewrite (proj2 (lump_eqb_eq PAKFILE PAKFILE) eq_refl) in Epk.
      discriminate Epk.
Qed.

Lemma get_lump_dict (self : BSP) (l : BSP_LUMPS) (lump : Lump) :
  dict_get lump_eqb (lumps self) l = Some lump ->
  get_lump self l = Ok (lump_data lump).
Proof.
  intros H. unfold get_lump, dict_lookup. rewrite H. reflexivity.
Qed.

(** X26.  [save] puts the data of every lump but the game lump after the
    1036 bytes of the header, and the directory entry of the lump in the
    saved file holds the offset of that data and its length: the bytes of
    the file at the offset of the entry are the lump's data. *)
Theorem bsp_save_directory (self : BSP) (out : bytes) :
  BSP_save self = Ok out ->
  forall l, l <> GAME_LUMP ->
  exists data,
    get_lump self l = Ok data
    /\ 1036 <= dir_offset out l
    /\ dir_length out l = len data
    /\ dir_offset out l + dir_length out l <= len out
    /\ bytes_at out (dir_offset out l) (List.length data) = data.
Proof.
  intros H l Hl.
  destruct (BSP_save_inv self out H l Hl)
    as (lump & P & Elump & HP & Hle & Hoff & Hlen & Hat & _).
  exists (lump_data lump). rewrite Hoff, Hlen.
  split; [apply get_lump_dict; exact Elump|].
  repeat split; assumption.
Qed.

Lemma bsp_save_directory_witness :
  BSP_save sample_BSP = Ok sample_file
  /\ forall l, l <> GAME_LUMP ->
     exists data,
       get_lump sample_BSP l = Ok data
       /\ 1036 <= dir_offset sample_file l
       /\ dir_length sample_file l = len data
       /\ dir_offset sample_file l + dir_length sample_file l
          <= len sample_file
       /\ bytes_at sample_file (dir_offset sample_file l) (List.length data)
          = data.
Proof.
  assert (H : BSP_save sample_BSP = Ok sample_file)
    by (vm_compute; reflexivity).
  split; [exact H|].
  exact (bsp_save_directory sample_BSP sample_file H).
Defined.

(** X27.  The pakfile is the end of the saved file: whatever the lumps and
    the game lumps hold, the file [save] writes ends with the data of the
    PAKFILE lump. *)
Theorem bsp_save_pakfile_last (self : BSP) (out : bytes) :
  BSP_save self = Ok out ->
  exists pre pak, get_lump self PAKFILE = Ok pak /\ out = pre ++ pak.
Proof.
  intros H.
  destruct (BSP_save_inv self out H PAKFILE ltac:(discriminate))
    as (lump & P & Elump & HP & Hle & Hoff & Hlen & Hat & Hlast).
  specialize (Hlast eq_refl).
  exists (firstn (Z.to_nat P) out), (lump_data lump).
  split; [apply get_lump_dict; exact Elump|].
  rewrite <- (firstn_skipn (Z.to_nat P) out) at 1. f_equal.
  unfold bytes_at in Hat.
  transitivity (firstn (List.length (lump_data lump))
                  (skipn (Z.to_nat P) out)); [|exact Hat].
  symmetry. apply firstn_all2. rewrite length_skipn. unfold len in *. lia.
Qed.

Lemma bsp_save_pakfile_last_witness :
  BSP_save sample_BSP = Ok sample_file
  /\ exists pre pak,
       get_lump sample_BSP PAKFILE = Ok pak /\ sample_file = pre ++ pak.
Proof.
  assert (H : BSP_save sample_BSP = Ok sample_file)
    by (vm_compute; reflexivity).
  split; [exact H|].
  exact (bsp_save_pakfile_last sample_BSP sample_file H).
Defined.

(** X28.  Saving and reading keeps the lumps: when [save] succeeds and a
    [read] of the saved file succeeds, [get_lump] returns for every lump
    but the game lump the data the lump had when it was saved. *)
Theorem bsp_save_then_read (self : BSP) (out : bytes) (sv : version_t)
    (bsp : BSP) :
  BSP_save self = Ok out ->
  BSP_read sv out = Ok bsp ->
  forall l, l <> GAME_LUMP -> get_lump bsp l = get_lump self l.
Proof.
  intros Hs Hr l Hl.
  destruct (BSP_save_inv self out Hs l Hl)
    as (lump & P & Elump & HP & Hle & Hoff & Hlen & Hat & _).
  rewrite (get_lump_dict self l lump Elump).
  apply BSP_read_inv in Hr. destruct Hr as (_ & _ & _ & _ & _ & Hlumps).
  unfold get_lump, dict_lookup. rewrite Hlumps.
  rewrite (dict_get_all_lumps
             (fun l => if lump_eqb l GAME_LUMP
                       then (l, Lump_with_data (snd (read_lump out l)) [])
                       else read_lump out l) l)
    by (intros x; destruct (lump_eqb x GAME_LUMP); reflexivity).
  cbn [bind]. destruct (lump_eqb l GAME_LUMP) eqn:E;
    [apply lump_eqb_eq in E; contradiction|].
  cbn [read_lump snd Lump_with_data lump_data]. f_equal.
  unfold file_slice. rewrite Hoff, Hlen.
  destruct (Z.eqb_spec (len (lump_data lump)) (-1)) as [Hneg|_];
    [unfold len in Hneg; lia|].
  unfold bytes_at in Hat. unfold len. rewrite Nat2Z.id. exact Hat.
Qed.

Lemma bsp_save_then_read_witness :
  BSP_save sample_BSP = Ok sample_file
  /\ BSP_read VNone sample_file = Ok sample_BSP
  /\ forall l, l <> GAME_LUMP ->
       get_lump sample_BSP l = get_lump sample_BSP l.
Proof.
  assert (Hs : BSP_save sample_BSP = Ok sample_file)
    by (vm_compute; reflexivity).
  assert (Hr : BSP_read VNone sample_file = Ok sample_BSP)
    by (vm_compute; reflexivity).
  split; [exact Hs|]. split; [exact Hr|].
  exact (bsp_save_then_read sample_BSP sample_file VNone sample_BSP Hs Hr).
Defined.

(** The sample file: the data of the first lump stands right after the
    header, the pakfile at the end. *)
Example sample_file_layout :
  len sample_file = 1287
  /\ dir_offset sample_file ENTITIES = 1036
  /\ dir_length sample_file ENTITIES = 2
  /\ dir_offset sample_file PAKFILE = 1285
  /\ bytes_at sample_file 1285 2 = bytes_of_string "PK".
Proof. repeat split; vm_compute; reflexivity. Qed.

(** * [BSP.save], step by step *)

(** ** Lengths *)

Lemma len_app {A} (a b : list A) : len (a ++ b) = len a + len b.
Proof. unfold len. rewrite length_app. lia. Qed.

Lemma len_le_encode (n : nat) (z : Z) : len (le_encode n z) = Z.of_nat n.
Proof. unfold len. rewrite length_le_encode. reflexivity. Qed.

Lemma len_nonneg {A} (a : list A) : 0 <= len a.
Proof. unfold len. lia. Qed.

(** ** Packed values *)

Lemma bytes_of_ints_inv (l : list Z) (b : bytes) :
  bytes_of_ints l = Ok b ->
  b = map byte_of_Z l /\ Forall (fun z => 0 <= z < 256) l.
Proof.
  revert b. induction l as [|z l IH]; intros b H; cbn [bytes_of_ints] in H.
  - apply Ok_inj in H. subst b. split; constructor.
  - destruct ((0 <=? z) && (z <? 256)) eqn:E; [|discriminate H].
    inv_bind H. apply Ok_inj in H. subst b.
    destruct (IH a Ha) as [-> Hall].
    apply andb_true_iff in E. destruct E as [E1 E2].
    apply Z.leb_le in E1. apply Z.ltb_lt in E2.
    split; [reflexivity|]. constructor; [lia|exact Hall].
Qed.

Lemma pack_header_lump (v : Z) (ident r : bytes) :
  Struct.pack HEADER_LUMP [PInt 0; PInt 0; PInt v; PBytes ident] = Ok r ->
  r = le_encode 4 0 ++ le_encode 4 0 ++ le_encode 4 v ++ Struct.pad_to 4 ident
  /\ - 2 ^ 31 <= v < 2 ^ 31.
Proof.
  unfold Struct.pack.
  change (Struct.parse HEADER_LUMP)
    with (Ok [IInt true 4; IInt true 4; IInt true 4; IStr 4]).
  cbn [bind]. intros H.
  apply pack_items_int in H. destruct H as (_ & r1 & H & ->).
  apply pack_items_int in H. destruct H as (_ & r2 & H & ->).
  apply pack_items_int in H. destruct H as (Hv & r3 & H & ->).
  cbn [Struct.pack_items bind] in H. apply Ok_inj in H. subst r3.
  rewrite app_nil_r. split; [reflexivity|].
  unfold Struct.int_in_range in Hv. change (8 * Z.of_nat 4 - 1) with 31 in Hv.
  apply andb_true_iff in Hv. destruct Hv as [H1 H2].
  apply Z.leb_le in H1. apply Z.ltb_lt in H2. lia.
Qed.

Lemma pack_items_str (n : nat) (its : list item) (s : bytes)
    (vals : list pyval) (b : bytes) :
  Struct.pack_items (IStr n :: its) (PBytes s :: vals) = Ok b ->
  exists rest, Struct.pack_items its vals = Ok rest
               /\ b = Struct.pad_to n s ++ rest.
Proof.
  cbn [Struct.pack_items bind]. intros H. inv_bind H.
  apply Ok_inj in H. subst b. exists a. split; [exact Ha|reflexivity].
Qed.

Lemma pack_game_lump_head (id r : bytes) (flags version : Z) :
  Struct.pack "<4s HH" [PBytes id; PInt flags; PInt version] = Ok r ->
  r = Struct.pad_to 4 id ++ le_encode 2 flags ++ le_encode 2 version
  /\ 0 <= flags < 2 ^ 16 /\ 0 <= version < 2 ^ 16.
Proof.
  unfold Struct.pack.
  change (Struct.parse "<4s HH")
    with (Ok [IStr 4; IInt false 2; IInt false 2]).
  cbn [bind]. intros H.
  apply pack_items_str in H. destruct H as (r0 & H & ->).
  apply pack_items_int in H. destruct H as (Hf & r1 & H & ->).
  apply pack_items_int in H. destruct H as (Hv & r2 & H & ->).
  cbn [Struct.pack_items] in H. apply Ok_inj in H. subst r2.
  rewrite !app_nil_r. split; [reflexivity|].
  unfold Struct.int_in_range in Hf, Hv.
  change (8 * Z.of_nat 2) with 16 in Hf, Hv.
  apply andb_true_iff in Hf, Hv. destruct Hf as [H1 H2], Hv as [H3 H4].
  apply Z.leb_le in H1, H3. apply Z.ltb_lt in H2, H4. lia.
Qed.

Lemma pack_one_int_range (a : Z) (r : bytes) :
  Struct.pack "<i" [PInt a] = Ok r ->
  r = le_encode 4 a /\ - 2 ^ 31 <= a < 2 ^ 31.
Proof.
  intros H. split; [apply pack_one_int; exact H|].
  unfold Struct.pack in H.
  change (Struct.parse "<i") with (Ok [IInt true 4]) in H.
  cbn [bind] in H. apply pack_items_int in H. destruct H as (Ha & _).
  unfold Struct.int_in_range in Ha. change (8 * Z.of_nat 4 - 1) with 31 in Ha.
  apply andb_true_iff in Ha. destruct Ha as [H1 H2].
  apply Z.leb_le in H1. apply Z.ltb_lt in H2. lia.
Qed.

(** ** Deferrals, exactly *)

Lemma defer_set_data_exact (d d' : DeferredWrites) (k : DKey)
    (vals : list pyval) (off : Z) (fmt : string) :
  dict_get dkey_eqb (loc d) k = Some (off, fmt) ->
  defer_set_data d k vals = Ok d' ->
  exists b,
    Struct.pack fmt vals = Ok b
    /\ d' = mkDefer (loc d) (dict_set dkey_eqb (ddata d) k b).
Proof.
  intros Hloc H. unfold defer_set_data, dict_lookup in H.
  rewrite Hloc in H. cbn [bind] in H. inv_bind H.
  apply Ok_inj in H. subst d'. exists a. split; [exact Ha|reflexivity].
Qed.

Lemma dict_set_fresh {V} (d : list (DKey * V)) (k : DKey) (v : V) :
  ~ In k (map fst d) -> dict_set dkey_eqb d k v = d ++ [(k, v)].
Proof.
  intros Hk. apply dict_set_new. intros e He.
  apply (eqb_neq dkey_eqb dkey_eqb_eq). intros ->. apply Hk.
  apply in_map. exact He.
Qed.

Lemma dict_get_app {V} (a b : list (DKey * V)) (k : DKey) :
  dict_get dkey_eqb (a ++ b) k
  = match dict_get dkey_eqb a k with
    | Some v => Some v
    | None => dict_get dkey_eqb b k
    end.
Proof.
  induction a as [|[k' v'] a IH]; cbn [app dict_get]; [reflexivity|].
  destruct (dkey_eqb k k'); [reflexivity|exact IH].
Qed.

Lemma dict_get_absent {V} (d : list (DKey * V)) (k : DKey) :
  ~ In k (map fst d) -> dict_get dkey_eqb d k = None.
Proof.
  intros Hk. induction d as [|[k' v'] d IH]; cbn [dict_get]; [reflexivity|].
  rewrite (eqb_neq dkey_eqb dkey_eqb_eq)
    by (intros ->; apply Hk; left; reflexivity).
  apply IH. intros Hin. apply Hk. right. exact Hin.
Qed.

(** ** The directory entries, exactly *)

Lemma lump_of_get (self : BSP) (l : BSP_LUMPS) (lump : Lump) :
  dict_get lump_eqb (lumps self) l = Some lump -> lump_of self l = lump.
Proof. intros H. unfold lump_of. rewrite H. reflexivity. Qed.

Lemma save_lump_header_exact (self : BSP) (x : BSP_LUMPS)
    (d : DeferredWrites) (f : File) st' :
  pos f = len (contents f) ->
  save_lump_header self x (d, f) = Ok st' ->
  st' = (mkDefer (dict_set dkey_eqb (loc d) (KLump x)
                    (len (contents f), "<ii"%string)) (ddata d),
         mkFile (contents f ++ lump_entry0 self x)
                (len (contents f ++ lump_entry0 self x)))
  /\ (exists lump, dict_get lump_eqb (lumps self) x = Some lump)
  /\ - 2 ^ 31 <= lump_version (lump_of self x) < 2 ^ 31
  /\ Forall (fun z => 0 <= z < 256) (lump_ident (lump_of self x)).
Proof.
  intros Hpos H. unfold save_lump_header in H.
  inv_bind H. rename a into lump. unfold dict_lookup in Ha.
  destruct (dict_get lump_eqb (lumps self) x) as [lump'|] eqn:Elump;
    [|discriminate Ha].
  apply Ok_inj in Ha. subst lump'.
  inv_bind H. destruct a as [d1 f1].
  unfold defer_defer in Ha.
  change (Struct.calcsize "<ii") with (Ok (A := Z) 8) in Ha.
  cbn [bind] in Ha. apply Ok_inj in Ha. injection Ha as <- <-.
  inv_bind H. inv_bind H. apply Ok_inj in H. subst st'.
  apply bytes_of_ints_inv in Ha. destruct Ha as [-> Hident].
  apply pack_header_lump in Ha0. destruct Ha0 as [-> Hv].
  rewrite (file_write_at_end f) by exact Hpos.
  unfold lump_entry0, ident_bytes, file_tell.
  rewrite (lump_of_get self x lump Elump), Hpos.
  repeat split; try assumption; try lia. exists lump. reflexivity.
Qed.

(** ** The header loop, exactly *)

Lemma length_pad_to (n : nat) (b : bytes) :
  List.length (Struct.pad_to n b) = n.
Proof.
  unfold Struct.pad_to, zero_bytes.
  rewrite length_app, length_firstn, repeat_length. lia.
Qed.

Lemma pad_to_exact (n : nat) (b : bytes) :
  List.length b = n -> Struct.pad_to n b = b.
Proof.
  intros H. unfold Struct.pad_to. rewrite <- H, firstn_all, Nat.sub_diag.
  apply app_nil_r.
Qed.

Lemma length_lump_entry0 (self : BSP) (l : BSP_LUMPS) :
  List.length (lump_entry0 self l) = 16%nat.
Proof.
  unfold lump_entry0, ident_bytes.
  rewrite !length_app, !length_le_encode, length_pad_to. reflexivity.
Qed.

Lemma lump_value_at (pre rest : list BSP_LUMPS) (x : BSP_LUMPS) :
  pre ++ x :: rest = all_lumps ->
  lump_value x = len pre /\ ~ In x pre /\ ~ In x rest.
Proof.
  intros Hall. split; [|split].
  - apply nth_error_all_lumps_inv. rewrite <- Hall.
    rewrite nth_error_app2 by lia. rewrite Nat.sub_diag. reflexivity.
  - pose proof NoDup_all_lumps as Hnd. rewrite <- Hall in Hnd.
    apply NoDup_remove_2 in Hnd. intros Hin. apply Hnd.
    apply in_or_app. left. exact Hin.
  - pose proof NoDup_all_lumps as Hnd. rewrite <- Hall in Hnd.
    apply NoDup_remove_2 in Hnd. intros Hin. apply Hnd.
    apply in_or_app. right. exact Hin.
Qed.

Lemma header_loc_keys (ls : list BSP_LUMPS) :
  map fst (map header_loc ls) = map KLump ls.
Proof. rewrite map_map. reflexivity. Qed.

Lemma In_KLump (x : BSP_LUMPS) (ls : list BSP_LUMPS) :
  In (KLump x) (map KLump ls) -> In x ls.
Proof.
  intros H. apply in_map_iff in H. destruct H as (y & Hy & Hin).
  injection Hy as ->. exact Hin.
Qed.

Lemma save_lump_headers_exact (self : BSP) :
  forall (rest pre : list BSP_LUMPS) (d : DeferredWrites) (f : File) st',
  pre ++ rest = all_lumps ->
  pos f = len (contents f) ->
  len (contents f) = 8 + 16 * len pre ->
  loc d = map header_loc pre ->
  for_each rest (save_lump_header self) (d, f) = Ok st' ->
  st' = (mkDefer (map header_loc all_lumps) (ddata d),
         mkFile (contents f ++ List.concat (map (lump_entry0 self) rest))
                (len (contents f
                        ++ List.concat (map (lump_entry0 self) rest))))
  /\ forall l, In l rest -> lump_packed self l.
Proof.
  induction rest as [|x rest IH]; intros pre d f st' Hall Hpos Hlen Hloc H.
  - cbn [for_each] in H. apply Ok_inj in H. subst st'.
    rewrite app_nil_r in Hall. subst pre.
    cbn [map List.concat]. rewrite app_nil_r, <- Hpos, <- Hloc.
    split; [destruct d, f; reflexivity|]. intros l [].
  - cbn [for_each] in H. inv_bind H. destruct a as [d1 f1].
    apply save_lump_header_exact in Ha; [|exact Hpos].
    destruct Ha as (Hst & Hx). apply pair_equal_spec in Hst.
    destruct Hst as [-> ->].
    destruct (lump_value_at pre rest x Hall) as (Hv & Hpre & _).
    apply IH with (pre := pre ++ [x]) in H.
    + destruct H as (-> & Hrest). cbn [contents ddata map List.concat].
      rewrite <- !app_assoc. split; [reflexivity|].
      intros l [<-|Hl]; [exact Hx|apply Hrest; exact Hl].
    + rewrite <- app_assoc. exact Hall.
    + reflexivity.
    + cbn [contents]. unfold len. rewrite !length_app, length_lump_entry0.
      cbn [List.length]. unfold len in Hlen. lia.
    + cbn [loc]. rewrite Hloc, dict_set_fresh.
      * rewrite map_app. cbn [map]. unfold header_loc at 3.
        rewrite Hlen, Hv. reflexivity.
      * rewrite header_loc_keys. intros Hin. apply Hpre, In_KLump, Hin.
Qed.

(** ** The lumps with data of their own, exactly *)

Lemma pack_two_ints_range (a b : Z) (r : bytes) :
  Struct.pack "<ii" [PInt a; PInt b] = Ok r ->
  r = le_encode 4 a ++ le_encode 4 b
  /\ - 2 ^ 31 <= a < 2 ^ 31 /\ - 2 ^ 31 <= b < 2 ^ 31.
Proof.
  intros H. split; [apply pack_two_ints; exact H|].
  unfold Struct.pack in H.
  change (Struct.parse "<ii") with (Ok [IInt true 4; IInt true 4]) in H.
  cbn [bind] in H.
  apply pack_items_int in H. destruct H as (Ha & r1 & H & _).
  apply pack_items_int in H. destruct H as (Hb & _).
  unfold Struct.int_in_range in Ha, Hb.
  change (8 * Z.of_nat 4 - 1) with 31 in Ha, Hb.
  apply andb_true_iff in Ha, Hb. destruct Ha as [H1 H2], Hb as [H3 H4].
  apply Z.leb_le in H1, H3. apply Z.ltb_lt in H2, H4. lia.
Qed.

Lemma save_lump_regular_exact (self : BSP) (gls : list GameLump)
    (l : BSP_LUMPS) (d : DeferredWrites) (f : File) (off : Z) st' :
  l <> GAME_LUMP ->
  pos f = len (contents f) ->
  dict_get dkey_eqb (loc d) (KLump l) = Some (off, "<ii"%string) ->
  save_lump self gls l (d, f) = Ok st' ->
  st' = (mkDefer (loc d)
           (dict_set dkey_eqb (ddata d) (KLump l)
              (le_encode 4 (len (contents f))
               ++ le_encode 4 (len (lump_data (lump_of self l))))),
         mkFile (contents f ++ lump_data (lump_of self l))
                (len (contents f ++ lump_data (lump_of self l))))
  /\ - 2 ^ 31 <= len (contents f) < 2 ^ 31
  /\ len (lump_data (lump_of self l)) < 2 ^ 31.
Proof.
  intros Hl Hpos Hloc H. unfold save_lump in H.
  inv_bind H. rename a into lump. unfold dict_lookup in Ha.
  destruct (dict_get lump_eqb (lumps self) l) as [lump'|] eqn:Elump;
    [|discriminate Ha].
  apply Ok_inj in Ha. subst lump'.
  rewrite (lump_of_get self l lump Elump).
  destruct (lump_eqb l GAME_LUMP) eqn:E;
    [apply lump_eqb_eq in E; contradiction|].
  inv_bind H. apply Ok_inj in H. subst st'.
  apply (defer_set_data_exact d a (KLump l) _ off "<ii") in Ha;
    [|exact Hloc].
  destruct Ha as (b & Hb & ->).
  apply pack_two_ints_range in Hb. destruct Hb as (-> & Hr1 & Hr2).
  unfold file_tell in *. rewrite Hpos in *.
  rewrite (file_write_at_end f) by exact Hpos.
  repeat split; lia.
Qed.

Lemma lump_entries_keys (self : BSP) (ls : list BSP_LUMPS) :
  forall P, map fst (lump_entries self P ls) = map KLump ls.
Proof.
  induction ls as [|l ls IH]; intros P; cbn [lump_entries map fst];
    [reflexivity|]. rewrite IH. reflexivity.
Qed.

Lemma save_lumps_regular_exact (self : BSP) (gls : list GameLump) :
  forall (ls : list BSP_LUMPS) (d : DeferredWrites) (f : File) st',
  ~ In GAME_LUMP ls ->
  NoDup ls ->
  pos f = len (contents f) ->
  (forall l, exists off,
      dict_get dkey_eqb (loc d) (KLump l) = Some (off, "<ii"%string)) ->
  (forall l, In l ls -> ~ In (KLump l) (map fst (ddata d))) ->
  for_each ls (save_lump self gls) (d, f) = Ok st' ->
  st' = (mkDefer (loc d)
           (ddata d ++ lump_entries self (len (contents f)) ls),
         mkFile (contents f ++ lump_datas self ls)
                (len (contents f ++ lump_datas self ls)))
  /\ lumps_written self (len (contents f)) ls.
Proof.
  induction ls as [|x ls IH]; intros d f st' Hg Hnd Hpos Hloc Hfresh H.
  - cbn [for_each] in H. apply Ok_inj in H. subst st'.
    cbn [lump_entries lump_datas map List.concat lumps_written].
    rewrite !app_nil_r, <- Hpos. split; [destruct d, f; reflexivity|exact I].
  - cbn [for_each] in H. inv_bind H. destruct a as [d1 f1].
    destruct (Hloc x) as [off Hoff].
    apply (save_lump_regular_exact self gls x d f off) in Ha;
      [|intros ->; apply Hg; left; reflexivity|exact Hpos|exact Hoff].
    destruct Ha as (Hst & Hr1 & Hr2). apply pair_equal_spec in Hst.
    destruct Hst as [-> ->].
    rewrite dict_set_fresh in H by (apply Hfresh; left; reflexivity).
    apply IH in H.
    + destruct H as (-> & Hrest). cbn [loc ddata contents] in *.
      assert (Hlen : len (contents f ++ lump_data (lump_of self x))
                     = len (contents f) + len (lump_data (lump_of self x)))
        by (unfold len; rewrite length_app; lia).
      rewrite Hlen in *.
      cbn [lump_entries lump_datas map List.concat lumps_written].
      unfold lump_datas. rewrite <- !app_assoc. cbn [app].
      split; [reflexivity|]. split; [lia|exact Hrest].
    + intros Hin. apply Hg. right. exact Hin.
    + inversion Hnd. assumption.
    + reflexivity.
    + exact Hloc.
    + intros l Hl. cbn [ddata]. rewrite map_app. cbn [map fst].
      intros Hin. apply in_app_or in Hin. destruct Hin as [Hin|[Hin|[]]].
      * apply (Hfresh l); [right; exact Hl|exact Hin].
      * injection Hin as <-. inversion Hnd. contradiction.
Qed.

(** ** The game lump, exactly *)

Lemma length_game_entry (g : GameLump) (P : Z) :
  List.length (game_entry g P) = 16%nat.
Proof.
  unfold game_entry, game_lump_entry.
  rewrite !length_app, !length_le_encode, length_pad_to. reflexivity.
Qed.

Lemma save_game_lump_header_exact (g : GameLump) (d : DeferredWrites)
    (f : File) st' :
  pos f = len (contents f) ->
  save_game_lump_header g (d, f) = Ok st' ->
  st' = (mkDefer (dict_set dkey_eqb (loc d) (KBytes (gl_id g))
                    (len (contents f) + 8, "<i"%string)) (ddata d),
         mkFile (contents f ++ game_entry g 0)
                (len (contents f ++ game_entry g 0)))
  /\ game_packed g.
Proof.
  intros Hpos H. unfold save_game_lump_header in H.
  inv_bind H. rename a into b1.
  apply pack_game_lump_head in Ha. destruct Ha as (-> & Hf & Hv).
  rewrite (file_write_at_end f) in H by exact Hpos.
  inv_bind H. destruct a as [d1 f1].
  unfold defer_defer in Ha.
  change (Struct.calcsize "<i") with (Ok (A := Z) 4) in Ha.
  cbn [bind] in Ha. apply Ok_inj in Ha.
  apply pair_equal_spec in Ha. destruct Ha as [<- <-].
  rewrite file_write_at_end in H by reflexivity.
  inv_bind H. apply Ok_inj in H. subst st'.
  apply pack_one_int_range in Ha. destruct Ha as (-> & Hlen).
  rewrite file_write_at_end by reflexivity.
  unfold file_tell. cbn [contents pos].
  change (zero_bytes (Z.to_nat 4)) with (le_encode 4 0).
  assert (H8 : len (contents f ++ Struct.pad_to 4 (reversed (gl_id g))
                      ++ le_encode 2 (gl_flags g)
                      ++ le_encode 2 (gl_version g))
               = len (contents f) + 8).
  { unfold len. rewrite !length_app, !length_le_encode, length_pad_to.
    lia. }
  rewrite H8. unfold game_entry, game_lump_entry. rewrite <- !app_assoc.
  split; [reflexivity|unfold game_packed; lia].
Qed.

Lemma game_locs_keys (gls : list GameLump) :
  forall E, map fst (game_locs E gls)
            = map (fun g => KBytes (gl_id g)) gls.
Proof.
  induction gls as [|g gls IH]; intros E; cbn [game_locs map fst];
    [reflexivity|]. rewrite IH. reflexivity.
Qed.

Lemma game_entries_keys (gls : list GameLump) :
  forall P, map fst (game_entries P gls)
            = map (fun g => KBytes (gl_id g)) gls.
Proof.
  induction gls as [|g gls IH]; intros P; cbn [game_entries map fst];
    [reflexivity|]. rewrite IH. reflexivity.
Qed.

Lemma In_KBytes (g : GameLump) (gls : list GameLump) :
  In (KBytes (gl_id g)) (map (fun x => KBytes (gl_id x)) gls) ->
  In (gl_id g) (map gl_id gls).
Proof.
  intros H. apply in_map_iff in H. destruct H as (y & Hy & Hin).
  injection Hy as Hy. rewrite <- Hy. apply in_map. exact Hin.
Qed.

Lemma length_game_directory0 (gls : list GameLump) :
  len (game_directory0 gls) = 16 * len gls.
Proof.
  unfold game_directory0, len.
  induction gls as [|g gls IH]; cbn [map List.concat List.length];
    [reflexivity|].
  rewrite length_app, length_game_entry. lia.
Qed.

Lemma save_game_lump_headers_exact :
  forall (gls : list GameLump) (d : DeferredWrites) (f : File) st',
  NoDup (map gl_id gls) ->
  pos f = len (contents f) ->
  (forall g, In g gls -> ~ In (KBytes (gl_id g)) (map fst (loc d))) ->
  for_each gls save_game_lump_header (d, f) = Ok st' ->
  st' = (mkDefer (loc d ++ game_locs (len (contents f)) gls) (ddata d),
         mkFile (contents f ++ game_directory0 gls)
                (len (contents f ++ game_directory0 gls)))
  /\ Forall game_packed gls.
Proof.
  induction gls as [|g gls IH]; intros d f st' Hnd Hpos Hfresh H.
  - cbn [for_each] in H. apply Ok_inj in H. subst st'.
    cbn [game_locs]. unfold game_directory0. cbn [map List.concat].
    rewrite !app_nil_r, <- Hpos.
    split; [destruct d, f; reflexivity|constructor].
  - cbn [for_each] in H. inv_bind H. destruct a as [d1 f1].
    apply save_game_lump_header_exact in Ha; [|exact Hpos].
    destruct Ha as (Hst & Hg). apply pair_equal_spec in Hst.
    destruct Hst as [-> ->].
    rewrite dict_set_fresh in H by (apply Hfresh; left; reflexivity).
    inversion Hnd as [|? ? Hg1 Hnd1]. subst.
    apply IH in H.
    + destruct H as (-> & Hrest). cbn [loc ddata contents].
      assert (Hlen : len (contents f ++ game_entry g 0)
                     = len (contents f) + 16)
        by (unfold len; rewrite length_app, length_game_entry; lia).
      rewrite Hlen. cbn [game_locs]. unfold game_directory0.
      cbn [map List.concat]. rewrite <- !app_assoc. cbn [app].
      split; [reflexivity|]. constructor; assumption.
    + exact Hnd1.
    + reflexivity.
    + intros x Hx. cbn [loc]. rewrite map_app. cbn [map fst].
      intros Hin. apply in_app_or in Hin. destruct Hin as [Hin|[Hin|[]]].
      * apply (Hfresh x); [right; exact Hx|exact Hin].
      * injection Hin as Hin. apply Hg1. rewrite Hin. apply in_map.
        exact Hx.
Qed.

Lemma save_game_lump_data_exact (g : GameLump) (d : DeferredWrites)
    (f : File) (off : Z) st' :
  pos f = len (contents f) ->
  dict_get dkey_eqb (loc d) (KBytes (gl_id g)) = Some (off, "<i"%string) ->
  save_game_lump_data g (d, f) = Ok st' ->
  st' = (mkDefer (loc d)
           (dict_set dkey_eqb (ddata d) (KBytes (gl_id g))
              (le_encode 4 (len (contents f)))),
         mkFile (contents f ++ gl_data g)
                (len (contents f ++ gl_data g)))
  /\ - 2 ^ 31 <= len (contents f) < 2 ^ 31.
Proof.
  intros Hpos Hloc H. unfold save_game_lump_data in H.
  inv_bind H. apply Ok_inj in H. subst st'.
  apply (defer_set_data_exact d a _ _ off "<i") in Ha; [|exact Hloc].
  destruct Ha as (b & Hb & ->).
  apply pack_one_int_range in Hb. destruct Hb as (-> & Hr).
  unfold file_tell in *. rewrite Hpos in *.
  rewrite (file_write_at_end f) by exact Hpos.
  split; [reflexivity|exact Hr].
Qed.

Lemma length_game_datas_cons (g : GameLump) (gls : list GameLump) :
  len (game_datas (g :: gls)) = len (gl_data g) + len (game_datas gls).
Proof.
  unfold game_datas, len. cbn [map List.concat]. rewrite length_app. lia.
Qed.

Lemma save_game_lump_datas_exact :
  forall (gls : list GameLump) (d : DeferredWrites) (f : File) st',
  NoDup (map gl_id gls) ->
  pos f = len (contents f) ->
  (forall g, In g gls -> exists off,
      dict_get dkey_eqb (loc d) (KBytes (gl_id g))
      = Some (off, "<i"%string)) ->
  (forall g, In g gls -> ~ In (KBytes (gl_id g)) (map fst (ddata d))) ->
  for_each gls save_game_lump_data (d, f) = Ok st' ->
  st' = (mkDefer (loc d) (ddata d ++ game_entries (len (contents f)) gls),
         mkFile (contents f ++ game_datas gls)
                (len (contents f ++ game_datas gls)))
  /\ games_written (len (contents f)) gls.
Proof.
  induction gls as [|g gls IH]; intros d f st' Hnd Hpos Hloc Hfresh H.
  - cbn [for_each] in H. apply Ok_inj in H. subst st'.
    cbn [game_entries games_written]. unfold game_datas.
    cbn [map List.concat]. rewrite !app_nil_r, <- Hpos.
    split; [destruct d, f; reflexivity|exact I].
  - cbn [for_each] in H. inv_bind H. destruct a as [d1 f1].
    destruct (Hloc g (or_introl eq_refl)) as [off Hoff].
    apply (save_game_lump_data_exact g d f off) in Ha;
      [|exact Hpos|exact Hoff].
    destruct Ha as (Hst & Hr). apply pair_equal_spec in Hst.
    destruct Hst as [-> ->].
    rewrite dict_set_fresh in H by (apply Hfresh; left; reflexivity).
    inversion Hnd as [|? ? Hg1 Hnd1]. subst.
    apply IH in H.
    + destruct H as (-> & Hrest). cbn [loc ddata contents] in *.
      assert (Hlen : len (contents f ++ gl_data g)
                     = len (contents f) + len (gl_data g))
        by (unfold len; rewrite length_app; lia).
      rewrite Hlen in *. cbn [game_entries games_written].
      unfold game_datas. cbn [map List.concat].
      rewrite <- !app_assoc. cbn [app].
      split; [reflexivity|]. split; [exact Hr|exact Hrest].
    + exact Hnd1.
    + reflexivity.
    + intros x Hx. apply Hloc. right. exact Hx.
    + intros x Hx. cbn [ddata]. rewrite map_app. cbn [map fst].
      intros Hin. apply in_app_or in Hin. destruct Hin as [Hin|[Hin|[]]].
      * apply (Hfresh x); [right; exact Hx|exact Hin].
      * injection Hin as Hin. apply Hg1. rewrite Hin. apply in_map.
        exact Hx.
Qed.

Lemma game_locs_get (gls : list GameLump) (g : GameLump) :
  forall E, In g gls ->
  exists off, dict_get dkey_eqb (game_locs E gls) (KBytes (gl_id g))
              = Some (off, "<i"%string).
Proof.
  induction gls as [|x gls IH]; intros E Hin; [destruct Hin|].
  cbn [game_locs dict_get].
  destruct (dkey_eqb (KBytes (gl_id g)) (KBytes (gl_id x))) eqn:Ex.
  - eexists. reflexivity.
  - destruct Hin as [->|Hin].
    + rewrite (eqb_refl dkey_eqb dkey_eqb_eq) in Ex. discriminate Ex.
    + apply IH. exact Hin.
Qed.

(** ** The game lump as a whole *)

Lemma save_lump_game_exact (self : BSP) (gls : list GameLump)
    (d : DeferredWrites) (f : File) (off : Z) st' :
  NoDup (map gl_id gls) ->
  pos f = len (contents f) ->
  dict_get dkey_eqb (loc d) (KLump GAME_LUMP) = Some (off, "<ii"%string) ->
  (forall g, In g gls -> ~ In (KBytes (gl_id g)) (map fst (loc d))) ->
  (forall g, In g gls -> ~ In (KBytes (gl_id g)) (map fst (ddata d))) ->
  ~ In (KLump GAME_LUMP) (map fst (ddata d)) ->
  save_lump self gls GAME_LUMP (d, f) = Ok st' ->
  let G0 := len (contents f) in
  let D0 := G0 + 4 + 16 * len gls in
  let G1 := D0 + len (game_datas gls) in
  st' = (mkDefer (loc d ++ game_locs (G0 + 4) gls)
           (ddata d ++ game_entries D0 gls
            ++ [(KLump GAME_LUMP, le_encode 4 G0 ++ le_encode 4 (G1 - G0))]),
         mkFile (contents f ++ le_encode 4 (len gls) ++ game_directory0 gls
                 ++ game_datas gls) G1)
  /\ G1 = len (contents f ++ le_encode 4 (len gls) ++ game_directory0 gls
               ++ game_datas gls)
  /\ len gls < 2 ^ 31
  /\ Forall game_packed gls
  /\ games_written D0 gls
  /\ - 2 ^ 31 <= G0 < 2 ^ 31
  /\ G1 - G0 < 2 ^ 31.
Proof.
  intros Hnd Hpos Hloc Hfl Hfd Hfg H G0 D0 G1. unfold save_lump in H.
  bind_inv H lump Hlump.
  change (lump_eqb GAME_LUMP GAME_LUMP) with true in H. cbv iota in H.
  clear Hlump lump.
  bind_inv H b Hb. apply pack_one_int_range in Hb.
  destruct Hb as (-> & Hcount).
  rewrite (file_write_at_end f) in H by exact Hpos.
  bind_inv H st1 H1. destruct st1 as [d1 f1].
  apply save_game_lump_headers_exact in H1;
    [|exact Hnd|reflexivity|exact Hfl].
  destruct H1 as (Hst & Hpacked). apply pair_equal_spec in Hst.
  destruct Hst as [-> ->]. cbn [contents] in H.
  assert (HE : len (contents f ++ le_encode 4 (len gls)) = G0 + 4)
    by (unfold G0; rewrite len_app, len_le_encode; lia).
  rewrite HE in H.
  bind_inv H st2 H2. destruct st2 as [d2 f2].
  apply save_game_lump_datas_exact in H2.
  - destruct H2 as (Hst & Hwritten). apply pair_equal_spec in Hst.
    destruct Hst as [-> ->]. cbn [contents loc ddata] in *.
    assert (HD : len ((contents f ++ le_encode 4 (len gls))
                      ++ game_directory0 gls) = D0).
    { unfold D0. rewrite len_app, HE, length_game_directory0. lia. }
    rewrite HD in *.
    assert (HG : len (((contents f ++ le_encode 4 (len gls))
                       ++ game_directory0 gls) ++ game_datas gls) = G1).
    { unfold G1. rewrite len_app, HD. reflexivity. }
    rewrite HG in *.
    bind_inv H d3 H3. apply Ok_inj in H. subst st'.
    apply (defer_set_data_exact _ d3 _ _ off "<ii") in H3.
    + destruct H3 as (b & Hb & ->). cbn [loc ddata] in *.
      apply pack_two_ints_range in Hb. destruct Hb as (-> & Hr1 & Hr2).
      unfold file_tell in *. rewrite Hpos in *. cbn [pos] in *.
      fold G0 in Hr1, Hr2 |- *.
      rewrite dict_set_fresh.
      * rewrite <- !app_assoc in *.
        split; [reflexivity|]. split; [symmetry; exact HG|].
        repeat split; try assumption; lia.
      * rewrite map_app, game_entries_keys. intros Hin.
        apply in_app_or in Hin. destruct Hin as [Hin|Hin];
          [exact (Hfg Hin)|].
        apply in_map_iff in Hin. destruct Hin as (x & Hx & _).
        discriminate Hx.
    + cbn [loc]. rewrite dict_get_app, Hloc. reflexivity.
  - exact Hnd.
  - reflexivity.
  - intros g Hg. cbn [loc]. rewrite dict_get_app.
    rewrite (dict_get_absent (loc d)) by (apply Hfl; exact Hg).
    apply game_locs_get. exact Hg.
  - exact Hfd.
Qed.

(** ** Deferred values written into their records *)

Lemma firstn_app_exact {A} (n : nat) (a b : list A) :
  List.length a = n -> firstn n (a ++ b) = a.
Proof.
  intros <-. rewrite firstn_app, Nat.sub_diag, firstn_all. cbn [firstn].
  apply app_nil_r.
Qed.

Lemma skipn_app_exact {A} (n : nat) (a b : list A) :
  List.length a = n -> skipn n (a ++ b) = b.
Proof.
  intros <-. rewrite skipn_app, Nat.sub_diag, skipn_all. reflexivity.
Qed.

(** Writing a value over a hole of its size. *)
Lemma file_write_hole (X hole val Y : bytes) :
  List.length hole = List.length val ->
  file_write (mkFile (X ++ hole ++ Y) (len X)) val
  = mkFile (X ++ val ++ Y) (len X + len val).
Proof.
  intros Hlen. rewrite file_write_inside.
  - f_equal. unfold len. rewrite Nat2Z.id.
    rewrite firstn_app_exact by reflexivity. f_equal. f_equal.
    rewrite <- Hlen, <- length_app, app_assoc.
    apply skipn_app_exact. reflexivity.
  - apply len_nonneg.
  - rewrite !len_app. unfold len. pose proof (len_nonneg Y) as HY.
    unfold len in HY. lia.
Qed.

Lemma without_keys_get {A} (key : A -> DKey) (xs : list A) (k : DKey) :
  forall dd, ~ In k (map key xs) ->
  dict_get dkey_eqb (without_keys key xs dd) k = dict_get dkey_eqb dd k.
Proof.
  unfold without_keys.
  induction xs as [|x xs IH]; intros dd Hk; cbn [fold_left]; [reflexivity|].
  rewrite IH by (intros Hin; apply Hk; right; exact Hin).
  apply (dict_get_remove_other dkey_eqb dkey_eqb_eq).
  intros E. apply Hk. left. congruence.
Qed.

Section Chunks.
Context {A : Type} (key : A -> DKey) (a s : Z) (fmt : string).
Context (pre hole post val : A -> bytes).

Lemma write_deferred_chunks :
  forall (xs : list A) (X Y : bytes) (dd : list (DKey * bytes)) (p : Z),
  NoDup (map key xs) ->
  (forall x, In x xs ->
     len (pre x) = a
     /\ List.length (hole x) = List.length (val x)
     /\ len (pre x ++ hole x ++ post x) = s
     /\ dict_get dkey_eqb dd (key x) = Some (val x)) ->
  exists p',
    for_each (chunk_locs key a s fmt (len X) xs) write_deferred
      (dd, mkFile (X ++ List.concat
                          (map (fun x => pre x ++ hole x ++ post x) xs)
                     ++ Y) p)
    = Ok (without_keys key xs dd,
          mkFile (X ++ List.concat
                         (map (fun x => pre x ++ val x ++ post x) xs)
                    ++ Y) p').
Proof.
  induction xs as [|x xs IH]; intros X Y dd p Hnd Hxs.
  - exists p. reflexivity.
  - destruct (Hxs x (or_introl eq_refl)) as (Hpre & Hhole & Hs & Hget).
    cbn [map] in Hnd. apply NoDup_cons_iff in Hnd.
    destruct Hnd as [Hx Hnd1].
    cbn [chunk_locs for_each map List.concat].
    unfold write_deferred at 1. cbv beta iota. rewrite Hget.
    unfold file_seek.
    destruct (Z.ltb_spec (len X + a) 0) as [Hneg|_];
      [pose proof (len_nonneg X); pose proof (len_nonneg (pre x)); lia|].
    replace (len X + a) with (len (X ++ pre x))
      by (rewrite len_app, Hpre; reflexivity).
    cbn [bind contents].
    replace (X ++ ((pre x ++ hole x ++ post x)
                   ++ List.concat
                        (map (fun x0 => pre x0 ++ hole x0 ++ post x0) xs))
               ++ Y)
      with ((X ++ pre x) ++ hole x
            ++ (post x ++ List.concat
                            (map (fun x0 => pre x0 ++ hole x0 ++ post x0) xs)
                  ++ Y))
      by (rewrite <- !app_assoc; reflexivity).
    rewrite file_write_hole by exact Hhole.
    cbn [bind].
    destruct (IH (X ++ pre x ++ val x ++ post x) Y
                (dict_remove dkey_eqb dd (key x))
                (len (X ++ pre x) + len (val x)) Hnd1) as [p' Hp'].
    + intros y Hy. destruct (Hxs y (or_intror Hy)) as (H1 & H2 & H3 & H4).
      repeat split; try assumption.
      rewrite (dict_get_remove_other dkey_eqb dkey_eqb_eq); [exact H4|].
      intros E. apply Hx. replace (key x) with (key y) by congruence.
      apply in_map. exact Hy.
    + exists p'.
      assert (HE : len (X ++ pre x ++ val x ++ post x) = len X + s).
      { rewrite <- Hs, !len_app. unfold len. lia. }
      rewrite HE in Hp'.
      replace ((X ++ pre x) ++ val x
               ++ post x ++ List.concat
                    (map (fun x0 => pre x0 ++ hole x0 ++ post x0) xs)
               ++ Y)
        with ((X ++ pre x ++ val x ++ post x)
              ++ List.concat
                   (map (fun x0 => pre x0 ++ hole x0 ++ post x0) xs)
              ++ Y)
        by (rewrite <- !app_assoc; reflexivity).
      rewrite Hp'. rewrite <- !app_assoc. reflexivity.
Qed.

End Chunks.

(** ** The parts of the saved file *)

Lemma pack_header_1 (v : Z) (r : bytes) :
  Struct.pack HEADER_1 [PBytes BSP_MAGIC; PInt v] = Ok r ->
  r = BSP_MAGIC ++ le_encode 4 v /\ - 2 ^ 31 <= v < 2 ^ 31.
Proof.
  unfold Struct.pack.
  change (Struct.parse HEADER_1) with (Ok [IStr 4; IInt true 4]).
  cbn [bind]. intros H.
  apply pack_items_str in H. destruct H as (r0 & H & ->).
  apply pack_items_int in H. destruct H as (Hv & r1 & H & ->).
  cbn [Struct.pack_items] in H. apply Ok_inj in H. subst r1.
  rewrite app_nil_r, pad_to_exact by reflexivity.
  split; [reflexivity|].
  unfold Struct.int_in_range in Hv. change (8 * Z.of_nat 4 - 1) with 31 in Hv.
  apply andb_true_iff in Hv. destruct Hv as [H1 H2].
  apply Z.leb_le in H1. apply Z.ltb_lt in H2. lia.
Qed.

Lemma header_locs_chunks :
  map header_loc all_lumps = chunk_locs KLump 0 16 "<ii" 8 all_lumps.
Proof. vm_compute. reflexivity. Qed.

Lemma header_loc_get (l : BSP_LUMPS) :
  dict_get dkey_eqb (map header_loc all_lumps) (KLump l)
  = Some (8 + 16 * lump_value l, "<ii"%string).
Proof. destruct l; vm_compute; reflexivity. Qed.

Lemma length_all_lumps : len all_lumps = 64.
Proof. vm_compute. reflexivity. Qed.

Lemma len_concat_fixed {A} (f : A -> bytes) (n : nat) (xs : list A) :
  (forall x, List.length (f x) = n) ->
  len (List.concat (map f xs)) = Z.of_nat n * len xs.
Proof.
  intros Hf. unfold len.
  induction xs as [|x xs IH]; cbn [map List.concat List.length]; [lia|].
  rewrite length_app, Hf. lia.
Qed.

(** *** The order of the lumps *)

Lemma write_order_parts :
  LUMP_WRITE_ORDER = lumps_before_game ++ [GAME_LUMP] ++ lumps_after_game.
Proof. vm_compute. reflexivity. Qed.

Lemma all_lumps_around_game :
  all_lumps = lumps_before_game ++ GAME_LUMP :: skipn 36 all_lumps.
Proof. vm_compute. reflexivity. Qed.

Lemma NoDup_lumps_before_game : NoDup lumps_before_game.
Proof.
  pose proof NoDup_all_lumps as H. rewrite all_lumps_around_game in H.
  apply NoDup_app_remove_r in H. exact H.
Qed.

Lemma NoDup_lumps_after_game : NoDup lumps_after_game.
Proof.
  pose proof NoDup_all_lumps as H. rewrite all_lumps_around_game in H.
  apply NoDup_app_remove_l in H. apply NoDup_cons_iff in H.
  destruct H as [_ H]. unfold lumps_after_game. apply NoDup_app.
  - apply NoDup_filter. exact H.
  - constructor; [intros []|constructor].
  - intros a Ha [<-|[]]. apply filter_In in Ha. destruct Ha as [_ Ha].
    discriminate Ha.
Qed.

Lemma game_not_before : ~ In GAME_LUMP lumps_before_game.
Proof. apply not_In_by_eqb. vm_compute. reflexivity. Qed.

Lemma game_not_after : ~ In GAME_LUMP lumps_after_game.
Proof. apply not_In_by_eqb. vm_compute. reflexivity. Qed.

Lemma after_not_before (l : BSP_LUMPS) :
  In l lumps_after_game -> existsb (lump_eqb l) lumps_before_game = false.
Proof.
  intros Hin. destruct l; try (vm_compute; reflexivity); exfalso;
    revert Hin; apply not_In_by_eqb; vm_compute; reflexivity.
Qed.

Lemma lump_places (l : BSP_LUMPS) :
  l <> GAME_LUMP ->
  existsb (lump_eqb l) lumps_before_game = true
  \/ (existsb (lump_eqb l) lumps_before_game = false
      /\ In l lumps_after_game).
Proof.
  intros Hl.
  destruct (existsb (lump_eqb l) lumps_before_game) eqn:E;
    [left; reflexivity|right]. split; [reflexivity|].
  apply In_by_eqb. revert E.
  destruct l; try (vm_compute; reflexivity); try (vm_compute; discriminate).
  exfalso. apply Hl. reflexivity.
Qed.

(** *** Where a lump lies *)

Lemma lump_entries_get (self : BSP) (l : BSP_LUMPS) :
  forall (ls : list BSP_LUMPS) (P : Z), In l ls ->
  dict_get dkey_eqb (lump_entries self P ls) (KLump l)
  = Some (le_encode 4 (offset_in self P ls l)
          ++ le_encode 4 (len (lump_data (lump_of self l)))).
Proof.
  induction ls as [|x ls IH]; intros P Hin; [destruct Hin|].
  cbn [lump_entries dict_get offset_in dkey_eqb].
  destruct (lump_eqb l x) eqn:E.
  - apply lump_eqb_eq in E. subst x. reflexivity.
  - destruct Hin as [->|Hin];
      [rewrite (proj2 (lump_eqb_eq l l) eq_refl) in E; discriminate E|].
    apply IH. exact Hin.
Qed.

Lemma lump_datas_split (self : BSP) (l : BSP_LUMPS) :
  forall (ls : list BSP_LUMPS) (P : Z), In l ls ->
  exists A B,
    lump_datas self ls = A ++ lump_data (lump_of self l) ++ B
    /\ offset_in self P ls l = P + len A.
Proof.
  induction ls as [|x ls IH]; intros P Hin; [destruct Hin|].
  cbn [offset_in]. unfold lump_datas. cbn [map List.concat].
  destruct (lump_eqb l x) eqn:E.
  - apply lump_eqb_eq in E. subst x. exists [], (lump_datas self ls).
    split; [reflexivity|]. unfold len. cbn [List.length]. lia.
  - destruct Hin as [->|Hin];
      [rewrite (proj2 (lump_eqb_eq l l) eq_refl) in E; discriminate E|].
    destruct (IH (P + len (lump_data (lump_of self x))) Hin)
      as (A & B & HAB & Hoff).
    exists (lump_data (lump_of self x) ++ A), B.
    fold (lump_datas self ls). rewrite HAB, <- app_assoc.
    split; [reflexivity|]. rewrite Hoff, len_app. lia.
Qed.

Lemma lumps_written_In (self : BSP) (l : BSP_LUMPS) :
  forall (ls : list BSP_LUMPS) (P : Z),
  lumps_written self P ls -> In l ls ->
  - 2 ^ 31 <= offset_in self P ls l < 2 ^ 31
  /\ len (lump_data (lump_of self l)) < 2 ^ 31.
Proof.
  induction ls as [|x ls IH]; intros P Hw Hin; [destruct Hin|].
  cbn [lumps_written offset_in] in *. destruct Hw as [[HP Hn] Hw].
  destruct (lump_eqb l x) eqn:E.
  - apply lump_eqb_eq in E. subst x. split; assumption.
  - destruct Hin as [->|Hin];
      [rewrite (proj2 (lump_eqb_eq l l) eq_refl) in E; discriminate E|].
    apply IH; assumption.
Qed.

(** *** The game lumps and their places *)

Lemma game_locs_chunks (gls : list GameLump) :
  forall E P,
  game_locs E gls
  = chunk_locs (fun x => KBytes (gl_id (fst x))) 8 16 "<i" E
      (game_places P gls).
Proof.
  induction gls as [|g gls IH]; intros E P;
    cbn [game_locs game_places chunk_locs fst]; [reflexivity|].
  rewrite (IH (E + 16) (P + len (gl_data g))). reflexivity.
Qed.

Lemma game_places_keys (gls : list GameLump) :
  forall P, map (fun x => KBytes (gl_id (fst x))) (game_places P gls)
            = map KBytes (map gl_id gls).
Proof.
  induction gls as [|g gls IH]; intros P; cbn [game_places map fst];
    [reflexivity|]. rewrite IH. reflexivity.
Qed.

Lemma NoDup_KBytes (ids : list bytes) : NoDup ids -> NoDup (map KBytes ids).
Proof.
  induction 1 as [|x l Hx Hnd IH]; cbn [map]; constructor; [|exact IH].
  intros Hin. apply in_map_iff in Hin. destruct Hin as (y & Hy & Hin).
  injection Hy as ->. contradiction.
Qed.

Lemma game_directory0_places (gls : list GameLump) :
  forall P,
  game_directory0 gls
  = List.concat
      (map (fun x : GameLump * Z =>
              (Struct.pad_to 4 (reversed (gl_id (fst x)))
               ++ le_encode 2 (gl_flags (fst x))
               ++ le_encode 2 (gl_version (fst x)))
              ++ le_encode 4 0 ++ le_encode 4 (len (gl_data (fst x))))
           (game_places P gls)).
Proof.
  unfold game_directory0.
  induction gls as [|g gls IH]; intros P;
    cbn [game_places map List.concat fst]; [reflexivity|].
  rewrite <- (IH (P + len (gl_data g))). f_equal.
  unfold game_entry, game_lump_entry. rewrite <- !app_assoc. reflexivity.
Qed.

Lemma game_directory_places (P : Z) (gls : list GameLump) :
  game_directory P gls
  = List.concat
      (map (fun x : GameLump * Z =>
              (Struct.pad_to 4 (reversed (gl_id (fst x)))
               ++ le_encode 2 (gl_flags (fst x))
               ++ le_encode 2 (gl_version (fst x)))
              ++ le_encode 4 (snd x) ++ le_encode 4 (len (gl_data (fst x))))
           (game_places P gls)).
Proof.
  unfold game_directory. f_equal. apply map_ext. intros [g Q].
  cbn [fst snd]. unfold game_entry, game_lump_entry.
  rewrite <- !app_assoc. reflexivity.
Qed.

Lemma game_entries_get (gls : list GameLump) :
  forall (P : Z) (x : GameLump * Z),
  NoDup (map gl_id gls) ->
  In x (game_places P gls) ->
  dict_get dkey_eqb (game_entries P gls) (KBytes (gl_id (fst x)))
  = Some (le_encode 4 (snd x)).
Proof.
  induction gls as [|g gls IH]; intros P x Hnd Hin; [destruct Hin|].
  cbn [map] in Hnd. apply NoDup_cons_iff in Hnd. destruct Hnd as [Hg Hnd].
  cbn [game_places game_entries dict_get] in *.
  destruct Hin as [<-|Hin].
  - cbn [fst snd]. rewrite (eqb_refl dkey_eqb dkey_eqb_eq). reflexivity.
  - rewrite (eqb_neq dkey_eqb dkey_eqb_eq).
    + apply IH; assumption.
    + intros E. injection E as E. apply Hg. rewrite <- E.
      assert (Hx : In (KBytes (gl_id (fst x)))
                     (map KBytes (map gl_id gls))).
      { rewrite <- (game_places_keys gls (P + len (gl_data g))).
        apply (in_map (fun y => KBytes (gl_id (fst y)))). exact Hin. }
      apply in_map_iff in Hx. destruct Hx as (y & Hy & Hy').
      injection Hy as <-. exact Hy'.
Qed.

(** ** The deferred writes of [save] *)

Lemma write_headers (self : BSP) (b1 Y : bytes) (dd : list (DKey * bytes))
    (p : Z) :
  len b1 = 8 ->
  (forall l, dict_get dkey_eqb dd (KLump l)
             = Some (le_encode 4 (lump_start self l)
                     ++ le_encode 4 (lump_size self l))) ->
  exists p',
    for_each (map header_loc all_lumps) write_deferred
      (dd, mkFile (b1 ++ List.concat (map (lump_entry0 self) all_lumps) ++ Y)
                  p)
    = Ok (without_keys KLump all_lumps dd,
          mkFile (b1 ++ List.concat (map (lump_entry self) all_lumps) ++ Y)
                 p').
Proof.
  intros Hb1 Hdd.
  destruct (write_deferred_chunks KLump 0 16 "<ii"
              (fun _ => [])
              (fun _ => le_encode 4 0 ++ le_encode 4 0)
              (fun l => le_encode 4 (lump_version (lump_of self l))
                        ++ ident_bytes self l)
              (fun l => le_encode 4 (lump_start self l)
                        ++ le_encode 4 (lump_size self l))
              all_lumps b1 Y dd p) as [p' Hp'].
  - assert (Hinj : forall ls, NoDup ls -> NoDup (map KLump ls)).
    { induction 1 as [|x l Hx Hnd IH]; cbn [map]; constructor; [|exact IH].
      intros Hin. apply In_KLump in Hin. contradiction. }
    apply Hinj, NoDup_all_lumps.
  - intros l _. split; [reflexivity|]. split.
    + rewrite !length_app, !length_le_encode. reflexivity.
    + split; [|apply Hdd]. cbn [app].
      pose proof (length_lump_entry0 self l) as H16.
      unfold lump_entry0 in H16. unfold len. rewrite <- app_assoc, H16.
      reflexivity.
  - exists p'. rewrite Hb1, <- header_locs_chunks in Hp'.
    assert (E0 : map (fun x => [] ++ (le_encode 4 0 ++ le_encode 4 0)
                               ++ le_encode 4 (lump_version (lump_of self x))
                               ++ ident_bytes self x) all_lumps
                 = map (lump_entry0 self) all_lumps).
    { apply map_ext. intros l. unfold lump_entry0. cbn [app].
      rewrite <- app_assoc. reflexivity. }
    assert (E1 : map (fun x => [] ++ (le_encode 4 (lump_start self x)
                                      ++ le_encode 4 (lump_size self x))
                               ++ le_encode 4 (lump_version (lump_of self x))
                               ++ ident_bytes self x) all_lumps
                 = map (lump_entry self) all_lumps).
    { apply map_ext. intros l. unfold lump_entry. cbn [app].
      rewrite <- app_assoc. reflexivity. }
    rewrite E0, E1 in Hp'. exact Hp'.
Qed.

Lemma write_game_offsets (X Y : bytes) (dd : list (DKey * bytes)) (p P : Z)
    (gls : list GameLump) :
  NoDup (map gl_id gls) ->
  (forall x, In x (game_places P gls) ->
     dict_get dkey_eqb dd (KBytes (gl_id (fst x)))
     = Some (le_encode 4 (snd x))) ->
  exists p',
    for_each (game_locs (len X) gls) write_deferred
      (dd, mkFile (X ++ game_directory0 gls ++ Y) p)
    = Ok (without_keys (fun x => KBytes (gl_id (fst x)))
            (game_places P gls) dd,
          mkFile (X ++ game_directory P gls ++ Y) p').
Proof.
  intros Hnd Hdd.
  rewrite (game_locs_chunks gls (len X) P), (game_directory0_places gls P),
    game_directory_places.
  apply write_deferred_chunks.
  - rewrite game_places_keys. apply NoDup_KBytes. exact Hnd.
  - intros x Hx. split; [|split; [|split]].
    + rewrite !len_app, !len_le_encode. unfold len.
      rewrite length_pad_to. reflexivity.
    + rewrite !length_le_encode. reflexivity.
    + rewrite !len_app, !len_le_encode. unfold len.
      rewrite length_pad_to. reflexivity.
    + apply Hdd. exact Hx.
Qed.

Lemma saved_values_lump (self : BSP) (l : BSP_LUMPS) :
  dict_get dkey_eqb (saved_values self) (KLump l)
  = Some (le_encode 4 (lump_start self l) ++ le_encode 4 (lump_size self l)).
Proof.
  unfold saved_values, lump_start, lump_size.
  destruct (lump_eqb l GAME_LUMP) eqn:Eg.
  - apply lump_eqb_eq in Eg. subst l.
    rewrite !dict_get_app.
    rewrite (dict_get_absent (lump_entries _ _ _)).
    + rewrite (dict_get_absent (game_entries _ _)); [reflexivity|].
      rewrite game_entries_keys. intros Hin. apply in_map_iff in Hin.
      destruct Hin as (x & Hx & _). discriminate Hx.
    + rewrite lump_entries_keys. intros Hin. apply In_KLump in Hin.
      exact (game_not_before Hin).
  - assert (Hl : l <> GAME_LUMP).
    { intros ->. discriminate Eg. }
    rewrite !dict_get_app.
    destruct (lump_places l Hl) as [E|[E Hin]]; rewrite E.
    + rewrite (lump_entries_get self l) by (apply In_by_eqb; exact E).
      reflexivity.
    + rewrite (dict_get_absent (lump_entries _ _ lumps_before_game)).
      * rewrite (dict_get_absent (game_entries _ _)).
        -- cbn [dict_get dkey_eqb]. rewrite Eg.
           apply lump_entries_get. exact Hin.
        -- rewrite game_entries_keys. intros Hx. apply in_map_iff in Hx.
           destruct Hx as (x & Hx & _). discriminate Hx.
      * rewrite lump_entries_keys. intros Hx. apply In_KLump in Hx.
        apply not_In_by_eqb in E. exact (E Hx).
Qed.

Lemma saved_values_game (self : BSP) (x : GameLump * Z) :
  NoDup (map gl_id (dict_values (game_lumps self))) ->
  In x (game_places (game_data_start self) (dict_values (game_lumps self))) ->
  dict_get dkey_eqb (saved_values self) (KBytes (gl_id (fst x)))
  = Some (le_encode 4 (snd x)).
Proof.
  intros Hnd Hx. unfold saved_values. rewrite !dict_get_app.
  rewrite (dict_get_absent (lump_entries _ _ _)).
  - rewrite game_entries_get by assumption. reflexivity.
  - rewrite lump_entries_keys. intros Hin. apply in_map_iff in Hin.
    destruct Hin as (y & Hy & _). discriminate Hy.
Qed.

(** ** [BSP.save] as a whole *)

Lemma BSP_save_exact (self : BSP) (out : bytes) :
  NoDup (map gl_id (dict_values (game_lumps self))) ->
  BSP_save self = Ok out ->
  out = BSP_layout self /\ save_fits self.
Proof.
  intros Hnd H. unfold BSP_save in H. cbv zeta in H.
  remember (dict_values (game_lumps self)) as gls eqn:Egls.
  bind_inv H ver Hver.
  assert (Hv : ver = version_number (version self) /\ version self <> VNone).
  { destruct (version self); cbn [version_number]; try discriminate Hver;
      apply Ok_inj in Hver; split; congruence. }
  destruct Hv as [-> Hvn]. clear Hver.
  bind_inv H b1 Hb1. apply pack_header_1 in Hb1. destruct Hb1 as (-> & Hvr).
  rewrite file_write_at_end in H by reflexivity.
  change (contents (file_open [])) with (@nil byte) in H.
  cbn [app] in H.
  bind_inv H st1 H1. destruct st1 as [d1 f1].
  apply (save_lump_headers_exact self all_lumps []) in H1;
    [|reflexivity|reflexivity
     |cbn [contents]; rewrite len_app, len_le_encode; reflexivity
     |reflexivity].
  destruct H1 as (Hst & Hpacked). apply pair_equal_spec in Hst.
  destruct Hst as [-> ->]. cbn [contents ddata] in H.
  change (ddata DeferredWrites_new) with (@nil (DKey * bytes)) in H.
  remember (BSP_MAGIC ++ le_encode 4 (version_number (version self)))
    as b1 eqn:Eb1.
  remember (List.concat (map (lump_entry0 self) all_lumps)) as hdr0 eqn:Ehdr0.
  assert (Hlen1 : len (b1 ++ hdr0) = 1032).
  { rewrite len_app, Eb1, Ehdr0, len_app, len_le_encode.
    rewrite (len_concat_fixed (lump_entry0 self) 16)
      by (apply length_lump_entry0).
    rewrite length_all_lumps. reflexivity. }
  bind_inv H b2 Hb2. apply pack_one_int_range in Hb2.
  destruct Hb2 as (-> & Hrev).
  rewrite file_write_at_end in H by reflexivity. cbn [contents] in H.
  assert (Hlen2 : len ((b1 ++ hdr0) ++ le_encode 4 (map_revision self))
                  = 1036)
    by (rewrite len_app, Hlen1, len_le_encode; reflexivity).
  bind_inv H st5 H5. destruct st5 as [d5 f5].
  rewrite write_order_parts, for_each_app in H5.
  bind_inv H5 st3 H3. destruct st3 as [d3 f3].
  apply save_lumps_regular_exact in H3;
    [|exact game_not_before|exact NoDup_lumps_before_game|reflexivity
     |intros l; cbn [loc]; rewrite header_loc_get; eexists; reflexivity
     |intros l _ []].
  destruct H3 as (Hst & Hw1). apply pair_equal_spec in Hst.
  destruct Hst as [-> ->]. cbn [contents loc ddata app] in H5, Hw1.
  rewrite Hlen2 in H5, Hw1.
  remember (((b1 ++ hdr0) ++ le_encode 4 (map_revision self))
            ++ lump_datas self lumps_before_game) as c3 eqn:Ec3.
  assert (HG0 : len c3 = game_start self).
  { rewrite Ec3, len_app, Hlen2. reflexivity. }
  cbn [for_each] in H5. bind_inv H5 st4 H4. destruct st4 as [d4 f4].
  apply (save_lump_game_exact self gls _ _ (8 + 16 * lump_value GAME_LUMP))
    in H4.
  2: exact Hnd.
  2: reflexivity.
  2: apply header_loc_get.
  2: { intros g _ Hin. cbn [loc] in Hin. rewrite header_loc_keys in Hin.
       apply in_map_iff in Hin. destruct Hin as (x & Hx & _).
       discriminate Hx. }
  2: { intros g _ Hin. cbn [ddata] in Hin. rewrite lump_entries_keys in Hin.
       apply in_map_iff in Hin. destruct Hin as (x & Hx & _).
       discriminate Hx. }
  2: { intros Hin. cbn [ddata] in Hin. rewrite lump_entries_keys in Hin.
       apply In_KLump in Hin. exact (game_not_before Hin). }
  cbn [contents loc ddata] in H4. cbv zeta in H4. rewrite HG0 in H4.
  rewrite Egls in H4. fold (game_data_start self) in H4.
  fold (game_end self) in H4. rewrite <- Egls in H4.
  destruct H4 as (Hst & HG1 & Hcount & Hgp & Hgw & HG0r & HG1r).
  apply pair_equal_spec in Hst. destruct Hst as [-> ->].
  remember (c3 ++ le_encode 4 (len gls) ++ game_directory0 gls
            ++ game_datas gls) as c4 eqn:Ec4.
  apply save_lumps_regular_exact in H5.
  2: exact game_not_after.
  2: exact NoDup_lumps_after_game.
  2: cbn [pos contents]; exact HG1.
  2: { intros l. cbn [loc]. rewrite dict_get_app, header_loc_get.
       eexists. reflexivity. }
  2: { intros l Hl Hin. cbn [ddata] in Hin.
       rewrite !map_app, lump_entries_keys, game_entries_keys in Hin.
       cbn [map fst] in Hin.
       apply in_app_or in Hin. destruct Hin as [Hin|Hin].
       - apply In_KLump in Hin. apply after_not_before in Hl.
         apply not_In_by_eqb in Hl. exact (Hl Hin).
       - apply in_app_or in Hin. destruct Hin as [Hin|[Hin|[]]].
         + apply in_map_iff in Hin. destruct Hin as (x & Hx & _).
           discriminate Hx.
         + injection Hin as <-. exact (game_not_after Hl). }
  cbn [contents loc ddata] in H5. rewrite <- HG1 in H5.
  destruct H5 as (Hst & Hw2). apply pair_equal_spec in Hst.
  destruct Hst as [-> ->].
  bind_inv H f6 H6. apply Ok_inj in H. subst out.
  rewrite defer_write_unfold in H6. cbn [loc ddata] in H6.
  bind_inv H6 st7 H7. destruct st7 as [dd7 f7].
  unfold file_seek, file_tell in H6. cbn [pos] in H6.
  destruct (Z.ltb_spec (len (c4 ++ lump_datas self lumps_after_game)) 0)
    as [Hneg|_];
    [pose proof (len_nonneg (c4 ++ lump_datas self lumps_after_game)); lia|].
  apply Ok_inj in H6. subst f6. cbn [contents].
  assert (Hfits : save_fits self).
  { subst gls. unfold save_fits.
    split; [exact Hvn|]. split; [exact Hvr|]. split; [exact Hrev|].
    split; [intros l; apply Hpacked, In_all_lumps|].
    split; [exact Hw1|]. split; [exact Hw2|]. split; [exact Hcount|].
    split; [exact Hgp|]. split; [exact Hgw|]. split; [lia|exact HG1r]. }
  split; [|exact Hfits]. clear Hfits.
  subst gls. fold (saved_values self) in H7.
  rewrite for_each_app in H7. bind_inv H7 st8 H8. destruct st8 as [dd8 f8].
  set (gls := dict_values (game_lumps self)) in *.
  set (Y2 := game_datas gls ++ lump_datas self lumps_after_game).
  set (Y1 := le_encode 4 (map_revision self)
             ++ lump_datas self lumps_before_game
             ++ le_encode 4 (len gls) ++ game_directory0 gls ++ Y2).
  assert (Ec : c4 ++ lump_datas self lumps_after_game = b1 ++ hdr0 ++ Y1).
  { rewrite Ec4, Ec3. unfold Y1, Y2. rewrite <- !app_assoc. reflexivity. }
  rewrite Ec, Ehdr0 in H8.
  assert (Hb1 : len b1 = 8)
    by (rewrite Eb1, len_app, len_le_encode; reflexivity).
  destruct (write_headers self b1 Y1 (saved_values self)
              (len (b1 ++ List.concat (map (lump_entry0 self) all_lumps)
                      ++ Y1))
              Hb1 (saved_values_lump self)) as [p1 Hp1].
  rewrite Hp1 in H8. apply Ok_inj in H8.
  apply pair_equal_spec in H8. destruct H8 as [<- <-].
  set (X := b1 ++ List.concat (map (lump_entry self) all_lumps)
            ++ le_encode 4 (map_revision self)
            ++ lump_datas self lumps_before_game
            ++ le_encode 4 (len gls)).
  assert (HX : len X = game_start self + 4).
  { unfold X. rewrite !len_app, Hb1, !len_le_encode.
    rewrite (len_concat_fixed (lump_entry self) 16), length_all_lumps.
    - unfold game_start. lia.
    - intros l. unfold lump_entry, ident_bytes.
      rewrite !length_app, !length_le_encode, length_pad_to. reflexivity. }
  assert (Ec' : b1 ++ List.concat (map (lump_entry self) all_lumps) ++ Y1
                = X ++ game_directory0 gls ++ Y2).
  { unfold X, Y1. rewrite <- !app_assoc. reflexivity. }
  rewrite Ec', <- HX in H7.
  destruct (write_game_offsets X Y2
              (without_keys KLump all_lumps (saved_values self)) p1
              (game_data_start self) gls Hnd) as [p2 Hp2].
  { intros x Hx. rewrite without_keys_get.
    - apply saved_values_game; assumption.
    - intros Hin. apply in_map_iff in Hin. destruct Hin as (y & Hy & _).
      discriminate Hy. }
  rewrite Hp2 in H7. apply Ok_inj in H7.
  apply pair_equal_spec in H7. destruct H7 as [_ <-]. cbn [contents].
  unfold BSP_layout, X, Y2. fold gls. rewrite Eb1, <- !app_assoc.
  reflexivity.
Qed.

(** * [BSP.read], forward *)

(** ** Reading a record that is there *)

Lemma struct_read_ok (fmt : string) (its : list item) (f : File) :
  Struct.parse fmt = Ok its ->
  0 <= pos f ->
  pos f + Z.of_nat (Struct.items_size its) <= len (contents f) ->
  struct_read fmt f
  = Ok (Struct.unpack_items its
          (bytes_at (contents f) (pos f) (Struct.items_size its)),
        mkFile (contents f) (pos f + Z.of_nat (Struct.items_size its))).
Proof.
  intros Hparse Hpos Hle. unfold struct_read, Struct.calcsize, Struct.unpack.
  rewrite Hparse. cbn [bind]. unfold file_read.
  destruct (Z.ltb_spec (Z.of_nat (Struct.items_size its)) (-1)) as [|_];
    [lia|].
  destruct (Z.eqb_spec (Z.of_nat (Struct.items_size its)) (-1)) as [|_];
    [lia|].
  cbn [bind]. rewrite Nat2Z.id. fold (bytes_at (contents f) (pos f)
                                        (Struct.items_size its)).
  assert (Hlen : List.length (bytes_at (contents f) (pos f)
                                (Struct.items_size its))
                 = Struct.items_size its).
  { unfold bytes_at. rewrite length_firstn, length_skipn.
    unfold len in Hle. lia. }
  rewrite Hlen, Nat.eqb_refl. cbn [bind]. unfold len. rewrite Hlen.
  reflexivity.
Qed.

Lemma read_directory_entry_ok (f : File) :
  0 <= pos f ->
  pos f + 16 <= len (contents f) ->
  struct_read HEADER_LUMP f
  = Ok ([PInt (le_signed (bytes_at (contents f) (pos f) 4));
         PInt (le_signed (bytes_at (contents f) (pos f + 4) 4));
         PInt (le_signed (bytes_at (contents f) (pos f + 8) 4));
         PBytes (bytes_at (contents f) (pos f + 12) 4)],
        mkFile (contents f) (pos f + 16)).
Proof.
  intros Hpos Hle.
  destruct (struct_read HEADER_LUMP f) as [[vals f']|e] eqn:E.
  - destruct (read_directory_entry f f' vals Hpos E)
      as (Hc & Hp & _ & ->).
    destruct f' as [c' p']. cbn [contents pos] in Hc, Hp. subst c' p'.
    reflexivity.
  - rewrite (struct_read_ok HEADER_LUMP
               [IInt true 4; IInt true 4; IInt true 4; IStr 4])
      in E; [discriminate E|reflexivity|exact Hpos|exact Hle].
Qed.

Lemma read_lump_headers_ok (c : bytes) :
  forall (n k : nat) (f : File),
  (k + n <= 64)%nat ->
  contents f = c ->
  pos f = 8 + 16 * Z.of_nat k ->
  8 + 16 * Z.of_nat (k + n) <= len c ->
  exists f',
    for_each (map Z.of_nat (seq k n)) read_lump_header
      (map (dir_lump c) (firstn k all_lumps),
       map (dir_offsets c) (firstn k all_lumps), f)
    = Ok (map (dir_lump c) (firstn (k + n) all_lumps),
          map (dir_offsets c) (firstn (k + n) all_lumps), f')
    /\ contents f' = c
    /\ pos f' = 8 + 16 * Z.of_nat (k + n).
Proof.
  induction n as [|n IH]; intros k f Hk Hc Hp Hle.
  - exists f. rewrite Nat.add_0_r. cbn [seq map for_each].
    repeat split; assumption.
  - cbn [seq map for_each].
    destruct (read_lump_header (Z.of_nat k)
                (map (dir_lump c) (firstn k all_lumps),
                 map (dir_offsets c) (firstn k all_lumps), f))
      as [st1|e] eqn:E.
    + cbn [bind].
      destruct (read_lump_headers c 1 k f st1) as (f1 & -> & Hc1 & Hp1 & _).
      * lia.
      * exact Hc.
      * exact Hp.
      * cbn [seq map for_each]. rewrite E. reflexivity.
      * destruct (IH (S k) f1) as (f' & Hf' & Hc' & Hp');
          [lia|exact Hc1|rewrite Hp1; lia|
           replace (S k + n)%nat with (k + S n)%nat by lia; exact Hle|].
        exists f'. replace (k + 1)%nat with (S k) by lia.
        replace (k + S n)%nat with (S k + n)%nat by lia.
        repeat split; assumption.
    + exfalso. unfold read_lump_header in E.
      rewrite read_directory_entry_ok in E by (rewrite ?Hc; lia).
      cbn [bind] in E.
      assert (Hv : exists l, BSP_LUMPS_of_value (Z.of_nat k) = Ok l).
      { destruct (nth_error all_lumps k) as [l|] eqn:El.
        - exists l. pose proof (nth_error_all_lumps_inv k l El) as Hl.
          rewrite <- Hl. destruct l; reflexivity.
        - apply nth_error_None in El.
          pose proof length_all_lumps as H64. unfold len in H64. lia. }
      destruct Hv as [l Hl]. rewrite Hl in E. discriminate E.
Qed.

(** ** The data of the lumps *)

Lemma read_lump_data_ok (c : bytes) (done rest : list BSP_LUMPS)
    (x : BSP_LUMPS) (f : File) :
  done ++ x :: rest = all_lumps ->
  contents f = c ->
  0 <= dir_offset c x -> -1 <= dir_length c x ->
  exists f',
    read_lump_data (map (dir_offsets c) all_lumps) (dir_lump c x)
      (map (read_lump c) done ++ map (dir_lump c) (x :: rest), f)
    = Ok (map (read_lump c) (done ++ [x]) ++ map (dir_lump c) rest, f')
    /\ contents f' = c.
Proof.
  intros Hall Hc Hoff Hlen.
  destruct (lump_value_at done rest x Hall) as (_ & Hx & _).
  unfold read_lump_data. cbn [map].
  change (dir_lump c x) with (x, snd (dir_lump c x)).
  cbn [fst].
  change (lump_type (snd (x, snd (dir_lump c x)))) with x.
  unfold dict_lookup.
  rewrite (dict_get_all_lumps (dir_offsets c) x (fst_dir_offsets c)).
  cbn [dir_offsets snd bind]. unfold file_seek.
  destruct (Z.ltb_spec (dir_offset c x) 0) as [|_]; [lia|].
  cbn [bind]. unfold file_read. cbn [contents pos].
  destruct (Z.ltb_spec (dir_length c x) (-1)) as [|_]; [lia|].
  cbn [bind].
  rewrite (dict_set_mid lump_eqb (map (read_lump c) done)
             (map (dir_lump c) rest) x x);
    [|apply (keys_before_differ (read_lump c) done x (fst_read_lump c) Hx)
     |apply lump_eqb_eq; reflexivity].
  rewrite Hc, map_app, <- app_assoc. cbn [map app].
  eexists. split; reflexivity.
Qed.

Lemma read_lump_datas_ok (c : bytes) :
  (forall l, 0 <= dir_offset c l /\ -1 <= dir_length c l) ->
  forall (rest done : list BSP_LUMPS) (f : File),
  done ++ rest = all_lumps ->
  contents f = c ->
  exists f',
    for_each (map (dir_lump c) rest)
      (read_lump_data (map (dir_offsets c) all_lumps))
      (map (read_lump c) done ++ map (dir_lump c) rest, f)
    = Ok (map (read_lump c) all_lumps, f')
    /\ contents f' = c.
Proof.
  intros Hdir. induction rest as [|x rest IH]; intros done f Hall Hc.
  - exists f. cbn [map for_each]. rewrite !app_nil_r in *. subst done.
    split; [reflexivity|exact Hc].
  - destruct (read_lump_data_ok c done rest x f Hall Hc
                (proj1 (Hdir x)) (proj2 (Hdir x))) as (f1 & Hstep & Hc1).
    destruct (IH (done ++ [x]) f1) as (f' & Hf' & Hc');
      [rewrite <- app_assoc; exact Hall|exact Hc1|].
    exists f'. split; [|exact Hc'].
    change (map (dir_lump c) (x :: rest))
      with (dir_lump c x :: map (dir_lump c) rest) at 1.
    cbn [for_each]. rewrite Hstep. cbn [bind]. exact Hf'.
Qed.

(** ** [read] as a whole *)

Lemma read_header_1_ok (f : File) :
  pos f = 0 ->
  8 <= len (contents f) ->
  struct_read HEADER_1 f
  = Ok ([PBytes (bytes_at (contents f) 0 4);
         PInt (le_signed (bytes_at (contents f) 4 4))],
        mkFile (contents f) 8).
Proof.
  intros Hpos Hle.
  destruct (struct_read HEADER_1 f) as [[vals f']|e] eqn:E.
  - destruct (read_header_1 f f' vals Hpos E) as (Hc & Hp & _ & ->).
    destruct f' as [c' p']. cbn [contents pos] in Hc, Hp. subst c' p'.
    reflexivity.
  - rewrite (struct_read_ok HEADER_1 [IStr 4; IInt true 4]) in E;
      [discriminate E|reflexivity|lia|rewrite Hpos; exact Hle].
Qed.

Lemma read_header_2_ok (f : File) :
  0 <= pos f ->
  pos f + 4 <= len (contents f) ->
  struct_read HEADER_2 f
  = Ok ([PInt (le_signed (bytes_at (contents f) (pos f) 4))],
        mkFile (contents f) (pos f + 4)).
Proof.
  intros Hpos Hle.
  destruct (struct_read HEADER_2 f) as [[vals f']|e] eqn:E.
  - destruct (read_header_2 f f' vals Hpos E) as (Hc & Hp & _ & ->).
    destruct f' as [c' p']. cbn [contents pos] in Hc, Hp. subst c' p'.
    reflexivity.
  - rewrite (struct_read_ok HEADER_2 [IInt true 4]) in E;
      [discriminate E|reflexivity|exact Hpos|exact Hle].
Qed.

Lemma bytes_eqb_refl (b : bytes) : bytes_eqb b b = true.
Proof.
  unfold bytes_eqb. destruct (list_eq_dec Byte.byte_eq_dec b b); congruence.
Qed.

Lemma firstn_64_all_lumps : firstn 64 all_lumps = all_lumps.
Proof. reflexivity. Qed.

Lemma BSP_read_ok (sv v : version_t) (c : bytes) (count : Z)
    (gls : list (bytes * GameLump)) :
  bytes_at c 0 4 = BSP_MAGIC ->
  read_version sv (le_signed (bytes_at c 4 4)) = Ok v ->
  1036 <= len c ->
  (forall l, 0 <= dir_offset c l /\ -1 <= dir_length c l) ->
  Struct.unpack_from "<i"
    (file_slice c (dir_offset c GAME_LUMP) (dir_length c GAME_LUMP)) 0
  = Ok [PInt count] ->
  (forall f, contents f = c ->
     exists k f',
       for_each (range count)
         (fun _ => read_game_lump
                     (file_slice c (dir_offset c GAME_LUMP)
                        (dir_length c GAME_LUMP)))
         (4, [], f)
       = Ok (k, gls, f')) ->
  BSP_read sv c
  = Ok (mkBSP (le_signed (bytes_at c 1032 4))
          (map (fun l => if lump_eqb l GAME_LUMP
                         then (l, Lump_with_data (snd (read_lump c l)) [])
                         else read_lump c l) all_lumps)
          gls 0 v).
Proof.
  intros Hmagic Hv Hlen Hdir Hcount Hgames. unfold BSP_read.
  rewrite read_header_1_ok by (cbn [file_open contents pos]; lia).
  cbn [bind file_open contents]. rewrite Hmagic, bytes_eqb_refl.
  cbn [bind]. rewrite Hv. cbn [bind].
  rewrite range_LUMP_COUNT.
  destruct (read_lump_headers_ok c 64 0 (mkFile c 8))
    as (f2 & Hf2 & Hc2 & Hp2); [lia|reflexivity|reflexivity|cbn; lia|].
  cbn [firstn map] in Hf2. rewrite Hf2. cbn [bind].
  change (0 + 64)%nat with 64%nat. rewrite firstn_64_all_lumps.
  rewrite read_header_2_ok by (rewrite ?Hc2, Hp2; cbn; lia).
  cbn [bind].
  destruct (read_lump_datas_ok c Hdir all_lumps []
              (mkFile (contents f2) (pos f2 + 4)))
    as (f4 & Hf4 & Hc4); [reflexivity|exact Hc2|].
  cbn [map app] in Hf4. rewrite Hf4. cbn [bind].
  unfold dict_lookup.
  rewrite (dict_get_all_lumps (read_lump c) GAME_LUMP (fst_read_lump c)).
  cbn [bind read_lump snd Lump_with_data lump_data].
  rewrite Hcount. cbn [bind].
  destruct (Hgames f4 Hc4) as (k & f5 & Hf5). rewrite Hf5. cbn [bind].
  rewrite Hc2, Hp2. change (8 + 16 * Z.of_nat (0 + 64) ) with 1032.
  f_equal.
Qed.

(** ** The directory of the game lumps *)

Lemma bytes_eqb_neq (a b : bytes) : a <> b -> bytes_eqb a b = false.
Proof.
  intros H. unfold bytes_eqb.
  destruct (list_eq_dec Byte.byte_eq_dec a b); [contradiction|reflexivity].
Qed.

Lemma file_slice_bytes_at (c : bytes) (off : Z) (n : nat) :
  file_slice c off (Z.of_nat n) = bytes_at c off n.
Proof.
  unfold file_slice, bytes_at.
  destruct (Z.eqb_spec (Z.of_nat n) (-1)) as [E|_]; [lia|].
  rewrite Nat2Z.id. reflexivity.
Qed.

Lemma len_game_entry (g : GameLump) (P : Z) : len (game_entry g P) = 16.
Proof. unfold len. rewrite length_game_entry. reflexivity. Qed.

Lemma game_directory_cons (P : Z) (g : GameLump) (gls : list GameLump) :
  game_directory P (g :: gls)
  = game_entry g P ++ game_directory (P + len (gl_data g)) gls.
Proof. reflexivity. Qed.

Lemma read_game_lumps_ok (c tail : bytes) :
  forall (rest : list GameLump) (xs : list Z) (head : bytes)
         (done : list (bytes * GameLump)) (P : Z) (f : File),
  List.length xs = List.length rest ->
  contents f = c ->
  0 <= P ->
  Forall game_packed rest ->
  Forall (fun g => List.length (gl_id g) = 4%nat) rest ->
  games_written P rest ->
  games_stored c P rest ->
  NoDup (map gl_id rest) ->
  (forall g, In g rest -> ~ In (gl_id g) (map fst done)) ->
  exists f',
    for_each xs
      (fun _ => read_game_lump (head ++ game_directory P rest ++ tail))
      (len head, done, f)
    = Ok (len head + 16 * len rest,
          done ++ map (fun g => (gl_id g, g)) rest, f')
    /\ contents f' = c.
Proof.
  induction rest as [|g rest IH];
    intros xs head done P f Hxs Hc HP Hpk Hid Hw Hs Hnd Hfresh.
  - destruct xs; [|discriminate Hxs]. exists f. cbn [for_each map].
    rewrite app_nil_r. unfold len at 2. cbn [List.length].
    rewrite Z.mul_0_r, Z.add_0_r. split; [reflexivity|exact Hc].
  - destruct xs as [|x xs]; [discriminate Hxs|]. cbn [for_each].
    rewrite game_directory_cons, <- app_assoc.
    apply Forall_cons_iff in Hpk. destruct Hpk as [(Hfl & Hve & Hln) Hpk'].
    apply Forall_cons_iff in Hid. destruct Hid as [Hg4 Hid'].
    cbn [games_written games_stored] in Hw, Hs.
    destruct Hw as [HPr Hw]. destruct Hs as [Hdata Hs].
    cbn [map] in Hnd. apply NoDup_cons_iff in Hnd. destruct Hnd as [Hg Hnd].
    unfold game_entry at 1.
    rewrite pad_to_exact by (unfold reversed; rewrite length_rev; exact Hg4).
    rewrite read_game_lump_spec;
      [|unfold reversed; rewrite length_rev; exact Hg4|exact Hfl|exact Hve
       |exact HPr|pose proof (len_nonneg (gl_data g)); lia].
    unfold file_seek. destruct (Z.ltb_spec P 0) as [|_]; [lia|].
    cbn [bind]. unfold file_read. cbn [contents pos].
    destruct (Z.ltb_spec (len (gl_data g)) (-1)) as [Hneg|_];
      [pose proof (len_nonneg (gl_data g)); lia|].
    cbn [bind].
    destruct (Z.eqb_spec (len (gl_data g)) (-1)) as [Hneg|_];
      [pose proof (len_nonneg (gl_data g)); lia|].
    replace (Z.to_nat (len (gl_data g))) with (List.length (gl_data g))
      by (unfold len; lia).
    fold (bytes_at (contents f) P (List.length (gl_data g))).
    rewrite Hc, Hdata.
    unfold reversed. rewrite rev_involutive.
    rewrite dict_set_new.
    2: { intros e He. apply bytes_eqb_neq. intros E.
         apply (Hfresh g (or_introl eq_refl)). rewrite E.
         apply in_map. exact He. }
    replace (mkGameLump (gl_id g) (gl_flags g) (gl_version g) (gl_data g))
      with g by (destruct g; reflexivity).
    destruct (IH xs (head ++ game_entry g P) (done ++ [(gl_id g, g)])
                (P + len (gl_data g))
                (mkFile c (P + len (gl_data g))))
      as (f' & Hf' & Hc').
    + cbn [List.length] in Hxs. lia.
    + reflexivity.
    + pose proof (len_nonneg (gl_data g)). lia.
    + exact Hpk'.
    + exact Hid'.
    + exact Hw.
    + exact Hs.
    + exact Hnd.
    + intros y Hy. rewrite map_app. cbn [map fst]. intros Hin.
      apply in_app_or in Hin. destruct Hin as [Hin|[Hin|[]]].
      * exact (Hfresh y (or_intror Hy) Hin).
      * apply Hg. rewrite Hin. apply in_map. exact Hy.
    + exists f'. split; [|exact Hc'].
      rewrite len_app, len_game_entry, <- !app_assoc in Hf'.
      cbn [map app] in Hf' |- *.
      replace (len head + 16 * len (g :: rest))
        with (len head + 16 + 16 * len rest)
        by (unfold len; cbn [List.length]; lia).
      exact Hf'.
Qed.

(** * The saved file, read again *)

(** ** The parts of the layout *)

Lemma bytes_at_mid (X M Y : bytes) (off : Z) (n : nat) :
  off = len X -> n = List.length M -> bytes_at (X ++ M ++ Y) off n = M.
Proof.
  intros -> ->. unfold bytes_at, len. rewrite Nat2Z.id.
  rewrite skipn_app_exact by reflexivity.
  apply firstn_app_exact. reflexivity.
Qed.

Lemma app_assoc3 {A} (a b c d : list A) :
  a ++ b ++ c ++ d = (a ++ b ++ c) ++ d.
Proof. rewrite <- !app_assoc. reflexivity. Qed.

Lemma len_game_directory (P : Z) (gls : list GameLump) :
  len (game_directory P gls) = 16 * len gls.
Proof.
  revert P. induction gls as [|g gls IH]; intros P; [reflexivity|].
  rewrite game_directory_cons, len_app, len_game_entry, IH.
  unfold len. cbn [List.length]. lia.
Qed.

Lemma length_lump_entry (self : BSP) (l : BSP_LUMPS) :
  List.length (lump_entry self l) = 16%nat.
Proof.
  unfold lump_entry, ident_bytes.
  rewrite !length_app, !length_le_encode, length_pad_to. reflexivity.
Qed.

Section Layout.
Variable self : BSP.

Lemma layout_parts :
  BSP_layout self
  = layout_head self ++ lump_datas self lumps_before_game
    ++ game_block self ++ lump_datas self lumps_after_game.
Proof.
  unfold BSP_layout, layout_head, game_block. rewrite <- !app_assoc.
  reflexivity.
Qed.

Lemma len_directory :
  len (List.concat (map (lump_entry self) all_lumps)) = 1024.
Proof.
  rewrite (len_concat_fixed (lump_entry self) 16), length_all_lumps
    by (apply length_lump_entry).
  reflexivity.
Qed.

Lemma len_head : len (layout_head self) = 1036.
Proof.
  unfold layout_head.
  rewrite !len_app, !len_le_encode, len_directory. reflexivity.
Qed.

Lemma len_block : len (game_block self) = game_end self - game_start self.
Proof.
  unfold game_block, game_end, game_data_start.
  rewrite !len_app, len_le_encode, len_game_directory. lia.
Qed.

Lemma len_before_block :
  len (layout_head self ++ lump_datas self lumps_before_game)
  = game_start self.
Proof. rewrite len_app, len_head. reflexivity. Qed.

Lemma len_layout_ge : 1036 <= len (BSP_layout self).
Proof.
  rewrite layout_parts, len_app, len_head.
  pose proof (len_nonneg (lump_datas self lumps_before_game
                            ++ game_block self
                            ++ lump_datas self lumps_after_game)).
  lia.
Qed.

Lemma layout_magic : bytes_at (BSP_layout self) 0 4 = BSP_MAGIC.
Proof. unfold BSP_layout. apply bytes_at_app_here. reflexivity. Qed.

Lemma layout_version :
  bytes_at (BSP_layout self) 4 4
  = le_encode 4 (version_number (version self)).
Proof.
  unfold BSP_layout. apply bytes_at_mid; [reflexivity|].
  rewrite length_le_encode. reflexivity.
Qed.

Lemma layout_revision :
  bytes_at (BSP_layout self) 1032 4 = le_encode 4 (map_revision self).
Proof.
  unfold BSP_layout. rewrite (app_assoc3 BSP_MAGIC).
  apply bytes_at_mid.
  - rewrite !len_app, len_le_encode, len_directory. reflexivity.
  - rewrite length_le_encode. reflexivity.
Qed.

Lemma layout_dir_entry (l : BSP_LUMPS) :
  bytes_at (BSP_layout self) (8 + 16 * lump_value l) 16 = lump_entry self l.
Proof.
  unfold BSP_layout. rewrite (all_lumps_split l) at 1.
  rewrite map_app, concat_app. cbn [map List.concat].
  rewrite <- !app_assoc, (app_assoc3 BSP_MAGIC).
  apply bytes_at_mid.
  - rewrite !len_app, len_le_encode.
    rewrite (len_concat_fixed (lump_entry self) 16)
      by (apply length_lump_entry).
    unfold len. rewrite length_firstn.
    pose proof (lump_value_range l) as Hv.
    pose proof length_all_lumps as H64. unfold len in H64.
    change (List.length BSP_MAGIC) with 4%nat. lia.
  - rewrite length_lump_entry. reflexivity.
Qed.

Lemma layout_block :
  bytes_at (BSP_layout self) (game_start self)
    (List.length (game_block self))
  = game_block self.
Proof.
  rewrite layout_parts, (app_assoc (layout_head self)).
  apply bytes_at_mid; [|reflexivity]. rewrite len_before_block. reflexivity.
Qed.

Lemma layout_lump_before (l : BSP_LUMPS) :
  In l lumps_before_game ->
  bytes_at (BSP_layout self) (offset_in self 1036 lumps_before_game l)
    (List.length (lump_data (lump_of self l)))
  = lump_data (lump_of self l).
Proof.
  intros Hin.
  destruct (lump_datas_split self l lumps_before_game 1036 Hin)
    as (A & B & HAB & Hoff).
  rewrite layout_parts, HAB, Hoff, <- !app_assoc,
    (app_assoc (layout_head self)).
  apply bytes_at_mid; [|reflexivity]. rewrite len_app, len_head.
  reflexivity.
Qed.

Lemma layout_lump_after (l : BSP_LUMPS) :
  In l lumps_after_game ->
  bytes_at (BSP_layout self)
    (offset_in self (game_end self) lumps_after_game l)
    (List.length (lump_data (lump_of self l)))
  = lump_data (lump_of self l).
Proof.
  intros Hin.
  destruct (lump_datas_split self l lumps_after_game (game_end self) Hin)
    as (A & B & HAB & Hoff).
  rewrite layout_parts, HAB, Hoff.
  replace (layout_head self ++ lump_datas self lumps_before_game
           ++ game_block self ++ A ++ lump_data (lump_of self l) ++ B)
    with ((layout_head self ++ lump_datas self lumps_before_game
           ++ game_block self ++ A)
          ++ lump_data (lump_of self l) ++ B)
    by (rewrite <- !app_assoc; reflexivity).
  apply bytes_at_mid; [|reflexivity].
  rewrite !len_app, len_head, len_block. unfold game_start. lia.
Qed.

Lemma games_stored_app :
  forall (gs : list GameLump) (X Y : bytes),
  games_stored (X ++ game_datas gs ++ Y) (len X) gs.
Proof.
  induction gs as [|g gs IH]; intros X Y; cbn [games_stored]; [exact I|].
  unfold game_datas. cbn [map List.concat]. fold (game_datas gs).
  rewrite <- app_assoc. split.
  - apply bytes_at_mid; reflexivity.
  - rewrite <- len_app, (app_assoc X). apply IH.
Qed.

Lemma layout_games :
  games_stored (BSP_layout self) (game_data_start self)
    (dict_values (game_lumps self)).
Proof.
  unfold BSP_layout.
  rewrite (app_assoc3 (lump_datas self lumps_before_game)).
  rewrite (app_assoc3 BSP_MAGIC), (app_assoc3 (BSP_MAGIC ++ _)).
  replace (game_data_start self)
    with (len ((BSP_MAGIC ++ le_encode 4 (version_number (version self))
                ++ List.concat (map (lump_entry self) all_lumps))
               ++ le_encode 4 (map_revision self)
               ++ lump_datas self lumps_before_game
               ++ le_encode 4 (len (dict_values (game_lumps self)))
               ++ game_directory (game_data_start self)
                    (dict_values (game_lumps self)))) at 2.
  - apply games_stored_app.
  - rewrite !len_app, !len_le_encode, len_directory, len_game_directory.
    unfold game_data_start, game_start. change (len BSP_MAGIC) with 4. lia.
Qed.

End Layout.

(** ** The directory of the saved file *)

Lemma layout_dir_fields (self : BSP) (l : BSP_LUMPS) :
  bytes_at (BSP_layout self) (8 + 16 * lump_value l) 4
  = le_encode 4 (lump_start self l)
  /\ bytes_at (BSP_layout self) (8 + 16 * lump_value l + 4) 4
     = le_encode 4 (lump_size self l)
  /\ bytes_at (BSP_layout self) (8 + 16 * lump_value l + 8) 4
     = le_encode 4 (lump_version (lump_of self l))
  /\ bytes_at (BSP_layout self) (8 + 16 * lump_value l + 12) 4
     = ident_bytes self l.
Proof.
  pose proof (layout_dir_entry self l) as H.
  pose proof (lump_value_range l) as Hv.
  assert (Hpart : forall a : nat, (a + 4 <= 16)%nat ->
            bytes_at (BSP_layout self) (8 + 16 * lump_value l + Z.of_nat a) 4
            = firstn 4 (skipn a (lump_entry self l))).
  { intros a Ha. rewrite <- H. symmetry. apply bytes_at_sub; lia. }
  pose proof (Hpart 0%nat ltac:(lia)) as H0.
  pose proof (Hpart 4%nat ltac:(lia)) as H4.
  pose proof (Hpart 8%nat ltac:(lia)) as H8.
  pose proof (Hpart 12%nat ltac:(lia)) as H12.
  cbn [Z.of_nat Pos.of_succ_nat Pos.succ] in H0, H4, H8, H12.
  rewrite Z.add_0_r in H0. rewrite H0, H4, H8, H12.
  unfold lump_entry.
  assert (Hid : List.length (ident_bytes self l) = 4%nat)
    by (unfold ident_bytes; apply length_pad_to).
  split; [|split; [|split]].
  - cbn [skipn]. apply firstn_app_exact, length_le_encode.
  - rewrite skipn_app_exact by apply length_le_encode.
    apply firstn_app_exact, length_le_encode.
  - rewrite (app_assoc (le_encode 4 _)).
    rewrite skipn_app_exact
      by (rewrite length_app, !length_le_encode; reflexivity).
    apply firstn_app_exact, length_le_encode.
  - rewrite (app_assoc3 (le_encode 4 _)).
    rewrite skipn_app_exact
      by (rewrite !length_app, !length_le_encode; reflexivity).
    apply firstn_all2. rewrite Hid. apply Nat.le_refl.
Qed.

Lemma offset_in_ge (self : BSP) (l : BSP_LUMPS) :
  forall (ls : list BSP_LUMPS) (P : Z), P <= offset_in self P ls l.
Proof.
  induction ls as [|x ls IH]; intros P; cbn [offset_in]; [lia|].
  destruct (lump_eqb l x); [lia|].
  pose proof (IH (P + len (lump_data (lump_of self x)))).
  pose proof (len_nonneg (lump_data (lump_of self x))). lia.
Qed.

Lemma game_start_ge (self : BSP) : 1036 <= game_start self.
Proof.
  unfold game_start.
  pose proof (len_nonneg (lump_datas self lumps_before_game)). lia.
Qed.

Lemma game_end_ge (self : BSP) : game_start self + 4 <= game_end self.
Proof.
  unfold game_end, game_data_start.
  pose proof (len_nonneg (dict_values (game_lumps self))).
  pose proof (len_nonneg (game_datas (dict_values (game_lumps self)))).
  lia.
Qed.

Lemma lump_place_fits (self : BSP) (l : BSP_LUMPS) :
  save_fits self ->
  0 <= lump_start self l < 2 ^ 31 /\ 0 <= lump_size self l < 2 ^ 31.
Proof.
  intros (_ & _ & _ & _ & Hw1 & Hw2 & _ & _ & _ & HG0 & HG1).
  pose proof (game_start_ge self) as Hs.
  pose proof (game_end_ge self) as He.
  unfold lump_start, lump_size.
  destruct (lump_eqb l GAME_LUMP) eqn:Eg; [lia|].
  assert (Hl : l <> GAME_LUMP) by (intros ->; discriminate Eg).
  pose proof (len_nonneg (lump_data (lump_of self l))) as Hn.
  destruct (lump_places l Hl) as [E|[E Hin]]; rewrite E.
  - apply In_by_eqb in E.
    pose proof (lumps_written_In self l _ _ Hw1 E) as [Ho Hd].
    pose proof (offset_in_ge self l lumps_before_game 1036). lia.
  - pose proof (lumps_written_In self l _ _ Hw2 Hin) as [Ho Hd].
    pose proof (offset_in_ge self l lumps_after_game (game_end self)). lia.
Qed.

Lemma layout_lump (self : BSP) (l : BSP_LUMPS) :
  l <> GAME_LUMP ->
  bytes_at (BSP_layout self) (lump_start self l)
    (List.length (lump_data (lump_of self l)))
  = lump_data (lump_of self l).
Proof.
  intros Hl. unfold lump_start.
  destruct (lump_eqb l GAME_LUMP) eqn:Eg;
    [apply lump_eqb_eq in Eg; contradiction|].
  destruct (lump_places l Hl) as [E|[E Hin]]; rewrite E.
  - apply layout_lump_before, In_by_eqb, E.
  - apply layout_lump_after, Hin.
Qed.

(** What [read] finds in the directory of the file. *)
Lemma layout_directory (self : BSP) (l : BSP_LUMPS) :
  save_fits self ->
  dir_offset (BSP_layout self) l = lump_start self l
  /\ dir_length (BSP_layout self) l = lump_size self l
  /\ dir_version (BSP_layout self) l = lump_version (lump_of self l)
  /\ dir_ident (BSP_layout self) l = ident_bytes self l.
Proof.
  intros Hfits.
  destruct (layout_dir_fields self l) as (H0 & H4 & H8 & H12).
  destruct (lump_place_fits self l Hfits) as [Hs Hn].
  destruct Hfits as (_ & _ & _ & Hpk & _).
  destruct (Hpk l) as (_ & Hv & _).
  unfold dir_offset, dir_length, dir_version, dir_ident.
  rewrite H0, H4, H8, H12.
  rewrite !le_signed_le_encode_4 by lia.
  split; [reflexivity|]. split; [reflexivity|]. split; reflexivity.
Qed.

Lemma layout_file_slice (self : BSP) (l : BSP_LUMPS) :
  save_fits self ->
  file_slice (BSP_layout self) (dir_offset (BSP_layout self) l)
    (dir_length (BSP_layout self) l)
  = if lump_eqb l GAME_LUMP then game_block self
    else lump_data (lump_of self l).
Proof.
  intros Hfits.
  destruct (layout_directory self l Hfits) as (-> & -> & _).
  unfold lump_size.
  destruct (lump_eqb l GAME_LUMP) eqn:Eg.
  - apply lump_eqb_eq in Eg. subst l.
    rewrite <- len_block. unfold len at 1. rewrite file_slice_bytes_at.
    unfold lump_start. cbn [lump_eqb lump_value Z.eqb Pos.eqb].
    apply layout_block.
  - unfold len. rewrite file_slice_bytes_at. apply layout_lump.
    intros ->. discriminate Eg.
Qed.

(** ** Well-formed BSPs *)

Lemma dict_get_own {V} (d : list (BSP_LUMPS * V)) :
  NoDup (map fst d) ->
  forall e, In e d -> dict_get lump_eqb d (fst e) = Some (snd e).
Proof.
  induction d as [|[k v] d IH]; intros Hnd e He; [destruct He|].
  cbn [map fst] in Hnd. apply NoDup_cons_iff in Hnd. destruct Hnd as [Hk Hnd].
  cbn [dict_get]. destruct He as [<-|He].
  - cbn [fst snd]. rewrite (proj2 (lump_eqb_eq k k) eq_refl). reflexivity.
  - destruct (lump_eqb (fst e) k) eqn:E.
    + apply lump_eqb_eq in E. subst k. exfalso. apply Hk.
      apply in_map. exact He.
    + apply IH; assumption.
Qed.

Lemma dict_get_own_bytes {V} (d : list (bytes * V)) :
  NoDup (map fst d) ->
  forall e, In e d -> dict_get bytes_eqb d (fst e) = Some (snd e).
Proof.
  induction d as [|[k v] d IH]; intros Hnd e He; [destruct He|].
  cbn [map fst] in Hnd. apply NoDup_cons_iff in Hnd. destruct Hnd as [Hk Hnd].
  cbn [dict_get]. destruct He as [<-|He].
  - cbn [fst snd]. rewrite bytes_eqb_refl. reflexivity.
  - destruct (bytes_eqb (fst e) k) eqn:E.
    + apply bytes_eqb_eq in E. subst k. exfalso. apply Hk.
      apply in_map. exact He.
    + apply IH; assumption.
Qed.

Lemma lumps_as_map (self : BSP) :
  map fst (lumps self) = all_lumps ->
  lumps self = map (fun l => (l, lump_of self l)) all_lumps.
Proof.
  intros Hkeys. rewrite <- Hkeys, map_map.
  rewrite <- (map_id (lumps self)) at 1. apply map_ext_in.
  intros [k v] He. unfold lump_of.
  pose proof (dict_get_own (lumps self)
                ltac:(rewrite Hkeys; exact NoDup_all_lumps) (k, v) He) as Hk.
  cbn [fst snd] in Hk |- *. rewrite Hk. reflexivity.
Qed.

Lemma wf_lump (self : BSP) (l : BSP_LUMPS) :
  BSP_wf self ->
  lump_type (lump_of self l) = l
  /\ List.length (lump_ident (lump_of self l)) = 4%nat.
Proof.
  intros (Hkeys & Hlumps & _).
  rewrite Forall_forall in Hlumps.
  apply (Hlumps (l, lump_of self l)).
  rewrite (lumps_as_map self Hkeys) at 1.
  apply (in_map (fun x => (x, lump_of self x))), In_all_lumps.
Qed.

Lemma wf_game_lumps (self : BSP) :
  BSP_wf self ->
  game_lumps self
  = map (fun g => (gl_id g, g)) (dict_values (game_lumps self))
  /\ NoDup (map gl_id (dict_values (game_lumps self)))
  /\ Forall (fun g => List.length (gl_id g) = 4%nat)
       (dict_values (game_lumps self)).
Proof.
  intros (_ & _ & _ & Hg & Hnd & _). unfold dict_values.
  rewrite Forall_forall in Hg.
  split; [|split].
  - rewrite map_map. rewrite <- (map_id (game_lumps self)) at 1.
    apply map_ext_in. intros [k g] He. destruct (Hg _ He) as [Hid _].
    cbn [fst snd] in *. rewrite Hid. reflexivity.
  - rewrite map_map.
    rewrite (map_ext_in (fun x => gl_id (snd x)) fst); [exact Hnd|].
    intros e He. apply (Hg e He).
  - apply Forall_forall. intros g Hin. apply in_map_iff in Hin.
    destruct Hin as (e & <- & He). destruct (Hg e He) as [Hid H4].
    rewrite Hid. exact H4.
Qed.

Lemma ident_read_back (ident : list Z) :
  List.length ident = 4%nat ->
  Forall (fun z => 0 <= z < 256) ident ->
  map byte_to_Z (Struct.pad_to 4 (map byte_of_Z ident)) = ident.
Proof.
  intros H4 Hr. rewrite pad_to_exact by (rewrite length_map; exact H4).
  rewrite map_map. rewrite <- (map_id ident) at 2. apply map_ext_in.
  intros z Hz. rewrite Forall_forall in Hr.
  rewrite byte_to_Z_of_Z. apply Z.mod_small, Hr, Hz.
Qed.

(** The lump [read] makes of a lump of the saved file. *)
Lemma layout_read_lump (self : BSP) (l : BSP_LUMPS) :
  BSP_wf self -> save_fits self ->
  (if lump_eqb l GAME_LUMP
   then (l, Lump_with_data (snd (read_lump (BSP_layout self) l)) [])
   else read_lump (BSP_layout self) l)
  = (l, lump_of self l).
Proof.
  intros Hwf Hfits.
  destruct (wf_lump self l Hwf) as [Htype H4].
  pose proof (layout_file_slice self l Hfits) as Hslice.
  destruct (layout_directory self l Hfits) as (_ & _ & Hver & Hident).
  destruct Hfits as (_ & _ & _ & Hpk & _).
  destruct (Hpk l) as (_ & _ & Hbytes).
  destruct Hwf as (_ & _ & Hgame & _).
  unfold read_lump, dir_lump. cbn [snd].
  rewrite Hslice, Hver, Hident. unfold ident_bytes, Lump_init, Lump_with_data.
  cbn [lump_type lump_version lump_ident lump_data].
  rewrite (ident_read_back _ H4 Hbytes).
  destruct (lump_eqb l GAME_LUMP) eqn:Eg.
  - apply lump_eqb_eq in Eg. subst l. rewrite <- Hgame.
    rewrite <- Htype at 2. destruct (lump_of self GAME_LUMP); reflexivity.
  - rewrite <- Htype at 2. destruct (lump_of self l); reflexivity.
Qed.

(** ** The file [save] writes, and reading it again *)

Lemma sample_BSP_wf : BSP_wf sample_BSP.
Proof.
  unfold BSP_wf. split; [vm_compute; reflexivity|].
  split.
  { apply Forall_forall. intros e He. unfold sample_BSP, sample_lumps in He.
    cbn [lumps] in He. apply in_map_iff in He. destruct He as (x & <- & _).
    split; reflexivity. }
  split; [vm_compute; reflexivity|].
  split; [repeat constructor|].
  split; [|reflexivity].
  cbn. constructor; [|constructor; [intros []|constructor]].
  intros [E|[]]. discriminate E.
Qed.

Lemma unpack_count (count : Z) (rest : bytes) :
  - 2 ^ 31 <= count < 2 ^ 31 ->
  Struct.unpack_from "<i" (le_encode 4 count ++ rest) 0 = Ok [PInt count].
Proof.
  intros Hr. unfold Struct.unpack_from.
  change (Struct.parse "<i") with (Ok [IInt true 4]). cbn [bind].
  change (0 <? 0) with false. cbv iota zeta. cbn [orb].
  destruct (Z.ltb_spec (len (le_encode 4 count ++ rest) - 0)
              (Z.of_nat (Struct.items_size [IInt true 4]))) as [Hlt|_].
  - rewrite len_app, len_le_encode in Hlt.
    change (Z.of_nat (Struct.items_size [IInt true 4])) with 4 in Hlt.
    pose proof (len_nonneg rest). lia.
  - change (Z.to_nat 0) with 0%nat. cbn [skipn].
    rewrite unpack_items_cons by apply length_le_encode.
    cbn [Struct.unpack_item Struct.unpack_items app].
    rewrite le_signed_le_encode_4 by exact Hr. reflexivity.
Qed.

Lemma length_range (n : nat) : List.length (range (Z.of_nat n)) = n.
Proof. unfold range. rewrite length_map, length_seq. apply Nat2Z.id. Qed.

(** The file of a well-formed BSP is read as that BSP. *)
Lemma BSP_layout_read (self : BSP) :
  BSP_wf self -> save_fits self ->
  BSP_read (version self) (BSP_layout self) = Ok self.
Proof.
  intros Hwf Hfits.
  destruct (wf_game_lumps self Hwf) as (Hgl & Hnd & Hid4).
  pose proof Hfits
    as (Hvn & Hvr & Hrev & Hpk & Hw1 & Hw2 & Hcount & Hgp & Hgw & HG0 & HG1).
  pose proof (layout_file_slice self GAME_LUMP Hfits) as Hblock.
  change (lump_eqb GAME_LUMP GAME_LUMP) with true in Hblock. cbv iota in Hblock.
  rewrite (BSP_read_ok (version self) (version self) (BSP_layout self)
             (len (dict_values (game_lumps self))) (game_lumps self)).
  - rewrite layout_revision, le_signed_le_encode_4 by exact Hrev.
    rewrite (map_ext _ (fun l => (l, lump_of self l)))
      by (intros l; apply layout_read_lump; assumption).
    destruct Hwf as (Hkeys & _ & _ & _ & _ & Hoff).
    rewrite <- (lumps_as_map self Hkeys), <- Hoff.
    destruct self; reflexivity.
  - apply layout_magic.
  - rewrite layout_version, le_signed_le_encode_4 by exact Hvr.
    destruct (version self) eqn:Ev; cbn [read_version version_number];
      try (rewrite Z.eqb_refl; reflexivity).
    exfalso. apply Hvn. reflexivity.
  - apply len_layout_ge.
  - intros l. destruct (layout_directory self l Hfits) as (-> & -> & _).
    destruct (lump_place_fits self l Hfits). lia.
  - rewrite Hblock. unfold game_block. apply unpack_count.
    pose proof (len_nonneg (dict_values (game_lumps self))). lia.
  - intros f Hf. rewrite Hblock. unfold game_block.
    destruct (read_game_lumps_ok (BSP_layout self)
                (game_datas (dict_values (game_lumps self)))
                (dict_values (game_lumps self))
                (range (len (dict_values (game_lumps self))))
                (le_encode 4 (len (dict_values (game_lumps self))))
                [] (game_data_start self) f) as (f' & Hf' & _).
    + apply length_range.
    + exact Hf.
    + unfold game_data_start.
      pose proof (game_start_ge self).
      pose proof (len_nonneg (dict_values (game_lumps self))). lia.
    + exact Hgp.
    + exact Hid4.
    + exact Hgw.
    + apply layout_games.
    + exact Hnd.
    + intros g _ [].
    + rewrite len_le_encode in Hf'. cbn [app] in Hf'.
      rewrite <- Hgl in Hf'. eexists. eexists. exact Hf'.
Qed.

(** X29.  The file [save] writes, when no two game lumps have the same id:
    the magic and the version, the directory of the 64 lumps (for each its
    offset, its length, its version and its ident), the map revision, the
    lumps before the game lump in the order of writing, the game lump (the
    count, one entry of 16 bytes for each game lump with the offset of its
    data in the file, then the data), and the other lumps with the pakfile
    last. *)
Theorem bsp_save_layout (self : BSP) (out : bytes) :
  NoDup (map gl_id (dict_values (game_lumps self))) ->
  BSP_save self = Ok out ->
  out = BSP_layout self.
Proof.
  intros Hnd H. exact (proj1 (BSP_save_exact self out Hnd H)).
Qed.

Lemma bsp_save_layout_witness :
  NoDup (map gl_id (dict_values (game_lumps sample_BSP)))
  /\ BSP_save sample_BSP = Ok sample_file
  /\ sample_file = BSP_layout sample_BSP.
Proof.
  assert (Hnd : NoDup (map gl_id (dict_values (game_lumps sample_BSP))))
    by (apply (wf_game_lumps sample_BSP sample_BSP_wf)).
  assert (Hs : BSP_save sample_BSP = Ok sample_file)
    by (vm_compute; reflexivity).
  split; [exact Hnd|]. split; [exact Hs|].
  exact (bsp_save_layout sample_BSP sample_file Hnd Hs).
Defined.

(** X30.  Saving and reading gives the BSP back.  For a BSP as [read] makes
    them (the 64 lumps under their own types with idents of four bytes, no
    data left in the game lump, the game lumps under their own ids of four
    bytes, header offset 0): when [save] succeeds, [read] of the saved file
    with the version of the BSP succeeds, and its result is the BSP that
    was saved, with every lump, every game lump, the map revision and the
    version. *)
Theorem bsp_save_read_round_trip (self : BSP) (out : bytes) :
  BSP_wf self ->
  BSP_save self = Ok out ->
  BSP_read (version self) out = Ok self.
Proof.
  intros Hwf H.
  destruct (wf_game_lumps self Hwf) as (_ & Hnd & _).
  destruct (BSP_save_exact self out Hnd H) as [-> Hfits].
  apply BSP_layout_read; assumption.
Qed.

Lemma bsp_save_read_round_trip_witness :
  BSP_wf sample_BSP
  /\ BSP_save sample_BSP = Ok sample_file
  /\ BSP_read (version sample_BSP) sample_file = Ok sample_BSP.
Proof.
  assert (Hs : BSP_save sample_BSP = Ok sample_file)
    by (vm_compute; reflexivity).
  split; [exact sample_BSP_wf|]. split; [exact Hs|].
  exact (bsp_save_read_round_trip sample_BSP sample_file sample_BSP_wf Hs).
Defined.

(** * The ids of the game lumps, on disk and read back *)

(** The entry of the [j]-th game lump in the directory. *)
Lemma game_directory_nth (g : GameLump) :
  forall (gls : list GameLump) (j : nat) (P : Z),
  nth_error gls j = Some g ->
  exists A B Q,
    game_directory P gls = A ++ game_entry g Q ++ B
    /\ len A = 16 * Z.of_nat j.
Proof.
  induction gls as [|x gls IH]; intros j P Hj; [destruct j; discriminate Hj|].
  rewrite game_directory_cons. destruct j as [|j]; cbn [nth_error] in Hj.
  - injection Hj as ->. exists [], (game_directory (P + len (gl_data g)) gls), P.
    split; reflexivity.
  - destruct (IH j (P + len (gl_data x)) Hj) as (A & B & Q & HAB & HA).
    exists (game_entry x P ++ A), B, Q. rewrite HAB, <- app_assoc.
    split; [reflexivity|]. rewrite len_app, len_game_entry, HA. lia.
Qed.

(** C6: for every game lump of a BSP (shaped as [read] makes them, so with
    ids of four bytes), the file [save] writes holds the bytes of the id
    reversed at the head of the lump's entry in the directory of the game
    lump (the [j]-th entry, 4 + 16 j bytes after the offset the header
    gives for GAME_LUMP), and [read] of that file succeeds and has the lump
    back under its original id, at the same place among the game lumps. *)
Theorem game_lump_id_is_reversed (self : BSP) (out : bytes) (j : nat)
    (g : GameLump) :
  BSP_wf self ->
  BSP_save self = Ok out ->
  nth_error (dict_values (game_lumps self)) j = Some g ->
  List.length (gl_id g) = 4%nat
  /\ bytes_at out (dir_offset out GAME_LUMP + 4 + 16 * Z.of_nat j) 4
     = rev (gl_id g)
  /\ exists bsp,
       BSP_read (version self) out = Ok bsp
       /\ nth_error (game_lumps bsp) j = Some (gl_id g, g)
       /\ dict_get bytes_eqb (game_lumps bsp) (gl_id g) = Some g.
Proof.
  intros Hwf Hsave Hj.
  destruct (wf_game_lumps self Hwf) as (Hgl & Hnd & Hid4).
  destruct (BSP_save_exact self out Hnd Hsave) as [-> Hfits].
  assert (Hg4 : List.length (gl_id g) = 4%nat).
  { rewrite Forall_forall in Hid4. apply Hid4.
    apply (nth_error_In _ _ Hj). }
  assert (Hnth : nth_error (game_lumps self) j = Some (gl_id g, g)).
  { rewrite Hgl, nth_error_map, Hj. reflexivity. }
  split; [exact Hg4|]. split.
  - destruct (layout_directory self GAME_LUMP Hfits) as (-> & _).
    unfold lump_start.
    change (lump_eqb GAME_LUMP GAME_LUMP) with true. cbv iota.
    destruct (game_directory_nth g _ j (game_data_start self) Hj)
      as (A & B & Q & HAB & HA).
    unfold BSP_layout. rewrite HAB. unfold game_entry at 1, game_lump_entry.
    rewrite pad_to_exact by (unfold reversed; rewrite length_rev; exact Hg4).
    unfold reversed. rewrite <- !app_assoc.
    set (rest := le_encode 2 (gl_flags g) ++ le_encode 2 (gl_version g)
                 ++ le_encode 4 Q ++ le_encode 4 (len (gl_data g)) ++ B
                 ++ game_datas (dict_values (game_lumps self))
                 ++ lump_datas self lumps_after_game).
    replace (BSP_MAGIC ++ le_encode 4 (version_number (version self))
             ++ List.concat (map (lump_entry self) all_lumps)
             ++ le_encode 4 (map_revision self)
             ++ lump_datas self lumps_before_game
             ++ le_encode 4 (len (dict_values (game_lumps self)))
             ++ A ++ rev (gl_id g) ++ rest)
      with ((layout_head self ++ lump_datas self lumps_before_game
             ++ le_encode 4 (len (dict_values (game_lumps self))) ++ A)
            ++ rev (gl_id g) ++ rest)
      by (unfold layout_head; rewrite <- !app_assoc; reflexivity).
    apply bytes_at_mid.
    + rewrite !len_app, len_head, len_le_encode, HA. unfold game_start. lia.
    + rewrite length_rev. symmetry. exact Hg4.
  - exists self. split; [apply BSP_layout_read; assumption|].
    split; [exact Hnth|].
    destruct Hwf as (_ & _ & _ & _ & Hkeys & _).
    apply (dict_get_own_bytes (game_lumps self) Hkeys (gl_id g, g)).
    apply (nth_error_In _ _ Hnth).
Qed.

Lemma game_lump_id_is_reversed_witness :
  BSP_wf sample_BSP
  /\ BSP_save sample_BSP = Ok sample_file
  /\ nth_error (dict_values (game_lumps sample_BSP)) 1
     = Some (mkGameLump (bytes_of_string "abcd") 1 2 [x2a])
  /\ List.length (gl_id (mkGameLump (bytes_of_string "abcd") 1 2 [x2a]))
     = 4%nat
  /\ bytes_at sample_file (dir_offset sample_file GAME_LUMP + 4 + 16 * Z.of_nat 1)
       4
     = rev (gl_id (mkGameLump (bytes_of_string "abcd") 1 2 [x2a]))
  /\ exists bsp,
       BSP_read (version sample_BSP) sample_file = Ok bsp
       /\ nth_error (game_lumps bsp) 1
          = Some (gl_id (mkGameLump (bytes_of_string "abcd") 1 2 [x2a]),
                  mkGameLump (bytes_of_string "abcd") 1 2 [x2a])
       /\ dict_get bytes_eqb (game_lumps bsp)
            (gl_id (mkGameLump (bytes_of_string "abcd") 1 2 [x2a]))
          = Some (mkGameLump (bytes_of_string "abcd") 1 2 [x2a]).
Proof.
  assert (Hs : BSP_save sample_BSP = Ok sample_file)
    by (vm_compute; reflexivity).
  split; [exact sample_BSP_wf|]. split; [exact Hs|].
  split; [reflexivity|].
  exact (game_lump_id_is_reversed sample_BSP sample_file 1
           (mkGameLump (bytes_of_string "abcd") 1 2 [x2a])
           sample_BSP_wf Hs eq_refl).
Defined.

(** In the file of the sample the id [abcd] stands as [dcba] and the id
    [sprp] as [prps]. *)
Example sample_file_game_ids :
  bytes_at sample_file (dir_offset sample_file GAME_LUMP + 4) 4
  = bytes_of_string "prps"
  /\ bytes_at sample_file (dir_offset sample_file GAME_LUMP + 4 + 16) 4
     = bytes_of_string "dcba".
Proof. split; vm_compute; reflexivity. Qed.
